(* ===== verification/_CoqProject ===== *)
-Q . S2P
Prelude.v
PyStr.v
PyTime.v
PyValue.v
Sha256.v
MachineEvidence.v
Timestamps.v
PyJson.v
PyJsonLaws.v
FactStore.v
FactReducer.v
FactReducerSetwise.v
FactStoreLaws.v
FactReducerLaws.v
FactReducerSim.v
FactReducerRun.v
FactBatchOrder.v
FactReducerProps.v
FactReads.v
StoredEvidence.v
FactSamples.v
ConsoleControl.v
ProviderContracts.v
Capabilities.v
RuntimeView.v
Liveness.v
StateContract.v
SessionState.v
SendAffordance.v
StateProjector.v
StateProjectorLaws.v
ProjectorProps.v
ControlLiveness.v
ProjectorSamples.v
SessionSamples.v
PyText.v
Bytes.v
StorageContracts.v
StorageContractProps.v
ContractSamples.v
RuntimeEvents.v
PauseRequests.v
LivePreviews.v
InputQueue.v
InputStore.v
InputServer.v
InputLaws.v
InputProps.v
InputSamples.v
ConsoleTurns.v
Interactions.v
LiveRuntime.v
RuntimeStore.v
InteractionStore.v
ConsoleServer.v
RuntimeServer.v
RefreshSessions.v
RefreshProps.v
RefreshSamples.v
ProjectorQueue.v
ProjectorServer.v
LedgerLaws.v
LedgerProps.v
LedgerSamples.v
StorageTables.v
StorageCommit.v
StorageLaws.v
StorageProps.v
StorageSamples.v
RuntimeLaws.v
RuntimeProps.v
RuntimeShown.v
InteractionLaws.v
InteractionProps.v
RuntimeSamples.v
ConsoleLaws.v
ConsoleProps.v
ConsoleDispatch.v
DispatchProps.v
ConsoleSamples.v
