(* ===== verification/Prelude.v ===== *)
(** * Longhouse runtime host: a verified model of the session-truth pipeline

    Longhouse (src/server/zerg, Python) answers one question for every client:
    what is this coding session doing, and what may I do to it?  This library
    models the core of that answer, from the evidence a machine reports to the
    label on the screen, to the delivery of a queued input and to the answer of
    a permission prompt, and of the records it all rests on: the transcripts a
    machine ships, the derived projections of them and the sessions of the
    browser.  It proves what makes them trustworthy.

    ** The program's parts and the files that model them

    Evidence and its reduction (src/server/zerg/machine_evidence.py and
    src/server/zerg/catalogd/fact_reducer.py):
    - [MachineEvidence]: canonical JSON, content hashes, timestamps, and the
      validation of the identities of a report
      ([validate_machine_evidence_identities]); [Timestamps] has the laws of
      its UTC texts.
    - [FactStore]: the catalog's fact tables as the state [catalog]: the heads
      a finite map on their primary key, receipts and conflicts lists of rows
      in id order, [catalog_meta.commit_seq] a counter; and the pruning
      statements.
    - [FactReducer]: [reduce_fact_batch], the row-wise reducer, as explicit
      state passing over [reduction] in the error monad [res].
    - [FactReducerSetwise]: [reduce_fact_batch_setwise], the reducer the daemon
      runs: indexes loaded in three reads, a fold, three writes.
    - [FactStoreLaws], [FactReducerLaws], [FactReducerSim], [FactReducerRun],
      [FactBatchOrder], [FactReducerProps]: well-formed catalogs, the
      invariants of the loops, the simulation between the two reducers, whole
      reductions, and the properties.
    - [FactReads]: the read functions that serve timelines.
    - [PyJson] and [PyJsonLaws]: [json.loads] as a scanner, and that it reads
      back what [json.dumps] wrote; [StoredEvidence]: what the value column of
      a head reads back as.

    What a session can do (src/server/zerg/services):
    - [ConsoleControl]: console_control_projection.py.
    - [ProviderContracts]: managed_provider_contracts.py.
    - [Capabilities]: agents/kernel_capabilities.py, over records of the
      columns it reads of models/agents.py; a query is a filter and a sort.

    What a session is doing:
    - [RuntimeView]: the read side of session_runtime.py and the tool label of
      session_runtime_display.py.
    - [Liveness]: session_liveness_facts.py.
    - [StateContract] and [SessionState]: session_state_contract.py, the axes
      and then the presentation derived from the axes alone.
    - [SendAffordance]: send_affordance.py.
    - [StateProjector]: session_state_facts_projector.py, from heads and
      catalog facts to the axes: the selection and verification of a head
      ([effective_head]), the served projection and the authorization of one
      exact control subject.  [StateProjectorLaws], [ProjectorProps] and
      [ControlLiveness] have its laws and properties.

    The delivery of queued input:
    - [InputQueue]: services/live_session_inputs.py over the table of receipts
      of models/live_store.py.
    - [InputStore]: the store's transactions (claim, finish, upsert, cancel,
      reads) of catalogd/store.py; [InputServer]: their RPC handlers in
      catalogd/server.py, and the report of a dispatch in
      live_control_catalog.py.
    - [InputLaws]: the abstract life of a receipt; [InputProps]: runs of calls
      and the properties; the report's are in [InputServer].

    The turns of a Console session:
    - [ConsoleTurns]: accepting a message, the updates of a turn and the start
      of the next one, in catalogd/store.py, over the turns, threads and runs
      of models/live_store.py and the receipts of the input queue;
      [ConsoleServer]: their RPC handlers in catalogd/server.py.
    - [ConsoleDispatch]: the catalog side of services/console_turns.py (the
      dispatch of a turn to its machine, its report, the reconciliation of a
      machine that reconnects, the interrupt) and the report of a run's end in
      routers/runtime.py.
    - [ConsoleLaws], [ConsoleProps], [DispatchProps]: the invariant of the
      turns, the steps of the store, and the properties.

    The live runtime lane and the provider's questions:
    - [RuntimeEvents]: the event of services/session_runtime.py and the helpers
      that read it; [PauseRequests]: the key and the projection of a question
      (services/session_pause_requests.py); [LivePreviews]:
      services/session_live_previews.py and the keys of
      services/provisional_events.py.
    - [LiveRuntime]: [_apply_runtime_event] and [ingest_live_runtime_events] on
      the catalog's rows ([LiveRuntimeState], runs, connections, sessions of
      models/live_store.py), the end of a run, and the index of live sessions of
      services/live_session_state.py; one definition per kind of event.
    - [RuntimeStore]: [apply_session_runtime] of catalogd/store.py: the batch,
      the sessions it wakes, the aliases it binds and the activity facts it
      hands to the reducer.
    - [Interactions]: the table of questions and the event that opens or settles
      one; [InteractionStore]: registering, listing, expiring, repairing,
      answering and the read of a decision, in catalogd/store.py;
      [RuntimeServer]: the RPC handlers of both in catalogd/server.py.
    - [RuntimeLaws], [RuntimeProps], [RuntimeShown],
      [InteractionLaws], [InteractionProps]: the invariants of the rows and of
      the table, the frames of an event, and the properties.

    The transcripts of sessions:
    - [StorageContracts]: storage_v2/contracts.py, the identity of an envelope,
      its receipt and the two cursors, over the bytes of [Bytes] (fixed-width
      integers, UTF-8, base64url); [StorageContractProps].
    - [StorageTables] and [StorageCommit]: the manifests of catalogd/models.py
      and open_source_epoch, commit_raw_object, commit_media_object,
      delete_storage_session and the reads of manifests in catalogd/store.py.  [StorageLaws] has the frames of
      a commit's stages and the invariant of epochs, [StorageProps] the
      properties.

    The ledger of derived projections:
    - [ProjectorQueue]: the rows by which the workers of search, embeddings and
      semantics learn what to index (claims with leases, completions, failures,
      requeues, the maintenance at the daemon's start, the watermark of the
      index) in catalogd/store.py; [ProjectorServer]: their RPC handlers in
      catalogd/server.py.
    - [LedgerLaws], [LedgerProps]: the moves of a row and the properties.

    The sessions of the browser:
    - [RefreshSessions]: the rotation of refresh tokens in catalogd/store.py,
      its handlers and the expiry of auth/refresh_tokens.py; [RefreshProps].

    The deletion of a session (catalogd/store.py) removes rows of three of these
    tables, each beside its table: [delete_session_inputs] of [InputStore],
    [delete_session_console] of [ConsoleTurns] and
    [delete_bounded_live_session_state] of [RuntimeStore].

    [Prelude] holds the error monad, folds, sorting and generic lemmas;
    [PyStr], [PyTime], [PyValue], [PyText] and [Sha256] hold what the
    source uses of Python: string methods, datetimes, JSON values, UUIDs and
    hashlib.  [FactSamples], [ProjectorSamples], [SessionSamples],
    [InputSamples], [ConsoleSamples], [RuntimeSamples], [ContractSamples],
    [RefreshSamples], [LedgerSamples] and [StorageSamples] instantiate the
    theorems at concrete inputs.

    ** How the parts interact

    A machine's report is validated ([MachineEvidence]), turned into facts and
    reduced into heads ([FactReducer]); the heads are read per session
    ([FactReads]).  The projector reads each head's value back, verifies it and
    selects one per axis ([StateProjector]); the served projection gates the
    claim of a queued input ([InputStore]), whose dispatch is reported back to
    the same store ([InputServer]).  A message to a Console session is a receipt
    of the same table and a turn ([ConsoleTurns]); a thread runs one turn at a
    time, the end of a run starts the next turn, and the dispatcher sends it to
    its machine ([ConsoleDispatch]).  Runtime events move the row of a session
    and end its runs ([LiveRuntime]), and the phases among them become facts of
    the same reducer ([RuntimeStore]); a question is such an event too, mirrored
    into a table of its own that its answer settles ([InteractionStore]).
    Beside this, a machine ships the transcript itself: an envelope is named by
    its identity ([StorageContracts]) and committed ([StorageCommit]), which
    wants its revision of the session's projections ([ProjectorQueue]).  On
    the older path kernel rows are
    projected to [KernelSessionCapabilities] ([Capabilities]), which asks the
    provider contracts for the ceiling of each action; a stored runtime state
    becomes a [SessionRuntimeView] at read time; view, capabilities and
    overlays become [SessionLivenessFacts].  Both paths end in the axes, the
    labels and the working set that every client reads ([SessionState]).

    ** What the theorems show

    - Reduction: the set-wise reducer equals the row-wise one on every batch
      whose times are in UTC (C1); soundness and retention bounds of the tables
      (C2); heads only move forward (C3); the order of delivery of an unambiguous
      batch is irrelevant (C6); only valid batches return, and all of them whose
      positions fit their column (C7); counters (C16); a stored
      value reads back under its own hash, and every head of a reduced catalog verifies (C32,
      C33).
    - Runtime events: a row that a user closed, or whose run ended, keeps its
      phase and its end through every batch that names no other run (C4); an
      event applied twice counts once, but for three kinds (C21).
    - Provider interactions: an allowed permission was allowed by somebody
      (C5); a settled answer stands until its session is deleted (C14); the
      deadline denies (C15).
    - The storage commit: the envelopes of an epoch tile its source (C8); an
      accepted commit extends the frontier or replaces the open epoch (C13); a
      deletion is final (C17); a committed envelope is never written again and
      keeps its receipt (C22); the calls of the lane keep a session's one
      current rendering and a publishing commit restores it (C23); identities
      have different preimages (C36); the token of a named cursor reads back
      (C37).
    - The ledger: a worker that lost its claim is refused (C31); the watermark
      passes revisions that are not indexed (C35, a defect); a claim hands out
      the oldest work (C39); every lag of search and semantics can be worked
      off, however small the claims (C40).
    - Refresh sessions: the reuse of an unexpired token ends its family (C25).
    - The input queue: its calls refine the abstract life of a receipt, and
      what else may write a receipt is said (C9); every receipt settles, up to
      its sender's resends (C10); no input is dispatched twice unless it is
      returned, sent again or a Console turn's (C12); a claim
      hands out the oldest input worth delivering, on bound evidence (C24);
      the reports of dispatches are taken and honest (C30).
    - Console turns: in every reachable store, whatever other calls do to runs,
      threads and receipts, a thread runs one turn at a time and a turn waits
      only behind one that holds it (C26); the end of a turn starts exactly the oldest
      waiting one (C27), and reporting it again finds the same successor
      (C11); a message is accepted once (C19); cancelling a waiting message
      does not stop it (C20); a dispatch ends, and one that returns leaves no
      message without an answer (C29).
    - Control: what live means (C18); authorization is fail-closed (C34), and accepted
      evidence authorizes until its lease ends (C38).
    - Presentation: a send offered to a client is backed by the rows, the
      contract and the lease (C28).
    - Further theorems, without a number, stand beside these: the accepted fact
      that is served, the end of a run and the ways in which it is lost, the
      window of a phase, the furthest preview, media that only advance, references
      that are backed, an answer that is lost and a
      question that returns, an input that keeps its age, what closes a
      session, the composer, the operation that is bound, the rows of the
      ledger that stay sound, its calls that replay, the restart that pairs
      search with embeddings, the family with one current token, the token
      exchanged once, the canonical cursors, one commit per
      batch, the agreement of the reducers on reports and their difference off
      UTC, the page reads, the choice of a connection and of a head, what a
      grant needs, leases of the overlay, published keys, when resume is
      offered, a lease past the year 9999, a refused phase that is promoted,
      the contract registry, the bulk projection, the views of expired
      evidence, and the Console and archive projections.

    ** Choices and bounds

    - Every modelled operation is total, and exceptions are the [Err] values.
      Two definitions have fuel.  The scanner of [PyJson]: [loads] gives it one
      more than twice the length of the text, and [scan_fuel] shows that is
      always enough.  The dispatch of [ConsoleDispatch], which calls itself on
      the turn its report started: one more than the turns that wait is enough
      ([dispatch_fuel]).  Every other recursion is structural or a fold.
    - Integers are unbounded, as Python's are; the canonical range of evidence
      integers is checked where the code checks it.  The position of a fact and
      of a preview is bound to a 64-bit column: one that does not fit raises
      [OverflowError] ([bind_position], [bind_pending]).  The range of the other
      integer columns and Python's limit on the digits of a decimal literal are
      not modelled.
    - Strings are sequences of characters up to U+00FF; [utf8_encode] gives
      their bytes.  Characters beyond, which need three or more bytes, and
      their escapes in JSON are outside the model.
    - A datetime is a wall clock and an optional offset in microseconds.  The
      conversion to UTC raises [OverflowError] outside the years 1 to 9999
      ([to_utc]); clock readings and the cutoffs computed from them are not
      bounded.  A SQLite column keeps the wall clock only, as SQLAlchemy's
      storage format does.
    - [datetime.fromisoformat] on the forms of RFC 3339 is written out
      ([parse_iso]); on other forms it is a parameter, [other_form], and no
      theorem assumes anything of it.  So are [float], the value of a float
      literal in JSON, and the host's local offset.
    - A head is passed to the projector as a table row or in the catalog's wire
      form ([head_form]); they differ in one time column.
    - A transaction of the input queue is a function on the store whose
      exception leaves the store as it was; what the code commits inside a
      transaction before it refuses stays.  The catalog facts that a claim
      reads from other tables are a parameter of the claim.
    - A dispatch of a Console turn runs without other requests between its
      calls; what other requests may do to the store is the step relation of
      [ConsoleProps]: a message, a report of a turn, or any change that leaves
      the turns alone.  What a machine advertises and answers is an environment.
    - A runtime row, a preview and a live session are written with a write clock
      (updated_at, preview_updated_at) that is left out: the only reader that is
      modelled, the choice of a session's latest row, takes the row and that
      clock as an argument.  Pydantic's parsing of an event is a parameter of
      the handler; the bounds its model declares are [event_bounded].
      The unique indexes of the Console tables are checks that raise
      [IntegrityError].
    - Unicode normalisation is a parameter, [nfc], of which no theorem assumes
      anything.  Text of the contracts is a list of code points, a UUID a 128-bit
      integer.
    - Positions of a source are integers; their columns hold texts of twenty
      digits, whose order is the same ([u64_key_order]).  The name of the
      embedding projector ends in a parameter.  A row id is one above the
      largest, as SQLite gives it.
    - A call of the storage lane or of the ledger takes the readings of the
      store's clock as arguments.  A commit that raises is rolled back
      ([storage_exec]).  The calls of the storage properties that are not
      modelled are one arbitrary step ([CallElsewhere]), which a property
      bounds or excludes by name.
    - The receipts of the input queue have other writers: the upsert, Console
      turns and the deletion of a session.  The runs of [InputProps] have them
      as calls, and each property says what they may do.
    - [getattr(x, name, None)] is a record field of option type.
    - The clock is an argument, once per reading; each theorem holds for every
      clock.

    ** Not modelled, and why

    The transport and supervision of the catalog daemon and the SQL around the
    modelled operations, HTTP routers, search, the files of object storage and
    the clients (I/O or another language); the workers of the projections; of a
    storage commit the handler's validation, the policy of origin and
    visibility, titles, previews, order keys and aliases, which no modelled
    check reads, the reconciliation of relinked sessions and the restoration
    and repair of renderings;
    the archive's own refresh functions; the archive lane of the runtime reducer
    and of pause requests, which replays stored observations into the archive's
    tables; the metrics the reducer counts; the best-effort RPC clients of the input
    queue; the archive-backed twins of the queue and of Console turns, which run
    when the catalog is off; the timing log of the set-wise reducer; contract fields that no
    modelled operation reads (probes, digests, release channels).

    ** Plan

    Next: the reconciliation of relinked sessions in catalogd/store.py, over the
    tables of [StorageTables]; the display copy of session_runtime_display.py; the lease reconciler
    of managed_control_state.py and the heartbeat of catalogd/store.py; the
    control commands of catalogd/store.py; the validation of the provider
    manifest; and the archive-backed queue of session_inputs.py and
    session_input_queue.py. *)

From stdpp Require Export base gmap strings list pretty sorting.
From Stdlib Require Export ZArith Lia.

Create HintDb py discriminated.

(** ** Python exceptions and fallible code

    A call that may raise is a value of [res]: [Ok] carries the returned
    value, [Err] the exception that leaves the call.  Only the exception
    classes that the modelled code raises, or that the operations it uses
    raise, appear. *)

Inductive exn : Type :=
  | ValueError (message : string)
  | TypeError (message : string)
  | AssertionError
  | AttributeError
  | RuntimeError (message : string)
  | OverflowError
  | IntegrityError
  | NoResultFound
  | MultipleResultsFound.

Inductive res (A : Type) : Type :=
  | Ok (value : A)
  | Err (error : exn).

Arguments Ok {A} value.
Arguments Err {A} error.

#[global] Instance exn_eq_dec : EqDecision exn.
Proof. solve_decision. Defined.

#[global] Instance res_ret : MRet res := λ A a, Ok a.

#[global] Instance res_bind : MBind res := λ A B f r,
  match r with Ok a => f a | Err e => Err e end.

#[global] Instance res_fmap : FMap res := λ A B f r,
  match r with Ok a => Ok (f a) | Err e => Err e end.

(** An integer that SQLite stores; binding another raises [OverflowError]. *)
Definition int64 (n : Z) : bool := (- 2 ^ 63 <=? n)%Z && (n <? 2 ^ 63)%Z.

Declare Scope py_scope.
Delimit Scope py_scope with py.
Open Scope py_scope.

Notation "'let!' x ':=' e 'in' k" := (mbind (λ x, k) e)
  (at level 10, x name, e at level 100, k at level 200) : py_scope.
Notation "'let!' ' p ':=' e 'in' k" := (mbind (λ p, k) e)
  (at level 10, p strict pattern, e at level 100, k at level 200) : py_scope.

(** [if cond: raise error]. *)
Definition guard (ok : bool) (error : exn) : res unit := if ok then Ok tt else Err error.

Definition is_ok {A} (r : res A) : bool := match r with Ok _ => true | Err _ => false end.

(** The returned value, or [d] when the call raises. *)
Definition ok_or {A} (d : A) (r : res A) : A := match r with Ok a => a | Err _ => d end.

Lemma bind_ok {A B} (f : A → res B) (r : res A) (b : B) :
  mbind f r = Ok b ↔ ∃ a, r = Ok a ∧ f a = Ok b.
Proof.
  destruct r as [a|e]; simpl; [|by split; [|intros (? & ? & ?)]].
  split; [intros ?|intros (? & [= ->] & ?)]; eauto.
Qed.

Lemma guard_ok ok e : guard ok e = Ok tt ↔ ok = true.
Proof. by destruct ok. Qed.

(** Folding a fallible step over a list, the shape of a Python loop whose
    body can raise. *)
Fixpoint fold_res {A S} (step : S → A → res S) (s : S) (l : list A) : res S :=
  match l with
  | [] => Ok s
  | a :: l' => match step s a with Ok s' => fold_res step s' l' | Err e => Err e end
  end.

Lemma fold_res_app {A S} (step : S → A → res S) s l1 l2 :
  fold_res step s (l1 ++ l2) = mbind (λ s', fold_res step s' l2) (fold_res step s l1).
Proof.
  revert s; induction l1 as [|a l1 IH]; intros s; simpl; [done|].
  destruct (step s a); simpl; [apply IH|done].
Qed.

(** An invariant of every successful step is an invariant of the loop. *)
Lemma fold_res_inv {A S} (step : S → A → res S) (I : S → Prop) l s s' :
  (∀ a s1 s2, a ∈ l → I s1 → step s1 a = Ok s2 → I s2) →
  I s → fold_res step s l = Ok s' → I s'.
Proof.
  revert s; induction l as [|a l IH]; simpl; intros s Hstep HI Hf; [by simplify_eq|].
  destruct (step s a) as [s1|e] eqn:E; [|done].
  eapply (IH s1); [|eapply Hstep; [left|done|done]|done].
  intros; eapply Hstep; [by right|done..].
Qed.

(** Two loops over the same list stay related when their steps do. *)
Lemma fold_res_sim {A S T} (step1 : S → A → res S) (step2 : T → A → res T)
    (R : S → T → Prop) l s t :
  (∀ a s1 t1, a ∈ l → R s1 t1 →
     match step1 s1 a, step2 t1 a with
     | Ok s2, Ok t2 => R s2 t2
     | Err e1, Err e2 => e1 = e2
     | _, _ => False
     end) →
  R s t →
  match fold_res step1 s l, fold_res step2 t l with
  | Ok s2, Ok t2 => R s2 t2
  | Err e1, Err e2 => e1 = e2
  | _, _ => False
  end.
Proof.
  revert s t; induction l as [|a l IH]; simpl; intros s t Hstep HR; [done|].
  pose proof (Hstep a s t ltac:(left) HR) as Ha.
  destruct (step1 s a), (step2 t a); try done.
  apply IH; [|done]. intros; apply Hstep; [by right|done].
Qed.

(** A loop whose steps commute gives one result for every order of its
    list. *)
Lemma fold_res_perm {A S} (step : S → A → res S) (P : A → Prop) l l' s s' :
  (∀ a b s1 s2 s3, P a → P b → step s1 a = Ok s2 → step s2 b = Ok s3 →
     ∃ s2', step s1 b = Ok s2' ∧ step s2' a = Ok s3) →
  Forall P l → l ≡ₚ l' → fold_res step s l = Ok s' → fold_res step s l' = Ok s'.
Proof.
  intros Hc HP Hl. revert s HP. induction Hl as [|a l l' Hl IH|a b l|l l' l'' Hl IH Hl' IH']; intros s HP.
  - done.
  - apply Forall_cons in HP as [_ HP]. simpl. destruct (step s a); [by apply IH|done].
  - apply Forall_cons in HP as [HPb HP]. apply Forall_cons in HP as [HPa _]. simpl.
    destruct (step s b) as [s1|] eqn:E1; [|done]. destruct (step s1 a) as [s2|] eqn:E2; [|done].
    destruct (Hc _ _ _ _ _ HPb HPa E1 E2) as (s1' & -> & ->). done.
  - intros Hf. apply IH'; [by rewrite <- Hl|by apply IH].
Qed.

(** ** Filtering a list *)

Lemma filter_ext_in {A} (P Q : A → Prop) `{∀ x, Decision (P x)} `{∀ x, Decision (Q x)} (l : list A) :
  (∀ x, x ∈ l → P x ↔ Q x) → filter P l = filter Q l.
Proof.
  induction l as [|a l IH]; intros HPQ; [done|].
  pose proof (HPQ a ltac:(left)). rewrite !filter_cons, IH by (intros; apply HPQ; by right).
  repeat case_decide; naive_solver.
Qed.

Lemma filter_id_in {A} (P : A → Prop) `{∀ x, Decision (P x)} (l : list A) :
  (∀ x, x ∈ l → P x) → filter P l = l.
Proof.
  induction l as [|a l IH]; intros HP; [done|].
  rewrite filter_cons_True by (apply HP; left). by rewrite IH by (intros; apply HP; by right).
Qed.

Lemma filter_nil_in {A} (P : A → Prop) `{∀ x, Decision (P x)} (l : list A) :
  (∀ x, x ∈ l → ¬ P x) → filter P l = [].
Proof.
  induction l as [|a l IH]; intros HP; [done|].
  rewrite filter_cons_False by (apply HP; left). apply IH; intros; apply HP; by right.
Qed.

Lemma filter_sublist {A} (P : A → Prop) `{∀ x, Decision (P x)} (l l' : list A) :
  l' `sublist_of` l → filter P l' `sublist_of` filter P l.
Proof.
  induction 1; rewrite ?filter_cons; [done| |]; case_decide; try by constructor. all: done.
Qed.

Lemma NoDup_map_inj {A B} (f : A → B) (l : list A) a b :
  NoDup (map f l) → a ∈ l → b ∈ l → f a = f b → a = b.
Proof.
  intros Hn [i Hi]%list_elem_of_lookup [j Hj]%list_elem_of_lookup E.
  assert (i = j) as ->; [|congruence].
  eapply (NoDup_lookup _ i j (f a) Hn).
  - by erewrite list_lookup_fmap, Hi.
  - by erewrite list_lookup_fmap, Hj, E.
Qed.

Lemma NoDup_snoc {A} (l : list A) (x : A) : x ∉ l → NoDup l → NoDup (l ++ [x]).
Proof.
  intros Hx Hl. apply NoDup_app; split_and!; [done| |by apply NoDup_singleton].
  intros y Hy ->%list_elem_of_singleton. done.
Qed.

(** [[f(x) for x in l]] when [f] can raise. *)
Fixpoint map_res {A B} (f : A → res B) (l : list A) : res (list B) :=
  match l with
  | [] => Ok []
  | a :: l' => let! b := f a in let! bs := map_res f l' in Ok (b :: bs)
  end.

Lemma map_res_ok {A B} (f : A → res B) l bs :
  map_res f l = Ok bs ↔ Forall2 (λ a b, f a = Ok b) l bs.
Proof.
  revert bs; induction l as [|a l IH]; intros bs; simpl.
  - split.
    + intros [= <-]. constructor.
    + intros H. by inversion H.
  - rewrite bind_ok; split.
    + intros (b & Hb & H). apply bind_ok in H as (bs' & Hbs & [= <-]).
      constructor; [done|]. by apply IH.
    + inversion 1 as [|? b ? bs' Hb Hbs]; simplify_eq. exists b; split; [done|].
      apply bind_ok. exists bs'; split; [by apply IH|done].
Qed.

(** A dict as an association list in insertion order: [d[key] = value]. *)
Fixpoint dict_set {K V} `{EqDecision K} (key : K) (value : V) (d : list (K * V)) : list (K * V) :=
  match d with
  | [] => [(key, value)]
  | (k, v) :: d' => if decide (k = key) then (k, value) :: d' else (k, v) :: dict_set key value d'
  end.

(** ** Three-way comparisons and Python's [sorted]

    [sorted] is used on strings and on tuples of strings.  Both are
    lexicographic orders, so the order laws are proved once for
    lexicographic comparison over a lawful element comparison. *)

Class Comparison {A : Type} (cmp : A → A → comparison) : Prop := {
  cmp_flip : ∀ a b, cmp b a = CompOpp (cmp a b);
  cmp_chain : ∀ a b c, cmp a b = Lt → cmp b c = Lt → cmp a c = Lt;
  cmp_same : ∀ a b, cmp a b = Eq ↔ a = b;
}.

Arguments cmp_same {A} cmp {_} a b.
Arguments cmp_flip {A} cmp {_} a b.
Arguments cmp_chain {A} cmp {_} a b c.

Definition cmp_le {A} (cmp : A → A → comparison) (x y : A) : Prop := cmp x y ≠ Gt.

#[global] Instance cmp_le_dec {A} (cmp : A → A → comparison) : RelDecision (cmp_le cmp).
Proof. intros x y; unfold cmp_le; apply _. Defined.

Section Comparison_laws.
Context {A : Type} (cmp : A → A → comparison) `{!Comparison cmp}.

Lemma cmp_self x : cmp x x = Eq.
Proof. by apply (cmp_same cmp). Qed.

#[export] Instance cmp_le_total : Total (cmp_le cmp).
Proof. intros x y; unfold cmp_le; rewrite (cmp_flip cmp x y); destruct (cmp x y); naive_solver. Qed.

#[export] Instance cmp_le_antisym : AntiSymm (=) (cmp_le cmp).
Proof.
  intros x y; unfold cmp_le; rewrite (cmp_flip cmp x y); intros Hx Hy.
  apply (cmp_same cmp). destruct (cmp x y); naive_solver.
Qed.

#[export] Instance cmp_le_trans : Transitive (cmp_le cmp).
Proof.
  intros x y z; unfold cmp_le; intros Hxy Hyz.
  destruct (cmp x y) eqn:E1; [apply (cmp_same cmp) in E1; by subst| |done].
  destruct (cmp y z) eqn:E2; [apply (cmp_same cmp) in E2; subst; congruence| |done].
  by rewrite (cmp_chain cmp x y z).
Qed.
End Comparison_laws.

(** Lexicographic comparison of two lists, shorter first on a common
    prefix: Python's order on tuples and, over code points, on [str]. *)
Fixpoint lex {A} (cmp : A → A → comparison) (xs ys : list A) : comparison :=
  match xs, ys with
  | [], [] => Eq
  | [], _ :: _ => Lt
  | _ :: _, [] => Gt
  | x :: xs', y :: ys' => match cmp x y with Eq => lex cmp xs' ys' | c => c end
  end.

#[global] Instance lex_comparison {A} (cmp : A → A → comparison) `{!Comparison cmp} :
  Comparison (lex cmp).
Proof.
  split.
  - intros l; induction l as [|x xs IH]; intros [|y ys]; simpl; try done.
    rewrite (cmp_flip cmp x y). destruct (cmp x y); simpl; [apply IH|done|done].
  - intros l; induction l as [|x xs IH]; intros [|y ys] [|z zs]; simpl; try done.
    destruct (cmp x y) eqn:E1; [apply (cmp_same cmp) in E1; subst| |done].
    + destruct (cmp y z); [apply IH|done|done].
    + intros _. destruct (cmp y z) eqn:E2; [apply (cmp_same cmp) in E2; subst; by rewrite E1| |done].
      by rewrite (cmp_chain cmp x y z).
  - intros l; induction l as [|x xs IH]; intros [|y ys]; simpl; try (split; congruence).
    destruct (cmp x y) eqn:E; [apply (cmp_same cmp) in E; subst; rewrite IH|..].
    + split; [by intros ->|by intros [= ->]].
    + split; [done|intros [= -> ->]]. by rewrite (cmp_self cmp) in E.
    + split; [done|intros [= -> ->]]. by rewrite (cmp_self cmp) in E.
Qed.

(** Comparison of pairs: Python's order on tuples. *)
Definition pair_cmp {A B} (ca : A → A → comparison) (cb : B → B → comparison) (x y : A * B) : comparison :=
  match ca x.1 y.1 with Eq => cb x.2 y.2 | c => c end.

#[global] Instance pair_comparison {A B} (ca : A → A → comparison) (cb : B → B → comparison)
  `{!Comparison ca, !Comparison cb} : Comparison (pair_cmp ca cb).
Proof.
  unfold pair_cmp; split.
  - intros [s a] [t b]; simpl. rewrite (cmp_flip ca s t). destruct (ca s t); simpl; [apply (cmp_flip cb)|done|done].
  - intros [s a] [t b] [u c]; simpl.
    destruct (ca s t) eqn:E1; [apply (cmp_same ca) in E1 as ->| |done].
    + destruct (ca t u); [apply (cmp_chain cb)|done|done].
    + intros _. destruct (ca t u) eqn:E2; [apply (cmp_same ca) in E2 as <-; by rewrite E1| |done].
      by rewrite (cmp_chain ca s t u).
  - intros [s a] [t b]; simpl.
    destruct (ca s t) eqn:E; [apply (cmp_same ca) in E as ->; rewrite (cmp_same cb); naive_solver|..].
    + split; [done|intros [= -> ->]]. by rewrite (cmp_self ca) in E.
    + split; [done|intros [= -> ->]]. by rewrite (cmp_self ca) in E.
Qed.

#[global] Instance Z_comparison : Comparison Z.compare.
Proof.
  split.
  - intros x y; by rewrite Z.compare_antisym.
  - intros x y z; rewrite !Z.compare_lt_iff; lia.
  - apply Z.compare_eq_iff.
Qed.

(** [sorted(l)] for an order given by a three-way comparison. *)
Definition py_sorted {A} (cmp : A → A → comparison) (l : list A) : list A :=
  merge_sort (cmp_le cmp) l.

Section Sorted_laws.
Context {A : Type} (cmp : A → A → comparison) `{!Comparison cmp}.

Lemma py_sorted_perm l : py_sorted cmp l ≡ₚ l.
Proof. apply merge_sort_Permutation. Qed.

Lemma py_sorted_sorted l : StronglySorted (cmp_le cmp) (py_sorted cmp l).
Proof. apply (StronglySorted_merge_sort _); apply _. Qed.

(** The result depends only on the multiset of the elements. *)
Lemma py_sorted_proper l1 l2 : l1 ≡ₚ l2 → py_sorted cmp l1 = py_sorted cmp l2.
Proof.
  intros Hp. apply (StronglySorted_unique (cmp_le cmp)); [apply py_sorted_sorted..|].
  by rewrite !py_sorted_perm.
Qed.

Lemma elem_of_py_sorted x l : x ∈ py_sorted cmp l ↔ x ∈ l.
Proof. by rewrite py_sorted_perm. Qed.

Lemma length_py_sorted l : length (py_sorted cmp l) = length l.
Proof. by rewrite py_sorted_perm. Qed.
End Sorted_laws.

(** An element smaller than all others comes first. *)
Lemma py_sorted_first {A} (cmp : A → A → comparison) `{!Comparison cmp} (x : A) l k :
  x ∈ l → (∀ y, y ∈ l → y = x ∨ cmp x y = Lt) → x ∈ take (S k) (py_sorted cmp l).
Proof.
  intros Hx Hmin. pose proof (py_sorted_sorted cmp l) as Hs.
  rewrite <- (elem_of_py_sorted cmp) in Hx. assert (∀ y, y ∈ py_sorted cmp l → y = x ∨ cmp x y = Lt) as Hm.
  { intros y Hy. apply Hmin. by apply (elem_of_py_sorted cmp). }
  destruct (py_sorted cmp l) as [|y t]; [set_solver|]. simpl.
  destruct (Hm y ltac:(left)) as [->|Hlt]; [left|exfalso].
  apply elem_of_cons in Hx as [->|Hx]; [by rewrite (cmp_self cmp) in Hlt|].
  apply StronglySorted_inv in Hs as [_ Hall]. rewrite Forall_forall in Hall.
  apply (Hall x Hx). rewrite (cmp_flip cmp x y). by rewrite Hlt.
Qed.

(** ** [sorted(l, key=...)], which is stable *)

Section Sort_on.
Context {A K : Type} (cmp : K → K → comparison) (key : A → K).

Fixpoint insert_on (x : A) (l : list A) : list A :=
  match l with
  | [] => [x]
  | y :: l' => if decide (cmp_le cmp (key x) (key y)) then x :: l else y :: insert_on x l'
  end.

Definition sort_on (l : list A) : list A := foldr insert_on [] l.

Lemma insert_on_perm x l : insert_on x l ≡ₚ x :: l.
Proof.
  induction l as [|y l IH]; simpl; [done|]. case_decide; [done|].
  rewrite IH. apply Permutation_swap.
Qed.

Lemma sort_on_perm l : sort_on l ≡ₚ l.
Proof. induction l as [|x l IH]; simpl; [done|]. by rewrite insert_on_perm, IH. Qed.

Definition key_le (x y : A) : Prop := cmp_le cmp (key x) (key y).

Context `{!Comparison cmp}.

Lemma insert_on_sorted x l : StronglySorted key_le l → StronglySorted key_le (insert_on x l).
Proof.
  induction 1 as [|y l Hs IH Hall]; simpl; [by repeat constructor|]. case_decide as Hxy.
  - constructor; [by constructor|]. constructor; [done|].
    eapply Forall_impl; [done|]. intros z Hz. by eapply (cmp_le_trans cmp).
  - constructor; [done|]. rewrite insert_on_perm. constructor; [|done].
    by destruct (cmp_le_total cmp (key x) (key y)).
Qed.

Lemma sort_on_sorted l : StronglySorted key_le (sort_on l).
Proof. induction l as [|x l IH]; simpl; [constructor|]. by apply insert_on_sorted. Qed.

Lemma sort_on_last l x : last (sort_on l) = Some x → x ∈ l ∧ ∀ y, y ∈ l → key_le y x.
Proof.
  intros Hl. assert (∀ y, y ∈ l ↔ y ∈ sort_on l) as Hin by (intros y; by rewrite sort_on_perm).
  apply last_Some in Hl as [l' Hl]. pose proof (sort_on_sorted l) as Hs.
  setoid_rewrite Hin. rewrite Hl in Hs |- *. split; [set_solver|].
  intros y [Hy| ->%list_elem_of_singleton]%elem_of_app.
  - apply list_elem_of_split in Hy as (l1 & l2 & ->). rewrite <- app_assoc in Hs.
    apply StronglySorted_app in Hs as (_ & _ & Hs). simpl in Hs. apply StronglySorted_inv in Hs as [_ Hall].
    rewrite Forall_forall in Hall. apply Hall. set_solver.
  - unfold key_le, cmp_le. by rewrite (cmp_self cmp).
Qed.

(** A filter of the sorted list is the sorted filter. *)
Lemma filter_insert_on (P : A → Prop) `{∀ x, Decision (P x)} x l :
  StronglySorted key_le l →
  filter P (insert_on x l) = if decide (P x) then insert_on x (filter P l) else filter P l.
Proof.
  induction 1 as [|y l Hs IH Hall]; simpl; [by rewrite filter_cons|].
  destruct (decide (cmp_le cmp (key x) (key y))) as [Hxy|Hxy]; rewrite !filter_cons.
  - destruct (decide (P x)); [|done]. destruct (decide (P y)); simpl; [by rewrite decide_True|].
    destruct (filter P l) as [|z t] eqn:E; simpl; [done|]. rewrite decide_True; [done|].
    assert (z ∈ filter P l) as [_ Hz]%list_elem_of_filter by (rewrite E; left).
    rewrite Forall_forall in Hall. eapply (cmp_le_trans cmp); [done|]. by apply Hall.
  - rewrite IH. destruct (decide (P y)), (decide (P x)); simpl; try done. by rewrite decide_False.
Qed.

Lemma filter_sort_on (P : A → Prop) `{∀ x, Decision (P x)} l : filter P (sort_on l) = sort_on (filter P l).
Proof.
  induction l as [|x l IH]; [done|]. simpl. rewrite filter_insert_on by apply sort_on_sorted.
  rewrite filter_cons, IH. by case_decide.
Qed.
End Sort_on.

#[global] Instance py_sorted_Proper {A} (cmp : A → A → comparison) `{!Comparison cmp} :
  Proper ((≡ₚ) ==> (=)) (py_sorted cmp).
Proof. intros l1 l2; apply (py_sorted_proper cmp). Qed.

#[export] Hint Rewrite @elem_of_py_sorted @length_py_sorted using apply _ : py.
