(* ===== verification/PyStr.v ===== *)
(** * Python strings

    A [str] is a Rocq [string] whose characters are its code points; the model
    covers the code points below 256, the range of [ascii].  The operations
    are the ones the modelled code calls: [strip], [lower], [startswith],
    [endswith], comparison, decimal formatting, UTF-8 encoding and the
    [str(value or "").strip() or None] idiom that the services use to
    normalise an optional text column. *)

From S2P Require Import Prelude.

Open Scope string_scope.
Open Scope nat_scope.

Abbreviation ascii := Ascii.ascii.

Abbreviation code := Ascii.nat_of_ascii.

(** [str.isspace] for one character below 256. *)
Definition is_space (c : ascii) : bool :=
  let n := code c in
  (9 <=? n) && (n <=? 13) || (28 <=? n) && (n <=? 32) || (n =? 133) || (n =? 160).

Fixpoint lstrip (s : string) : string :=
  match s with
  | EmptyString => EmptyString
  | String c s' => if is_space c then lstrip s' else s
  end.

Fixpoint rstrip (s : string) : string :=
  match s with
  | EmptyString => EmptyString
  | String c s' =>
      match rstrip s' with
      | EmptyString => if is_space c then EmptyString else String c EmptyString
      | r => String c r
      end
  end.

(** [s.strip()]. *)
Definition strip (s : string) : string := rstrip (lstrip s).

(** [s.lower()]: the cased letters below 256 are A-Z and the Latin-1 capitals
    192..222 without the multiplication sign 215. *)
Definition lower_char (c : ascii) : ascii :=
  let n := code c in
  if (65 <=? n) && (n <=? 90) || (192 <=? n) && (n <=? 222) && negb (n =? 215)
  then Ascii.ascii_of_nat (n + 32) else c.

Fixpoint lower (s : string) : string :=
  match s with
  | EmptyString => EmptyString
  | String c s' => String (lower_char c) (lower s')
  end.

(** [bool(s)] and [bool(value)] for an optional string. *)
Definition str_truthy (s : string) : bool := negb (String.eqb s "").

Definition opt_truthy (v : option string) : bool :=
  match v with Some s => str_truthy s | None => false end.

(** [a or b] on optional strings. *)
Definition opt_or (a b : option string) : option string :=
  if opt_truthy a then a else b.

(** [s or None]. *)
Definition or_none (s : string) : option string :=
  if str_truthy s then Some s else None.

(** [value or ""]. *)
Definition or_empty (v : option string) : string := default "" v.

(** [str(value or "").strip() or None], spelled [_clean], [_normalized] and
    [_text] in the services. *)
Definition clean (v : option string) : option string := or_none (strip (or_empty v)).

(** [value in {a, b, ...}] for a string and for an optional string. *)
Definition str_in (s : string) (l : list string) : bool := bool_decide (s ∈ l).

Definition opt_in (v : option string) (l : list string) : bool :=
  match v with Some s => str_in s l | None => false end.

Definition opt_is (v : option string) (s : string) : bool := bool_decide (v = Some s).

Fixpoint startswith (p s : string) : bool :=
  match p, s with
  | EmptyString, _ => true
  | String a p', String b s' => Ascii.eqb a b && startswith p' s'
  | String _ _, EmptyString => false
  end.

Fixpoint str_rev_acc (s acc : string) : string :=
  match s with EmptyString => acc | String c s' => str_rev_acc s' (String c acc) end.

Definition endswith (s p : string) : bool := startswith (str_rev_acc p "") (str_rev_acc s "").

Fixpoint str_forall (p : ascii → bool) (s : string) : bool :=
  match s with EmptyString => true | String c s' => p c && str_forall p s' end.

(** [c in s] for a one-character needle. *)
Definition has_char (c : ascii) (s : string) : bool :=
  negb (str_forall (λ d, negb (Ascii.eqb c d)) s).

(** Length of [s.encode()]. *)
Fixpoint utf8_length (s : string) : nat :=
  match s with
  | EmptyString => 0
  | String c s' => (if code c <? 128 then 1 else 2) + utf8_length s'
  end.

(** [s.encode()] as the string of its bytes. *)
Fixpoint utf8_encode (s : string) : string :=
  match s with
  | EmptyString => EmptyString
  | String c s' =>
      let n := code c in
      if n <? 128 then String c (utf8_encode s')
      else String (Ascii.ascii_of_nat (192 + n / 64)) (String (Ascii.ascii_of_nat (128 + n mod 64)) (utf8_encode s'))
  end.

Definition is_hex_lower (c : ascii) : bool :=
  let n := code c in (48 <=? n) && (n <=? 57) || (97 <=? n) && (n <=? 102).

(** [re.compile(r"^[0-9a-f]{64}$").fullmatch(s)]. *)
Definition is_sha256 (s : string) : bool := (String.length s =? 64) && str_forall is_hex_lower s.

Fixpoint zeros (n : nat) : string :=
  match n with 0 => "" | S n' => "0" +:+ zeros n' end.

(** [f"{n:0<width>d}"] for a non-negative integer. *)
Definition fmt_zero (width : nat) (n : Z) : string :=
  let d := pretty (Z.to_N n) in zeros (width - String.length d) +:+ d.

(** The value of a decimal digit. *)
Definition digit_value (c : ascii) : option Z :=
  let n := code c in
  if (48 <=? n) && (n <=? 57) then Some (Z.of_nat n - 48)%Z else None.

(** Python's order on [str]. *)
Definition ascii_cmp (a b : ascii) : comparison := Nat.compare (code a) (code b).

Definition str_cmp (s t : string) : comparison :=
  lex ascii_cmp (String.list_ascii_of_string s) (String.list_ascii_of_string t).

Definition strs_cmp : list string → list string → comparison := lex str_cmp.

(** ** Laws *)

Lemma code_inj a b : code a = code b → a = b.
Proof. intros H. rewrite <- (Ascii.ascii_nat_embedding a), <- (Ascii.ascii_nat_embedding b). congruence. Qed.

Lemma list_ascii_of_string_inj s t : String.list_ascii_of_string s = String.list_ascii_of_string t → s = t.
Proof.
  intros H. rewrite <- (String.string_of_list_ascii_of_string s), <- (String.string_of_list_ascii_of_string t).
  congruence.
Qed.

#[export] Instance ascii_comparison : Comparison ascii_cmp.
Proof.
  unfold ascii_cmp; split.
  - intros x y; by rewrite Nat.compare_antisym.
  - intros x y z; rewrite !Nat.compare_lt_iff; lia.
  - intros x y; rewrite Nat.compare_eq_iff; split; [apply code_inj|by intros ->].
Qed.

#[export] Instance str_comparison : Comparison str_cmp.
Proof.
  unfold str_cmp; split.
  - intros x y; apply (cmp_flip (lex ascii_cmp)).
  - intros x y z; apply (cmp_chain (lex ascii_cmp)).
  - intros x y; rewrite (cmp_same (lex ascii_cmp)).
    split; [apply list_ascii_of_string_inj|by intros ->].
Qed.

#[export] Instance strs_comparison : Comparison strs_cmp.
Proof. unfold strs_cmp; apply _. Qed.

(** *** Concatenation *)

Lemma app_cons (a b : string) c : (String c a +:+ b = String c (a +:+ b))%string.
Proof. done. Qed.

Lemma app_assoc_s (a b c : string) : ((a +:+ b) +:+ c = a +:+ (b +:+ c))%string.
Proof. induction a as [|x a IH]; [done|]. by rewrite !app_cons, IH. Qed.

Lemma app_nil_s (a : string) : (a +:+ "" = a)%string.
Proof. induction a as [|x a IH]; [done|]. by rewrite app_cons, IH. Qed.

Lemma length_app_s (a b : string) : (String.length (a +:+ b) = String.length a + String.length b)%nat.
Proof. induction a as [|x a IH]; [done|]. rewrite app_cons. simpl. by rewrite IH. Qed.

(** *** Membership and truth *)

Lemma str_in_spec s l : str_in s l = true ↔ s ∈ l.
Proof. apply bool_decide_eq_true. Qed.

Lemma opt_in_spec v l : opt_in v l = true ↔ ∃ s, v = Some s ∧ s ∈ l.
Proof.
  destruct v as [s|]; simpl; [rewrite str_in_spec|].
  - split; [by eauto|by intros (? & [= ->] & ?)].
  - split; [done|by intros (? & ? & _)].
Qed.

Lemma opt_is_spec v s : opt_is v s = true ↔ v = Some s.
Proof. apply bool_decide_eq_true. Qed.

Lemma str_truthy_spec s : str_truthy s = true ↔ s ≠ "".
Proof. unfold str_truthy. destruct (String.eqb_spec s ""); naive_solver. Qed.

Lemma or_none_Some s t : or_none s = Some t ↔ s = t ∧ s ≠ "".
Proof.
  unfold or_none. destruct (str_truthy s) eqn:E.
  - apply str_truthy_spec in E. naive_solver.
  - assert (¬ s ≠ "") by (rewrite <- str_truthy_spec; congruence). naive_solver.
Qed.

Lemma rstrip_cons c s : rstrip (String c s) =
  match rstrip s with
  | EmptyString => if is_space c then EmptyString else String c EmptyString
  | r => String c r
  end.
Proof. done. Qed.

Lemma rstrip_idemp s : rstrip (rstrip s) = rstrip s.
Proof.
  induction s as [|c s IH]; [done|]. rewrite rstrip_cons.
  destruct (rstrip s) as [|d r] eqn:E.
  - destruct (is_space c) eqn:Ec; simpl; [done|by rewrite Ec].
  - rewrite rstrip_cons, IH. done.
Qed.

Lemma lstrip_idemp s : lstrip (lstrip s) = lstrip s.
Proof. induction s as [|c s IH]; simpl; [done|]. destruct (is_space c) eqn:E; simpl; [done|by rewrite E]. Qed.

Lemma lstrip_rstrip s : lstrip (rstrip (lstrip s)) = rstrip (lstrip s).
Proof.
  induction s as [|c s IH]; [done|]. simpl.
  destruct (is_space c) eqn:E; [done|]. rewrite rstrip_cons.
  destruct (rstrip s) as [|d r]; rewrite ?E; simpl; by rewrite ?E.
Qed.

Lemma strip_idemp s : strip (strip s) = strip s.
Proof. unfold strip. by rewrite lstrip_rstrip, rstrip_idemp. Qed.

Lemma clean_Some v s : clean v = Some s → s ≠ "" ∧ strip s = s.
Proof. intros [<- Hne]%or_none_Some. split; [done|apply strip_idemp]. Qed.

(** Normalising twice is normalising once. *)
Lemma clean_idemp v : clean (clean v) = clean v.
Proof.
  destruct (clean v) as [s|] eqn:E; [|done].
  destruct (clean_Some _ _ E) as [Hne Hs]. unfold clean; simpl. rewrite Hs.
  by apply or_none_Some.
Qed.

Lemma clean_nonempty v : clean v ≠ Some "".
Proof. intros H. by apply clean_Some in H as [[] _]. Qed.

(** *** Decimal text *)

Lemma pretty_go_app x s t : (pretty_N_go x s +:+ t = pretty_N_go x (s +:+ t))%string.
Proof.
  revert s. induction (N.lt_wf_0 x) as [x _ IH]. intros s.
  destruct (decide (0 < x)%N) as [Hx|Hx].
  - rewrite (pretty_N_go_step x s), (pretty_N_go_step x (s +:+ t)) by done. rewrite IH; [done|]. by apply N.div_lt.
  - assert (x = 0%N) as -> by lia. by rewrite !pretty_N_go_0.
Qed.

Lemma pretty_small (z : N) : (z < 10)%N → pretty z = String (pretty_N_char z) "".
Proof.
  intros Hz. assert (z = 0 ∨ z = 1 ∨ z = 2 ∨ z = 3 ∨ z = 4 ∨ z = 5 ∨ z = 6 ∨ z = 7 ∨ z = 8 ∨ z = 9)%N as H by lia.
  repeat destruct H as [->|H]; [reflexivity..|]. by subst.
Qed.

Lemma pretty_large (z : N) : (10 ≤ z)%N → pretty z = (pretty (z / 10)%N +:+ String (pretty_N_char (z mod 10)%N) "")%string.
Proof.
  intros Hz. unfold pretty, pretty_N. rewrite decide_False by lia.
  rewrite decide_False by (intros E; apply N.div_small_iff in E; lia).
  rewrite pretty_N_go_step by lia. by rewrite pretty_go_app.
Qed.

Lemma digit_value_char z : (0 <= z < 10)%Z → digit_value (pretty_N_char (Z.to_N z)) = Some z.
Proof.
  intros Hz. assert (z = 0 ∨ z = 1 ∨ z = 2 ∨ z = 3 ∨ z = 4 ∨ z = 5 ∨ z = 6 ∨ z = 7 ∨ z = 8 ∨ z = 9)%Z as H by lia.
  repeat destruct H as [->|H]; [reflexivity..|]. by subst.
Qed.

(** *** Case *)

Lemma lower_char_space c : is_space (lower_char c) = is_space c.
Proof. destruct c as [[] [] [] [] [] [] [] []]; reflexivity. Qed.

Lemma lower_char_idemp c : lower_char (lower_char c) = lower_char c.
Proof. destruct c as [[] [] [] [] [] [] [] []]; reflexivity. Qed.

Lemma lower_idemp s : lower (lower s) = lower s.
Proof. induction s as [|c s IH]; simpl; [done|]. by rewrite lower_char_idemp, IH. Qed.

(** [s.strip().lower()] and [s.lower().strip()] agree. *)
Lemma strip_lower s : strip (lower s) = lower (strip s).
Proof.
  unfold strip. transitivity (rstrip (lower (lstrip s))).
  - f_equal. induction s as [|c s IH]; simpl; [done|]. rewrite lower_char_space. by destruct (is_space c).
  - generalize (lstrip s); clear s; intros s.
    induction s as [|c s IH]; [done|]. cbn [lower]. rewrite !rstrip_cons, IH, lower_char_space.
    destruct (rstrip s) as [|d r]; simpl; [by destruct (is_space c)|done].
Qed.

#[export] Hint Rewrite strip_idemp clean_idemp lower_idemp : py.
