(* ===== verification/PyTime.v ===== *)
(** * Python datetimes

    A [datetime] is its wall clock, in microseconds since
    0001-01-01T00:00:00, and its UTC offset in microseconds when it is aware.
    Python bounds the wall clock to the years 1 to 9999 and raises
    [OverflowError] outside; the model's axis is unbounded.  [isoformat]
    goes through the proleptic Gregorian calendar, translated from the
    standard library's ordinal arithmetic. *)

From S2P Require Import Prelude PyStr.

Open Scope Z_scope.

Record datetime : Type := DT { dt_wall : Z; dt_off : option Z }.

#[export] Instance datetime_eq_dec : EqDecision datetime.
Proof. solve_decision. Defined.

Definition US_PER_SECOND : Z := 1000000.
Definition US_PER_DAY : Z := 86400 * US_PER_SECOND.

(** [timedelta(milliseconds=n)], in microseconds. *)
Definition ms (n : Z) : Z := n * 1000.

Definition aware (d : datetime) : bool := match dt_off d with Some _ => true | None => false end.

(** The instant of an aware datetime; a naive one is read as UTC. *)
Definition instant (d : datetime) : Z := dt_wall d - default 0 (dt_off d).

Definition utc (us : Z) : datetime := DT us (Some 0).

(** [value.astimezone(UTC)] for an aware value whose instant is a
    representable one. *)
Definition astimezone_utc (d : datetime) : datetime := utc (instant d).

(** The walls of the years 1 to 9999. *)
Definition MAX_WALL : Z := 3652059 * US_PER_DAY.

Definition in_years (w : Z) : bool := (0 <=? w) && (w <? MAX_WALL).

(** [value.astimezone(UTC)] for an aware value: an instant outside the years
    1 to 9999 overflows. *)
Definition to_utc (d : datetime) : res datetime :=
  if in_years (instant d) then Ok (astimezone_utc d) else Err OverflowError.

(** [utils/time.py: normalize_utc]: naive values are UTC, aware values are
    converted. *)
Definition normalize_utc (v : option datetime) : option datetime :=
  match v with
  | None => None
  | Some d =>
      match dt_off d with
      | None => Some (DT (dt_wall d) (Some 0))
      | Some _ => Some (astimezone_utc d)
      end
  end.

(** [d + timedelta(...)]. *)
Definition dt_add (d : datetime) (us : Z) : datetime := DT (dt_wall d + us) (dt_off d).

(** Comparison of two aware datetimes. *)
Definition dt_le (a b : datetime) : bool := instant a <=? instant b.
Definition dt_lt (a b : datetime) : bool := instant a <? instant b.
Definition dt_eq (a b : datetime) : bool := instant a =? instant b.

(** What SQLite keeps of a [DateTime] column: the wall clock.  SQLAlchemy's
    SQLite storage format has no offset field, so the offset is dropped on
    write and a naive value comes back. *)
Definition sqlite_store (d : datetime) : Z := dt_wall d.
Definition sqlite_load (wall : Z) : datetime := DT wall None.

(** ** Calendar *)

Definition divmod (a b : Z) : Z * Z := (a / b, a mod b).

Definition days_before_month (month : Z) : Z :=
  nth (Z.to_nat month) [-1; 0; 31; 59; 90; 120; 151; 181; 212; 243; 273; 304; 334]%Z 0.

Definition days_in_month (month : Z) : Z :=
  nth (Z.to_nat month) [-1; 31; 28; 31; 30; 31; 30; 31; 31; 30; 31; 30; 31]%Z 0.

Definition b2z (b : bool) : Z := if b then 1 else 0.

(** Year, month and day of a proleptic Gregorian ordinal (day 1 is
    0001-01-01). *)
Definition ord2ymd (ordinal : Z) : Z * Z * Z :=
  let '(n400, n) := divmod (ordinal - 1) 146097 in
  let '(n100, n) := divmod n 36524 in
  let '(n4, n) := divmod n 1461 in
  let '(n1, n) := divmod n 365 in
  let year := n400 * 400 + 1 + n100 * 100 + n4 * 4 + n1 in
  if (n1 =? 4) || (n100 =? 4) then (year - 1, 12, 31)
  else
    let leapyear := (n1 =? 3) && (negb (n4 =? 24) || (n100 =? 3)) in
    let month := Z.shiftr (n + 50) 5 in
    let preceding := days_before_month month + b2z ((2 <? month) && leapyear) in
    if n <? preceding then
      let month' := month - 1 in
      let preceding' := preceding - (days_in_month month' + b2z ((month' =? 2) && leapyear)) in
      (year, month', n - preceding' + 1)
    else (year, month, n - preceding + 1).

Definition is_leap (year : Z) : bool :=
  (year mod 4 =? 0) && (negb (year mod 100 =? 0) || (year mod 400 =? 0)).

Definition ymd2ord (year month day : Z) : Z :=
  let y := year - 1 in
  y * 365 + y / 4 - y / 100 + y / 400
  + (days_before_month month + b2z ((2 <? month) && is_leap year)) + day.

(** [value.isoformat(timespec="microseconds")] of a UTC value. *)
Definition iso_date (wall : Z) : string :=
  let '(y, m, d) := ord2ymd (wall / US_PER_DAY + 1) in
  fmt_zero 4 y +:+ "-" +:+ fmt_zero 2 m +:+ "-" +:+ fmt_zero 2 d.

Definition iso_clock (wall : Z) : string :=
  let s := (wall mod US_PER_DAY) / US_PER_SECOND in
  fmt_zero 2 (s / 3600) +:+ ":" +:+ fmt_zero 2 ((s / 60) mod 60) +:+ ":" +:+ fmt_zero 2 (s mod 60).

Definition iso_us (wall : Z) : string := fmt_zero 6 (wall mod US_PER_SECOND).

Definition isoformat_us (d : datetime) : string :=
  iso_date (dt_wall d) +:+ "T" +:+ iso_clock (dt_wall d) +:+ "." +:+ iso_us (dt_wall d) +:+ "+00:00".

(** [value.isoformat()] of a UTC value: the microseconds only when present. *)
Definition isoformat (d : datetime) : string :=
  if dt_wall d mod US_PER_SECOND =? 0
  then iso_date (dt_wall d) +:+ "T" +:+ iso_clock (dt_wall d) +:+ "+00:00"
  else isoformat_us d.

(** [value.isoformat()] of a naive value. *)
Definition naive_isoformat (wall : Z) : string :=
  iso_date wall +:+ "T" +:+ iso_clock wall
  +:+ (if wall mod US_PER_SECOND =? 0 then "" else "." +:+ iso_us wall).

(** A UTC datetime from its calendar fields, for concrete inputs. *)
Definition utc_at (y mo d h mi s : Z) : datetime :=
  utc ((ymd2ord y mo d - 1) * US_PER_DAY + ((h * 60 + mi) * 60 + s) * US_PER_SECOND).

(** ** Laws *)

Lemma instant_utc us : instant (utc us) = us.
Proof. unfold instant, utc; simpl; lia. Qed.

Lemma astimezone_instant d : instant (astimezone_utc d) = instant d.
Proof. apply instant_utc. Qed.

Lemma to_utc_ok d u : to_utc d = Ok u ↔ in_years (instant d) = true ∧ u = astimezone_utc d.
Proof. unfold to_utc. destruct (in_years (instant d)); naive_solver. Qed.

(** An aware value whose UTC form exists. *)
Definition representable (d : datetime) : bool := aware d && in_years (instant d).

Lemma normalize_utc_instant d d' : normalize_utc (Some d) = Some d' → instant d' = instant d.
Proof.
  unfold normalize_utc. destruct d as [w [o|]]; intros [= <-]; unfold astimezone_utc, instant, utc; simpl; lia.
Qed.

Lemma normalize_utc_off v d : normalize_utc v = Some d → dt_off d = Some 0.
Proof. destruct v as [[w [o|]]|]; simpl; intros [=]; by subst. Qed.

Lemma normalize_utc_idemp v : normalize_utc (normalize_utc v) = normalize_utc v.
Proof.
  destruct v as [[w [o|]]|]; simpl; unfold astimezone_utc, instant, utc; simpl;
    by rewrite ?Z.sub_0_r.
Qed.

Lemma normalize_utc_None v : normalize_utc v = None ↔ v = None.
Proof. destruct v as [[w [o|]]|]; simpl; split; done. Qed.

(** A UTC value survives a round trip through a SQLite column. *)
Lemma sqlite_roundtrip_utc d :
  dt_off d = Some 0 → normalize_utc (Some (sqlite_load (sqlite_store d))) = Some d.
Proof. destruct d as [w o]; simpl; by intros ->. Qed.

#[export] Hint Rewrite instant_utc astimezone_instant normalize_utc_idemp : py.

Example isoformat_example :
  isoformat_us (utc_at 2026 8 29 13 5 9) = "2026-08-29T13:05:09.000000+00:00".
Proof. vm_compute. reflexivity. Qed.

Example ord2ymd_leap : ord2ymd (ymd2ord 2024 2 29) = (2024, 2, 29).
Proof. vm_compute. reflexivity. Qed.
