(* ===== verification/PyValue.v ===== *)
(** * Dynamic values and canonical JSON

    [pyval] is the Python value of a decoded JSON document.  A float is kept
    by what the code can observe of it: its [repr] and the integer it equals,
    if any.  [dumps] is [json.dumps(v, sort_keys=True,
    separators=(",", ":"), ensure_ascii=False)]. *)

From S2P Require Import Prelude PyStr.

Open Scope Z_scope.

Inductive pyval : Type :=
  | VNone
  | VBool (b : bool)
  | VInt (z : Z)
  | VFloat (integral : option Z) (repr : string)
  | VStr (s : string)
  | VList (items : list pyval)
  | VDict (items : list (string * pyval)).

(** Induction through the nested lists. *)
Section Pyval_induction.
Context (P : pyval → Prop).
Hypothesis on_none : P VNone.
Hypothesis on_bool : ∀ b, P (VBool b).
Hypothesis on_int : ∀ z, P (VInt z).
Hypothesis on_float : ∀ i r, P (VFloat i r).
Hypothesis on_str : ∀ s, P (VStr s).
Hypothesis on_list : ∀ l, Forall P l → P (VList l).
Hypothesis on_dict : ∀ l, Forall (λ kv, P kv.2) l → P (VDict l).

Fixpoint pyval_rec_strong (v : pyval) : P v :=
  match v with
  | VNone => on_none
  | VBool b => on_bool b
  | VInt z => on_int z
  | VFloat i r => on_float i r
  | VStr s => on_str s
  | VList l =>
      on_list l ((fix go l := match l return Forall P l with
                              | [] => Forall_nil_2 _
                              | x :: l' => Forall_cons_2 _ _ _ (pyval_rec_strong x) (go l')
                              end) l)
  | VDict l =>
      on_dict l ((fix go l := match l return Forall (λ kv, P kv.2) l with
                              | [] => Forall_nil_2 _
                              | x :: l' => Forall_cons_2 _ _ _ (pyval_rec_strong x.2) (go l')
                              end) l)
  end.
End Pyval_induction.

(** The keys of every dict in a value are distinct: what a Python [dict]
    guarantees and an association list does not. *)
Fixpoint distinct_keys (v : pyval) : Prop :=
  match v with
  | VList l => foldr (λ x P, distinct_keys x ∧ P) True l
  | VDict l => NoDup (map fst l) ∧ foldr (λ kv P, distinct_keys kv.2 ∧ P) True l
  | _ => True
  end.

Fixpoint float_free (v : pyval) : Prop :=
  match v with
  | VFloat _ _ => False
  | VList l => foldr (λ x P, float_free x ∧ P) True l
  | VDict l => foldr (λ kv P, float_free kv.2 ∧ P) True l
  | _ => True
  end.

(** [d.get(key)] on a dict whose keys are strings; [None] when absent. *)
Fixpoint assoc (key : string) (items : list (string * pyval)) : pyval :=
  match items with
  | [] => VNone
  | (k, v) :: items' => if String.eqb k key then v else assoc key items'
  end.

(** [isinstance(v, str)] and its relatives, as projections. *)
Definition as_str (v : pyval) : option string := match v with VStr s => Some s | _ => None end.
Definition as_dict (v : pyval) : option (list (string * pyval)) :=
  match v with VDict d => Some d | _ => None end.
Definition as_list (v : pyval) : option (list pyval) := match v with VList l => Some l | _ => None end.

(** [type(v) is int], which excludes [bool]. *)
Definition as_int (v : pyval) : option Z := match v with VInt z => Some z | _ => None end.

(** The integer a value equals under [==], across [bool], [int] and [float]. *)
Definition num_value (v : pyval) : option Z :=
  match v with
  | VInt z => Some z
  | VBool b => Some (if b then 1 else 0)
  | VFloat i _ => i
  | _ => None
  end.

(** [v == "..."], [v == 3], [v is True], [v is None]. *)
Definition eq_str (v : pyval) (s : string) : bool := bool_decide (as_str v = Some s).
Definition eq_int (v : pyval) (z : Z) : bool := bool_decide (num_value v = Some z).
Definition is_bool (v : pyval) (b : bool) : bool :=
  match v with VBool b' => Bool.eqb b b' | _ => false end.
Definition is_none (v : pyval) : bool := match v with VNone => true | _ => false end.

(** Testing [v in {...}] or [v in some_dict] hashes [v]. *)
Definition hashable (v : pyval) : bool :=
  match v with VList _ | VDict _ => false | _ => true end.

Definition check_hashable (v : pyval) : res unit := guard (hashable v) (TypeError "unhashable type").

(** ** Truth, text and iteration *)

(** [bool(value)]. *)
Definition truthy (v : pyval) : bool :=
  match v with
  | VNone => false
  | VBool b => b
  | VInt z => negb (z =? 0)
  | VFloat integral _ => negb (bool_decide (integral = Some 0))
  | VStr s => str_truthy s
  | VList l => match l with [] => false | _ => true end
  | VDict d => match d with [] => false | _ => true end
  end.

Definition hex_digit (n : nat) : ascii := Ascii.ascii_of_nat (if (n <? 10)%nat then 48 + n else 87 + n)%nat.

Definition hex_pair (n : nat) : string := String (hex_digit (n / 16)) (String (hex_digit (n mod 16)) "").

Fixpoint join (sep : string) (l : list string) : string :=
  match l with
  | [] => ""
  | [x] => x
  | x :: l' => x +:+ sep +:+ join sep l'
  end.

(** One character of a [repr] between quotes [q]; a character that is not
    printable is written in hexadecimal. *)
Definition repr_char (q : nat) (c : ascii) : string :=
  let n := code c in
  if ((n =? q) || (n =? 92))%nat then "\" +:+ String c ""
  else if (n =? 9)%nat then "\t" else if (n =? 10)%nat then "\n" else if (n =? 13)%nat then "\r"
  else if ((n <? 32) || (127 <=? n) && (n <=? 160) || (n =? 173))%nat then "\x" +:+ hex_pair n
  else String c "".

Fixpoint repr_body (q : nat) (s : string) : string :=
  match s with EmptyString => EmptyString | String c s' => repr_char q c +:+ repr_body q s' end.

(** [repr(s)]: single quotes, or double ones around a text that has single
    quotes and no double ones. *)
Definition repr_str (s : string) : string :=
  let q := if has_char (Ascii.ascii_of_nat 39) s && negb (has_char (Ascii.ascii_of_nat 34) s) then 34%nat else 39%nat in
  String (Ascii.ascii_of_nat q) (repr_body q s +:+ String (Ascii.ascii_of_nat q) "").

Fixpoint repr (v : pyval) : string :=
  match v with
  | VNone => "None"
  | VBool true => "True"
  | VBool false => "False"
  | VInt z => pretty z
  | VFloat _ r => r
  | VStr s => repr_str s
  | VList l => "[" +:+ join ", " (map repr l) +:+ "]"
  | VDict d => "{" +:+ join ", " (map (λ kv : string * pyval, repr_str kv.1 +:+ ": " +:+ repr kv.2) d) +:+ "}"
  end.

(** [str(v)]. *)
Definition py_str (v : pyval) : string := match v with VStr s => s | _ => repr v end.

(** [str(value)] for a truthy value, [None] for a falsy one. *)
Definition str_or (v : pyval) : option string := if truthy v then Some (py_str v) else None.

(** [str(value or "").strip() or None]. *)
Definition text (v : pyval) : option string := clean (str_or v).

(** A text or [None]. *)
Definition opt_str (v : option string) : pyval := match v with Some s => VStr s | None => VNone end.

(** [value if isinstance(value, Mapping) else {}]. *)
Definition mapping (v : pyval) : list (string * pyval) := default [] (as_dict v).

(** The items of [for x in (v or ())]. *)
Definition iterate (v : pyval) : res (list pyval) :=
  if negb (truthy v) then Ok []
  else match v with
       | VList l => Ok l
       | VDict d => Ok (map (λ kv : string * pyval, VStr kv.1) d)
       | VStr s => Ok (map (λ c, VStr (String c "")) (String.list_ascii_of_string s))
       | _ => Err (TypeError "object is not iterable")
       end.

Definition quote : string := String (Ascii.ascii_of_nat 34) "".

Example repr_example :
  repr (VDict [("k", VList [VStr "it's"; VNone; VInt (-2)])])
  = "{'k': [" +:+ quote +:+ "it's" +:+ quote +:+ ", None, -2]}".
Proof. vm_compute. reflexivity. Qed.

(** ** [json.dumps] *)

(** [py_encode_basestring]: quotes, backslashes and control characters are
    escaped, every other character is kept. *)
Definition json_escape_char (c : ascii) : string :=
  match code c with
  | 34 => "\" +:+ String c ""
  | 92 => "\\"
  | 8 => "\b"
  | 9 => "\t"
  | 10 => "\n"
  | 12 => "\f"
  | 13 => "\r"
  | n => if (n <? 32)%nat then "\u00" +:+ hex_pair n
         else String c ""
  end%nat.

Fixpoint json_escape (s : string) : string :=
  match s with
  | EmptyString => EmptyString
  | String c s' => json_escape_char c +:+ json_escape s'
  end.

Definition json_string (s : string) : string := quote +:+ json_escape s +:+ quote.

(** Dict items in key order; the keys of a dict are distinct, so only the
    keys decide. *)
Definition item_cmp {A} (x y : string * A) : comparison := str_cmp x.1 y.1.

Definition sort_items {A} (items : list (string * A)) : list (string * A) :=
  merge_sort (cmp_le item_cmp) items.

(** A value with every dict in key order. *)
Fixpoint sort_value (v : pyval) : pyval :=
  match v with
  | VList l => VList (map sort_value l)
  | VDict l => VDict (sort_items (map (λ kv : string * pyval, (kv.1, sort_value kv.2)) l))
  | _ => v
  end.

Fixpoint dumps (v : pyval) : string :=
  match v with
  | VNone => "null"
  | VBool true => "true"
  | VBool false => "false"
  | VInt z => pretty z
  | VFloat _ r => r
  | VStr s => json_string s
  | VList l => "[" +:+ join "," (map dumps l) +:+ "]"
  | VDict l =>
      let items := map (λ kv : string * pyval, (kv.1, dumps kv.2)) l in
      "{" +:+ join "," (map (λ kv : string * string, json_string kv.1 +:+ ":" +:+ kv.2) (sort_items items)) +:+ "}"
  end.

Example dumps_example :
  dumps (VDict [("b", VList [VInt (-3); VNone]); ("a", VStr "x\y"); ("c", VBool true)]) =
    "{" +:+ quote +:+ "a" +:+ quote +:+ ":" +:+ quote +:+ "x\\y" +:+ quote +:+ ","
        +:+ quote +:+ "b" +:+ quote +:+ ":[-3,null],"
        +:+ quote +:+ "c" +:+ quote +:+ ":true}".
Proof. vm_compute. reflexivity. Qed.

(** ** Laws *)

Lemma foldr_and {A} (P : A → Prop) (l : list A) : foldr (λ x Q, P x ∧ Q) True l ↔ Forall P l.
Proof. induction l as [|x l IH]; simpl; [by split|]. by rewrite Forall_cons, IH. Qed.

#[export] Instance item_le_total {A} : Total (cmp_le (@item_cmp A)).
Proof. intros x y. apply (cmp_le_total str_cmp). Qed.

#[export] Instance item_le_trans {A} : Transitive (cmp_le (@item_cmp A)).
Proof. intros x y z. apply (cmp_le_trans str_cmp). Qed.

Lemma sort_items_perm {A} (l : list (string * A)) : sort_items l ≡ₚ l.
Proof. apply merge_sort_Permutation. Qed.

Lemma sort_items_sorted {A} (l : list (string * A)) : StronglySorted (cmp_le item_cmp) (sort_items l).
Proof. apply (StronglySorted_merge_sort _); apply _. Qed.

Lemma items_unique {A} (l : list (string * A)) x y :
  NoDup (map fst l) → x ∈ l → y ∈ l → cmp_le item_cmp x y → cmp_le item_cmp y x → x = y.
Proof.
  intros Hn Hx Hy H1 H2. apply (NoDup_map_inj fst l); [done..|].
  by apply (cmp_le_antisym str_cmp).
Qed.

(** Items with distinct keys have one sorted order. *)
Lemma sort_items_unique {A} (l l' : list (string * A)) :
  NoDup (map fst l) → l' ≡ₚ l → StronglySorted (cmp_le item_cmp) l' → sort_items l = l'.
Proof.
  intros Hn Hp Hs. pose proof (sort_items_sorted l) as Hs'. assert (sort_items l ≡ₚ l') as Hp' by (by rewrite sort_items_perm, Hp).
  assert (NoDup (map fst l')) as Hn' by (by rewrite Hp).
  generalize dependent (sort_items l). clear l Hn Hp. intros m Hm Hp.
  revert m Hm Hp Hn'. induction Hs as [|x l' Hs IH Hall]; intros m Hm Hp Hn.
  { by apply Permutation_nil_r in Hp. }
  destruct m as [|y m]; [by apply Permutation_nil_l in Hp|].
  apply StronglySorted_inv in Hm as [Hm Hally].
  assert (x = y) as <-.
  { assert (y ∈ x :: l') as Hy by (rewrite <- Hp; left). assert (x ∈ y :: m) as Hx by (rewrite Hp; left).
    apply (items_unique (x :: l')); [done|left|done|..].
    - apply elem_of_cons in Hy as [->|Hy]; [by destruct (item_le_total x x)|]. by rewrite Forall_forall in Hall; apply Hall.
    - apply elem_of_cons in Hx as [->|Hx]; [by destruct (item_le_total y y)|]. by rewrite Forall_forall in Hally; apply Hally. }
  f_equal. apply IH; [done| |by apply NoDup_cons in Hn as [_ ?]]. by apply Permutation_cons_inv in Hp.
Qed.

Lemma sort_items_proper {A} (l l' : list (string * A)) :
  NoDup (map fst l) → l ≡ₚ l' → sort_items l = sort_items l'.
Proof. intros Hn Hp. apply sort_items_unique; [done| |apply sort_items_sorted]. by rewrite sort_items_perm. Qed.

(** Sorting items commutes with a change of the values. *)
Lemma sort_items_map {A B} (f : A → B) (l : list (string * A)) :
  NoDup (map fst l) → sort_items (map (λ kv, (kv.1, f kv.2)) l) = map (λ kv, (kv.1, f kv.2)) (sort_items l).
Proof.
  intros Hn. apply sort_items_unique.
  - by rewrite map_map.
  - by rewrite sort_items_perm.
  - pose proof (sort_items_sorted l) as Hs. induction Hs as [|x m _ IH Hall]; [constructor|].
    simpl. constructor; [done|]. by apply Forall_map.
Qed.
