(* ===== verification/Sha256.v ===== *)
(** * SHA-256

    [hashlib.sha256(data).hexdigest()] on a byte string, after FIPS 180-4.
    Words are integers below 2^32 with the wrap-around written out. *)

From S2P Require Import Prelude PyStr PyValue.

Open Scope N_scope.

Definition W32 : N := 4294967296.
Definition add32 (a b : N) : N := (a + b) mod W32.
Definition shr (n x : N) : N := N.shiftr x n.
Definition rotr (n x : N) : N := N.lor (N.shiftr x n) ((N.shiftl x (32 - n)) mod W32).
Definition not32 (x : N) : N := W32 - 1 - x.
Definition xor3 (a b c : N) : N := N.lxor a (N.lxor b c).

Definition big_sigma0 (x : N) : N := xor3 (rotr 2 x) (rotr 13 x) (rotr 22 x).
Definition big_sigma1 (x : N) : N := xor3 (rotr 6 x) (rotr 11 x) (rotr 25 x).
Definition small_sigma0 (x : N) : N := xor3 (rotr 7 x) (rotr 18 x) (shr 3 x).
Definition small_sigma1 (x : N) : N := xor3 (rotr 17 x) (rotr 19 x) (shr 10 x).
Definition ch (x y z : N) : N := N.lxor (N.land x y) (N.land (not32 x) z).
Definition maj (x y z : N) : N := xor3 (N.land x y) (N.land x z) (N.land y z).

(** The constants of the standard are the first 32 fractional bits of the
    square and cube roots of the first primes. *)

(** The largest [r] below [2^bits] with [pow r <= n], bit by bit. *)
Fixpoint root (pow : N -> N) (n : N) (bits : nat) (r : N) : N :=
  match bits with
  | O => r
  | S k =>
      let r' := r + N.shiftl 1 (N.of_nat k) in
      root pow n k (if pow r' <=? n then r' else r)
  end.

Definition is_prime (p : nat) : bool :=
  (1 <? p)%nat && forallb (fun d => negb (p mod d =? 0)%nat) (seq 2 (p - 2)).

(** The 64 primes below 312. *)
Definition primes : list N := map N.of_nat (List.filter is_prime (seq 2 310)).

Definition fraction_bits (r : N) : N := r mod W32.

Definition round_constants : list N :=
  Eval vm_compute in map (fun p => fraction_bits (root (fun r => r * r * r) (N.shiftl p 96) 36 0)) primes.

Definition initial_hash : list N :=
  Eval vm_compute in map (fun p => fraction_bits (root (fun r => r * r) (N.shiftl p 64) 36 0)) (take 8 primes).

(** The message schedule, newest word first. *)
Fixpoint schedule (n : nat) (w : list N) : list N :=
  match n with
  | O => w
  | S n' =>
      let next := add32 (add32 (small_sigma1 (nth 1 w 0)) (nth 6 w 0))
                        (add32 (small_sigma0 (nth 14 w 0)) (nth 15 w 0)) in
      schedule n' (next :: w)
  end.

Definition round (h : list N) (kw : N * N) : list N :=
  match h with
  | [a; b; c; d; e; f; g; h0] =>
      let t1 := add32 (add32 (add32 h0 (big_sigma1 e)) (ch e f g)) (add32 kw.1 kw.2) in
      let t2 := add32 (big_sigma0 a) (maj a b c) in
      [add32 t1 t2; a; b; c; add32 d t1; e; f; g]
  | _ => h
  end.

Definition compress (h : list N) (block : list N) : list N :=
  let w := rev (schedule 48 (rev block)) in
  zip_with add32 h (fold_left round (zip round_constants w) h).

Fixpoint be_words (l : list N) : list N :=
  match l with
  | a :: b :: c :: d :: l' => (((a * 256 + b) * 256 + c) * 256 + d) :: be_words l'
  | _ => []
  end.

Fixpoint blocks (fuel : nat) (words : list N) : list (list N) :=
  match fuel with
  | O => []
  | S fuel' => match words with [] => [] | _ => take 16 words :: blocks fuel' (drop 16 words) end
  end.

Fixpoint be_bytes (n : nat) (x : N) : list N :=
  match n with O => [] | S n' => be_bytes n' (x / 256) ++ [x mod 256] end.

(** Padding to a whole number of 64-byte blocks: a one bit, zeros, the bit
    length on eight bytes. *)
Definition pad (bytes : list N) : list N :=
  let len := length bytes in
  bytes ++ [128] ++ repeat 0 ((119 - len mod 64) mod 64)%nat ++ be_bytes 8 (8 * N.of_nat len).

Definition bytes_of (s : string) : list N := map (λ c, N.of_nat (code c)) (String.list_ascii_of_string s).

Definition hex_byte (b : N) : string :=
  String (hex_digit (N.to_nat (b / 16 mod 16))) (String (hex_digit (N.to_nat (b mod 16))) "").

Fixpoint hex_bytes (l : list N) : string :=
  match l with [] => "" | b :: l' => hex_byte b +:+ hex_bytes l' end.

Definition sha256_words (bytes : list N) : list N :=
  let words := be_words (pad bytes) in
  fold_left compress (blocks (length words) words) initial_hash.

(** [hashlib.sha256(data).hexdigest()]. *)
Definition sha256_hex (data : string) : string :=
  hex_bytes (concat (map (be_bytes 4) (sha256_words (bytes_of data)))).

Example sha256_abc :
  sha256_hex "abc" = "ba7816bf8f01cfea414140de5dae2223b00361a396177a9cb410ff61f20015ad".
Proof. vm_compute. reflexivity. Qed.

Example sha256_two_blocks :
  sha256_hex "abcdbcdecdefdefgefghfghighijhijkijkljklmklmnlmnomnopnopq" =
    "248d6a61d20638b8e5c026930c3e6039a33ce45964ff2167f6ecedd419db06c1".
Proof. vm_compute. reflexivity. Qed.

(** ** The digest is always sixty-four lowercase hexadecimal digits *)

Lemma hex_digit_lower n : (n < 16)%nat → is_hex_lower (hex_digit n) = true.
Proof. intros Hn. do 16 (destruct n as [|n]; [reflexivity|]). lia. Qed.

Lemma hex_byte_digits b rest :
  str_forall is_hex_lower rest = true → str_forall is_hex_lower (hex_byte b +:+ rest) = true.
Proof.
  intros Hr. unfold hex_byte; simpl.
  pose proof (N.mod_lt (b / 16) 16 ltac:(done)). pose proof (N.mod_lt b 16 ltac:(done)).
  rewrite !hex_digit_lower; [done|lia..].
Qed.

Lemma hex_bytes_digits l : str_forall is_hex_lower (hex_bytes l) = true.
Proof. induction l as [|b l IH]; simpl; [done|by apply hex_byte_digits]. Qed.

Lemma hex_bytes_length l : String.length (hex_bytes l) = (2 * length l)%nat.
Proof.
  induction l as [|b l IH]; [done|]. cbn [hex_bytes length].
  change (S (S (String.length (hex_bytes l))) = 2 * S (length l))%nat. lia.
Qed.

Lemma be_bytes_length n x : length (be_bytes n x) = n.
Proof. revert x; induction n as [|n IH]; intros x; simpl; [done|]. rewrite length_app, IH. simpl. lia. Qed.

Lemma round_length h kw : length h = 8%nat → length (round h kw) = 8%nat.
Proof. intros H. do 8 (destruct h as [|? h]; [done|]). by destruct h. Qed.

Lemma rounds_length l h : length h = 8%nat → length (fold_left round l h) = 8%nat.
Proof. revert h; induction l as [|kw l IH]; simpl; intros h Hh; [done|]. by apply IH, round_length. Qed.

Lemma compress_length h b : length h = 8%nat → length (compress h b) = 8%nat.
Proof. intros Hh. unfold compress. rewrite length_zip_with, rounds_length; lia. Qed.

Lemma compress_all_length l h : length h = 8%nat → length (fold_left compress l h) = 8%nat.
Proof. revert h; induction l as [|b l IH]; simpl; intros h Hh; [done|]. by apply IH, compress_length. Qed.

Lemma concat_be_bytes_length l : length (concat (map (be_bytes 4) l)) = (4 * length l)%nat.
Proof. induction l as [|x l IH]; [done|]. cbn [map concat]. rewrite length_app, be_bytes_length, IH. simpl. lia. Qed.

Lemma sha256_hex_is_sha256 data : is_sha256 (sha256_hex data) = true.
Proof.
  unfold is_sha256, sha256_hex. rewrite hex_bytes_digits, andb_true_r, hex_bytes_length.
  rewrite concat_be_bytes_length. unfold sha256_words.
  by rewrite compress_all_length.
Qed.
