(* ===== verification/MachineEvidence.v ===== *)
(** * Machine evidence: canonical content and identities

    Models [src/server/zerg/machine_evidence.py]: the canonical form and hash
    of a fact value, and the validation of every reducer identity of an
    evidence document against its typed fact. *)

From S2P Require Import Prelude PyStr PyTime PyValue Sha256.

Open Scope Z_scope.

Definition MAX_REDUCER_EVIDENCE_FACTS : nat := 256.
Definition MIN_CANONICAL_INTEGER : Z := - 2 ^ 63.
Definition MAX_CANONICAL_INTEGER : Z := 2 ^ 64 - 1.

Definition CANONICAL_TIMESTAMP_FIELDS : list string :=
  ["observed_at"; "valid_until"; "source_mtime"; "hook_observed_at"; "claimed_at"; "response_at"].

(** ** RFC 3339 timestamps

    [RFC3339_RE] and [datetime.fromisoformat] on the strings it accepts. *)

(** [\d{n}]: the value of exactly [n] digits, and the rest. *)
Fixpoint take_digits (n : nat) (acc : Z) (s : string) : option (Z * string) :=
  match n with
  | O => Some (acc, s)
  | S n' =>
      match s with
      | String c s' => match digit_value c with Some d => take_digits n' (acc * 10 + d) s' | None => None end
      | EmptyString => None
      end
  end.

Definition take_char (want : string) (s : string) : option string :=
  match want, s with
  | String w EmptyString, String c s' => if Ascii.eqb w c then Some s' else None
  | _, _ => None
  end.

(** The digits of a fraction: the first six give the microseconds. *)
Fixpoint take_fraction (s : string) (scale us : Z) (seen : bool) : option (Z * string) :=
  match s with
  | String c s' =>
      match digit_value c with
      | Some d => take_fraction s' (scale / 10) (us + d * scale) true
      | None => if seen then Some (us, s) else None
      end
  | EmptyString => if seen then Some (us, s) else None
  end.

Record rfc3339 : Type := Rfc3339 {
  r_year : Z; r_month : Z; r_day : Z; r_hour : Z; r_minute : Z; r_second : Z;
  r_us : Z; r_offset_minutes : Z;
}.

Definition take_offset (s : string) : option Z :=
  match s with
  | String c s' =>
      if String.eqb s "Z" then Some 0
      else
        let sign := if Ascii.eqb c (Ascii.ascii_of_nat 43) then Some 1
                    else if Ascii.eqb c (Ascii.ascii_of_nat 45) then Some (-1) else None in
        sg ← sign; '(h, s1) ← take_digits 2 0 s'; s2 ← take_char ":" s1;
        '(m, s3) ← take_digits 2 0 s2;
        if String.eqb s3 "" then Some (sg * (h * 60 + m)) else None
  | EmptyString => None
  end.

(** [RFC3339_RE.fullmatch(value)], with its fields. *)
Definition match_rfc3339 (s : string) : option rfc3339 :=
  '(y, s) ← take_digits 4 0 s; s ← take_char "-" s;
  '(mo, s) ← take_digits 2 0 s; s ← take_char "-" s;
  '(d, s) ← take_digits 2 0 s; s ← take_char "T" s;
  '(h, s) ← take_digits 2 0 s; s ← take_char ":" s;
  '(mi, s) ← take_digits 2 0 s; s ← take_char ":" s;
  '(sec, s) ← take_digits 2 0 s;
  '(us, s) ← match take_char "." s with Some s' => take_fraction s' 100000 0 false | None => Some (0, s) end;
  off ← take_offset s;
  Some (Rfc3339 y mo d h mi sec us off).

Definition month_length (year month : Z) : Z :=
  days_in_month month + b2z ((month =? 2) && is_leap year).

(** [datetime.fromisoformat(...)] on matched fields; [None] is [ValueError]. *)
Definition fromisoformat (r : rfc3339) : option datetime :=
  if (1 <=? r_year r) && (1 <=? r_month r) && (r_month r <=? 12)
     && (1 <=? r_day r) && (r_day r <=? month_length (r_year r) (r_month r))
     && (r_hour r <=? 23) && (r_minute r <=? 59) && (r_second r <=? 59)
     && (Z.abs (r_offset_minutes r) <? 1440)
  then
    Some (DT ((ymd2ord (r_year r) (r_month r) (r_day r) - 1) * US_PER_DAY
              + ((r_hour r * 60 + r_minute r) * 60 + r_second r) * US_PER_SECOND + r_us r)
             (Some (r_offset_minutes r * 60 * US_PER_SECOND)))
  else None.

(** [datetime.fromisoformat] on any text: the forms of RFC 3339, and the other
    forms of ISO 8601 as a parameter. *)
Definition parse_iso (other_form : string → option datetime) (s : string) : option datetime :=
  match match_rfc3339 s with Some r => fromisoformat r | None => other_form s end.

(** [parsed.astimezone(UTC).isoformat(timespec="microseconds").replace("+00:00", "Z")],
    [None] when the conversion leaves the years 1 to 9999. *)
Definition canonical_wall (d : datetime) : option string :=
  let w := instant d in
  if in_years w
  then Some (iso_date w +:+ "T" +:+ iso_clock w +:+ "." +:+ iso_us w +:+ "Z")
  else None.

Definition canonical_timestamp (s : string) : string :=
  match match_rfc3339 s with
  | None => s
  | Some r => default s (d ← fromisoformat r; canonical_wall d)
  end.

(** ** Canonical content *)

(** [_canonical_value]: [field] is the key under which the value sits. *)
Fixpoint canonical_value (field : option string) (v : pyval) : res pyval :=
  match v with
  | VDict items =>
      let! items' :=
        (fix go items :=
           match items with
           | [] => Ok []
           | (k, x) :: rest =>
               let! x' := canonical_value (Some k) x in
               let! rest' := go rest in
               Ok ((k, x') :: rest')
           end) items in
      Ok (VDict items')
  | VList l =>
      let! l' :=
        (fix go l :=
           match l with
           | [] => Ok []
           | x :: rest =>
               let! x' := canonical_value field x in
               let! rest' := go rest in
               Ok (x' :: rest')
           end) l in
      Ok (VList l')
  | VFloat _ _ => Err (ValueError "floating-point machine evidence is not canonical")
  | VInt z =>
      if (MIN_CANONICAL_INTEGER <=? z) && (z <=? MAX_CANONICAL_INTEGER) then Ok v
      else Err (ValueError "machine evidence integer is outside the serde_json range")
  | VStr s => Ok (if opt_in field CANONICAL_TIMESTAMP_FIELDS then VStr (canonical_timestamp s) else v)
  | VNone | VBool _ => Ok v
  end.

Definition canonical_value_json (v : pyval) : res string :=
  let! c := canonical_value None v in Ok (dumps c).

Definition canonical_evidence_hash (v : pyval) : res string :=
  let! j := canonical_value_json v in Ok (sha256_hex (utf8_encode j)).

Definition stable_component (s : string) : string := sha256_hex (utf8_encode s).

(** ** Fact families *)

Definition SUBJECT_PREFIX : list (string * string) :=
  [("run", "run:"); ("process", "process:"); ("activity", "run:"); ("control", "connection:");
   ("transcript", "thread:"); ("readiness", "readiness:"); ("continuation", "resume:")].

Definition AUTHORITY_CLASS : list (string * string) :=
  [("run", "exact_process_exit"); ("process", "exact_process_identity");
   ("activity", "provider_runtime"); ("control", "provider_control");
   ("transcript", "source_cursor"); ("readiness", "operation_proof");
   ("continuation", "retained_launch_contract")].

Definition GRANTED_OPERATIONS : list string :=
  ["send_input"; "interrupt"; "terminate"; "tail_output"; "resume"].

Definition RUN_EXIT_AUTHORITY : list (string * (string * string)) :=
  [("codex", ("app_server", "codex_bridge_scan")); ("claude", ("provider", "claude_channel_scan"));
   ("opencode", ("provider", "opencode_server_scan")); ("cursor", ("launcher", "cursor_helm_scan"));
   ("antigravity", ("provider", "antigravity_hook_scan"))].

(** [table.get(key)] for a constant table. *)
Fixpoint table_get {A} (key : string) (t : list (string * A)) : option A :=
  match t with
  | [] => None
  | (k, v) :: t' => if String.eqb k key then Some v else table_get key t'
  end.

Definition family_known (family : string) : bool := bool_decide (is_Some (table_get family SUBJECT_PREFIX)).

(** [_required_component]. *)
Definition required_component (value : list (string * pyval)) (field : string) (allow_colon : bool) : res string :=
  match as_str (assoc field value) with
  | Some component =>
      if str_truthy (strip component) then
        if negb allow_colon && has_char (Ascii.ascii_of_nat 58) component
        then Err (ValueError "machine evidence reducer identity field cannot contain ':'")
        else Ok component
      else Err (ValueError "machine evidence reducer identity requires field")
  | None => Err (ValueError "machine evidence reducer identity requires field")
  end.

(** [operations == sorted(set(operations))] and every one supported. *)
Definition sorted_set (l : list string) : list string := py_sorted str_cmp (remove_dups l).

Fixpoint all_strs (l : list pyval) : option (list string) :=
  match l with
  | [] => Some []
  | VStr s :: l' => ss ← all_strs l'; Some (s :: ss)
  | _ => None
  end.

Definition check_granted_operations (v : pyval) : res (list string) :=
  match v with
  | VList l =>
      match all_strs l with
      | Some ops =>
          if bool_decide (ops = sorted_set ops) && forallb (λ o, str_in o GRANTED_OPERATIONS) ops
          then Ok ops
          else Err (ValueError "granted_operations must be sorted, unique, and supported")
      | None => Err (ValueError "granted_operations must be a string list")
      end
  | _ => Err (ValueError "granted_operations must be a string list")
  end.

(** The checks of [_validate_v3_authority] for each family. *)
Definition validate_run_authority (value : list (string * pyval)) : res unit :=
  let! _ := required_component value "session_id" false in
  let! _ := required_component value "run_id" false in
  let! _ := guard (eq_str (assoc "state" value) "ended" && eq_str (assoc "end_reason" value) "process_gone")
                  (ValueError "machine evidence run must be an exact process_gone terminal") in
  let! provider := required_component value "provider" false in
  let! process_role := required_component value "process_role" false in
  let! source := required_component value "source" false in
  let! _ := guard (bool_decide (table_get provider RUN_EXIT_AUTHORITY = Some (process_role, source)))
                  (ValueError "machine evidence run source is not the provider execution-owner authority") in
  let! _ := required_component value "process_start_time" true in
  let! _ := required_component value "boot_id" true in
  guard (match as_int (assoc "pid" value) with Some pid => 0 <? pid | None => false end)
        (ValueError "machine evidence run requires a positive pid").

Definition validate_continuation_authority (value : list (string * pyval)) : res unit :=
  let! _ := required_component value "session_id" false in
  let state := assoc "contract_state" value in
  let! _ := check_hashable state in
  let! _ := guard (eq_str state "valid" || eq_str state "invalid")
                  (ValueError "machine evidence continuation requires a valid contract state") in
  let reason := assoc "unavailable_reason" value in
  if eq_str state "valid" then
    let! _ := required_component value "provider_session_id" true in
    let! _ := required_component value "cwd" true in
    guard (is_none reason) (ValueError "valid continuation evidence cannot carry an unavailable reason")
  else
    guard (bool_decide (is_Some (as_str reason)))
          (ValueError "invalid continuation evidence requires an unavailable reason").

Definition validate_control_authority (value : list (string * pyval)) : res unit :=
  let! _ := required_component value "run_id" false in
  let! _ := check_granted_operations (assoc "granted_operations" value) in Ok tt.

Definition validate_v3_authority (family : string) (value : list (string * pyval)) : res unit :=
  let! _ := guard (bool_decide (as_str (assoc "authority_class" value) = table_get family AUTHORITY_CLASS))
                  (ValueError "machine evidence authority_class mismatch") in
  if String.eqb family "run" then validate_run_authority value
  else if String.eqb family "continuation" then validate_continuation_authority value
  else if String.eqb family "control" then validate_control_authority value
  else Ok tt.

(** [_validate_run_snapshot_scope]. *)
Definition scope_covers (boot_id : string) (scope : pyval) : bool :=
  match scope with
  | VDict d =>
      eq_str (assoc "scope" d) "managed_state_files" && eq_str (assoc "source" d) "managed_provider_scan"
      && is_bool (assoc "complete" d) true && eq_str (assoc "machine_boot_id" d) boot_id
  | _ => false
  end.

Definition validate_run_snapshot_scope (evidence value : list (string * pyval)) : res unit :=
  let! boot_id := required_component value "boot_id" true in
  guard (match assoc "process_snapshot_scopes" evidence with
         | VList scopes => existsb (scope_covers boot_id) scopes
         | _ => false
         end)
        (ValueError "machine evidence run requires a complete managed-process snapshot on the same boot").

(** [s.split(sep, n)]. *)
Fixpoint split_at (sep : ascii) (s : string) : string * option string :=
  match s with
  | EmptyString => (EmptyString, None)
  | String c s' =>
      if Ascii.eqb c sep then (EmptyString, Some s')
      else let '(a, b) := split_at sep s' in (String c a, b)
  end.

Fixpoint splitn (n : nat) (sep : ascii) (s : string) : list string :=
  match n with
  | O => [s]
  | S n' => match split_at sep s with (a, None) => [a] | (a, Some b) => a :: splitn n' sep b end
  end.

Definition colon : ascii := Ascii.ascii_of_nat 58.

(** ** Subject keys *)

(** The process branch of [_validate_subject_key], which returns early. *)
Definition validate_process_subject (subject_key : string) (value : list (string * pyval)) : res unit :=
  let! provider := required_component value "provider" false in
  let! boot_id := required_component value "boot_id" true in
  let! process_start := required_component value "process_start_time" true in
  match as_int (assoc "pid" value) with
  | Some pid =>
      if 0 <? pid then
        let generation := stable_component (provider +:+ ":" +:+ pretty pid +:+ ":" +:+ process_start) in
        guard (match splitn 5 colon subject_key with
               | [_; p1; p2; p3; p4; p5] =>
                   String.eqb p2 provider && String.eqb p3 (stable_component boot_id)
                   && String.eqb p4 (pretty pid) && String.eqb p5 generation && is_sha256 p1
               | _ => false
               end)
              (ValueError "process reducer identity does not match its fact")
      else Err (ValueError "process reducer identity requires a positive pid")
  | None => Err (ValueError "process reducer identity requires a positive pid")
  end.

(** The subject key every other family must carry. *)
Definition expected_subject (family : string) (value : list (string * pyval)) : res string :=
  if String.eqb family "run" || String.eqb family "activity" then
    let! run_id := required_component value "run_id" false in
    Ok ("run:" +:+ run_id)
  else if String.eqb family "control" then
    let! connection_id := required_component value "connection_id" false in
    let! lease_generation := required_component value "lease_generation" false in
    Ok ("connection:" +:+ connection_id +:+ ":" +:+ lease_generation)
  else if String.eqb family "transcript" then
    let! provider := required_component value "provider" false in
    let! provider_session_id := required_component value "provider_session_id" true in
    Ok ("thread:" +:+ provider +:+ ":" +:+ stable_component provider_session_id)
  else if String.eqb family "readiness" then
    let! session_id := required_component value "session_id" false in
    let! operation := required_component value "operation" false in
    Ok ("readiness:" +:+ session_id +:+ ":" +:+ operation)
  else
    let! session_id := required_component value "session_id" false in
    Ok ("resume:" +:+ session_id).

Definition validate_subject_key (family subject_key : string) (value : list (string * pyval)) : res unit :=
  if String.eqb family "process" then validate_process_subject subject_key value
  else
    let! expected := expected_subject family value in
    guard (String.eqb subject_key expected) (ValueError "machine evidence identity does not match its fact").

(** ** Identities *)

Record ValidatedEvidenceIdentity : Type := Identity {
  id_family : string;
  id_fact_index : Z;
  id_subject_key : string;
  id_source : string;
  id_source_epoch : string;
  id_source_seq : option Z;
  id_dedupe_key : string;
  id_evidence_hash : string;
  id_value : list (string * pyval);
}.

Definition wrong (message : string) {A} : res A := Err (ValueError message).

(** The schema-3 pass over every family's rows. *)
Definition validate_v3_row (evidence : list (string * pyval)) (family : string) (row : pyval) : res unit :=
  match row with
  | VDict value =>
      let! _ := validate_v3_authority family value in
      if String.eqb family "run" then validate_run_snapshot_scope evidence value else Ok tt
  | _ => wrong "machine evidence fact must be an object"
  end.

Definition validate_v3_families (evidence : list (string * pyval)) : res unit :=
  fold_res (λ _ family,
    match assoc family evidence with
    | VList rows => fold_res (λ _ row, validate_v3_row evidence family row) tt rows
    | _ => Ok tt
    end) tt (map fst SUBJECT_PREFIX).

(** [(family, fact_index)] of an identity row, with the row it references. *)
Definition identity_fact (evidence identity : list (string * pyval)) (seen : list (string * Z)) :
    res (string * Z * list (string * pyval)) :=
  let! _ := check_hashable (assoc "fact_family" identity) in
  match as_str (assoc "fact_family" identity), as_int (assoc "fact_index" identity) with
  | Some family, Some fact_index =>
      if family_known family && (0 <=? fact_index) then
        if bool_decide ((family, fact_index) ∈ seen) then wrong "machine evidence identity is duplicated"
        else
          match assoc family evidence with
          | VList rows =>
              match rows !! Z.to_nat fact_index with
              | Some (VDict value) => Ok (family, fact_index, value)
              | Some _ => wrong "machine evidence fact must be an object"
              | None => wrong "machine evidence identity references a missing fact"
              end
          | _ => wrong "machine evidence identity references a missing fact"
          end
      else wrong "machine evidence identity has an invalid fact reference"
  | _, _ => wrong "machine evidence identity has an invalid fact reference"
  end.

Definition identity_source_epoch (identity : list (string * pyval)) : res string :=
  match assoc "source_epoch" identity with
  | VNone => Ok ""
  | VStr s => if (String.length s <=? 255)%nat then Ok s
              else wrong "machine evidence source_epoch must be a bounded string or null"
  | _ => wrong "machine evidence source_epoch must be a bounded string or null"
  end.

Definition identity_source_seq (identity : list (string * pyval)) : res (option Z) :=
  match assoc "source_seq" identity with
  | VNone => Ok None
  | VInt z => if 0 <=? z then Ok (Some z) else wrong "machine evidence source_seq must be non-negative or null"
  | _ => wrong "machine evidence source_seq must be non-negative or null"
  end.

Definition identity_digest (identity : list (string * pyval)) (field : string) : res string :=
  match as_str (assoc field identity) with
  | Some s => if is_sha256 s then Ok s else wrong "machine evidence digest must be lowercase sha256"
  | None => wrong "machine evidence digest must be lowercase sha256"
  end.

(** One iteration of the identity loop. *)
Definition validate_identity (evidence : list (string * pyval)) (seen : list (string * Z)) (row : pyval) :
    res ValidatedEvidenceIdentity :=
  match row with
  | VDict identity =>
      let! '(family, fact_index, value) := identity_fact evidence identity seen in
      let! source := match as_str (assoc "source" identity) with
                     | Some s => if eq_str (assoc "source" value) s then Ok s
                                 else wrong "machine evidence identity source does not match its fact"
                     | None => wrong "machine evidence identity source does not match its fact"
                     end in
      let! subject_key := match as_str (assoc "subject_key" identity), table_get family SUBJECT_PREFIX with
                          | Some s, Some p => if startswith p s then Ok s
                                              else wrong "machine evidence subject is not reducer-grade"
                          | _, _ => wrong "machine evidence subject is not reducer-grade"
                          end in
      let! _ := validate_subject_key family subject_key value in
      let! source_epoch := identity_source_epoch identity in
      let! source_seq := identity_source_seq identity in
      let! _ := guard (is_bool (assoc "sequenced" identity) (bool_decide (is_Some source_seq)))
                      (ValueError "machine evidence sequence declaration is inconsistent") in
      let! dedupe_key := identity_digest identity "dedupe_key" in
      let! evidence_hash := identity_digest identity "evidence_hash" in
      let! computed := canonical_evidence_hash (VDict value) in
      if String.eqb computed evidence_hash then
        Ok (Identity family fact_index subject_key source source_epoch source_seq dedupe_key evidence_hash value)
      else wrong "machine evidence evidence_hash does not match canonical fact content"
  | _ => wrong "machine evidence identity must be an object"
  end.

Definition identity_ref (i : ValidatedEvidenceIdentity) : string * Z := (id_family i, id_fact_index i).

Definition validate_identity_step (evidence : list (string * pyval))
    (validated : list ValidatedEvidenceIdentity) (row : pyval) : res (list ValidatedEvidenceIdentity) :=
  let! i := validate_identity evidence (map identity_ref validated) row in Ok (validated ++ [i])%list.

Definition validate_machine_evidence_identities (evidence : pyval) : res (list ValidatedEvidenceIdentity) :=
  match evidence with
  | VDict ev =>
      let version := assoc "schema_version" ev in
      let! _ := check_hashable version in
      if eq_int version 2 || eq_int version 3 then
        match assoc "identities" ev with
        | VList identities =>
            if (length identities <=? MAX_REDUCER_EVIDENCE_FACTS)%nat then
              let! _ := if eq_int version 3 then validate_v3_families ev else Ok tt in
              fold_res (validate_identity_step ev) [] identities
            else wrong "machine evidence identities must contain at most 256 rows"
        | _ => wrong "machine evidence identities must contain at most 256 rows"
        end
      else Ok []
  | _ => Ok []
  end.
