(* ===== verification/Timestamps.v ===== *)
(** * Timestamps: calendar, decimals and the canonical form

    The date arithmetic of [PyTime] inverts: [ord2ymd] gives a valid date
    whose ordinal is the one it was given.  Zero-padded decimals read back,
    and so a canonical timestamp is its own canonical form. *)

From S2P Require Import Prelude PyStr PyTime PyValue Sha256 MachineEvidence.

Open Scope Z_scope.

(** ** The calendar *)

(** Month and day of a day of the year, counted from 0. *)
Definition month_of (leap : bool) (n : Z) : Z * Z :=
  let month := Z.shiftr (n + 50) 5 in
  let preceding := days_before_month month + b2z ((2 <? month) && leap) in
  if n <? preceding then
    let month' := month - 1 in
    (month', n - (preceding - (days_in_month month' + b2z ((month' =? 2) && leap))) + 1)
  else (month, n - preceding + 1).

Definition month_ok (leap : bool) (n : Z) : bool :=
  let '(m, d) := month_of leap n in
  (1 <=? m) && (m <=? 12) && (1 <=? d) && (d <=? days_in_month m + b2z ((m =? 2) && leap)) &&
  (days_before_month m + b2z ((2 <? m) && leap) + d =? n + 1).

Lemma month_ok_all leap n : 0 ≤ n < 365 + b2z leap → month_ok leap n = true.
Proof.
  intros Hn.
  assert (forallb (λ k, month_ok leap (Z.of_nat k)) (seq 0 (Z.to_nat (365 + b2z leap))) = true) as H
    by (destruct leap; vm_compute; reflexivity).
  rewrite forallb_forall in H. specialize (H (Z.to_nat n)). rewrite Z2Nat.id in H by lia.
  apply H, in_seq. lia.
Qed.


(** A year by its place in the cycles of 400, 100 and 4 years. *)
Lemma cycle_year a b c e :
  0 ≤ b ≤ 3 → 0 ≤ c ≤ 24 → 0 ≤ e ≤ 3 →
  let y := 400 * a + 100 * b + 4 * c + e in
  y / 4 = 100 * a + 25 * b + c ∧ y / 100 = 4 * a + b ∧ y / 400 = a ∧
  is_leap (y + 1) = (e =? 3) && (negb (c =? 24) || (b =? 3)).
Proof.
  intros Hb Hc He y. assert (y / 4 = 100 * a + 25 * b + c) as -> by (subst y; Z.to_euclidean_division_equations; lia).
  assert (y / 100 = 4 * a + b) as -> by (subst y; Z.to_euclidean_division_equations; lia).
  assert (y / 400 = a) as -> by (subst y; Z.to_euclidean_division_equations; lia).
  split_and!; [done..|]. unfold is_leap, y.
  assert ((400 * a + 100 * b + 4 * c + e + 1) mod 4 = (e + 1) mod 4) as ->
    by (Z.to_euclidean_division_equations; lia).
  assert ((400 * a + 100 * b + 4 * c + e + 1) mod 100 = (4 * c + e + 1) mod 100) as ->
    by (Z.to_euclidean_division_equations; lia).
  assert ((400 * a + 100 * b + 4 * c + e + 1) mod 400 = (100 * b + 4 * c + e + 1) mod 400) as ->
    by (Z.to_euclidean_division_equations; lia).
  assert (e = 0 ∨ e = 1 ∨ e = 2 ∨ e = 3) as [-> | [-> | [-> | ->]]] by lia; [done..|].
  replace ((3 + 1) mod 4 =? 0) with true by done. replace (3 =? 3) with true by done.
  destruct (Z.eqb_spec c 24) as [->|]; simpl.
  - assert (b = 0 ∨ b = 1 ∨ b = 2 ∨ b = 3) as [-> | [-> | [-> | ->]]] by lia; done.
  - rewrite (Z.mod_small (4 * c + 3 + 1)) by lia. destruct (Z.eqb_spec (4 * c + 3 + 1) 0); [lia|done].
Qed.

Lemma ord2ymd_ok ordinal :
  1 ≤ ordinal ≤ 3652059 →
  let '(y, m, d) := ord2ymd ordinal in
  1 ≤ y ≤ 9999 ∧ 1 ≤ m ≤ 12 ∧ 1 ≤ d ≤ month_length y m ∧ ymd2ord y m d = ordinal.
Proof.
  intros Ho. unfold ord2ymd, divmod.
  set (n400 := (ordinal - 1) / 146097). set (n := (ordinal - 1) mod 146097).
  set (n100 := n / 36524). set (n' := n mod 36524). set (n4 := n' / 1461). set (n'' := n' mod 1461).
  set (n1 := n'' / 365). set (k := n'' mod 365).
  assert (ordinal - 1 = 146097 * n400 + n ∧ 0 ≤ n < 146097) as [E0 B0] by (unfold n400, n; Z.to_euclidean_division_equations; lia).
  assert (n = 36524 * n100 + n' ∧ 0 ≤ n' < 36524) as [E1 B1] by (unfold n100, n'; Z.to_euclidean_division_equations; lia).
  assert (n' = 1461 * n4 + n'' ∧ 0 ≤ n'' < 1461) as [E2 B2] by (unfold n4, n''; Z.to_euclidean_division_equations; lia).
  assert (n'' = 365 * n1 + k ∧ 0 ≤ k < 365) as [E3 B3] by (unfold n1, k; Z.to_euclidean_division_equations; lia).
  clearbody n400 n n100 n' n4 n'' n1 k.
  assert (0 ≤ n400 ≤ 24 ∧ 0 ≤ n100 ≤ 4 ∧ 0 ≤ n4 ≤ 24 ∧ 0 ≤ n1 ≤ 4) as (? & ? & ? & ?) by lia.
  destruct (Z.eqb_spec n1 4) as [->|Hn1]; cbn [orb].
  - assert (k = 0) by lia. assert (n100 ≤ 3) by lia. subst k.
    replace (n400 * 400 + 1 + n100 * 100 + n4 * 4 + 4 - 1) with (400 * n400 + 100 * n100 + 4 * n4 + 3 + 1) by lia.
    destruct (cycle_year n400 n100 n4 3) as (D4 & D100 & D400 & L); [lia..|].
    assert (n4 ≠ 24 ∨ n100 = 3) as Hl by lia.
    unfold ymd2ord, month_length. replace (400 * n400 + 100 * n100 + 4 * n4 + 3 + 1 - 1)
      with (400 * n400 + 100 * n100 + 4 * n4 + 3) by lia. rewrite D4, D100, D400, L.
    assert (negb (n4 =? 24) || (n100 =? 3) = true) as -> by (apply orb_true_iff; rewrite negb_true_iff, Z.eqb_neq, Z.eqb_eq; lia).
    change (days_in_month 12) with 31. change (days_before_month 12) with 334. cbn. lia.
  - destruct (Z.eqb_spec n100 4) as [->|Hn100].
    + assert (n4 = 0 ∧ n1 = 0 ∧ k = 0) as (-> & -> & ->) by lia.
      replace (n400 * 400 + 1 + 4 * 100 + 0 * 4 + 0 - 1) with (400 * n400 + 100 * 3 + 4 * 24 + 3 + 1) by lia.
      destruct (cycle_year n400 3 24 3) as (D4 & D100 & D400 & L); [lia..|].
      unfold ymd2ord, month_length. replace (400 * n400 + 100 * 3 + 4 * 24 + 3 + 1 - 1)
        with (400 * n400 + 100 * 3 + 4 * 24 + 3) by lia. rewrite D4, D100, D400, L. change (days_in_month 12) with 31. change (days_before_month 12) with 334. cbn. lia.
    + replace (n400 * 400 + 1 + n100 * 100 + n4 * 4 + n1) with (400 * n400 + 100 * n100 + 4 * n4 + n1 + 1) by lia.
      destruct (cycle_year n400 n100 n4 n1) as (D4 & D100 & D400 & L); [lia..|].
      set (leap := (n1 =? 3) && (negb (n4 =? 24) || (n100 =? 3))) in *.
      pose proof (month_ok_all leap k) as Hm. unfold month_ok, month_of in Hm.
      assert (∀ m d, (1 <=? m) && (m <=? 12) && (1 <=? d) && (d <=? days_in_month m + b2z ((m =? 2) && leap)) &&
                (days_before_month m + b2z ((2 <? m) && leap) + d =? k + 1) = true →
              1 ≤ 400 * n400 + 100 * n100 + 4 * n4 + n1 + 1 ≤ 9999 ∧ 1 ≤ m ≤ 12 ∧
              1 ≤ d ≤ month_length (400 * n400 + 100 * n100 + 4 * n4 + n1 + 1) m ∧
              ymd2ord (400 * n400 + 100 * n100 + 4 * n4 + n1 + 1) m d = ordinal) as Hok.
      { intros m d. rewrite !andb_true_iff, !Z.leb_le, Z.eqb_eq. intros ([[[? ?] ?] ?] & Hd).
        unfold ymd2ord, month_length.
        replace (400 * n400 + 100 * n100 + 4 * n4 + n1 + 1 - 1) with (400 * n400 + 100 * n100 + 4 * n4 + n1) by lia.
        rewrite L, D4, D100, D400. lia. }
      assert (0 ≤ k < 365 + b2z leap) as Hk by (destruct leap; simpl; lia).
      destruct (k <? _); apply Hok, Hm, Hk.
Qed.

(** ** Decimals *)

(** [z] on exactly [w] digits. *)
Fixpoint digits (w : nat) (z : Z) (rest : string) : string :=
  match w with
  | O => rest
  | S w' => digits w' (z / 10) (String (pretty_N_char (Z.to_N (z mod 10))) rest)
  end.

Lemma zeros_snoc n : (zeros n +:+ "0" = zeros (S n))%string.
Proof. induction n as [|n IH]; [done|]. change (("0" +:+ zeros n) +:+ "0" = "0" +:+ zeros (S n))%string.
  by rewrite app_assoc_s, IH. Qed.

Lemma fmt_zero_digits w z rest :
  (0 < w)%nat → 0 ≤ z < 10 ^ Z.of_nat w → (fmt_zero w z +:+ rest = digits w z rest)%string.
Proof.
  revert z rest. induction w as [|w IH]; intros z rest Hw Hz; [lia|].
  cbn [digits]. destruct (decide (z < 10)) as [Hs|Hs].
  - rewrite Z.div_small, Z.mod_small by lia. unfold fmt_zero.
    rewrite pretty_small by lia. cbn [String.length]. rewrite Nat.sub_succ, Nat.sub_0_r.
    rewrite app_assoc_s. cbn [String.append]. destruct w as [|w]; [done|].
    rewrite <- IH by lia. unfold fmt_zero. cbn [Z.to_N]. rewrite (pretty_small 0) by done. cbn [String.length].
    rewrite Nat.sub_succ, Nat.sub_0_r, zeros_snoc. done.
  - assert (w ≠ 0%nat) by (intros ->; simpl in Hz; lia).
    rewrite <- IH; [|lia|].
    2:{ rewrite Nat2Z.inj_succ, Z.pow_succ_r in Hz by lia. Z.to_euclidean_division_equations; lia. }
    unfold fmt_zero. rewrite (pretty_large (Z.to_N z)) by lia. rewrite Z2N.inj_div, Z2N.inj_mod by lia.
    change (Z.to_N 10) with 10%N. rewrite length_app_s. cbn [String.length]. rewrite Nat.add_1_r, Nat.sub_succ.
    by rewrite !app_assoc_s.
Qed.

Lemma take_digits_snoc n acc s a c d s' :
  take_digits n acc s = Some (a, String c s') → digit_value c = Some d → take_digits (S n) acc s = Some (a * 10 + d, s').
Proof.
  revert acc s. induction n as [|n IH]; intros acc s.
  - intros [= -> ->] Hd. cbn. by rewrite Hd.
  - intros H Hd. cbn [take_digits] in H. destruct s as [|x s]; [done|]. destruct (digit_value x) as [dx|] eqn:E; [|done].
    change (take_digits (S (S n)) acc (String x s)) with
      (match digit_value x with Some d0 => take_digits (S n) (acc * 10 + d0) s | None => None end).
    rewrite E. by apply IH.
Qed.

Lemma take_digits_digits w acc z rest :
  0 ≤ z < 10 ^ Z.of_nat w → take_digits w acc (digits w z rest) = Some (acc * 10 ^ Z.of_nat w + z, rest).
Proof.
  revert z rest. induction w as [|w IH]; intros z rest Hz.
  - cbn in *. repeat f_equal. lia.
  - rewrite Nat2Z.inj_succ, Z.pow_succ_r in * by lia. cbn [digits].
    rewrite (take_digits_snoc w acc _ (acc * 10 ^ Z.of_nat w + z / 10) (pretty_N_char (Z.to_N (z mod 10))) (z mod 10) rest).
    + f_equal. f_equal. pose proof (Z.div_mod z 10). lia.
    + rewrite IH; [done|]. Z.to_euclidean_division_equations; lia.
    + apply digit_value_char. apply Z.mod_pos_bound. lia.
Qed.

(** ** Canonical timestamps *)

(** The microsecond form of a UTC wall, with the offset [off]. *)
Definition utc_text (w : Z) (off : string) : string :=
  (iso_date w +:+ "T" +:+ iso_clock w +:+ "." +:+ iso_us w +:+ off)%string.

Definition canonical_text (w : Z) : string := utc_text w "Z".

(** The two ways UTC is written. *)
Definition utc_offset (off : string) : Prop := off = "Z"%string ∨ off = "+00:00"%string.

Lemma take_fraction_six us off :
  utc_offset off → 0 ≤ us < 10 ^ 6 → take_fraction (digits 6 us off) 100000 0 false = Some (us, off).
Proof.
  intros Hoff Hus. cbn [digits].
  assert (∀ z, digit_value (pretty_N_char (Z.to_N (z mod 10))) = Some (z mod 10)) as H
    by (intros z; apply digit_value_char, Z.mod_pos_bound; lia).
  assert (∀ us', take_fraction off (100000 / 10 / 10 / 10 / 10 / 10 / 10) us' true = Some (us', off)) as Hend
    by (by destruct Hoff as [->| ->]).
  cbn [take_fraction]. rewrite !H, Hend.
  repeat change (?a / 10) with (a / 10). f_equal. f_equal.
  change (100000 / 10) with 10000. change (10000 / 10) with 1000. change (1000 / 10) with 100. change (100 / 10) with 10.
  change (10 / 10) with 1. Z.to_euclidean_division_equations. lia.
Qed.

Lemma take_char_app c s : take_char (String c "") (String c "" +:+ s)%string = Some s.
Proof. unfold take_char. rewrite app_cons. by rewrite Ascii.eqb_refl. Qed.

Lemma take_number w z rest : 0 ≤ z < 10 ^ Z.of_nat w → take_digits w 0 (digits w z rest) = Some (z, rest).
Proof. intros Hz. by rewrite take_digits_digits. Qed.

(** The digits of a UTC text, and that they are the fields of its wall. *)
Lemma utc_text_digits w :
  0 ≤ w < MAX_WALL →
  ∃ y m d h mi se us,
    fromisoformat (Rfc3339 y m d h mi se us 0) = Some (DT w (Some 0)) ∧
    0 ≤ y < 10 ^ Z.of_nat 4 ∧ Forall (λ n, 0 ≤ n < 10 ^ Z.of_nat 2) [m; d; h; mi; se] ∧ 0 ≤ us < 10 ^ 6 ∧
    ∀ off, utc_text w off =
      digits 4 y ("-" +:+ digits 2 m ("-" +:+ digits 2 d ("T" +:+ digits 2 h (":" +:+ digits 2 mi (":" +:+
        digits 2 se ("." +:+ digits 6 us off)))))).
Proof.
  intros Hw. unfold utc_text, iso_date, iso_clock, iso_us. unfold MAX_WALL, US_PER_DAY, US_PER_SECOND in *.
  pose proof (ord2ymd_ok (w / (86400 * 1000000) + 1)) as Ho. destruct (ord2ymd _) as [[y m] d].
  destruct Ho as (Hy & Hm & Hd & Hord); [Z.to_euclidean_division_equations; lia|].
  set (day := w mod (86400 * 1000000)). set (s := day / 1000000).
  assert (0 ≤ s < 86400) as Hs by (unfold s, day; Z.to_euclidean_division_equations; lia).
  assert (d ≤ 31).
  { destruct Hd as [_ Hd]. unfold month_length, days_in_month in Hd.
    assert (m = 1 ∨ m = 2 ∨ m = 3 ∨ m = 4 ∨ m = 5 ∨ m = 6 ∨ m = 7 ∨ m = 8 ∨ m = 9 ∨ m = 10 ∨ m = 11 ∨ m = 12) as Hc by lia.
    repeat destruct Hc as [->|Hc]; subst; destruct (is_leap y);
      match type of Hd with d ≤ ?e => let v := eval vm_compute in e in change (d ≤ v) in Hd end; lia. }
  assert (0 ≤ w mod 1000000 < 1000000) as Hus by (apply Z.mod_pos_bound; lia).
  assert (0 ≤ (s / 60) mod 60 < 60) as Hmi by (apply Z.mod_pos_bound; lia).
  assert (0 ≤ s mod 60 < 60) as Hse by (apply Z.mod_pos_bound; lia).
  assert (0 ≤ s / 3600 < 24) as Hho by (Z.to_euclidean_division_equations; lia).
  exists y, m, d, (s / 3600), ((s / 60) mod 60), (s mod 60), (w mod 1000000).
  change (10 ^ Z.of_nat 4) with 10000. change (10 ^ Z.of_nat 2) with 100. change (10 ^ 6) with 1000000.
  split; [|split; [lia|split; [repeat constructor; lia|split; [done|]]]].
  - unfold fromisoformat; cbn [r_year r_month r_day r_hour r_minute r_second r_us r_offset_minutes].
    assert ((1 <=? y) && (1 <=? m) && (m <=? 12) && (1 <=? d) && (d <=? month_length y m) && (s / 3600 <=? 23) &&
            ((s / 60) mod 60 <=? 59) && (s mod 60 <=? 59) && (Z.abs 0 <? 1440) = true) as ->.
    { rewrite !andb_true_iff, !Z.leb_le. split_and!; lia. }
    rewrite Hord. f_equal. f_equal. unfold s, day in *. clear. unfold US_PER_DAY, US_PER_SECOND.
    Z.to_euclidean_division_equations. lia.
  - intros off. rewrite !app_assoc_s. rewrite (fmt_zero_digits 4 y) by (change (10 ^ Z.of_nat 4) with 10000; lia).
    rewrite (fmt_zero_digits 6) by (change (10 ^ Z.of_nat 6) with 1000000; lia).
    by rewrite !(fmt_zero_digits 2) by (change (10 ^ Z.of_nat 2) with 100; lia).
Qed.

Lemma match_utc_text w off :
  0 ≤ w < MAX_WALL → utc_offset off →
  ∃ r, match_rfc3339 (utc_text w off) = Some r ∧ fromisoformat r = Some (DT w (Some 0)).
Proof.
  intros Hw Hoff. destruct (utc_text_digits w Hw) as (y & m & d & h & mi & se & us & Hr & Hy & H2 & Hus & ->).
  exists (Rfc3339 y m d h mi se us 0). split; [|done]. rewrite !Forall_cons in H2. destruct H2 as (? & ? & ? & ? & ? & _).
  unfold match_rfc3339. rewrite (take_number 4 y) by done.
  repeat (cbn [mbind option_bind]; rewrite take_char_app; cbn [mbind option_bind]; rewrite (take_number 2) by done).
  cbn [mbind option_bind]. rewrite take_char_app, take_fraction_six by done. cbn [mbind option_bind].
  by destruct Hoff as [->| ->].
Qed.

Lemma match_canonical_text w :
  0 ≤ w < MAX_WALL →
  ∃ r, match_rfc3339 (canonical_text w) = Some r ∧ fromisoformat r = Some (DT w (Some 0)).
Proof. intros Hw. by apply match_utc_text; [|left]. Qed.

(** Canonical timestamps are in canonical form already. *)
Lemma canonical_timestamp_idemp s : canonical_timestamp (canonical_timestamp s) = canonical_timestamp s.
Proof.
  assert (canonical_timestamp s = s ∨ ∃ w, 0 ≤ w < MAX_WALL ∧ canonical_timestamp s = canonical_text w) as [H|(w & Hw & ->)].
  { unfold canonical_timestamp. destruct (match_rfc3339 s) as [r|]; [|by left]. simpl.
    destruct (fromisoformat r) as [d|]; simpl; [|by left]. unfold canonical_wall.
    unfold in_years. destruct ((0 <=? instant d) && (instant d <? MAX_WALL)) eqn:E; simpl; [|by left].
    right. exists (instant d). split; [lia|done]. }
  - by rewrite !H.
  - unfold canonical_timestamp. destruct (match_canonical_text w Hw) as (r & -> & Hr). rewrite Hr. simpl.
    unfold canonical_wall, instant; simpl. rewrite Z.sub_0_r.
    assert (in_years w = true) as -> by (unfold in_years; lia). done.
Qed.
