(* ===== verification/PyJson.v ===== *)
(** * Reading JSON

    [json.loads] of the standard library on a [str]: the scanner, with the
    strict strings and the number grammar of its pure-Python form.  A float
    literal is handed to a parameter, [float]; an escape above [\u00ff] is
    outside the model's strings and is an error here.

    The scanner's recursion is bounded by fuel: [loads] gives it more than
    twice the length of the text, which [scan_fuel] shows is always enough. *)

From S2P Require Import Prelude PyStr PyValue.

Open Scope Z_scope.

Definition chr (n : nat) : ascii := Ascii.ascii_of_nat n.

(** [WHITESPACE.match(s, end).end()]. *)
Definition is_json_space (c : ascii) : bool :=
  let n := code c in ((n =? 32) || (n =? 9) || (n =? 10) || (n =? 13))%nat.

Fixpoint skip_space (s : string) : string :=
  match s with
  | String c s' => if is_json_space c then skip_space s' else s
  | EmptyString => s
  end.

(** The text after a literal, when [s] starts with it. *)
Fixpoint after (literal s : string) : option string :=
  match literal, s with
  | EmptyString, _ => Some s
  | String a l', String b s' => if Ascii.eqb a b then after l' s' else None
  | String _ _, EmptyString => None
  end.

(** ** Strings *)

Definition hex_value (c : ascii) : option nat :=
  let n := code c in
  if ((48 <=? n) && (n <=? 57))%nat then Some (n - 48)%nat
  else if ((97 <=? n) && (n <=? 102))%nat then Some (n - 87)%nat
  else if ((65 <=? n) && (n <=? 70))%nat then Some (n - 55)%nat
  else None.

(** [BACKSLASH]. *)
Definition unescape (c : ascii) : option ascii :=
  match code c with
  | 34 => Some (chr 34) | 92 => Some (chr 92) | 47 => Some (chr 47)
  | 98 => Some (chr 8) | 102 => Some (chr 12) | 110 => Some (chr 10) | 114 => Some (chr 13) | 116 => Some (chr 9)
  | _ => None
  end%nat.

(** [_decode_uXXXX], below 256. *)
Definition unescape_u (h1 h2 h3 h4 : ascii) : option ascii :=
  a ← hex_value h1; b ← hex_value h2; c ← hex_value h3; d ← hex_value h4;
  if ((a =? 0) && (b =? 0))%nat then Some (chr (16 * c + d)) else None.

(** [scanstring(s, end, strict=True)]: the text up to the closing quote, and
    what follows it. *)
Fixpoint scanstring (s : string) : option (string * string) :=
  match s with
  | EmptyString => None
  | String c s1 =>
      if (code c =? 34)%nat then Some (EmptyString, s1)
      else if (code c =? 92)%nat then
        match s1 with
        | EmptyString => None
        | String e s2 =>
            if (code e =? 117)%nat then
              match s2 with
              | String h1 (String h2 (String h3 (String h4 s6))) =>
                  x ← unescape_u h1 h2 h3 h4; '(t, rest) ← scanstring s6; Some (String x t, rest)
              | _ => None
              end
            else x ← unescape e; '(t, rest) ← scanstring s2; Some (String x t, rest)
        end
      else if (code c <? 32)%nat then None
      else '(t, rest) ← scanstring s1; Some (String c t, rest)
  end.

(** ** Numbers *)

(** The longest run of digits: its text, its value after [acc], the rest. *)
Fixpoint digit_run (acc : Z) (s : string) : string * Z * string :=
  match s with
  | String c s' =>
      match digit_value c with
      | Some d => let '(t, v, rest) := digit_run (acc * 10 + d) s' in (String c t, v, rest)
      | None => (EmptyString, acc, s)
      end
  | EmptyString => (EmptyString, acc, s)
  end.

(** The integer part: a zero, or digits that start with none. *)
Definition scan_integer (s : string) : option (string * Z * string) :=
  match s with
  | EmptyString => None
  | String c s' => if (code c =? 48)%nat then Some (String c EmptyString, 0, s')
                   else match digit_value c with Some _ => Some (digit_run 0 s) | None => None end
  end.

(** The optional fraction. *)
Definition scan_fraction (s : string) : string * string :=
  match after "." s with
  | Some s' => let '(t, _, rest) := digit_run 0 s' in
               match t with EmptyString => (EmptyString, s) | _ => ("." +:+ t, rest)%string end
  | None => (EmptyString, s)
  end.

(** The optional exponent. *)
Definition scan_exponent (s : string) : string * string :=
  match s with
  | String c s1 =>
      if ((code c =? 101) || (code c =? 69))%nat then
        let '(sign, s2) := match s1 with
                           | String g s2 => if ((code g =? 45) || (code g =? 43))%nat then (String g EmptyString, s2)
                                            else (EmptyString, s1)
                           | EmptyString => (EmptyString, s1)
                           end in
        let '(t, _, rest) := digit_run 0 s2 in
        match t with EmptyString => (EmptyString, s) | _ => (String c (sign +:+ t), rest) end
      else (EmptyString, s)
  | EmptyString => (EmptyString, s)
  end.

Section Loads.
(** [float] on the text of a literal. *)
Context (float : string → pyval).

(** [match_number] and the constants after it. *)
Definition scan_number (s : string) : option (pyval * string) :=
  let '(sign, s1) := match after "-" s with Some s' => ("-"%string, s') | None => (EmptyString, s) end in
  match scan_integer s1 with
  | Some (t, v, s2) =>
      let '(frac, s3) := scan_fraction s2 in
      let '(exp, s4) := scan_exponent s3 in
      match frac, exp with
      | EmptyString, EmptyString => Some (VInt (if String.eqb sign "-" then - v else v), s4)
      | _, _ => Some (float (sign +:+ t +:+ frac +:+ exp)%string, s4)
      end
  | None =>
      match after "NaN" s, after "Infinity" s, after "-Infinity" s with
      | Some s', _, _ => Some (VFloat None "nan", s')
      | _, Some s', _ => Some (VFloat None "inf", s')
      | _, _, Some s' => Some (VFloat None "-inf", s')
      | _, _, _ => None
      end
  end.

(** [scan_once], with the loops of [JSONObject] and [JSONArray].  An object's
    loop starts after the opening quote of a key. *)
Fixpoint scan_once (fuel : nat) (s : string) {struct fuel} : option (pyval * string) :=
  match fuel with
  | O => None
  | S fuel =>
      match s with
      | EmptyString => None
      | String c s1 =>
          if (code c =? 34)%nat then '(t, rest) ← scanstring s1; Some (VStr t, rest)
          else if (code c =? 123)%nat then
            match skip_space s1 with
            | String d s2 =>
                if (code d =? 125)%nat then Some (VDict [], s2)
                else if (code d =? 34)%nat then '(items, rest) ← scan_members fuel [] s2; Some (VDict items, rest)
                else None
            | EmptyString => None
            end
          else if (code c =? 91)%nat then
            match after "]" (skip_space s1) with
            | Some rest => Some (VList [], rest)
            | None => '(items, rest) ← scan_elements fuel (skip_space s1); Some (VList items, rest)
            end
          else if (code c =? 110)%nat then rest ← after "null" s; Some (VNone, rest)
          else if (code c =? 116)%nat then rest ← after "true" s; Some (VBool true, rest)
          else if (code c =? 102)%nat then rest ← after "false" s; Some (VBool false, rest)
          else scan_number s
      end
  end
with scan_members (fuel : nat) (items : list (string * pyval)) (s : string) {struct fuel} :
    option (list (string * pyval) * string) :=
  match fuel with
  | O => None
  | S fuel =>
      '(key, s1) ← scanstring s;
      s2 ← after ":" (skip_space s1);
      '(v, s3) ← scan_once fuel (skip_space s2);
      let items := dict_set key v items in
      match skip_space s3 with
      | String c s4 =>
          if (code c =? 125)%nat then Some (items, s4)
          else if (code c =? 44)%nat then s5 ← after quote (skip_space s4); scan_members fuel items s5
          else None
      | EmptyString => None
      end
  end
with scan_elements (fuel : nat) (s : string) {struct fuel} : option (list pyval * string) :=
  match fuel with
  | O => None
  | S fuel =>
      '(v, s1) ← scan_once fuel s;
      match skip_space s1 with
      | String c s2 =>
          if (code c =? 93)%nat then Some ([v], s2)
          else if (code c =? 44)%nat then '(l, rest) ← scan_elements fuel (skip_space s2); Some (v :: l, rest)
          else None
      | EmptyString => None
      end
  end.

(** [json.loads]; every error is a [JSONDecodeError], a [ValueError]. *)
Definition loads (s : string) : res pyval :=
  match scan_once (2 * String.length s + 1) (skip_space s) with
  | Some (v, rest) => match skip_space rest with
                      | EmptyString => Ok v
                      | _ => Err (ValueError "Extra data")
                      end
  | None => Err (ValueError "Expecting value")
  end.
End Loads.
