(* ===== verification/PyJsonLaws.v ===== *)
(** * Laws of the JSON reader

    The scanner consumes what it reads, so its fuel is enough; and it reads
    back what [json.dumps] writes: the value with its dicts in key order. *)

From S2P Require Import Prelude PyStr PyValue PyJson.

Open Scope Z_scope.

Abbreviation len := String.length.

Lemma bind_Some_inv {A B} (f : A → option B) (x : option A) (y : B) :
  x ≫= f = Some y → ∃ a, x = Some a ∧ f a = Some y.
Proof. destruct x as [a|]; [|done]. by exists a. Qed.

(** One read of a sequence of reads. *)
Ltac bind_step := change (Some ?x ≫= ?f) with (f x); cbv beta iota.

(** ** Consumption *)

Lemma skip_space_length s : (len (skip_space s) ≤ len s)%nat.
Proof. induction s as [|c s IH]; simpl; [done|]. destruct (is_json_space c); simpl; lia. Qed.

Lemma after_length l s r : after l s = Some r → len s = (len l + len r)%nat.
Proof.
  revert s; induction l as [|a l IH]; [by intros s [= ->]|]. intros [|b s]; simpl; [done|].
  destruct (Ascii.eqb a b); [|done]. intros H%IH. lia.
Qed.

Lemma scanstring_length_le n s t r : (len s ≤ n)%nat → scanstring s = Some (t, r) → (len r < len s)%nat.
Proof.
  revert s t r. induction n as [|n IH]; intros [|c s] t r Hn; simpl in *; try lia; try done.
  destruct (code c =? 34)%nat; [intros [= <- <-]; lia|].
  destruct (code c =? 92)%nat.
  - destruct s as [|e s2]; [done|]. simpl in Hn. destruct (code e =? 117)%nat.
    + destruct s2 as [|h1 [|h2 [|h3 [|h4 s6]]]]; try done. simpl in Hn.
      intros (x & _ & H)%bind_Some_inv. apply bind_Some_inv in H as ([t' r'] & H & [= <- <-]).
      apply IH in H; simpl; lia.
    + intros (x & _ & H)%bind_Some_inv. apply bind_Some_inv in H as ([t' r'] & H & [= <- <-]).
      apply IH in H; simpl; lia.
  - destruct (code c <? 32)%nat; [done|]. intros ([t' r'] & H & [= <- <-])%bind_Some_inv. apply IH in H; simpl; lia.
Qed.

Lemma scanstring_length s t r : scanstring s = Some (t, r) → (len r < len s)%nat.
Proof. by apply (scanstring_length_le (len s)). Qed.

Lemma digit_run_length acc s : (len (digit_run acc s).2 ≤ len s)%nat.
Proof.
  revert acc; induction s as [|c s IH]; intros acc; simpl; [done|]. destruct (digit_value c) as [d|]; simpl; [|lia].
  specialize (IH (acc * 10 + d)). destruct (digit_run _ s) as [[t v] r]. simpl in *. lia.
Qed.

Lemma scan_integer_length s t v r : scan_integer s = Some (t, v, r) → (len r < len s)%nat.
Proof.
  destruct s as [|c s]; simpl; [done|]. destruct (code c =? 48)%nat; [intros [= <- <- <-]; lia|].
  destruct (digit_value c) as [d|]; [|done]. pose proof (digit_run_length (0 * 10 + d) s) as H.
  destruct (digit_run _ s) as [[t' v'] r']. intros [= <- <- <-]. simpl in *. lia.
Qed.

Lemma scan_fraction_length s : (len (scan_fraction s).2 ≤ len s)%nat.
Proof.
  unfold scan_fraction. destruct (after "." s) as [s'|] eqn:E; [|done]. apply after_length in E. simpl in E.
  pose proof (digit_run_length 0 s') as H. destruct (digit_run 0 s') as [[t v] r]. destruct t; simpl in *; lia.
Qed.

Lemma scan_exponent_length s : (len (scan_exponent s).2 ≤ len s)%nat.
Proof.
  destruct s as [|c s]; simpl; [done|]. destruct (_ || _); [|done].
  assert (∀ s2 sign, (len s2 ≤ len s)%nat →
    (len (let '(t, _, rest) := digit_run 0 s2 in
          match t with EmptyString => (EmptyString, String c s) | _ => (String c (sign +:+ t), rest) end).2
     ≤ S (len s))%nat) as H.
  { intros s2 sign Hs2. pose proof (digit_run_length 0 s2) as H. destruct (digit_run 0 s2) as [[t v] r].
    destruct t; simpl in *; lia. }
  destruct s as [|g s]; [by apply H|]. destruct (_ || _); apply H; simpl; lia.
Qed.

Section Loads.
Context (float : string → pyval).

Lemma scan_number_length s v r : scan_number float s = Some (v, r) → (len r < len s)%nat.
Proof.
  unfold scan_number. destruct (match after "-" s with Some _ => _ | None => _ end) as [sign s1] eqn:E.
  assert (len s1 ≤ len s)%nat as Hs1.
  { destruct (after "-" s) as [s'|] eqn:E'; simplify_eq; [|done]. apply after_length in E'. simpl in E'. lia. }
  destruct (scan_integer s1) as [[[t z] s2]|] eqn:Ei.
  - apply scan_integer_length in Ei. pose proof (scan_fraction_length s2) as Hf.
    destruct (scan_fraction s2) as [frac s3]. pose proof (scan_exponent_length s3) as He.
    destruct (scan_exponent s3) as [exp s4]. simpl in *. intros H.
    assert (r = s4) as -> by (destruct frac, exp; congruence). lia.
  - destruct (after "NaN" s) as [s'|] eqn:E1; [|destruct (after "Infinity" s) as [s'|] eqn:E2;
      [|destruct (after "-Infinity" s) as [s'|] eqn:E3; [|done]]]; intros [= <- <-];
      match goal with H : after _ _ = Some _ |- _ => apply after_length in H; simpl in H end; lia.
Qed.

Definition consumes {A} (read : string → option (A * string)) : Prop :=
  ∀ s x r, read s = Some (x, r) → (len r < len s)%nat.

Lemma literal_length l (w : pyval) s v r :
  l ≠ ""%string → (rest ← after l s; Some (w, rest)) = Some (v, r) → (len r < len s)%nat.
Proof.
  intros Hl (rest & E & [= _ <-])%bind_Some_inv. apply after_length in E. destruct l; simpl in *; [done|lia].
Qed.

Lemma scan_length n :
  consumes (scan_once float n) ∧ (∀ items, consumes (scan_members float n items)) ∧ consumes (scan_elements float n).
Proof.
  induction n as [|n (IH1 & IH2 & IH3)]; [done|]. split; [|split].
  - intros [|c s] v r; [done|]. pose proof (skip_space_length s) as Hk. cbn [scan_once].
    destruct (code c =? 34)%nat.
    { intros ([t r'] & H & [= _ <-])%bind_Some_inv. apply scanstring_length in H. simpl. lia. }
    destruct (code c =? 123)%nat.
    { destruct (skip_space s) as [|d s2]; [done|]. simpl in Hk. destruct (code d =? 125)%nat.
      { intros [= <- <-]. simpl. lia. }
      destruct (code d =? 34)%nat; [|done]. intros ([t r'] & H%IH2 & [= _ <-])%bind_Some_inv. simpl. lia. }
    destruct (code c =? 91)%nat.
    { destruct (after "]" (skip_space s)) as [rest|] eqn:E.
      - apply after_length in E. simpl in E. intros [= <- <-]. simpl. lia.
      - intros ([t r'] & H%IH3 & [= _ <-])%bind_Some_inv. simpl. lia. }
    destruct (code c =? 110)%nat; [by apply literal_length|]. destruct (code c =? 116)%nat; [by apply literal_length|].
    destruct (code c =? 102)%nat; [by apply literal_length|]. apply scan_number_length.
  - intros items s l r. cbn [scan_members].
    intros ([key s1] & H1 & H)%bind_Some_inv. apply scanstring_length in H1.
    apply bind_Some_inv in H as (s2 & H2%after_length & H). pose proof (skip_space_length s1).
    apply bind_Some_inv in H as ([v s3] & H3%IH1 & H). pose proof (skip_space_length s2).
    pose proof (skip_space_length s3). destruct (skip_space s3) as [|c s4]; [done|]. cbn [String.length] in *.
    destruct (code c =? 125)%nat; [intros; simplify_eq; lia|]. destruct (code c =? 44)%nat; [|done].
    apply bind_Some_inv in H as (s5 & Hq%after_length & Hm%IH2). pose proof (skip_space_length s4). lia.
  - intros s l r. cbn [scan_elements]. intros ([v s1] & H1%IH1 & H)%bind_Some_inv.
    pose proof (skip_space_length s1). destruct (skip_space s1) as [|c s2]; [done|]. cbn [String.length] in *.
    destruct (code c =? 93)%nat; [simplify_eq; lia|]. destruct (code c =? 44)%nat; [|done].
    apply bind_Some_inv in H as ([l' r'] & H2%IH3 & [= _ <-]). pose proof (skip_space_length s2). lia.
Qed.

(** More fuel than twice the length of the text changes nothing. *)
Lemma scan_fuel n :
  (∀ s m, (2 * len s < n)%nat → (n ≤ m)%nat → scan_once float m s = scan_once float n s) ∧
  (∀ items s m, (2 * len s < n)%nat → (n ≤ m)%nat → scan_members float m items s = scan_members float n items s) ∧
  (∀ s m, (2 * len s + 1 < n)%nat → (n ≤ m)%nat → scan_elements float m s = scan_elements float n s).
Proof.
  induction n as [|n (IH1 & IH2 & IH3)]; [split; [|split]; lia|].
  split; [|split].
  - intros s [|m]; [lia|]. intros Hs Hm. destruct s as [|c s]; [done|]. cbn [scan_once]. simpl in Hs.
    pose proof (skip_space_length s). rewrite (IH3 (skip_space s) m) by lia.
    destruct (skip_space s) as [|d s2]; [done|]. cbn [String.length] in *. by rewrite (IH2 [] s2 m) by lia.
  - intros items s [|m]; [lia|]. intros Hs Hm. cbn [scan_members].
    destruct (scanstring s) as [[key s1]|] eqn:E1; [|done]. cbn [mbind option_bind]. apply scanstring_length in E1.
    destruct (after ":" (skip_space s1)) as [s2|] eqn:E2; [|done]. cbn [mbind option_bind]. apply after_length in E2.
    pose proof (skip_space_length s1). pose proof (skip_space_length s2). cbn [String.length] in *.
    rewrite (IH1 (skip_space s2) m) by lia. destruct (scan_once float n (skip_space s2)) as [[v s3]|] eqn:E3; [|done].
    apply (scan_length n) in E3. pose proof (skip_space_length s3). cbn [mbind option_bind].
    destruct (skip_space s3) as [|c s4]; [done|]. cbn [String.length] in *. destruct (code c =? 125)%nat; [done|].
    destruct (code c =? 44)%nat; [|done]. destruct (after quote (skip_space s4)) as [s5|] eqn:E5; [|done]. cbn [mbind option_bind].
    apply after_length in E5. pose proof (skip_space_length s4). apply IH2; lia.
  - intros s [|m]; [lia|]. intros Hs Hm. cbn [scan_elements]. rewrite (IH1 s m) by lia.
    destruct (scan_once float n s) as [[v s1]|] eqn:E1; [|done]. apply (scan_length n) in E1. cbn [mbind option_bind].
    pose proof (skip_space_length s1). destruct (skip_space s1) as [|c s2]; [done|]. cbn [String.length] in *.
    destruct (code c =? 93)%nat; [done|]. destruct (code c =? 44)%nat; [|done]. pose proof (skip_space_length s2).
    by rewrite (IH3 (skip_space s2) m) by lia.
Qed.

(** ** Reading back what [dumps] writes *)

Open Scope string_scope.

Lemma skip_space_app s t : (∀ c s', s = String c s' → is_json_space c = false) → s ≠ "" → skip_space (s +:+ t) = s +:+ t.
Proof. destruct s as [|c s]; [done|]. intros H _. rewrite app_cons. cbn [skip_space]. by rewrite (H c s). Qed.

Lemma scanstring_char c t :
  scanstring (json_escape_char c +:+ t) = ('(x, rest) ← scanstring t; Some (String c x, rest)).
Proof. destruct c as [[] [] [] [] [] [] [] []]; reflexivity. Qed.

Lemma scanstring_escape s rest : scanstring (json_escape s +:+ quote +:+ rest) = Some (s, rest).
Proof.
  induction s as [|c s IH]; [reflexivity|]. cbn [json_escape]. by rewrite app_assoc_s, scanstring_char, IH.
Qed.

(** What may follow a number: nothing that would extend it. *)
Definition ends_number (s : string) : Prop :=
  match s with
  | String c _ => digit_value c = None ∧ (code c ≠ 46 ∧ code c ≠ 101 ∧ code c ≠ 69)%nat
  | EmptyString => True
  end.

Lemma digit_run_stop acc s : ends_number s → digit_run acc s = (EmptyString, acc, s).
Proof. destruct s as [|c s]; [done|]. intros [H _]. cbn [digit_run]. by rewrite H. Qed.

Lemma digit_run_pretty (n : N) t :
  digit_run 0 (pretty n +:+ t) = let '(d, v, r) := digit_run (Z.of_N n) t in (pretty n +:+ d, v, r).
Proof.
  revert t. induction (N.lt_wf_0 n) as [n _ IH]. intros t. destruct (decide (n < 10)%N) as [Hn|Hn].
  - rewrite pretty_small by done. rewrite app_cons. cbn [digit_run String.append].
    pose proof (digit_value_char (Z.of_N n) ltac:(lia)) as H. rewrite N2Z.id in H. rewrite H.
    replace (0 * 10 + Z.of_N n) with (Z.of_N n) by lia. change ("" +:+ t) with t. by destruct (digit_run _ t) as [[d v] r].
  - rewrite pretty_large by lia. rewrite app_assoc_s, IH by (apply N.div_lt; lia).
    rewrite app_cons. cbn [digit_run String.append].
    pose proof (N.div_mod n 10 ltac:(lia)) as Hdm. pose proof (N.mod_lt n 10 ltac:(lia)) as Hm.
    set (q := (n / 10)%N) in *. set (m := (n mod 10)%N) in *. clearbody q m.
    pose proof (digit_value_char (Z.of_N m) ltac:(lia)) as H. rewrite N2Z.id in H. rewrite H.
    replace (Z.of_N q * 10 + Z.of_N m) with (Z.of_N n) by lia.
    change ("" +:+ t) with t. destruct (digit_run _ t) as [[d v] r]. by rewrite app_assoc_s.
Qed.

Lemma digit_char_code n : (n < 10)%N → (code (pretty_N_char n) = 48 + N.to_nat n)%nat.
Proof.
  intros Hn. assert (n = 0 ∨ n = 1 ∨ n = 2 ∨ n = 3 ∨ n = 4 ∨ n = 5 ∨ n = 6 ∨ n = 7 ∨ n = 8 ∨ n = 9)%N as H by lia.
  repeat destruct H as [->|H]; [reflexivity..|]. by subst.
Qed.

(** A decimal starts with a digit, and with a zero only when it is zero. *)
Lemma pretty_first (n : N) :
  ∃ c s, pretty n = String c s ∧ (48 ≤ code c ≤ 57)%nat ∧ (n ≠ 0%N → code c ≠ 48%nat).
Proof.
  induction (N.lt_wf_0 n) as [n _ IH]. destruct (decide (n < 10)%N) as [Hn|Hn].
  - rewrite pretty_small by done. do 2 eexists. split; [done|]. rewrite digit_char_code by done. lia.
  - rewrite pretty_large by lia. destruct (IH (n / 10)%N) as (c & s & -> & H1 & H2); [apply N.div_lt; lia|].
    do 2 eexists. split; [done|]. split; [done|]. intros _. apply H2. intros E%N.div_small_iff; lia.
Qed.

Lemma digit_value_code c : (48 ≤ code c ≤ 57)%nat → digit_value c = Some (Z.of_nat (code c) - 48).
Proof. intros H. unfold digit_value. rewrite !(proj2 (Nat.leb_le _ _)) by lia. done. Qed.

Lemma scan_integer_pretty (n : N) rest :
  ends_number rest → scan_integer (pretty n +:+ rest) = Some (pretty n, Z.of_N n, rest).
Proof.
  intros Hr. destruct (decide (n = 0%N)) as [->|Hn]; [reflexivity|].
  destruct (pretty_first n) as (c & s & E & Hc & Hz). pose proof (digit_run_pretty n rest) as H.
  rewrite (digit_run_stop _ rest), app_nil_s in H by done. rewrite E in H |- *. rewrite app_cons in H |- *.
  unfold scan_integer. rewrite (proj2 (Nat.eqb_neq _ _)) by auto. by rewrite digit_value_code, H.
Qed.

Lemma after_char a c s : code c ≠ code a → after (String a "") (String c s) = None.
Proof. intros H. cbn [after]. destruct (Ascii.eqb_spec a c); [by subst|done]. Qed.

Lemma scan_number_pretty z rest : ends_number rest → scan_number float (pretty z +:+ rest) = Some (VInt z, rest).
Proof.
  intros Hr. assert (scan_fraction rest = ("", rest) ∧ scan_exponent rest = ("", rest)) as [Hf He].
  { destruct rest as [|c rest]; [done|]. destruct Hr as (_ & H1 & H2 & H3). unfold scan_fraction.
    rewrite after_char by done. split; [done|]. unfold scan_exponent.
    by rewrite !(proj2 (Nat.eqb_neq _ _)) by done. }
  assert (∀ n : N, after "-" (pretty n +:+ rest) = None) as Hpos.
  { intros n. destruct (pretty_first n) as (c & s & -> & Hc & _). apply after_char. change (code c ≠ 45%nat). lia. }
  unfold scan_number. destruct z as [|p|p].
  - change (pretty 0) with (pretty 0%N). rewrite Hpos, scan_integer_pretty by done. by rewrite Hf, He.
  - change (pretty (Z.pos p)) with (pretty (N.pos p)). rewrite Hpos, scan_integer_pretty by done. by rewrite Hf, He.
  - change (pretty (Z.neg p)) with ("-" +:+ pretty (N.pos p)). rewrite app_assoc_s.
    change (after "-" ("-" +:+ pretty (N.pos p) +:+ rest)) with (Some (pretty (N.pos p) +:+ rest)).
    cbv beta iota. rewrite scan_integer_pretty by done. by rewrite Hf, He.
Qed.

(** [text] is scanned as [v], whatever ends a number after it. *)
Definition reads (text : string) (v : pyval) : Prop :=
  (∃ c s, text = String c s ∧ is_json_space c = false ∧ code c ≠ 93%nat) ∧
  ∃ k, ∀ n rest, (k ≤ n)%nat → ends_number rest → scan_once float n (text +:+ rest) = Some (v, rest).

Lemma reads_skip text v rest : reads text v → skip_space (text +:+ rest) = text +:+ rest.
Proof. intros [(c & s & -> & H & _) _]. rewrite app_cons. cbn [skip_space]. by rewrite H. Qed.

Lemma scan_char c n s : (34 < code c)%nat → code c ∉ [123; 91; 110; 116; 102]%nat →
  scan_once float (S n) (String c s) = scan_number float (String c s).
Proof. intros H1 H2. cbn [scan_once]. by rewrite !(proj2 (Nat.eqb_neq _ _)) by (set_solver by lia). Qed.

Lemma reads_int z : reads (pretty z) (VInt z).
Proof.
  assert (∃ c s, pretty z = String c s ∧ (45 ≤ code c ≤ 57)%nat) as (c & s & E & Hc).
  { destruct z as [|p|p]; [by exists (chr 48), ""; split; [done|vm_compute; lia]|..].
    - destruct (pretty_first (N.pos p)) as (c & s & E & Hc & _). exists c, s. split; [done|lia].
    - by exists (chr 45), (pretty (N.pos p)); split; [done|vm_compute; lia]. }
  split.
  - exists c, s. split; [done|]. split; [|lia]. unfold is_json_space.
    by rewrite !(proj2 (Nat.eqb_neq _ _)) by lia.
  - exists 1%nat. intros [|n] rest Hn Hr; [lia|]. rewrite <- (scan_number_pretty z rest) by done.
    rewrite E, app_cons. apply scan_char; [lia|set_solver by lia].
Qed.

Lemma reads_str t : reads (json_string t) (VStr t).
Proof.
  split; [by do 2 eexists|]. exists 1%nat. intros [|n] rest Hn _; [lia|]. unfold json_string.
  rewrite !app_assoc_s.
  change (scan_once float (S n) (quote +:+ ?s)) with ('(t, r) ← scanstring s; Some (VStr t, r)).
  by rewrite scanstring_escape.
Qed.

Lemma join_cons sep x y l : join sep (x :: y :: l) = x +:+ sep +:+ join sep (y :: l).
Proof. done. Qed.

Lemma elements_last n s v rest :
  scan_once float n s = Some (v, "]" +:+ rest) → scan_elements float (S n) s = Some ([v], rest).
Proof. intros H. cbn [scan_elements]. by rewrite H. Qed.

Lemma elements_more n s v s' :
  scan_once float n s = Some (v, "," +:+ s') → skip_space s' = s' →
  scan_elements float (S n) s = ('(l, r) ← scan_elements float n s'; Some (v :: l, r)).
Proof.
  intros H Hs. cbn [scan_elements]. rewrite H.
  transitivity ('(l, r) ← scan_elements float n (skip_space s'); Some (v :: l, r)); [reflexivity|by rewrite Hs].
Qed.

Lemma reads_elements texts vs :
  texts ≠ [] → Forall2 reads texts vs →
  skip_space (join "," texts +:+ "]") = join "," texts +:+ "]" ∧
  ∃ k, ∀ n rest, (k ≤ n)%nat → scan_elements float n (join "," texts +:+ "]" +:+ rest) = Some (vs, rest).
Proof.
  intros Hne H. induction H as [|t v texts vs Ht H IH]; [done|]. pose proof Ht as [_ [k1 Hk1]].
  destruct texts as [|t' texts].
  - apply Forall2_nil_inv_l in H as ->. split; [by apply (reads_skip t v)|].
    exists (S k1). intros [|n] rest Hn; [lia|]. apply elements_last. by apply Hk1; [lia|].
  - destruct (IH ltac:(done)) as [Hs [k2 Hk2]]. rewrite join_cons.
    split; [rewrite app_assoc_s; by apply (reads_skip t v)|].
    exists (S (k1 + k2)). intros [|n] rest Hn; [lia|]. rewrite !app_assoc_s.
    erewrite elements_more; [|apply Hk1; [lia|done]|].
    + by rewrite Hk2 by lia.
    + inversion H as [|? v' ? ? Ht' ?]; subst. destruct texts; [by apply (reads_skip t' v')|].
      rewrite join_cons, !app_assoc_s. by apply (reads_skip t' v').
Qed.

Lemma members_last n items key s v rest :
  scan_once float n s = Some (v, "}" +:+ rest) → skip_space s = s →
  scan_members float (S n) items (json_escape key +:+ quote +:+ ":" +:+ s) = Some (dict_set key v items, rest).
Proof.
  intros H Hs. cbn [scan_members]. rewrite scanstring_escape.
  bind_step. change (after ":" (skip_space (":" +:+ s))) with (Some s). bind_step. by rewrite Hs, H.
Qed.

Lemma members_more n items key s v s' :
  scan_once float n s = Some (v, "," +:+ quote +:+ s') → skip_space s = s →
  scan_members float (S n) items (json_escape key +:+ quote +:+ ":" +:+ s) =
  scan_members float n (dict_set key v items) s'.
Proof.
  intros H Hs. cbn [scan_members]. rewrite scanstring_escape.
  bind_step. change (after ":" (skip_space (":" +:+ s))) with (Some s). bind_step. by rewrite Hs, H.
Qed.

Lemma dict_set_fresh {V} (key : string) (v : V) d : key ∉ map fst d → dict_set key v d = (d ++ [(key, v)])%list.
Proof.
  induction d as [|[k w] d IH]; [done|]. simpl. rewrite not_elem_of_cons. intros [Hk Hd].
  rewrite decide_False by congruence. by rewrite IH.
Qed.

Definition item_text (kv : string * string) : string := json_string kv.1 +:+ ":" +:+ kv.2.

(** The loop of an object, after its first quote. *)
Lemma reads_members items vs :
  items ≠ [] → Forall2 (λ kt kv, kt.1 = kv.1 ∧ reads kt.2 kv.2) items vs →
  ∃ s, join "," (map item_text items) = quote +:+ s ∧
  ∃ k, ∀ n acc rest, (k ≤ n)%nat → NoDup (map fst (acc ++ vs)%list) →
    scan_members float n acc (s +:+ "}" +:+ rest) = Some ((acc ++ vs)%list, rest).
Proof.
  intros Hne H. induction H as [|[key t] [key' v] items vs [E Ht] H IH]; [done|]. simpl in E, Ht. subst key'.
  pose proof Ht as [_ [k1 Hk1]].
  assert (∀ acc : list (string * pyval), NoDup (map fst (acc ++ (key, v) :: vs)%list) →
    dict_set key v acc = (acc ++ [(key, v)])%list) as Hset.
  { intros acc Hn. apply dict_set_fresh. rewrite map_app, NoDup_app in Hn. destruct Hn as (_ & Hn & _).
    intros Hin. eapply Hn; [done|left]. }
  destruct items as [|[key2 t2] items].
  - apply Forall2_nil_inv_l in H as ->. exists (json_escape key +:+ quote +:+ ":" +:+ t). split.
    { simpl. unfold item_text, json_string. simpl. by rewrite !app_assoc_s. }
    exists (S k1). intros [|n] acc rest Hn Hnd; [lia|]. rewrite !app_assoc_s.
    erewrite members_last; [by rewrite Hset|apply Hk1; [lia|done]|by apply (reads_skip t v)].
  - destruct (IH ltac:(done)) as (s & Es & k2 & Hk2).
    exists (json_escape key +:+ quote +:+ ":" +:+ t +:+ "," +:+ quote +:+ s). split.
    { cbn [map] in *. rewrite join_cons, Es. unfold item_text, json_string. cbn [fst snd]. by rewrite !app_assoc_s. }
    exists (S (k1 + k2)). intros [|n] acc rest Hn Hnd; [lia|]. rewrite !app_assoc_s.
    erewrite members_more; [|apply Hk1; [lia|done]|by apply (reads_skip t v)].
    rewrite Hset by done. rewrite Hk2; [by rewrite <- app_assoc|lia|by rewrite <- app_assoc].
Qed.

Lemma reads_open text v s rest :
  reads text v → after "]" (skip_space (text +:+ s +:+ rest)) = None.
Proof. intros H. rewrite reads_skip with (v := v) by done. destruct H as [(c & t & -> & _ & Hc) _]. by apply after_char. Qed.

Lemma reads_list l :
  Forall (λ v, reads (dumps v) (sort_value v)) l → reads (dumps (VList l)) (sort_value (VList l)).
Proof.
  intros H. split; [by do 2 eexists|]. cbn [dumps sort_value].
  destruct l as [|v l]; [exists 1%nat; intros [|n] rest Hn _; [lia|reflexivity]|].
  destruct (reads_elements (map dumps (v :: l)) (map sort_value (v :: l))) as [Hs [k Hk]]; [done| |].
  { by apply Forall2_fmap, Forall_Forall2_diag. }
  exists (S k). intros [|n] rest Hn _; [lia|]. rewrite !app_assoc_s.
  set (body := join "," (map dumps (v :: l))) in *.
  assert (∃ c t, body = String c t ∧ is_json_space c = false ∧ code c ≠ 93%nat) as (c & t & Eb & Hc & Hc').
  { apply Forall_cons in H as [[(c & t & E & Hc) _] _]. subst body. cbn [map].
    destruct l as [|v' l]; [by exists c, t|]. cbn [map]. rewrite join_cons, E.
    by exists c, (t +:+ "," +:+ join "," (map dumps (v' :: l))). }
  assert (skip_space (body +:+ "]" +:+ rest) = body +:+ "]" +:+ rest) as Hsk.
  { rewrite Eb, app_cons. cbn [skip_space]. by rewrite Hc. }
  transitivity (match after "]" (skip_space (body +:+ "]" +:+ rest)) with
                | Some rest => Some (VList [], rest)
                | None => '(items, rest) ← scan_elements float n (skip_space (body +:+ "]" +:+ rest)); Some (VList items, rest)
                end); [reflexivity|].
  rewrite Hsk, Hk by lia. rewrite Eb, app_cons. by rewrite after_char.
Qed.

Lemma reads_dict l :
  NoDup (map fst l) → Forall (λ kv, reads (dumps kv.2) (sort_value kv.2)) l →
  reads (dumps (VDict l)) (sort_value (VDict l)).
Proof.
  intros Hn H. split; [by do 2 eexists|]. cbn [dumps sort_value]. rewrite !sort_items_map by done.
  rewrite <- (sort_items_perm l) in Hn, H. generalize dependent (sort_items l). clear l. intros l Hn H.
  destruct l as [|kv l]; [exists 1%nat; intros [|n] rest Hk _; [lia|reflexivity]|].
  destruct (reads_members (map (λ kv, (kv.1, dumps kv.2)) (kv :: l)) (map (λ kv, (kv.1, sort_value kv.2)) (kv :: l)))
    as (s & Es & k & Hk); [done| |].
  { apply Forall2_fmap, Forall_Forall2_diag. eapply Forall_impl; [done|]. by intros ? ?. }
  exists (S k). intros [|n] rest Hkn _; [lia|]. change (λ kv, json_string kv.1 +:+ ":" +:+ kv.2) with item_text.
  rewrite Es, !app_assoc_s.
  transitivity ('(items, r) ← scan_members float n [] (s +:+ "}" +:+ rest); Some (VDict items, r)); [reflexivity|].
  rewrite Hk; [done|lia|]. cbn [app]. by rewrite map_map.
Qed.

Lemma reads_dumps v : distinct_keys v → float_free v → reads (dumps v) (sort_value v).
Proof.
  induction v as [|[]|z|i r|t|l IH|l IH] using pyval_rec_strong; intros Hd Hf.
  - split; [by do 2 eexists|]. exists 1%nat. by intros [|n] rest Hn _; [lia|].
  - split; [by do 2 eexists|]. exists 1%nat. by intros [|n] rest Hn _; [lia|].
  - split; [by do 2 eexists|]. exists 1%nat. by intros [|n] rest Hn _; [lia|].
  - apply reads_int.
  - done.
  - apply reads_str.
  - simpl in Hd, Hf. rewrite foldr_and in Hd, Hf. apply reads_list.
    rewrite Forall_forall in *. intros v Hv. auto.
  - destruct Hd as [Hn Hd]. apply (foldr_and (λ kv, distinct_keys kv.2)) in Hd.
    apply (foldr_and (λ kv, float_free kv.2)) in Hf. apply reads_dict; [done|].
    rewrite Forall_forall in *. intros kv Hkv. auto.
Qed.

(** The reader inverts the writer, up to the order of the keys. *)
Lemma loads_dumps v : distinct_keys v → float_free v → loads float (dumps v) = Ok (sort_value v).
Proof.
  intros Hd Hf. pose proof (reads_dumps v Hd Hf) as Hr. unfold loads.
  pose proof (reads_skip _ _ "" Hr) as Hs. rewrite app_nil_s in Hs. rewrite Hs.
  destruct Hr as [_ [k Hk]].
  destruct (scan_fuel (2 * len (dumps v) + 1)) as [Hfuel _].
  rewrite <- (Hfuel _ (k + (2 * len (dumps v) + 1))%nat) by lia.
  specialize (Hk (k + (2 * len (dumps v) + 1))%nat "" ltac:(lia) I). rewrite app_nil_s in Hk. by rewrite Hk.
Qed.

End Loads.
