(* ===== verification/FactStore.v ===== *)
(** * The fact tables of the catalog

    Models the tables [fact_heads], [fact_receipts] and [fact_conflicts] of
    [src/server/zerg/catalogd/models.py] with the row of [catalog_meta] that
    holds the commit sequence, and the statements that
    [src/server/zerg/catalogd/fact_reducer.py] runs against them.

    [fact_heads] is a finite map on its primary key.  The other two tables
    are lists of rows with their autoincrement [id]; an insert appends a row
    whose id is one more than the largest present, as SQLite allocates it.  A
    datetime column holds the wall clock only (see [PyTime.sqlite_store]). *)

From S2P Require Import Prelude PyStr PyTime.

Open Scope Z_scope.

(** The key that every fact table scopes its rows by: family, subject_key,
    source, source_epoch. *)
Abbreviation cand := (string * string * string * string)%type.

Definition cand_family (c : cand) : string := c.1.1.1.
Definition cand_subject (c : cand) : string := c.1.1.2.
Definition cand_source (c : cand) : string := c.1.2.
Definition cand_epoch (c : cand) : string := c.2.

Definition cand_list (c : cand) : list string := [c.1.1.1; c.1.1.2; c.1.2; c.2].

Definition cand_cmp (a b : cand) : comparison := strs_cmp (cand_list a) (cand_list b).

Record FactHead : Type := Head {
  h_session_id : option string;
  h_ordering_mode : string;
  h_source_seq : option Z;
  h_evidence_hash : string;
  h_observed_at : option Z;
  h_valid_until : option Z;
  h_value_json : string;
  h_raw_locator : option string;
  h_updated_commit_seq : Z;
  h_received_at : Z;
}.

Record FactReceipt : Type := Receipt {
  rc_id : Z;
  rc_cand : cand;
  rc_position_key : string;
  rc_source_seq : option Z;
  rc_dedupe_key : string;
  rc_evidence_hash : string;
  rc_received_at : Z;
  rc_commit_seq : Z;
}.

Record FactConflict : Type := Conflict {
  cf_id : Z;
  cf_cand : cand;
  cf_position_key : string;
  cf_source_seq : option Z;
  cf_conflict_kind : string;
  cf_existing_hash : string;
  cf_incoming_hash : string;
  cf_detected_at : Z;
  cf_commit_seq : Z;
}.

Record catalog : Type := Catalog {
  heads : gmap cand FactHead;
  receipts : list FactReceipt;
  conflicts : list FactConflict;
  commit_seq : Z;
  meta_updated_at : string;
}.

Definition set_heads (m : gmap cand FactHead) (db : catalog) : catalog :=
  Catalog m (receipts db) (conflicts db) (commit_seq db) (meta_updated_at db).
Definition set_receipts (l : list FactReceipt) (db : catalog) : catalog :=
  Catalog (heads db) l (conflicts db) (commit_seq db) (meta_updated_at db).
Definition set_conflicts (l : list FactConflict) (db : catalog) : catalog :=
  Catalog (heads db) (receipts db) l (commit_seq db) (meta_updated_at db).

(** ** What both row tables offer to a statement *)

Class Row (R : Type) : Type := {
  row_id : R → Z;
  row_cand : R → cand;
}.

#[export] Instance receipt_row : Row FactReceipt := {| row_id := rc_id; row_cand := rc_cand |}.
#[export] Instance conflict_row : Row FactConflict := {| row_id := cf_id; row_cand := cf_cand |}.

(** The position of a fact or none, as a BigInteger column takes it: SQLite's
    driver raises [OverflowError] on an integer of more than 64 bits. *)
Definition bindable (source_seq : option Z) : bool := match source_seq with Some n => int64 n | None => true end.

(** The id of the next inserted row. *)
Definition next_id {R} `{Row R} (rows : list R) : Z := 1 + foldr (λ r m, Z.max (row_id r) m) 0 rows.

(** Integers in descending order. *)
Definition desc (x y : Z) : comparison := Z.compare y x.

(** [_prune_candidate_rows]: keep the [keep] highest ids of one candidate. *)
Definition keep_ids {R} `{Row R} (candidate : cand) (keep : nat) (rows : list R) : list Z :=
  take keep (py_sorted desc (map row_id (filter (λ r, row_cand r = candidate) rows))).

Definition prune_candidate_rows {R} `{Row R} (candidate : cand) (keep : nat) (rows : list R) : list R :=
  filter (λ r, ¬ (row_cand r = candidate ∧ row_id r ∉ keep_ids candidate keep rows)) rows.

(** [_prune_candidate_rows_setwise]: [row_number()] over the candidate's rows
    by descending id; the rows whose rank exceeds [keep] are deleted. *)
Definition rank {R} `{Row R} (rows : list R) (r : R) : nat :=
  S (length (filter (λ r', row_cand r' = row_cand r ∧ row_id r < row_id r') rows)).

Definition prune_candidate_rows_setwise {R} `{Row R} (candidates : list cand) (keep : nat) (rows : list R) :
    list R :=
  match candidates with
  | [] => rows
  | _ =>
      let ranked := filter (λ r, row_cand r ∈ candidates) rows in
      let doomed := map row_id (filter (λ r, (keep < rank ranked r)%nat) ranked) in
      filter (λ r, row_id r ∉ doomed) rows
  end.

Definition MAX_HEADS_PER_FAMILY : nat := 2048.

(** The order of [keep_candidates] in [_prune_fact_family]: newest commit
    first, then the candidate columns. *)
Definition recent_cmp (a b : Z * cand) : comparison :=
  match Z.compare b.1 a.1 with Eq => cand_cmp a.2 b.2 | c => c end.

Definition family_heads (family : string) (db : catalog) : list (Z * cand) :=
  map (λ kh : cand * FactHead, (h_updated_commit_seq kh.2, kh.1))
      (filter (λ kh : cand * FactHead, cand_family kh.1 = family) (map_to_list (heads db))).

Definition keep_candidates (family : string) (db : catalog) : list cand :=
  map snd (take MAX_HEADS_PER_FAMILY (py_sorted recent_cmp (family_heads family db))).

Definition prune_fact_family (family : string) (db : catalog) : catalog :=
  let keep := keep_candidates family db in
  Catalog
    (filter (λ kh : cand * FactHead, ¬ (cand_family kh.1 = family ∧ kh.1 ∉ keep)) (heads db))
    (filter (λ r, ¬ (cand_family (rc_cand r) = family ∧ rc_cand r ∉ keep)) (receipts db))
    (filter (λ r, ¬ (cand_family (cf_cand r) = family ∧ cf_cand r ∉ keep)) (conflicts db))
    (commit_seq db) (meta_updated_at db).

(** [select(func.count()) ... where(family == family)]. *)
Definition head_count (family : string) (db : catalog) : nat := length (family_heads family db).

(** [_advance_commit_seq]. *)
Definition advance_commit_seq (at_ : datetime) (db : catalog) : Z * catalog :=
  let seq := commit_seq db + 1 in
  (seq, Catalog (heads db) (receipts db) (conflicts db) seq (isoformat at_)).

(** [.scalar_one_or_none()]. *)
Definition scalar_one_or_none {A} (l : list A) : res (option A) :=
  match l with
  | [] => Ok None
  | [x] => Ok (Some x)
  | _ => Err MultipleResultsFound
  end.

Definition receipts_by_dedupe (c : cand) (key : string) (rows : list FactReceipt) : list string :=
  map rc_evidence_hash (filter (λ r, rc_cand r = c ∧ rc_dedupe_key r = key) rows).

Definition receipts_by_position (c : cand) (key : string) (rows : list FactReceipt) : list string :=
  map rc_evidence_hash (filter (λ r, rc_cand r = c ∧ rc_position_key r = key) rows).

Definition conflicts_for (c : cand) (key incoming : string) (rows : list FactConflict) : list Z :=
  map cf_id (filter (λ r, cf_cand r = c ∧ cf_position_key r = key ∧ cf_incoming_hash r = incoming) rows).
