(* ===== verification/FactReducer.v ===== *)
(** * The row-wise fact reducer

    Models [reduce_fact_batch] of [src/server/zerg/catalogd/fact_reducer.py]
    and the helpers it shares with the set-wise reducer: validation of a
    fact, its candidate and position keys, and the canonical batch order.  A
    reduction runs inside the caller's transaction; an exception leaves
    through [Err] and the caller rolls back. *)

From S2P Require Import Prelude PyStr PyTime PyValue Sha256 MachineEvidence FactStore.

Open Scope Z_scope.

Record ReducerFact : Type := Fact {
  f_family : string;
  f_subject_key : string;
  f_source : string;
  f_source_epoch : string;
  f_source_seq : option Z;
  f_dedupe_key : string;
  f_evidence_hash : string;
  f_value : list (string * pyval);
  f_observed_at : option datetime;
  f_session_id : option string;
  f_valid_until : option datetime;
  f_raw_locator : option string;
}.

Record ReducerResult : Type := Result {
  res_commit_seq : Z;
  res_changed_heads : Z;
  res_duplicates : Z;
  res_stale : Z;
  res_conflicts : Z;
}.

Definition MAX_REDUCER_FACTS : nat := 256.
Definition MAX_VALUE_JSON_BYTES : nat := 4 * 1024.
Definition MAX_RAW_LOCATOR_BYTES : nat := 1024.
Definition MAX_RECEIPTS_PER_CANDIDATE : nat := 16.
Definition MAX_CONFLICTS_PER_CANDIDATE : nat := 8.

(** ** One fact *)

Definition candidate_key (fact : ReducerFact) : cand :=
  (f_family fact, f_subject_key fact, f_source fact, f_source_epoch fact).

Definition ordering_mode (fact : ReducerFact) : string :=
  match f_source_seq fact with Some _ => "sequenced" | None => "observed_at" end.

Definition position_key (fact : ReducerFact) : res string :=
  match f_source_seq fact with
  | Some seq => Ok ("seq:" +:+ fmt_zero 20 seq)
  | None =>
      match f_observed_at fact with
      | None => Err (ValueError "unsequenced fact requires observed_at")
      | Some at_ => let! at_utc := to_utc at_ in Ok ("time:" +:+ isoformat_us at_utc)
      end
  end.

(** [_aware]. *)
Definition check_aware (value : datetime) : res datetime :=
  if aware value then to_utc value else Err (ValueError "must include a timezone").

Definition len_le (s : string) (n : nat) : bool := (String.length s <=? n)%nat.

(** [_validate_fact]; every check raises [ValueError], and a time whose UTC
    form leaves the years 1 to 9999 overflows.  No check bounds [source_seq]
    from above. *)
Definition validate_fact (fact : ReducerFact) : res ReducerFact :=
  let! _ := guard (str_truthy (f_family fact) && len_le (f_family fact) 32)
                  (ValueError "fact family is missing or too long") in
  let! _ := guard (str_truthy (f_subject_key fact) && (utf8_length (f_subject_key fact) <=? 1024)%nat)
                  (ValueError "fact subject_key is missing or too long") in
  let! _ := guard (str_truthy (f_source fact) && len_le (f_source fact) 64)
                  (ValueError "fact source is missing or too long") in
  let! _ := guard (match f_session_id fact with
                   | Some s => str_truthy (strip s) && len_le s 255
                   | None => true
                   end) (ValueError "fact session_id is empty or too long") in
  let! _ := guard (len_le (f_source_epoch fact) 255) (ValueError "fact source_epoch is too long") in
  let! _ := guard (match f_source_seq fact with Some z => 0 <=? z | None => true end)
                  (ValueError "fact source_seq must be non-negative") in
  let! _ := guard (is_sha256 (f_dedupe_key fact)) (ValueError "fact dedupe_key must be lowercase sha256") in
  let! _ := guard (is_sha256 (f_evidence_hash fact))
                  (ValueError "fact evidence_hash must be lowercase sha256") in
  let! computed := canonical_evidence_hash (VDict (f_value fact)) in
  let! _ := guard (String.eqb computed (f_evidence_hash fact))
                  (ValueError "fact evidence_hash does not match canonical value") in
  let! json := canonical_value_json (VDict (f_value fact)) in
  let! _ := guard (utf8_length json <=? MAX_VALUE_JSON_BYTES)%nat
                  (ValueError "fact value exceeds reducer bound") in
  let! _ := guard (match f_raw_locator fact with
                   | Some l => (utf8_length l <=? MAX_RAW_LOCATOR_BYTES)%nat
                   | None => true
                   end) (ValueError "fact raw_locator exceeds reducer bound") in
  let! _ := match f_observed_at fact with
            | Some at_ => let! _ := check_aware at_ in Ok tt
            | None => Ok tt
            end in
  let! _ := match f_valid_until fact with
            | Some at_ => let! _ := check_aware at_ in Ok tt
            | None => Ok tt
            end in
  Ok fact.

(** ** From machine evidence *)

Section Wire.
(** [datetime.fromisoformat] off the RFC 3339 forms ([None] when it raises)
    and the offset that [astimezone] gives a naive wall clock: the host's
    local time. *)
Context (other_form : string → option datetime) (local_offset : Z → Z).

(** [s.replace("Z", "+00:00")]. *)
Fixpoint replace_z (s : string) : string :=
  match s with
  | EmptyString => EmptyString
  | String c s' => if (code c =? 90)%nat then "+00:00" +:+ replace_z s' else String c (replace_z s')
  end.

Definition astimezone (d : datetime) : res datetime :=
  match dt_off d with
  | Some _ => to_utc d
  | None => to_utc (DT (dt_wall d) (Some (local_offset (dt_wall d))))
  end.

(** [_parse_wire_datetime]. *)
Definition parse_wire_datetime (value : pyval) (nullable : bool) : res (option datetime) :=
  if nullable && is_none value then Ok None
  else match as_str value with
       | None => Err (ValueError "machine evidence timestamp must be an RFC3339 string")
       | Some s => match parse_iso other_form (replace_z s) with
                   | Some d => let! u := astimezone d in Ok (Some u)
                   | None => Err (ValueError "machine evidence timestamp must be an RFC3339 string")
                   end
       end.

(** The body of the loop of [reducer_facts_from_machine_evidence]. *)
Definition fact_of_identity (i : ValidatedEvidenceIdentity) : res ReducerFact :=
  let value := id_value i in
  let! observed_at := parse_wire_datetime (assoc "observed_at" value) false in
  let! valid_until := parse_wire_datetime (assoc "valid_until" value) true in
  Ok (Fact (id_family i) (id_subject_key i) (id_source i) (id_source_epoch i) (id_source_seq i)
           (id_dedupe_key i) (id_evidence_hash i) value observed_at (as_str (assoc "session_id" value))
           valid_until (as_str (assoc "raw_locator" value))).

Definition reducer_facts_from_machine_evidence (evidence : pyval) : res (list ReducerFact) :=
  match evidence with
  | VDict ev =>
      if eq_int (assoc "schema_version" ev) 3 then
        let! identities := validate_machine_evidence_identities evidence in
        map_res fact_of_identity identities
      else Ok []
  | _ => Ok []
  end.
End Wire.

(** ** The canonical batch order *)

(** [grouped]: one dict of facts by evidence hash per (candidate, position). *)
Abbreviation grouping := (gmap (list string) (gmap string ReducerFact)).

Definition group_key (fact : ReducerFact) : res (list string) :=
  let! position := position_key fact in Ok (cand_list (candidate_key fact) ++ [position])%list.

Definition group_step (st : grouping * Z) (raw_fact : ReducerFact) : res (grouping * Z) :=
  let '(grouped, duplicates) := st in
  let! fact := validate_fact raw_fact in
  let! key := group_key fact in
  let values := default ∅ (grouped !! key) in
  match values !! f_evidence_hash fact with
  | Some _ => Ok (<[key := values]> grouped, duplicates + 1)
  | None => Ok (<[key := <[f_evidence_hash fact := fact]> values]> grouped, duplicates)
  end.

(** [[fact for _hash, fact in sorted(grouped[key].items())]]. *)
Definition ordered_facts (values : gmap string ReducerFact) : list ReducerFact :=
  omap (λ h, values !! h) (py_sorted str_cmp (map fst (map_to_list values))).

Abbreviation prepared_batch :=
  (list (ReducerFact * string) * Z * list (ReducerFact * ReducerFact))%type.

Definition prepare_group (values : gmap string ReducerFact) :
    res (list (ReducerFact * string) * list (ReducerFact * ReducerFact)) :=
  match ordered_facts values with
  | [] => Ok ([], [])
  | winner :: others =>
      let! json := canonical_value_json (VDict (f_value winner)) in
      Ok ([(winner, json)], map (λ incoming, (winner, incoming)) others)
  end.

Definition sorted_groups (grouped : grouping) : list (gmap string ReducerFact) :=
  omap (λ k, grouped !! k) (py_sorted strs_cmp (map fst (map_to_list grouped))).

Definition prepare_batch (facts : list ReducerFact) : res prepared_batch :=
  let! '(grouped, duplicates) := fold_res group_step (∅, 0) facts in
  let! groups := map_res prepare_group (sorted_groups grouped) in
  Ok (concat (map fst groups), duplicates, concat (map snd groups)).

(** ** The reduction *)

(** The variables of [reduce_fact_batch] while it loops. *)
Record reduction : Type := Reduction {
  rd_db : catalog;
  rd_allocated_commit : option Z;
  rd_changed_heads : Z;
  rd_duplicates : Z;
  rd_stale : Z;
  rd_conflicts : Z;
  rd_touched : list (cand * ReducerFact);
}.

Definition with_db (db : catalog) (st : reduction) : reduction :=
  Reduction db (rd_allocated_commit st) (rd_changed_heads st) (rd_duplicates st) (rd_stale st)
    (rd_conflicts st) (rd_touched st).
Definition with_allocated (c : option Z) (st : reduction) : reduction :=
  Reduction (rd_db st) c (rd_changed_heads st) (rd_duplicates st) (rd_stale st)
    (rd_conflicts st) (rd_touched st).
Definition bump_changed (st : reduction) : reduction :=
  Reduction (rd_db st) (rd_allocated_commit st) (rd_changed_heads st + 1) (rd_duplicates st)
    (rd_stale st) (rd_conflicts st) (rd_touched st).
Definition bump_duplicates (st : reduction) : reduction :=
  Reduction (rd_db st) (rd_allocated_commit st) (rd_changed_heads st) (rd_duplicates st + 1)
    (rd_stale st) (rd_conflicts st) (rd_touched st).
Definition bump_stale (st : reduction) : reduction :=
  Reduction (rd_db st) (rd_allocated_commit st) (rd_changed_heads st) (rd_duplicates st)
    (rd_stale st + 1) (rd_conflicts st) (rd_touched st).
Definition bump_conflicts (n : Z) (st : reduction) : reduction :=
  Reduction (rd_db st) (rd_allocated_commit st) (rd_changed_heads st) (rd_duplicates st)
    (rd_stale st) (rd_conflicts st + n) (rd_touched st).
Definition touch (fact : ReducerFact) (st : reduction) : reduction :=
  Reduction (rd_db st) (rd_allocated_commit st) (rd_changed_heads st) (rd_duplicates st)
    (rd_stale st) (rd_conflicts st) (dict_set (candidate_key fact) fact (rd_touched st)).

Section Reduce.
(** The call's [received_at], already converted, and [commit_seq_override]. *)
Context (received_at : datetime) (override : option Z).

(** The [commit_seq()] closure: one commit per batch, allocated on first use. *)
Definition take_commit (st : reduction) : Z * reduction :=
  match rd_allocated_commit st with
  | Some c => (c, st)
  | None =>
      match override with
      | Some c => (c, with_allocated (Some c) st)
      | None =>
          let '(c, db) := advance_commit_seq received_at (rd_db st) in
          (c, with_allocated (Some c) (with_db db st))
      end
  end.

(** Binding the parameters of an insert. *)
Definition bind_position (fact : ReducerFact) : res unit := guard (bindable (f_source_seq fact)) OverflowError.

(** The insert of [_record_conflict], which counts one conflict. *)
Definition insert_conflict (fact : ReducerFact) (existing_hash position conflict_kind : string)
    (st : reduction) : reduction :=
  let '(c, st) := take_commit st in
  let rows := conflicts (rd_db st) in
  let row := Conflict (next_id rows) (candidate_key fact) position (f_source_seq fact) conflict_kind
                      existing_hash (f_evidence_hash fact) (sqlite_store received_at) c in
  bump_conflicts 1 (with_db (set_conflicts (rows ++ [row]) (rd_db st)) st).

(** [_record_conflict] followed by [conflicts += ...]: a replayed conflict
    counts for nothing. *)
Definition record_conflict (fact : ReducerFact) (existing_hash position conflict_kind : string)
    (st : reduction) : res reduction :=
  let! exists_ := scalar_one_or_none
                    (conflicts_for (candidate_key fact) position (f_evidence_hash fact)
                                   (conflicts (rd_db st))) in
  match exists_ with
  | Some _ => Ok (bump_conflicts 0 st)
  | None => let! _ := bind_position fact in Ok (insert_conflict fact existing_hash position conflict_kind st)
  end.

(** The recurring [conflicts += _record_conflict(...)] with its
    [touched_candidates[...] = fact]. *)
Definition conflict_and_touch (fact : ReducerFact) (existing_hash position kind : string)
    (st : reduction) : res reduction :=
  let! st := record_conflict fact existing_hash position kind st in Ok (touch fact st).

(** The column values of an accepted head. *)
Definition head_row (fact : ReducerFact) (value_json : string) (seq : Z) : FactHead :=
  Head (f_session_id fact) (ordering_mode fact) (f_source_seq fact) (f_evidence_hash fact)
       (sqlite_store <$> f_observed_at fact) (sqlite_store <$> f_valid_until fact) value_json
       (f_raw_locator fact) seq (sqlite_store received_at).

(** The upsert of the head, the receipt, and the bookkeeping. *)
Definition accept_fact (fact : ReducerFact) (value_json position : string) (st : reduction) : reduction :=
  let '(seq, st) := take_commit st in
  let db := set_heads (<[candidate_key fact := head_row fact value_json seq]> (heads (rd_db st))) (rd_db st) in
  let row := Receipt (next_id (receipts db)) (candidate_key fact) position (f_source_seq fact)
                     (f_dedupe_key fact) (f_evidence_hash fact) (sqlite_store received_at) seq in
  bump_changed (touch fact (with_db (set_receipts (receipts db ++ [row]) db) st)).

Definition try_accept (fact : ReducerFact) (value_json position : string) (st : reduction) : res reduction :=
  let! _ := bind_position fact in Ok (accept_fact fact value_json position st).

(** The comparison of an incoming fact with the head it would replace. *)
Definition against_head (fact : ReducerFact) (value_json position : string) (head : FactHead)
    (st : reduction) : res reduction :=
  let reuse :=
    if String.eqb (h_evidence_hash head) (f_evidence_hash fact) then Ok (bump_duplicates st)
    else conflict_and_touch fact (h_evidence_hash head) position "head_position_reuse" st in
  if negb (String.eqb (h_ordering_mode head) (ordering_mode fact)) then
    conflict_and_touch fact (h_evidence_hash head) position "ordering_mode_change" st
  else if String.eqb (ordering_mode fact) "sequenced" then
    match h_source_seq head with
    | None => Err (TypeError "int() argument must not be None")
    | Some head_seq =>
        match f_source_seq fact with
        | None => Err AssertionError
        | Some seq =>
            if seq <? head_seq then Ok (bump_stale st)
            else if seq =? head_seq then reuse
            else try_accept fact value_json position st
        end
    end
  else
    match f_observed_at fact with
    | None => Err AssertionError
    | Some observed =>
        match normalize_utc (sqlite_load <$> h_observed_at head) with
        | None => try_accept fact value_json position st
        | Some head_observed =>
            if dt_lt observed head_observed then Ok (bump_stale st)
            else if dt_eq observed head_observed then reuse
            else try_accept fact value_json position st
        end
    end.

(** One iteration over [prepared]. *)
Definition reduce_fact (st : reduction) (item : ReducerFact * string) : res reduction :=
  let '(fact, value_json) := item in
  let c := candidate_key fact in
  let! position := position_key fact in
  let! dedupe_receipt := scalar_one_or_none (receipts_by_dedupe c (f_dedupe_key fact) (receipts (rd_db st))) in
  match dedupe_receipt with
  | Some h =>
      if String.eqb h (f_evidence_hash fact) then Ok (bump_duplicates st)
      else conflict_and_touch fact h position "dedupe_key_reuse" st
  | None =>
      let! position_hash := scalar_one_or_none (receipts_by_position c position (receipts (rd_db st))) in
      match position_hash with
      | Some h =>
          if String.eqb h (f_evidence_hash fact) then Ok (bump_duplicates st)
          else conflict_and_touch fact h position "source_position_reuse" st
      | None =>
          match heads (rd_db st) !! c with
          | Some head => against_head fact value_json position head st
          | None => try_accept fact value_json position st
          end
      end
  end.

(** One iteration over [batch_conflicts]. *)
Definition reduce_batch_conflict (st : reduction) (pair : ReducerFact * ReducerFact) : res reduction :=
  let '(winner, incoming) := pair in
  let! position := position_key incoming in
  conflict_and_touch incoming (f_evidence_hash winner) position "same_batch_position_reuse" st.
End Reduce.

(** The bounds enforced on every touched candidate. *)
Definition prune_candidate (db : catalog) (fact : ReducerFact) : catalog :=
  let c := candidate_key fact in
  let db := set_receipts (prune_candidate_rows c MAX_RECEIPTS_PER_CANDIDATE (receipts db)) db in
  set_conflicts (prune_candidate_rows c MAX_CONFLICTS_PER_CANDIDATE (conflicts db)) db.

(** [sorted({fact.family for fact in touched_candidates.values()})]. *)
Definition touched_families (touched : list (cand * ReducerFact)) : list string :=
  py_sorted str_cmp (remove_dups (map (λ cf : cand * ReducerFact, f_family cf.2) touched)).

Definition prune_touched (touched : list (cand * ReducerFact)) (db : catalog) : catalog :=
  let db := fold_left prune_candidate (map snd touched) db in
  fold_left (λ db family, prune_fact_family family db) (touched_families touched) db.

(** The checks and reads both reducers start with. *)
Definition check_override (override : option Z) (db : catalog) : res unit :=
  guard (match override with Some c => c =? commit_seq db | None => true end)
        (ValueError "reducer commit_seq_override must equal the current catalog commit").

Definition start_reduction (db : catalog) (batch_duplicates : Z) : reduction :=
  Reduction db None 0 batch_duplicates 0 0 [].

Definition result_of (current_commit : Z) (st : reduction) : ReducerResult :=
  Result (default current_commit (rd_allocated_commit st)) (rd_changed_heads st) (rd_duplicates st)
         (rd_stale st) (rd_conflicts st).

(** [reduce_fact_batch]. *)
Definition reduce_fact_batch (db : catalog) (facts : list ReducerFact) (received_at : datetime)
    (override : option Z) : res (catalog * ReducerResult) :=
  let! _ := guard (length facts <=? MAX_REDUCER_FACTS)%nat (ValueError "reducer batch exceeds 256 facts") in
  let! received_at := check_aware received_at in
  let! '(prepared, batch_duplicates, batch_conflicts) := prepare_batch facts in
  let! _ := check_override override db in
  let! st := fold_res (reduce_fact received_at override) (start_reduction db batch_duplicates) prepared in
  let! st := fold_res (reduce_batch_conflict received_at override) st batch_conflicts in
  Ok (prune_touched (rd_touched st) (rd_db st), result_of (commit_seq db) st).
