(* ===== verification/FactReducerSetwise.v ===== *)
(** * The set-wise fact reducer

    Models [reduce_fact_batch_setwise] of
    [src/server/zerg/catalogd/fact_reducer.py]: three reads load the decision
    state of every candidate of the batch into in-memory indexes, the fold
    runs against the indexes, and three bulk writes store what it collected.
    This is the reducer the catalog daemon runs. *)

From S2P Require Import Prelude PyStr PyTime FactStore FactReducer.

Open Scope Z_scope.

(** [head_index] entries: the columns of a head the fold reads. *)
Record head_info : Type := HeadInfo {
  hi_ordering_mode : string;
  hi_source_seq : option Z;
  hi_evidence_hash : string;
  hi_observed_at : option datetime;
}.

(** A [pending_receipts] or [pending_conflicts] dict: a row without its id. *)
Record fold_state : Type := FoldState {
  fs_db : catalog;
  fs_allocated_commit : option Z;
  fs_changed_heads : Z;
  fs_duplicates : Z;
  fs_stale : Z;
  fs_conflicts : Z;
  fs_touched : list (cand * ReducerFact);
  fs_dedupe_index : gmap cand (gmap string string);
  fs_position_index : gmap cand (gmap string string);
  fs_head_index : gmap cand head_info;
  fs_known_conflicts : gset (cand * string * string);
  fs_pending_heads : gmap cand FactHead;
  fs_pending_receipts : list (Z → FactReceipt);
  fs_pending_conflicts : list (Z → FactConflict);
}.

(** ** The three reads *)

(** [index.setdefault(key, {})[k] = v]. *)
Definition index_set (c : cand) (k v : string) (index : gmap cand (gmap string string)) :
    gmap cand (gmap string string) :=
  <[c := <[k := v]> (default ∅ (index !! c))]> index.

(** [index.get(candidate, {}).get(k)]. *)
Definition index_get (c : cand) (k : string) (index : gmap cand (gmap string string)) : option string :=
  default ∅ (index !! c) !! k.

Definition load_dedupe_index (rows : list FactReceipt) : gmap cand (gmap string string) :=
  fold_left (λ ix r, index_set (rc_cand r) (rc_dedupe_key r) (rc_evidence_hash r) ix) rows ∅.

Definition load_position_index (rows : list FactReceipt) : gmap cand (gmap string string) :=
  fold_left (λ ix r, index_set (rc_cand r) (rc_position_key r) (rc_evidence_hash r) ix) rows ∅.

Definition load_head_info (head : FactHead) : head_info :=
  HeadInfo (h_ordering_mode head) (h_source_seq head) (h_evidence_hash head)
           (normalize_utc (sqlite_load <$> h_observed_at head)).

Definition load_head_index (candidates : list cand) (m : gmap cand FactHead) : gmap cand head_info :=
  load_head_info <$> filter (λ kh : cand * FactHead, kh.1 ∈ candidates) m.

Definition load_known_conflicts (rows : list FactConflict) : gset (cand * string * string) :=
  list_to_set (map (λ r, (cf_cand r, cf_position_key r, cf_incoming_hash r)) rows).

Definition start_fold (db : catalog) (batch_duplicates : Z) (candidate_list : list cand) : fold_state :=
  let receipt_rows := filter (λ r, rc_cand r ∈ candidate_list) (receipts db) in
  let conflict_rows := filter (λ r, cf_cand r ∈ candidate_list) (conflicts db) in
  FoldState db None 0 batch_duplicates 0 0 []
    (load_dedupe_index receipt_rows) (load_position_index receipt_rows)
    (load_head_index candidate_list (heads db)) (load_known_conflicts conflict_rows) ∅ [] [].

(** ** The fold *)

Definition fs_bump_duplicates (st : fold_state) : fold_state :=
  FoldState (fs_db st) (fs_allocated_commit st) (fs_changed_heads st) (fs_duplicates st + 1) (fs_stale st)
    (fs_conflicts st) (fs_touched st) (fs_dedupe_index st) (fs_position_index st) (fs_head_index st)
    (fs_known_conflicts st) (fs_pending_heads st) (fs_pending_receipts st) (fs_pending_conflicts st).
Definition fs_bump_stale (st : fold_state) : fold_state :=
  FoldState (fs_db st) (fs_allocated_commit st) (fs_changed_heads st) (fs_duplicates st) (fs_stale st + 1)
    (fs_conflicts st) (fs_touched st) (fs_dedupe_index st) (fs_position_index st) (fs_head_index st)
    (fs_known_conflicts st) (fs_pending_heads st) (fs_pending_receipts st) (fs_pending_conflicts st).
Definition fs_with_commit (c : option Z) (db : catalog) (st : fold_state) : fold_state :=
  FoldState db c (fs_changed_heads st) (fs_duplicates st) (fs_stale st)
    (fs_conflicts st) (fs_touched st) (fs_dedupe_index st) (fs_position_index st) (fs_head_index st)
    (fs_known_conflicts st) (fs_pending_heads st) (fs_pending_receipts st) (fs_pending_conflicts st).
Definition fs_touch (fact : ReducerFact) (st : fold_state) : fold_state :=
  FoldState (fs_db st) (fs_allocated_commit st) (fs_changed_heads st) (fs_duplicates st) (fs_stale st)
    (fs_conflicts st) (dict_set (candidate_key fact) fact (fs_touched st))
    (fs_dedupe_index st) (fs_position_index st) (fs_head_index st)
    (fs_known_conflicts st) (fs_pending_heads st) (fs_pending_receipts st) (fs_pending_conflicts st).
Definition fs_add_conflict (marker : cand * string * string) (row : Z → FactConflict) (st : fold_state) :
    fold_state :=
  FoldState (fs_db st) (fs_allocated_commit st) (fs_changed_heads st) (fs_duplicates st) (fs_stale st)
    (fs_conflicts st + 1) (fs_touched st) (fs_dedupe_index st) (fs_position_index st) (fs_head_index st)
    ({[marker]} ∪ fs_known_conflicts st) (fs_pending_heads st) (fs_pending_receipts st)
    (fs_pending_conflicts st ++ [row]).

Section Fold.
Context (received_at : datetime) (override : option Z).

(** The [commit_seq()] closure of this function. *)
Definition fs_take_commit (st : fold_state) : Z * fold_state :=
  match fs_allocated_commit st with
  | Some c => (c, st)
  | None =>
      match override with
      | Some c => (c, fs_with_commit (Some c) (fs_db st) st)
      | None =>
          let '(c, db) := advance_commit_seq received_at (fs_db st) in
          (c, fs_with_commit (Some c) db st)
      end
  end.

(** [note_conflict], followed by [conflicts += ...] and the touch. *)
Definition note_conflict (fact : ReducerFact) (existing_hash position kind : string) (st : fold_state) :
    fold_state :=
  let c := candidate_key fact in
  let marker := (c, position, f_evidence_hash fact) in
  if decide (marker ∈ fs_known_conflicts st) then fs_touch fact st
  else
    let '(seq, st) := fs_take_commit st in
    let row := λ id, Conflict id c position (f_source_seq fact) kind existing_hash (f_evidence_hash fact)
                              (sqlite_store received_at) seq in
    fs_touch fact (fs_add_conflict marker row st).

(** What an accepted fact establishes: the pending writes and the index
    entries later facts of the batch must see. *)
Definition establish (fact : ReducerFact) (value_json position : string) (st : fold_state) : fold_state :=
  let c := candidate_key fact in
  let '(seq, st) := fs_take_commit st in
  let receipt := λ id, Receipt id c position (f_source_seq fact) (f_dedupe_key fact) (f_evidence_hash fact)
                               (sqlite_store received_at) seq in
  FoldState (fs_db st) (fs_allocated_commit st) (fs_changed_heads st + 1) (fs_duplicates st) (fs_stale st)
    (fs_conflicts st) (dict_set c fact (fs_touched st))
    (index_set c (f_dedupe_key fact) (f_evidence_hash fact) (fs_dedupe_index st))
    (index_set c position (f_evidence_hash fact) (fs_position_index st))
    (<[c := HeadInfo (ordering_mode fact) (f_source_seq fact) (f_evidence_hash fact) (f_observed_at fact)]>
       (fs_head_index st))
    (fs_known_conflicts st)
    (<[c := head_row received_at fact value_json seq]> (fs_pending_heads st))
    (fs_pending_receipts st ++ [receipt]) (fs_pending_conflicts st).

Definition against_head_info (fact : ReducerFact) (value_json position : string) (head : head_info)
    (st : fold_state) : res fold_state :=
  let reuse :=
    if String.eqb (hi_evidence_hash head) (f_evidence_hash fact) then fs_bump_duplicates st
    else note_conflict fact (hi_evidence_hash head) position "head_position_reuse" st in
  if negb (String.eqb (hi_ordering_mode head) (ordering_mode fact)) then
    Ok (note_conflict fact (hi_evidence_hash head) position "ordering_mode_change" st)
  else if String.eqb (ordering_mode fact) "sequenced" then
    match hi_source_seq head with
    | None => Err (TypeError "int() argument must not be None")
    | Some head_seq =>
        match f_source_seq fact with
        | None => Err AssertionError
        | Some seq =>
            if seq <? head_seq then Ok (fs_bump_stale st)
            else if seq =? head_seq then Ok reuse
            else Ok (establish fact value_json position st)
        end
    end
  else
    match f_observed_at fact with
    | None => Err AssertionError
    | Some observed =>
        match hi_observed_at head with
        | None => Ok (establish fact value_json position st)
        | Some head_observed =>
            if dt_lt observed head_observed then Ok (fs_bump_stale st)
            else if dt_eq observed head_observed then Ok reuse
            else Ok (establish fact value_json position st)
        end
    end.

(** One iteration over [prepared]. *)
Definition fold_fact (st : fold_state) (item : ReducerFact * string) : res fold_state :=
  let '(fact, value_json) := item in
  let c := candidate_key fact in
  let! position := position_key fact in
  match index_get c (f_dedupe_key fact) (fs_dedupe_index st) with
  | Some h =>
      if String.eqb h (f_evidence_hash fact) then Ok (fs_bump_duplicates st)
      else Ok (note_conflict fact h position "dedupe_key_reuse" st)
  | None =>
      match index_get c position (fs_position_index st) with
      | Some h =>
          if String.eqb h (f_evidence_hash fact) then Ok (fs_bump_duplicates st)
          else Ok (note_conflict fact h position "source_position_reuse" st)
      | None =>
          match fs_head_index st !! c with
          | Some head => against_head_info fact value_json position head st
          | None => Ok (establish fact value_json position st)
          end
      end
  end.

(** One iteration over [batch_conflicts]. *)
Definition fold_batch_conflict (st : fold_state) (pair : ReducerFact * ReducerFact) : res fold_state :=
  let '(winner, incoming) := pair in
  let! position := position_key incoming in
  Ok (note_conflict incoming (f_evidence_hash winner) position "same_batch_position_reuse" st).
End Fold.

(** ** The three writes and the bounds *)

(** Binding the parameters of the three bulk writes, of which one position too
    long for its column fails all. *)
Definition bind_pending (st : fold_state) : res unit :=
  guard (forallb (λ kh : cand * FactHead, bindable (h_source_seq kh.2)) (map_to_list (fs_pending_heads st))
         && forallb (λ row : Z → FactReceipt, bindable (rc_source_seq (row 0))) (fs_pending_receipts st)
         && forallb (λ row : Z → FactConflict, bindable (cf_source_seq (row 0))) (fs_pending_conflicts st)) OverflowError.

(** A bulk insert allocates the ids of its rows in order. *)
Definition bulk_insert {R} `{Row R} (pending : list (Z → R)) (rows : list R) : list R :=
  fold_left (λ rows mk, rows ++ [mk (next_id rows)])%list pending rows.

Definition write_pending (st : fold_state) : catalog :=
  let db := fs_db st in
  Catalog (fs_pending_heads st ∪ heads db) (bulk_insert (fs_pending_receipts st) (receipts db))
          (bulk_insert (fs_pending_conflicts st) (conflicts db)) (commit_seq db) (meta_updated_at db).

Definition prune_family_if_over (db : catalog) (family : string) : catalog :=
  if (MAX_HEADS_PER_FAMILY <? head_count family db)%nat then prune_fact_family family db else db.

Definition prune_touched_setwise (touched : list (cand * ReducerFact)) (db : catalog) : catalog :=
  let pruned := py_sorted cand_cmp (map fst touched) in
  let db := set_receipts (prune_candidate_rows_setwise pruned MAX_RECEIPTS_PER_CANDIDATE (receipts db)) db in
  let db := set_conflicts (prune_candidate_rows_setwise pruned MAX_CONFLICTS_PER_CANDIDATE (conflicts db)) db in
  fold_left prune_family_if_over (touched_families touched) db.

(** [sorted(candidates)]. *)
Definition batch_candidates (prepared : list (ReducerFact * string))
    (batch_conflicts : list (ReducerFact * ReducerFact)) : list cand :=
  py_sorted cand_cmp
    (remove_dups (map (λ p : ReducerFact * string, candidate_key p.1) prepared
                  ++ map (λ p : ReducerFact * ReducerFact, candidate_key p.2) batch_conflicts)).

Definition fold_result_of (current_commit : Z) (st : fold_state) : ReducerResult :=
  Result (default current_commit (fs_allocated_commit st)) (fs_changed_heads st) (fs_duplicates st)
         (fs_stale st) (fs_conflicts st).

(** [reduce_fact_batch_setwise]. *)
Definition reduce_fact_batch_setwise (db : catalog) (facts : list ReducerFact) (received_at : datetime)
    (override : option Z) : res (catalog * ReducerResult) :=
  let! _ := guard (length facts <=? MAX_REDUCER_FACTS)%nat (ValueError "reducer batch exceeds 256 facts") in
  let! received_at := check_aware received_at in
  let! '(prepared, batch_duplicates, batch_conflicts) := prepare_batch facts in
  let! _ := check_override override db in
  match batch_candidates prepared batch_conflicts with
  | [] => Ok (db, Result (commit_seq db) 0 batch_duplicates 0 0)
  | candidate_list =>
      let! st := fold_res (fold_fact received_at override) (start_fold db batch_duplicates candidate_list)
                          prepared in
      let! st := fold_res (fold_batch_conflict received_at override) st batch_conflicts in
      let! _ := bind_pending st in
      Ok (prune_touched_setwise (fs_touched st) (write_pending st), fold_result_of (commit_seq db) st)
  end.
