(* ===== verification/FactStoreLaws.v ===== *)
(** * Laws of the fact tables

    The two pruning statements agree, pruning is stable, and the well-formed
    catalogs: unique ids and keys, every child row under a live head, and
    heads whose columns fit their ordering mode. *)

From S2P Require Import Prelude PyStr PyTime FactStore.

Open Scope list_scope.
Open Scope Z_scope.

(** ** Orders *)

#[export] Instance desc_comparison : Comparison desc.
Proof.
  unfold desc; split.
  - intros x y; by rewrite Z.compare_antisym.
  - intros x y z; rewrite !Z.compare_lt_iff; lia.
  - intros x y; rewrite Z.compare_eq_iff; naive_solver.
Qed.

Lemma cand_list_inj a b : cand_list a = cand_list b → a = b.
Proof. destruct a as [[[? ?] ?] ?], b as [[[? ?] ?] ?]; unfold cand_list; simpl. by intros [= -> -> -> ->]. Qed.

#[export] Instance cand_comparison : Comparison cand_cmp.
Proof.
  unfold cand_cmp; split.
  - intros x y; apply (cmp_flip strs_cmp).
  - intros x y z; apply (cmp_chain strs_cmp).
  - intros x y; rewrite (cmp_same strs_cmp). split; [apply cand_list_inj|by intros ->].
Qed.

#[export] Instance recent_comparison : Comparison recent_cmp.
Proof.
  unfold recent_cmp; split.
  - intros [s a] [t b]; simpl. rewrite (Z.compare_antisym t s).
    destruct (t ?= s); simpl; [apply (cmp_flip cand_cmp)|done|done].
  - intros [s a] [t b] [u c]; simpl.
    destruct (Z.compare_spec t s), (Z.compare_spec u t), (Z.compare_spec u s);
      try done; try lia. apply (cmp_chain cand_cmp).
  - intros [s a] [t b]; simpl. destruct (Z.compare_spec t s) as [->|H|H].
    + rewrite (cmp_same cand_cmp). naive_solver.
    + split; [done|intros [= -> ->]; lia].
    + split; [done|intros [= -> ->]; lia].
Qed.

(** ** The k largest of a list of distinct integers *)

Lemma filter_gt_prefix x l1 l2 :
  StronglySorted (cmp_le desc) (l1 ++ x :: l2) → NoDup (l1 ++ x :: l2) →
  filter (λ y, x < y) (l1 ++ x :: l2) = l1.
Proof.
  induction l1 as [|a l1 IH]; simpl; intros Hs Hn.
  - rewrite filter_cons_False by lia. apply StronglySorted_inv in Hs as [_ Hall].
    induction Hall as [|y l2 Hy Hall IHl]; [done|].
    rewrite filter_cons_False; [apply IHl|].
    + apply NoDup_cons in Hn as [Hx Hn]. apply NoDup_cons in Hn as [_ Hn].
      apply NoDup_cons; split; [set_solver|done].
    + unfold cmp_le, desc in Hy. rewrite Z.compare_gt_iff in Hy. lia.
  - apply StronglySorted_inv in Hs as [Hs Hall]. apply NoDup_cons in Hn as [Ha Hn].
    rewrite filter_cons_True; [by rewrite IH|].
    rewrite Forall_forall in Hall. specialize (Hall x ltac:(set_solver)).
    unfold cmp_le, desc in Hall. rewrite Z.compare_gt_iff in Hall.
    assert (a ≠ x) by set_solver. lia.
Qed.

Lemma elem_of_take_app {A} (x : A) k l1 l2 :
  NoDup (l1 ++ x :: l2) → x ∈ take k (l1 ++ x :: l2) ↔ (length l1 < k)%nat.
Proof.
  intros Hn. split.
  - intros Hx. destruct (decide (length l1 < k)%nat) as [|Hk]; [done|exfalso].
    rewrite take_app_le in Hx by lia. apply NoDup_app in Hn as (_ & Hd & _).
    apply (Hd x); [|set_solver]. by eapply elem_of_submseteq, submseteq_take.
  - intros Hk. rewrite take_app_ge by lia.
    replace (k - length l1)%nat with (S (k - length l1 - 1)) by lia. simpl. set_solver.
Qed.

Lemma elem_of_top (x : Z) k l :
  NoDup l → x ∈ l → x ∈ take k (py_sorted desc l) ↔ (length (filter (λ y, (x < y)%Z) l) < k)%nat.
Proof.
  intros Hn Hx. pose proof (py_sorted_perm desc l) as Hp.
  pose proof (py_sorted_sorted desc l) as Hs.
  assert (NoDup (py_sorted desc l)) as Hn' by by rewrite Hp.
  assert (length (filter (λ y, x < y) l) = length (filter (λ y, x < y) (py_sorted desc l))) as ->.
  { symmetry; by apply Permutation_length, filter_Permutation. }
  rewrite <- Hp in Hx. revert Hs Hn'.
  apply list_elem_of_split in Hx as (l1 & l2 & ->). intros Hs Hn'.
  by rewrite elem_of_take_app, filter_gt_prefix.
Qed.

(** ** Row ids *)

Section Rows.
Context {R : Type} `{!Row R}.
Implicit Types (r : R) (rows : list R) (c : cand).

Definition ids_unique rows : Prop := NoDup (map row_id rows).

Lemma next_id_fresh rows r : r ∈ rows → row_id r < next_id rows.
Proof. unfold next_id. induction 1 as [|r r' rows _ IH]; simpl; lia. Qed.

Lemma ids_unique_snoc rows r : ids_unique rows → row_id r = next_id rows → ids_unique (rows ++ [r]).
Proof.
  unfold ids_unique. intros Hu Hr. rewrite map_app. apply NoDup_app; split_and!; [done| |by apply NoDup_singleton].
  intros i (r' & -> & Hr')%list_elem_of_fmap Hi. simpl in Hi. apply list_elem_of_singleton in Hi.
  apply next_id_fresh in Hr'. lia.
Qed.

Lemma ids_unique_filter (P : R → Prop) `{∀ r, Decision (P r)} rows :
  ids_unique rows → ids_unique (filter P rows).
Proof.
  unfold ids_unique. intros Hu. eapply sublist_NoDup; [apply Hu|apply (fmap_sublist row_id), sublist_filter].
Qed.

Lemma ids_unique_inj rows r1 r2 :
  ids_unique rows → r1 ∈ rows → r2 ∈ rows → row_id r1 = row_id r2 → r1 = r2.
Proof.
  apply NoDup_map_inj.
Qed.

(** Rank depends only on the candidate's own rows. *)
Lemma rank_filter (P : R → Prop) `{∀ r, Decision (P r)} rows r :
  (∀ r', r' ∈ rows → row_cand r' = row_cand r → row_id r < row_id r' → P r') →
  rank (filter P rows) r = rank rows r.
Proof.
  intros HP. unfold rank. do 2 f_equal. rewrite list_filter_filter.
  induction rows as [|r' rows IH]; [done|].
  assert (filter (λ a, (row_cand a = row_cand r ∧ row_id r < row_id a) ∧ P a) rows
          = filter (λ a, row_cand a = row_cand r ∧ row_id r < row_id a) rows) as E.
  { apply IH. intros; apply HP; [by right|done..]. }
  destruct (decide (row_cand r' = row_cand r ∧ row_id r < row_id r')) as [[Hc Hi]|Hn].
  - rewrite !filter_cons_True; [by rewrite E|done|].
    split; [done|]. apply HP; [left|done..].
  - rewrite !filter_cons_False; [done..|naive_solver].
Qed.

Lemma keep_ids_rank c keep rows r :
  ids_unique rows → r ∈ rows → row_cand r = c →
  row_id r ∈ keep_ids c keep rows ↔ (rank rows r ≤ keep)%nat.
Proof.
  intros Hu Hr Hc. unfold keep_ids. rewrite elem_of_top.
  - unfold rank. rewrite Hc.
    assert (length (filter (λ y, row_id r < y) (map row_id (filter (λ r0, row_cand r0 = c) rows)))
            = length (filter (λ r', row_cand r' = c ∧ row_id r < row_id r') rows)) as ->; [|lia].
    clear. induction rows as [|r' rows IH]; [done|].
    destruct (decide (row_cand r' = c)) as [Hc|Hc].
    + rewrite (filter_cons_True (λ r0, row_cand r0 = c)) by done. simpl.
      destruct (decide (row_id r < row_id r')).
      * rewrite !filter_cons_True by done. simpl. by rewrite IH.
      * rewrite !filter_cons_False by naive_solver. done.
    + rewrite (filter_cons_False (λ r0, row_cand r0 = c)) by done.
      rewrite (filter_cons_False (λ r0, row_cand r0 = c ∧ _)) by naive_solver. done.
  - by apply ids_unique_filter.
  - apply list_elem_of_fmap. exists r; split; [done|]. by apply list_elem_of_filter.
Qed.

Lemma prune_candidate_rows_rank c keep rows :
  ids_unique rows →
  prune_candidate_rows c keep rows = filter (λ r, ¬ (row_cand r = c ∧ (keep < rank rows r)%nat)) rows.
Proof.
  intros Hu. unfold prune_candidate_rows.
  apply filter_ext_in. intros r Hr.
  split; intros Hn [Hc Hk]; apply Hn; (split; [done|]);
    (rewrite (keep_ids_rank c keep rows r) in * by done); lia.
Qed.

Lemma rank_mono rows r r' :
  row_cand r' = row_cand r → row_id r < row_id r' → (rank rows r' ≤ rank rows r)%nat.
Proof.
  intros Hc Hi. unfold rank. apply le_n_S, sublist_length. rewrite Hc.
  assert (filter (λ r0, row_cand r0 = row_cand r ∧ row_id r' < row_id r0) rows
          = filter (λ r0, row_id r' < row_id r0)
              (filter (λ r0, row_cand r0 = row_cand r ∧ row_id r < row_id r0) rows)) as ->.
  { rewrite list_filter_filter. apply filter_ext_in. intros r0 _. split; [|tauto].
    intros [? ?]; split_and!; [lia|done|lia]. }
  apply sublist_filter.
Qed.

(** What survives pruning the candidates [cs] to [keep] rows each. *)
Definition pruned (cs : list cand) (keep : nat) rows : list R :=
  filter (λ r, ¬ (row_cand r ∈ cs ∧ (keep < rank rows r)%nat)) rows.

Lemma pruned_proper cs cs' keep rows : cs ≡ₚ cs' → pruned cs keep rows = pruned cs' keep rows.
Proof. intros Hp. apply filter_ext_in. intros r _. by rewrite Hp. Qed.

Lemma ids_unique_pruned cs keep rows : ids_unique rows → ids_unique (pruned cs keep rows).
Proof. apply ids_unique_filter. Qed.

Lemma fold_prune_candidate_rows cs keep rows :
  ids_unique rows →
  fold_left (λ rows c, prune_candidate_rows c keep rows) cs rows = pruned cs keep rows.
Proof.
  unfold pruned. revert rows; induction cs as [|c cs IH]; intros rows Hu; simpl.
  { symmetry; apply filter_id_in. set_solver. }
  rewrite prune_candidate_rows_rank by done.
  rewrite IH by by apply ids_unique_filter.
  rewrite list_filter_filter. apply filter_ext_in. intros r Hr.
  destruct (decide (row_cand r = c ∧ (keep < rank rows r)%nat)) as [[Hc Hk]|Hn].
  { split; [tauto|]. intros Hn; exfalso; apply Hn; split; [set_solver|done]. }
  rewrite rank_filter; [set_solver|].
  intros r' Hr' Hc Hi [Hc' Hk]. apply Hn. split; [congruence|].
  pose proof (rank_mono rows r r' Hc Hi). lia.
Qed.

Lemma prune_setwise_pruned cs keep rows :
  ids_unique rows → prune_candidate_rows_setwise cs keep rows = pruned cs keep rows.
Proof.
  intros Hu. unfold pruned, prune_candidate_rows_setwise. destruct cs as [|c cs].
  { symmetry; apply filter_id_in. set_solver. }
  set (cs' := c :: cs). apply filter_ext_in. intros r Hr.
  apply not_iff_compat. rewrite list_elem_of_fmap. split.
  - intros (r' & E & [Hk [Hc Hr']%list_elem_of_filter]%list_elem_of_filter).
    assert (r' = r) as -> by by apply (ids_unique_inj rows).
    split; [done|]. rewrite rank_filter in Hk; [done|congruence].
  - intros [Hc Hk]. exists r; split; [done|].
    rewrite list_elem_of_filter, list_elem_of_filter, rank_filter by congruence. done.
Qed.

Lemma length_pruned c cs keep rows :
  ids_unique rows → c ∈ cs →
  (length (filter (λ r, row_cand r = c) (pruned cs keep rows)) ≤ keep)%nat.
Proof.
  intros Hu Hc.
  assert (filter (λ r, row_cand r = c) (pruned cs keep rows)
          ≡ₚ filter (λ r, row_cand r = c ∧ (rank rows r ≤ keep)%nat) rows) as ->.
  { unfold pruned. rewrite list_filter_filter.
    erewrite filter_ext_in; [done|]. intros r _; simpl. split.
    - intros [Hr Hn]. split; [done|]. destruct (decide (rank rows r ≤ keep)%nat); [done|].
      exfalso; apply Hn; rewrite Hr; split; [done|lia].
    - intros [Hr Hk]. split; [done|]. lia. }
  transitivity (length (keep_ids c keep rows)); [|unfold keep_ids; rewrite length_take; lia].
  rewrite <- (length_map row_id). apply submseteq_length, NoDup_submseteq.
  - by apply ids_unique_filter.
  - intros i (r & -> & [[Hr Hk] Hin]%list_elem_of_filter)%list_elem_of_fmap.
    by apply keep_ids_rank.
Qed.
End Rows.

(** ** Well-formed catalogs *)

(** The columns of a head fit its ordering mode. *)
Definition head_ok (head : FactHead) : Prop :=
  (h_ordering_mode head = "sequenced"%string ∧ is_Some (h_source_seq head)) ∨
  (h_ordering_mode head = "observed_at"%string ∧ h_source_seq head = None ∧ is_Some (h_observed_at head)).

Definition dedupe_of (r : FactReceipt) : cand * string := (rc_cand r, rc_dedupe_key r).
Definition position_of (r : FactReceipt) : cand * string := (rc_cand r, rc_position_key r).
Definition marker_of (r : FactConflict) : cand * string * string :=
  (cf_cand r, cf_position_key r, cf_incoming_hash r).

(** Primary keys and unique constraints of [models.py], and the two facts
    the reducers maintain: no child row without its head, and [head_ok]. *)
Record wf (db : catalog) : Prop := {
  wf_receipt_ids : ids_unique (receipts db);
  wf_conflict_ids : ids_unique (conflicts db);
  wf_dedupe : NoDup (map dedupe_of (receipts db));
  wf_position : NoDup (map position_of (receipts db));
  wf_marker : NoDup (map marker_of (conflicts db));
  wf_receipt_head : ∀ r, r ∈ receipts db → is_Some (heads db !! rc_cand r);
  wf_conflict_head : ∀ r, r ∈ conflicts db → is_Some (heads db !! cf_cand r);
  wf_heads : map_Forall (λ _ h, head_ok h) (heads db);
}.

Lemma NoDup_map_filter {A B} (f : A → B) (P : A → Prop) `{∀ x, Decision (P x)} l :
  NoDup (map f l) → NoDup (map f (filter P l)).
Proof. intros Hn. eapply sublist_NoDup; [apply Hn|apply (fmap_sublist f), sublist_filter]. Qed.

(** Dropping rows keeps a catalog well-formed while the surviving rows keep
    their heads. *)
Lemma wf_filter (P : cand * FactHead → Prop) (Q : FactReceipt → Prop) (Q' : FactConflict → Prop)
    `{∀ x, Decision (P x)} `{∀ x, Decision (Q x)} `{∀ x, Decision (Q' x)} db seq at_ :
  wf db →
  (∀ r h, Q r → heads db !! rc_cand r = Some h → P (rc_cand r, h)) →
  (∀ r h, Q' r → heads db !! cf_cand r = Some h → P (cf_cand r, h)) →
  wf (Catalog (filter P (heads db)) (filter Q (receipts db)) (filter Q' (conflicts db)) seq at_).
Proof.
  intros [] HQ HQ'. split; simpl; eauto using ids_unique_filter, NoDup_map_filter.
  - intros r [Hr Hin]%list_elem_of_filter. destruct (wf_receipt_head0 r Hin) as [h Hh].
    exists h. apply map_lookup_filter_Some; eauto.
  - intros r [Hr Hin]%list_elem_of_filter. destruct (wf_conflict_head0 r Hin) as [h Hh].
    exists h. apply map_lookup_filter_Some; eauto.
  - intros k h [Hh _]%map_lookup_filter_Some. by eapply wf_heads0.
Qed.

(** ** Pruning a family *)

Lemma elem_of_family_heads family db k s :
  (s, k) ∈ family_heads family db ↔
  cand_family k = family ∧ ∃ h, heads db !! k = Some h ∧ h_updated_commit_seq h = s.
Proof.
  unfold family_heads. rewrite list_elem_of_fmap. split.
  - intros ([k' h] & [= -> ->] & [Hf Hin]%list_elem_of_filter).
    apply elem_of_map_to_list in Hin. eauto.
  - intros (Hf & h & Hh & <-). exists (k, h); split; [done|].
    apply list_elem_of_filter; split; [done|]. by apply elem_of_map_to_list.
Qed.

Lemma NoDup_family_keys family db : NoDup (map snd (family_heads family db)).
Proof.
  unfold family_heads. rewrite map_map. simpl.
  apply (NoDup_map_filter fst). apply NoDup_fst_map_to_list.
Qed.

Lemma keep_candidates_all family db k h :
  (head_count family db ≤ MAX_HEADS_PER_FAMILY)%nat →
  heads db !! k = Some h → cand_family k = family → k ∈ keep_candidates family db.
Proof.
  unfold head_count, keep_candidates. intros Hc Hh Hf.
  rewrite take_ge by by rewrite (length_py_sorted recent_cmp).
  apply list_elem_of_fmap. exists (h_updated_commit_seq h, k); split; [done|].
  rewrite (elem_of_py_sorted recent_cmp). apply elem_of_family_heads; eauto.
Qed.

(** The sweep that the set-wise reducer skips would delete nothing. *)
Lemma prune_fact_family_id family db :
  wf db → (head_count family db ≤ MAX_HEADS_PER_FAMILY)%nat → prune_fact_family family db = db.
Proof.
  intros Hwf Hc. unfold prune_fact_family. destruct db as [hs rs cs seq at_]; simpl in *. f_equal.
  - apply map_filter_id. intros k h Hh [Hf Hn]. by eapply Hn, keep_candidates_all.
  - apply filter_id_in. intros r Hr [Hf Hn]. destruct (wf_receipt_head _ Hwf r Hr).
    by eapply Hn, keep_candidates_all.
  - apply filter_id_in. intros r Hr [Hf Hn]. destruct (wf_conflict_head _ Hwf r Hr).
    by eapply Hn, keep_candidates_all.
Qed.

Lemma prune_fact_family_wf family db : wf db → wf (prune_fact_family family db).
Proof. intros Hwf. apply wf_filter; simpl; tauto. Qed.

Lemma head_count_le family db (ks : list cand) :
  (∀ k h, heads db !! k = Some h → cand_family k = family → k ∈ ks) →
  (head_count family db ≤ length ks)%nat.
Proof.
  intros Hks. unfold head_count. rewrite <- (length_map snd).
  apply submseteq_length, NoDup_submseteq; [apply NoDup_family_keys|].
  intros k ([s k'] & -> & (Hf & h & Hh & _)%elem_of_family_heads)%list_elem_of_fmap. eauto.
Qed.

Lemma head_count_pruned family db :
  (head_count family (prune_fact_family family db) ≤ MAX_HEADS_PER_FAMILY)%nat.
Proof.
  transitivity (length (keep_candidates family db)).
  - apply head_count_le. intros k h Hh Hf. simpl in Hh.
    apply map_lookup_filter_Some in Hh as [_ Hn]; simpl in Hn.
    destruct (decide (k ∈ keep_candidates family db)); [done|]. exfalso; apply Hn. done.
  - unfold keep_candidates. rewrite length_map, length_take. lia.
Qed.

Lemma head_count_mono_family family db db' :
  (∀ k h, heads db' !! k = Some h → cand_family k = family → heads db !! k = Some h) →
  (head_count family db' ≤ head_count family db)%nat.
Proof.
  intros Hs. etransitivity; [|apply Nat.eq_le_incl, (length_map snd)].
  apply head_count_le. intros k h Hh Hf. apply list_elem_of_fmap.
  exists (h_updated_commit_seq h, k); split; [done|]. apply elem_of_family_heads. eauto.
Qed.

Lemma head_count_mono family db db' :
  heads db' ⊆ heads db → (head_count family db' ≤ head_count family db)%nat.
Proof. intros Hs. apply head_count_mono_family. intros k h Hh _. by eapply lookup_weaken. Qed.

(** A head newer than the rest of its family survives the sweep. *)
Lemma newest_head_kept family db k h :
  heads db !! k = Some h → cand_family k = family →
  (∀ k' h', heads db !! k' = Some h' → k' ≠ k → h_updated_commit_seq h' < h_updated_commit_seq h) →
  heads (prune_fact_family family db) !! k = Some h.
Proof.
  intros Hh Hf Hnew. simpl. apply map_lookup_filter_Some. split; [done|]. simpl. intros [_ Hn]. apply Hn.
  unfold keep_candidates. apply list_elem_of_fmap. exists (h_updated_commit_seq h, k); split; [done|].
  apply (py_sorted_first recent_cmp); [apply elem_of_family_heads; eauto|].
  intros [s k'] (_ & h' & Hh' & <-)%elem_of_family_heads. destruct (decide (k' = k)) as [->|Hne].
  - left. by simplify_eq.
  - right. unfold recent_cmp; simpl. pose proof (Hnew k' h' Hh' Hne) as Hlt.
    apply Z.compare_lt_iff in Hlt. by rewrite Hlt.
Qed.

Lemma prune_fact_family_heads family db : heads (prune_fact_family family db) ⊆ heads db.
Proof. apply map_filter_subseteq. Qed.

(** ** The candidate bounds as one step *)

Definition prune_rows (cs : list cand) (keep_receipts keep_conflicts : nat) (db : catalog) : catalog :=
  set_conflicts (pruned cs keep_conflicts (conflicts db))
    (set_receipts (pruned cs keep_receipts (receipts db)) db).

Lemma prune_rows_wf cs k1 k2 db : wf db → wf (prune_rows cs k1 k2 db).
Proof.
  intros []. unfold prune_rows, pruned. split; simpl; eauto using ids_unique_filter, NoDup_map_filter.
  - intros r [_ Hr]%list_elem_of_filter; auto.
  - intros r [_ Hr]%list_elem_of_filter; auto.
Qed.

(** The newest row of a candidate survives. *)
Lemma newest_row_kept {R} `{Row R} (rows : list R) r cs keep :
  row_id r = next_id rows → r ∈ pruned cs (S keep) (rows ++ [r]).
Proof.
  intros Hid. unfold pruned. apply list_elem_of_filter. split; [|set_solver].
  intros [_ Hk]. unfold rank in Hk. rewrite filter_nil_in in Hk; simpl in Hk; [lia|].
  intros r' [Hr'| ->%list_elem_of_singleton]%elem_of_app [_ Hlt]; [|lia].
  apply next_id_fresh in Hr'. lia.
Qed.

(** ** One-row reads *)

Lemma scalar_one_or_none_filter {A B C} `{EqDecision C} (key : A → C) (f : A → B) (P : A → Prop)
    `{∀ x, Decision (P x)} l k :
  NoDup (map key l) → (∀ a, P a → key a = k) →
  scalar_one_or_none (map f (filter P l)) = Ok (head (map f (filter P l))).
Proof.
  intros Hn HP.
  assert (NoDup (map key (filter P l))) as Hn' by by apply NoDup_map_filter.
  destruct (filter P l) as [|a [|b l']] eqn:E; [done..|exfalso].
  assert (P a ∧ P b) as [Ha Hb].
  { split; eapply (list_elem_of_filter P l); rewrite E; set_solver. }
  apply HP in Ha, Hb. simpl in Hn'. rewrite Ha, Hb in Hn'.
  apply NoDup_cons in Hn' as [Hn' _]. set_solver.
Qed.
