(* ===== verification/FactReducerLaws.v ===== *)
(** * Laws of the row-wise reducer

    What [_prepare_batch] guarantees, the invariants of the loop over the
    prepared facts (well-formed tables, heads that only move forward,
    counters that account for the batch, one commit per batch), and the
    bounds that pruning restores. *)

From S2P Require Import Prelude PyStr PyTime PyValue Sha256 MachineEvidence.
From S2P Require Import FactStore FactReducer FactStoreLaws.

Open Scope list_scope.
Open Scope Z_scope.

(** ** Validation and grouping *)

Lemma validate_fact_ok fact fact' : validate_fact fact = Ok fact' → fact' = fact.
Proof.
  unfold validate_fact. intros H.
  repeat match goal with
    | H : mbind _ _ = Ok _ |- _ => apply bind_ok in H as (? & _ & H)
    end. by simplify_eq.
Qed.

(** A fact that a batch may carry: it validates and has a position. *)
Definition admissible (fact : ReducerFact) : Prop :=
  validate_fact fact = Ok fact ∧ (is_Some (f_source_seq fact) ∨ is_Some (f_observed_at fact)).

Lemma position_key_ok fact p :
  position_key fact = Ok p → is_Some (f_source_seq fact) ∨ is_Some (f_observed_at fact).
Proof.
  unfold position_key, is_Some. destruct (f_source_seq fact), (f_observed_at fact); naive_solver.
Qed.

Lemma check_aware_ok d u : check_aware d = Ok u ↔ representable d = true ∧ u = astimezone_utc d.
Proof. unfold check_aware, representable, to_utc. destruct (aware d), (in_years (instant d)); naive_solver. Qed.

(** The times of a valid fact are aware and representable in UTC. *)
Lemma validate_fact_times fact at_ :
  validate_fact fact = Ok fact → f_observed_at fact = Some at_ ∨ f_valid_until fact = Some at_ →
  representable at_ = true.
Proof.
  unfold validate_fact. intros H.
  do 8 (apply bind_ok in H as ([] & _ & H)). apply bind_ok in H as (? & _ & H). apply bind_ok in H as ([] & _ & H).
  apply bind_ok in H as (? & _ & H). do 2 apply bind_ok in H as ([] & _ & H).
  apply bind_ok in H as ([] & Ho & H). apply bind_ok in H as ([] & Hv & _).
  intros [Hat|Hat]; [rewrite Hat in Ho; apply bind_ok in Ho as (? & [Hr _]%check_aware_ok & _)
                    |rewrite Hat in Hv; apply bind_ok in Hv as (? & [Hr _]%check_aware_ok & _)]; done.
Qed.

Lemma admissible_position fact : admissible fact → ∃ p, position_key fact = Ok p.
Proof.
  intros [Hv Hp]. unfold position_key. destruct (f_source_seq fact) as [s|]; [eauto|].
  destruct Hp as [[]|[at_ Hat]]; [done|]. rewrite Hat.
  pose proof (validate_fact_times fact at_ Hv (or_introl Hat)) as [_ H]%andb_true_iff.
  unfold to_utc. rewrite H. eauto.
Qed.

(** An iteration over a fact ends in [P], or raises because its position does
    not fit its column. *)
Definition ends {S} (fact : ReducerFact) (P : S → Prop) (r : res S) : Prop :=
  match r with Ok st => P st | Err e => e = OverflowError ∧ bindable (f_source_seq fact) = false end.

Lemma ends_impl {S} fact (P Q : S → Prop) r : (∀ st, P st → Q st) → ends fact P r → ends fact Q r.
Proof. destruct r; simpl; auto. Qed.

(** An entry of the grouping: where the fact sits and that it came from the
    batch. *)
Definition grouped_ok (facts : list ReducerFact) (grouped : grouping) : Prop :=
  ∀ key values h fact, grouped !! key = Some values → values !! h = Some fact →
    fact ∈ facts ∧ validate_fact fact = Ok fact ∧ group_key fact = Ok key ∧ f_evidence_hash fact = h.

Lemma group_step_ok facts grouped n raw grouped' n' :
  raw ∈ facts → grouped_ok facts grouped →
  group_step (grouped, n) raw = Ok (grouped', n') → grouped_ok facts grouped'.
Proof.
  intros Hin Hok H. unfold group_step in H.
  apply bind_ok in H as (fact & Hv & H). apply bind_ok in H as (key & Hk & H).
  pose proof (validate_fact_ok _ _ Hv) as ->.
  assert (∀ h f, default ∅ (grouped !! key) !! h = Some f →
                 f ∈ facts ∧ validate_fact f = Ok f ∧ group_key f = Ok key ∧ f_evidence_hash f = h) as Hdef.
  { intros h f. destruct (grouped !! key) as [values|] eqn:E; simpl; [by eapply Hok|].
    by rewrite lookup_empty. }
  destruct (default ∅ (grouped !! key) !! f_evidence_hash raw) eqn:E; simplify_eq;
    intros key' values h f; (destruct (decide (key' = key)) as [->|Hne];
      [rewrite lookup_insert_eq; intros [= <-]|rewrite lookup_insert_ne by done; apply Hok]).
  - apply Hdef.
  - intros [[<- <-]|[Hh Hf]]%lookup_insert_Some; [done|by apply Hdef].
Qed.

Lemma grouping_ok facts grouped n :
  fold_res group_step (∅, 0) facts = Ok (grouped, n) → grouped_ok facts grouped.
Proof.
  intros H. apply (fold_res_inv group_step (λ s, grouped_ok facts s.1)) in H; [done| |].
  - intros a [g1 n1] [g2 n2] Ha Hg Hs. by eapply group_step_ok.
  - intros key values h f. simpl. by rewrite lookup_empty.
Qed.

Lemma elem_of_ordered_facts f values : f ∈ ordered_facts values → ∃ h, values !! h = Some f.
Proof. unfold ordered_facts. rewrite list_elem_of_omap. naive_solver. Qed.

Lemma elem_of_sorted_groups values grouped : values ∈ sorted_groups grouped → ∃ k, grouped !! k = Some values.
Proof. unfold sorted_groups. rewrite list_elem_of_omap. naive_solver. Qed.

Lemma group_key_candidate f g key :
  group_key f = Ok key → group_key g = Ok key →
  candidate_key f = candidate_key g ∧ position_key f = position_key g.
Proof.
  unfold group_key. rewrite !bind_ok. intros (p & Hp & Ep) (q & Hq & Eq_). rewrite Hp, Hq.
  assert (cand_list (candidate_key f) ++ [p] = cand_list (candidate_key g) ++ [q]) as E by congruence.
  by apply app_inj_tail in E as [->%cand_list_inj ->].
Qed.

Lemma group_key_ok f key : validate_fact f = Ok f → group_key f = Ok key → admissible f.
Proof.
  unfold group_key. rewrite bind_ok. intros Hv (p & Hp & _).
  split; [done|]. by eapply position_key_ok.
Qed.

(** The text stored for a fact. *)
Definition stored_as (fact : ReducerFact) (json : string) : Prop :=
  canonical_value_json (VDict (f_value fact)) = Ok json.

(** What [_prepare_batch] hands to a reducer. *)
Record prepared_ok (facts : list ReducerFact) (prepared : list (ReducerFact * string))
    (pairs : list (ReducerFact * ReducerFact)) : Prop := {
  prepared_from : ∀ f json, (f, json) ∈ prepared → f ∈ facts ∧ admissible f ∧ stored_as f json;
  pairs_from : ∀ w i, (w, i) ∈ pairs → i ∈ facts ∧ admissible i;
  pairs_winner : ∀ w i, (w, i) ∈ pairs →
    candidate_key i = candidate_key w ∧ position_key i = position_key w ∧ ∃ json, (w, json) ∈ prepared;
}.

Lemma prepare_group_ok facts grouped values key prepared pairs :
  grouped_ok facts grouped → grouped !! key = Some values →
  prepare_group values = Ok (prepared, pairs) → prepared_ok facts prepared pairs.
Proof.
  intros Hg Hk H. unfold prepare_group in H.
  assert (∀ f, f ∈ ordered_facts values → f ∈ facts ∧ admissible f ∧ group_key f = Ok key) as Hf.
  { intros f [h Hh]%elem_of_ordered_facts. destruct (Hg _ _ _ _ Hk Hh) as (? & ? & ? & _).
    eauto using group_key_ok. }
  destruct (ordered_facts values) as [|w others]; simplify_eq.
  { split; set_solver. }
  apply bind_ok in H as (json & Hjson & [= <- <-]).
  destruct (Hf w ltac:(left)) as (? & ? & Hw). split.
  - intros f j [= -> ->]%list_elem_of_singleton. done.
  - intros w' i (i' & [= -> ->] & Hi)%list_elem_of_fmap. destruct (Hf i' ltac:(by right)) as (? & ? & _). done.
  - intros w' i (i' & [= -> ->] & Hi)%list_elem_of_fmap.
    destruct (Hf i' ltac:(by right)) as (_ & _ & Hi').
    destruct (group_key_candidate _ _ _ Hi' Hw). split_and!; [done..|].
    exists json. by apply list_elem_of_singleton.
Qed.

Lemma prepared_ok_concat facts groups :
  Forall (λ g : list (ReducerFact * string) * list (ReducerFact * ReducerFact), prepared_ok facts g.1 g.2) groups →
  prepared_ok facts (concat (map fst groups)) (concat (map snd groups)).
Proof.
  induction 1 as [|[p c] groups [Hp Hc Hw] _ [IHp IHc IHw]]; simpl in *; [split; set_solver|]. split.
  - intros f j [?|?]%elem_of_app; eauto.
  - intros w i [?|?]%elem_of_app; eauto.
  - intros w i [H|H]%elem_of_app.
    + destruct (Hw _ _ H) as (? & ? & j & ?). split_and!; [done..|]. exists j; set_solver.
    + destruct (IHw _ _ H) as (? & ? & j & ?). split_and!; [done..|]. exists j; set_solver.
Qed.

Lemma prepare_batch_ok facts prepared n pairs :
  prepare_batch facts = Ok (prepared, n, pairs) → prepared_ok facts prepared pairs.
Proof.
  unfold prepare_batch. intros H. apply bind_ok in H as ([grouped m] & Hg & H).
  apply bind_ok in H as (groups & Hm & [= <- <- <-]).
  apply grouping_ok in Hg. apply prepared_ok_concat.
  apply map_res_ok in Hm. apply Forall_forall. intros [p c] Hin.
  apply list_elem_of_lookup in Hin as [i Hi].
  destruct (Forall2_lookup_r _ _ _ _ _ Hm Hi) as (values & Hv & Hpg).
  apply list_elem_of_lookup_2, elem_of_sorted_groups in Hv as [k Hk]. by eapply prepare_group_ok.
Qed.

(** ** One iteration as an effect on the tables *)

(** The order in which a source's evidence replaces itself: same ordering
    mode, strictly later position. *)
Definition head_newer (h h' : FactHead) : Prop :=
  h_ordering_mode h' = h_ordering_mode h ∧
  match h_source_seq h, h_source_seq h' with
  | Some s, Some s' => s < s'
  | None, None => ∃ w w', h_observed_at h = Some w ∧ h_observed_at h' = Some w' ∧ w < w'
  | _, _ => False
  end.

(** An unsequenced fact as [reducer_facts_from_machine_evidence] builds it. *)
Definition observed_utc (fact : ReducerFact) : Prop :=
  ∀ at_, f_observed_at fact = Some at_ → dt_off at_ = Some 0.

(** When the head of its candidate lets a fact through. *)
Definition head_permits (fact : ReducerFact) (head : FactHead) : Prop :=
  h_ordering_mode head = ordering_mode fact ∧
  match f_source_seq fact with
  | Some s => ∃ hs, h_source_seq head = Some hs ∧ hs < s
  | None => ∃ w at_, h_source_seq head = None ∧ h_observed_at head = Some w ∧
                     f_observed_at fact = Some at_ ∧ w < instant at_
  end.

Section Effects.
Context (received_at : datetime) (override : option Z).

Definition commit_of (st : reduction) : Z :=
  match rd_allocated_commit st with
  | Some c => c
  | None => match override with Some c => c | None => commit_seq (rd_db st) + 1 end
  end.

Definition commit_db (st : reduction) : catalog :=
  match rd_allocated_commit st, override with
  | None, None => (advance_commit_seq received_at (rd_db st)).2
  | _, _ => rd_db st
  end.

Lemma take_commit_eq st :
  take_commit received_at override st
  = (commit_of st, with_allocated (Some (commit_of st)) (with_db (commit_db st) st)).
Proof.
  unfold take_commit, commit_of, commit_db. destruct st as [db a ? ? ? ? ?]; simpl.
  by destruct a, override.
Qed.

Lemma commit_db_heads st : heads (commit_db st) = heads (rd_db st).
Proof. unfold commit_db. by destruct (rd_allocated_commit st), override. Qed.
Lemma commit_db_receipts st : receipts (commit_db st) = receipts (rd_db st).
Proof. unfold commit_db. by destruct (rd_allocated_commit st), override. Qed.
Lemma commit_db_conflicts st : conflicts (commit_db st) = conflicts (rd_db st).
Proof. unfold commit_db. by destruct (rd_allocated_commit st), override. Qed.

Inductive effect (fact : ReducerFact) (st : reduction) : reduction → Prop :=
  | effect_duplicate : effect fact st (bump_duplicates st)
  | effect_stale : effect fact st (bump_stale st)
  | effect_replayed : effect fact st (touch fact (bump_conflicts 0 st))
  | effect_conflict existing position kind :
      (candidate_key fact, position, f_evidence_hash fact) ∉ map marker_of (conflicts (rd_db st)) →
      is_Some (heads (rd_db st) !! candidate_key fact) →
      effect fact st (touch fact (insert_conflict received_at override fact existing position kind st))
  | effect_accept value_json position :
      stored_as fact value_json → position_key fact = Ok position →
      (candidate_key fact, f_dedupe_key fact) ∉ map dedupe_of (receipts (rd_db st)) →
      (candidate_key fact, position) ∉ map position_of (receipts (rd_db st)) →
      (∀ h, heads (rd_db st) !! candidate_key fact = Some h → head_permits fact h) →
      effect fact st (accept_fact received_at override fact value_json position st).

(** Reads of at most one row. *)
Lemma receipts_by_dedupe_one c k db :
  wf db → scalar_one_or_none (receipts_by_dedupe c k (receipts db)) = Ok (head (receipts_by_dedupe c k (receipts db))).
Proof.
  intros Hwf. apply (scalar_one_or_none_filter dedupe_of _ _ _ (c, k)); [apply Hwf|].
  unfold dedupe_of. by intros r [-> ->].
Qed.

Lemma receipts_by_position_one c k db :
  wf db → scalar_one_or_none (receipts_by_position c k (receipts db)) = Ok (head (receipts_by_position c k (receipts db))).
Proof.
  intros Hwf. apply (scalar_one_or_none_filter position_of _ _ _ (c, k)); [apply Hwf|].
  unfold position_of. by intros r [-> ->].
Qed.

Lemma conflicts_for_one c k h db :
  wf db → scalar_one_or_none (conflicts_for c k h (conflicts db)) = Ok (head (conflicts_for c k h (conflicts db))).
Proof.
  intros Hwf. apply (scalar_one_or_none_filter marker_of _ _ _ (c, k, h)); [apply Hwf|].
  unfold marker_of. by intros r (-> & -> & ->).
Qed.

Lemma head_map_filter_None {A B} (f : A → B) (P : A → Prop) `{∀ x, Decision (P x)} l :
  head (map f (filter P l)) = None ↔ ∀ a, a ∈ l → ¬ P a.
Proof.
  split.
  - intros Hh a Ha HP. assert (a ∈ filter P l) as Hin by by apply list_elem_of_filter.
    destruct (filter P l); [set_solver|done].
  - intros Hn. by rewrite filter_nil_in.
Qed.

Lemma head_map_filter_Some {A B} (f : A → B) (P : A → Prop) `{∀ x, Decision (P x)} l b :
  head (map f (filter P l)) = Some b → ∃ a, a ∈ l ∧ P a ∧ f a = b.
Proof.
  destruct (filter P l) as [|a l'] eqn:E; simpl; [done|]. intros [= <-].
  assert (a ∈ filter P l) as [? ?]%list_elem_of_filter by (rewrite E; left). eauto.
Qed.

Lemma receipt_found db r :
  wf db → r ∈ receipts db →
  head (receipts_by_dedupe (rc_cand r) (rc_dedupe_key r) (receipts db)) = Some (rc_evidence_hash r).
Proof.
  intros Hwf Hr. unfold receipts_by_dedupe.
  destruct (head _) as [h|] eqn:E.
  - apply head_map_filter_Some in E as (r' & Hr' & [Hc Hk] & <-). do 2 f_equal.
    eapply (NoDup_map_inj dedupe_of); [apply Hwf|done..|]. unfold dedupe_of. congruence.
  - apply head_map_filter_None with (a := r) in E; [|done]. by destruct E.
Qed.

Lemma dedupe_free c k db : head (receipts_by_dedupe c k (receipts db)) = None ↔ (c, k) ∉ map dedupe_of (receipts db).
Proof.
  unfold receipts_by_dedupe. rewrite head_map_filter_None, list_elem_of_fmap. unfold dedupe_of.
  split; [intros Hn (r & [= -> ->] & Hr)|intros Hn r Hr [<- <-]; apply Hn]; naive_solver.
Qed.

Lemma position_free c k db : head (receipts_by_position c k (receipts db)) = None ↔ (c, k) ∉ map position_of (receipts db).
Proof.
  unfold receipts_by_position. rewrite head_map_filter_None, list_elem_of_fmap. unfold position_of.
  split; [intros Hn (r & [= -> ->] & Hr)|intros Hn r Hr [<- <-]; apply Hn]; naive_solver.
Qed.

Lemma marker_free c k h db :
  head (conflicts_for c k h (conflicts db)) = None ↔ (c, k, h) ∉ map marker_of (conflicts db).
Proof.
  unfold conflicts_for. rewrite head_map_filter_None, list_elem_of_fmap. unfold marker_of.
  split; [intros Hn (r & [= -> -> ->] & Hr)|intros Hn r Hr (<- & <- & <-); apply Hn]; naive_solver.
Qed.

Lemma conflict_and_touch_effect fact existing position kind st :
  wf (rd_db st) → is_Some (heads (rd_db st) !! candidate_key fact) →
  ends fact (effect fact st) (conflict_and_touch received_at override fact existing position kind st).
Proof.
  intros Hwf Hh. unfold conflict_and_touch, record_conflict. rewrite conflicts_for_one by done. simpl.
  destruct (head _) eqn:E; simpl; [apply effect_replayed|]. unfold bind_position.
  destruct (bindable _) eqn:Eb; simpl; [|by split]. apply effect_conflict; [by apply marker_free in E|done].
Qed.

Lemma try_accept_effect fact value_json position st :
  effect fact st (accept_fact received_at override fact value_json position st) →
  ends fact (effect fact st) (try_accept received_at override fact value_json position st).
Proof. intros He. unfold try_accept, bind_position. by destruct (bindable _) eqn:Eb. Qed.

Lemma accept_fact_eq fact value_json position st :
  accept_fact received_at override fact value_json position st =
  Reduction
    (Catalog (<[candidate_key fact := head_row received_at fact value_json (commit_of st)]> (heads (rd_db st)))
       (receipts (rd_db st) ++
          [Receipt (next_id (receipts (rd_db st))) (candidate_key fact) position (f_source_seq fact)
             (f_dedupe_key fact) (f_evidence_hash fact) (sqlite_store received_at) (commit_of st)])
       (conflicts (rd_db st)) (commit_seq (commit_db st)) (meta_updated_at (commit_db st)))
    (Some (commit_of st)) (rd_changed_heads st + 1) (rd_duplicates st) (rd_stale st) (rd_conflicts st)
    (dict_set (candidate_key fact) fact (rd_touched st)).
Proof.
  unfold accept_fact. rewrite take_commit_eq. simpl.
  unfold bump_changed, bump_conflicts, touch, with_db, set_receipts, set_conflicts, set_heads. simpl.
  by rewrite ?commit_db_heads, ?commit_db_receipts, ?commit_db_conflicts.
Qed.

Lemma insert_conflict_eq fact existing position kind st :
  touch fact (insert_conflict received_at override fact existing position kind st) =
  Reduction
    (Catalog (heads (rd_db st)) (receipts (rd_db st))
       (conflicts (rd_db st) ++
          [Conflict (next_id (conflicts (rd_db st))) (candidate_key fact) position (f_source_seq fact) kind
             existing (f_evidence_hash fact) (sqlite_store received_at) (commit_of st)])
       (commit_seq (commit_db st)) (meta_updated_at (commit_db st)))
    (Some (commit_of st)) (rd_changed_heads st) (rd_duplicates st) (rd_stale st) (rd_conflicts st + 1)
    (dict_set (candidate_key fact) fact (rd_touched st)).
Proof.
  unfold insert_conflict. rewrite take_commit_eq. simpl.
  unfold bump_changed, bump_conflicts, touch, with_db, set_receipts, set_conflicts, set_heads. simpl.
  by rewrite ?commit_db_heads, ?commit_db_receipts, ?commit_db_conflicts.
Qed.

Lemma effect_heads fact st st' k :
  effect fact st st' → is_Some (heads (rd_db st) !! k) → is_Some (heads (rd_db st') !! k).
Proof.
  destruct 1; try done.
  - by rewrite insert_conflict_eq.
  - rewrite accept_fact_eq; simpl. intros Hk. destruct (decide (k = candidate_key fact)) as [->|?].
    + by rewrite lookup_insert_eq.
    + by rewrite lookup_insert_ne.
Qed.

Lemma head_row_ok fact value_json seq : admissible fact → head_ok (head_row received_at fact value_json seq).
Proof.
  intros [_ Ha]. unfold head_ok, head_row, ordering_mode; simpl.
  destruct (f_source_seq fact) as [s|]; [left; eauto|right].
  destruct Ha as [[]|[at_ ->]]; [done|]. eauto.
Qed.

(** Every effect keeps the tables well-formed. *)
Lemma effect_wf fact st st' : admissible fact → effect fact st st' → wf (rd_db st) → wf (rd_db st').
Proof.
  intros Ha [| | |? ? ? Hm Hh|? ? _ Hp Hd Hpos Hh] Hwf; try done.
  - rewrite insert_conflict_eq. destruct Hwf. split; simpl; try done.
    + by apply ids_unique_snoc.
    + rewrite map_app. by apply NoDup_snoc.
    + intros r [Hr| ->%list_elem_of_singleton]%elem_of_app; auto.
  - rewrite accept_fact_eq. destruct Hwf. split; simpl; try done.
    + by apply ids_unique_snoc.
    + rewrite map_app. by apply NoDup_snoc.
    + rewrite map_app. by apply NoDup_snoc.
    + intros r [Hr| ->%list_elem_of_singleton]%elem_of_app; simpl; [|by rewrite lookup_insert_eq].
      apply lookup_insert_is_Some'; auto.
    + intros r Hr. apply lookup_insert_is_Some'; auto.
    + apply map_Forall_insert_2; [by apply head_row_ok|done].
Qed.

Lemma against_head_effect fact value_json position head st :
  wf (rd_db st) → admissible fact → stored_as fact value_json → position_key fact = Ok position →
  heads (rd_db st) !! candidate_key fact = Some head →
  (candidate_key fact, f_dedupe_key fact) ∉ map dedupe_of (receipts (rd_db st)) →
  (candidate_key fact, position) ∉ map position_of (receipts (rd_db st)) →
  ends fact (effect fact st) (against_head received_at override fact value_json position head st).
Proof.
  intros Hwf Ha Hj Hp Hh Hd Hpos.
  assert (is_Some (heads (rd_db st) !! candidate_key fact)) as Hs by eauto.
  assert (head_permits fact head →
          effect fact st (accept_fact received_at override fact value_json position st)) as Hacc.
  { intros Hperm. apply effect_accept; [done..|]. intros h Hh'. by simplify_eq. }
  pose proof (wf_heads _ Hwf _ _ Hh) as Hok. unfold against_head.
  destruct (String.eqb_spec (h_ordering_mode head) (ordering_mode fact)) as [Hm|Hm]; simpl;
    [|by apply conflict_and_touch_effect].
  unfold head_permits in Hacc. rewrite Hm in Hacc. unfold ordering_mode in *.
  destruct (f_source_seq fact) as [s|] eqn:Es; simpl in *.
  - destruct Hok as [[_ [hs Hhs]]|[Hm' _]]; [|congruence]. rewrite Hhs in Hacc |- *.
    destruct (Z.ltb_spec s hs); [apply effect_stale|].
    destruct (Z.eqb_spec s hs); [|apply try_accept_effect, Hacc; split; [done|]; exists hs; split; [done|lia]].
    destruct (String.eqb _ _); [apply effect_duplicate|by apply conflict_and_touch_effect].
  - destruct Hok as [[Hm' _]|(_ & Hhs & [w Hw])]; [congruence|].
    destruct Ha as [_ [[? ?]|[at_ Hat]]]; [congruence|]. rewrite Hat in Hacc |- *. rewrite Hw in Hacc |- *. simpl.
    unfold dt_lt, dt_eq. change (DT w (Some 0)) with (utc w). rewrite instant_utc.
    destruct (Z.ltb_spec (instant at_) w); [apply effect_stale|].
    destruct (Z.eqb_spec (instant at_) w).
    { destruct (String.eqb _ _); [apply effect_duplicate|by apply conflict_and_touch_effect]. }
    apply try_accept_effect, Hacc. split; [done|]. exists w, at_. split_and!; [done..|lia].
Qed.

(** On a well-formed catalog an iteration raises for nothing else. *)
Lemma reduce_fact_effect fact value_json st :
  wf (rd_db st) → admissible fact → stored_as fact value_json →
  ends fact (λ st', effect fact st st' ∧ is_Some (heads (rd_db st') !! candidate_key fact))
    (reduce_fact received_at override st (fact, value_json)).
Proof.
  intros Hwf Ha Hj. destruct (admissible_position fact Ha) as [position Hp].
  assert (∀ r, is_Some (heads (rd_db st) !! candidate_key fact) →
               ends fact (effect fact st) r →
               ends fact (λ st', effect fact st st' ∧ is_Some (heads (rd_db st') !! candidate_key fact)) r)
    as Hheads by (intros r ?; apply ends_impl; eauto using effect_heads).
  unfold reduce_fact. rewrite Hp. simpl. rewrite receipts_by_dedupe_one by done. simpl.
  destruct (head (receipts_by_dedupe _ _ _)) as [h|] eqn:Ed.
  { apply head_map_filter_Some in Ed as (r & Hr & [Hc _] & _).
    apply Hheads; [rewrite <- Hc; by apply wf_receipt_head|].
    destruct (String.eqb _ _); [apply effect_duplicate|].
    apply conflict_and_touch_effect; [done|]. rewrite <- Hc; by apply wf_receipt_head. }
  rewrite receipts_by_position_one by done. simpl.
  destruct (head (receipts_by_position _ _ _)) as [h|] eqn:Ep.
  { apply head_map_filter_Some in Ep as (r & Hr & [Hc _] & _).
    apply Hheads; [rewrite <- Hc; by apply wf_receipt_head|].
    destruct (String.eqb _ _); [apply effect_duplicate|].
    apply conflict_and_touch_effect; [done|]. rewrite <- Hc; by apply wf_receipt_head. }
  apply dedupe_free in Ed. apply position_free in Ep.
  destruct (heads (rd_db st) !! candidate_key fact) as [head|] eqn:Eh.
  - apply Hheads; [done|]. by apply against_head_effect.
  - unfold try_accept, bind_position. destruct (bindable _) eqn:Eb; simpl; [|by split].
    split; [apply effect_accept; [done..|]; by rewrite Eh|]. rewrite accept_fact_eq; simpl. by rewrite lookup_insert_eq.
Qed.
End Effects.

(** ** The whole loop *)

Lemma elem_of_dict_set {K V} `{EqDecision K} (key k : K) (v : V) d :
  k ∈ map fst (dict_set key v d) ↔ k = key ∨ k ∈ map fst d.
Proof.
  induction d as [|[k' v'] d IH]; simpl; [set_solver|].
  case_decide; simpl; set_solver.
Qed.

Section Loop.
Context (received_at : datetime) (override : option Z).

(** Both loops of the reducer, one after the other. *)
Definition reduce_prepared (st : reduction) (prepared : list (ReducerFact * string))
    (pairs : list (ReducerFact * ReducerFact)) : res reduction :=
  let! st := fold_res (reduce_fact received_at override) st prepared in
  fold_res (reduce_batch_conflict received_at override) st pairs.

(** [I n] holds after [n] iterations when effects carry it forward. *)
Definition carried (facts : list ReducerFact) (I : nat → reduction → Prop) : Prop :=
  ∀ n fact st st', fact ∈ facts → admissible fact → wf (rd_db st) → I n st →
    effect received_at override fact st st' → I (S n) st'.

(** A loop over facts ends in [P], or raises because a position does not fit
    its column. *)
Definition loop_ends (facts : list ReducerFact) (P : reduction → Prop) (r : res reduction) : Prop :=
  match r with Ok st => P st | Err e => e = OverflowError ∧ ∃ f, f ∈ facts ∧ bindable (f_source_seq f) = false end.

Lemma fold_prepared facts (I : nat → reduction → Prop) l n st :
  carried facts I → (∀ f json, (f, json) ∈ l → f ∈ facts ∧ admissible f ∧ stored_as f json) →
  wf (rd_db st) → I n st →
  loop_ends facts (λ st', wf (rd_db st') ∧ I (n + length l)%nat st' ∧
         (∀ k, is_Some (heads (rd_db st) !! k) → is_Some (heads (rd_db st') !! k)) ∧
         (∀ f json, (f, json) ∈ l → is_Some (heads (rd_db st') !! candidate_key f)))
    (fold_res (reduce_fact received_at override) st l).
Proof.
  intros Hc. revert n st. induction l as [|[f json] l IH]; intros n st Hl Hwf HI; cbn [fold_res length].
  { simpl. rewrite Nat.add_0_r. split_and!; set_solver. }
  destruct (Hl f json ltac:(left)) as (Hf & Ha & Hj).
  pose proof (reduce_fact_effect received_at override f json st Hwf Ha Hj) as H1. unfold ends in H1.
  destruct (reduce_fact _ _ st (f, json)) as [st1|e]; [|destruct H1; simpl; eauto]. destruct H1 as [He Hs].
  assert (∀ g j, (g, j) ∈ l → g ∈ facts ∧ admissible g ∧ stored_as g j) as Hl' by (intros g j Hg; apply (Hl g j); by right).
  pose proof (effect_wf _ _ _ _ _ Ha He Hwf) as Hwf1.
  pose proof (Hc n f st st1 Hf Ha Hwf HI He) as HI1.
  specialize (IH (S n) st1 Hl' Hwf1 HI1). unfold loop_ends in *.
  destruct (fold_res _ st1 l) as [st2|e]; [|done]. destruct IH as (Hwf2 & HI2 & Hmono & Hall).
  replace (n + S (length l))%nat with (S n + length l)%nat by lia. split_and!; try done.
  - intros k Hk. by eapply Hmono, effect_heads.
  - intros g j [[= -> ->]|Hg]%elem_of_cons; eauto.
Qed.

Lemma fold_pairs facts (I : nat → reduction → Prop) l n st :
  carried facts I → (∀ w i, (w, i) ∈ l → i ∈ facts ∧ admissible i) →
  wf (rd_db st) → I n st → (∀ w i, (w, i) ∈ l → is_Some (heads (rd_db st) !! candidate_key i)) →
  loop_ends facts (λ st', wf (rd_db st') ∧ I (n + length l)%nat st')
    (fold_res (reduce_batch_conflict received_at override) st l).
Proof.
  intros Hc. revert n st. induction l as [|[w i] l IH]; intros n st Hl Hwf HI Hh; cbn [fold_res length].
  { simpl. by rewrite Nat.add_0_r. }
  destruct (Hl w i ltac:(left)) as [Hi Ha]. destruct (admissible_position i Ha) as [p Hp].
  unfold reduce_batch_conflict at 1. rewrite Hp. cbn [mbind res_bind].
  pose proof (conflict_and_touch_effect received_at override i (f_evidence_hash w) p
              "same_batch_position_reuse" st Hwf (Hh w i ltac:(left))) as H1. unfold ends in H1.
  destruct (conflict_and_touch _ _ _ _ _ _ st) as [st1|e]; [|destruct H1; simpl; eauto].
  specialize (IH (S n) st1). replace (n + S (length l))%nat with (S n + length l)%nat by lia. apply IH.
  - intros v j Hj. apply (Hl v j). by right.
  - by eapply effect_wf.
  - by eapply Hc.
  - intros v j Hj. eapply effect_heads; [done|]. apply (Hh v j). by right.
Qed.

Lemma reduce_prepared_inv facts (I : nat → reduction → Prop) prepared pairs st :
  prepared_ok facts prepared pairs → carried facts I → wf (rd_db st) → I 0%nat st →
  loop_ends facts (λ st', wf (rd_db st') ∧ I (length prepared + length pairs)%nat st') (reduce_prepared st prepared pairs).
Proof.
  intros [Hp Hc Hw] Hcar Hwf HI. pose proof (fold_prepared facts I prepared 0 st Hcar Hp Hwf HI) as H1.
  unfold reduce_prepared, loop_ends in *. destruct (fold_res _ st prepared) as [st1|e]; [|done].
  destruct H1 as (Hwf1 & HI1 & _ & Hs). cbn [mbind res_bind]. apply (fold_pairs facts I); [done|done|done|apply HI1|].
  intros w i Hwi. destruct (Hw w i Hwi) as (-> & _ & json & Hj). eauto.
Qed.

(** *** What the loop leaves alone *)

Definition rows_of {R} `{Row R} (c : cand) (rows : list R) : list R := filter (λ r, row_cand r = c) rows.

Definition untouched (db : catalog) (st : reduction) (c : cand) : Prop :=
  heads (rd_db st) !! c = heads db !! c ∧
  rows_of c (receipts (rd_db st)) = rows_of c (receipts db) ∧
  rows_of c (conflicts (rd_db st)) = rows_of c (conflicts db).

Lemma rows_of_snoc {R} `{Row R} c (rows : list R) r : row_cand r ≠ c → rows_of c (rows ++ [r]) = rows_of c rows.
Proof. intros Hr. unfold rows_of. rewrite filter_app, filter_cons_False by done. by rewrite app_nil_r. Qed.

Definition keeps_untouched (db : catalog) (n : nat) (st : reduction) : Prop :=
  Forall (λ kf : cand * ReducerFact, kf.1 = candidate_key kf.2) (rd_touched st) ∧
  ∀ c, c ∉ map fst (rd_touched st) → untouched db st c.

Lemma Forall_dict_set {K V} `{EqDecision K} (P : K * V → Prop) key v d :
  Forall P d → P (key, v) → Forall P (dict_set key v d).
Proof.
  intros Hd Hv. induction Hd as [|[k' v'] d Hk Hd IH]; simpl; [by constructor|].
  case_decide; subst; by constructor.
Qed.

Lemma untouched_carried facts db : carried facts (keeps_untouched db).
Proof.
  intros n fact st st' _ _ _ [Ht Hu] He.
  destruct He as [| | |ex pos kind _ _|json pos _ _ _ _ _]; try done.
  - split; simpl; [by apply Forall_dict_set|].
    intros c Hc. rewrite elem_of_dict_set in Hc. apply Hu. tauto.
  - rewrite insert_conflict_eq. split; simpl; [by apply Forall_dict_set|].
    intros c Hc. rewrite elem_of_dict_set in Hc. destruct (Hu c) as (Hh & Hr & Hf); [tauto|].
    unfold untouched; simpl. by rewrite rows_of_snoc by (simpl; naive_solver).
  - rewrite accept_fact_eq. split; simpl; [by apply Forall_dict_set|].
    intros c Hc. rewrite elem_of_dict_set in Hc. destruct (Hu c) as (Hh & Hr & Hf); [tauto|].
    unfold untouched; simpl. rewrite rows_of_snoc by (simpl; naive_solver).
    by rewrite lookup_insert_ne by naive_solver.
Qed.

(** *** One commit per batch *)

Definition batch_commit (db : catalog) : Z :=
  match override with Some c => c | None => commit_seq db + 1 end.

Definition committed (db : catalog) (n : nat) (st : reduction) : Prop :=
  match rd_allocated_commit st with
  | None => rd_db st = db ∧ rd_changed_heads st = 0 ∧ rd_conflicts st = 0
  | Some c => c = batch_commit db ∧ 1 ≤ rd_changed_heads st + rd_conflicts st ∧
              commit_seq (rd_db st) = match override with Some _ => commit_seq db | None => commit_seq db + 1 end
  end.

Lemma commit_after db n st :
  committed db n st →
  commit_of override st = batch_commit db ∧
  commit_seq (commit_db received_at override st)
  = match override with Some _ => commit_seq db | None => commit_seq db + 1 end ∧
  0 ≤ rd_changed_heads st + rd_conflicts st.
Proof.
  unfold committed, commit_of, commit_db, batch_commit.
  destruct (rd_allocated_commit st), override; simpl.
  - intros (? & ? & ->); split_and!; [done..|lia].
  - intros (? & ? & ->); split_and!; [done..|lia].
  - intros (-> & ? & ?); split_and!; [done..|lia].
  - intros (-> & ? & ?); split_and!; [done..|lia].
Qed.

Lemma committed_carried facts db : carried facts (committed db).
Proof.
  intros n fact st st' _ _ _ Hc He. pose proof (commit_after db n st Hc) as (H1 & H2 & H3).
  destruct He as [| | |ex pos kind _ _|json pos _ _ _ _ _].
  - done.
  - done.
  - unfold committed in *; simpl in *. by rewrite Z.add_0_r.
  - rewrite insert_conflict_eq. unfold committed; simpl. split_and!; [done|lia|done].
  - rewrite accept_fact_eq. unfold committed; simpl. split_and!; [done|lia|done].
Qed.

(** *** Every fact counts at most once *)

Definition counted (duplicates : Z) (n : nat) (st : reduction) : Prop :=
  0 ≤ rd_changed_heads st ∧ duplicates ≤ rd_duplicates st ∧ 0 ≤ rd_stale st ∧ 0 ≤ rd_conflicts st ∧
  rd_changed_heads st + rd_duplicates st + rd_stale st + rd_conflicts st ≤ duplicates + Z.of_nat n.

Lemma counted_carried facts dup : carried facts (counted dup).
Proof.
  intros n fact st st' _ _ _ Hc He. unfold counted in *.
  destruct He as [| | |ex pos kind _ _|json pos _ _ _ _ _];
    rewrite ?insert_conflict_eq, ?accept_fact_eq; simpl; lia.
Qed.

(** *** Heads only move forward *)

Definition forward (db : catalog) (n : nat) (st : reduction) : Prop :=
  ∀ c h, heads db !! c = Some h →
    ∃ h', heads (rd_db st) !! c = Some h' ∧ (h' = h ∨ head_newer h h').

Lemma head_newer_trans h1 h2 h3 : head_newer h1 h2 → head_newer h2 h3 → head_newer h1 h3.
Proof.
  unfold head_newer. intros [Hm H] [Hm' H']. split; [congruence|].
  destruct (h_source_seq h1), (h_source_seq h2), (h_source_seq h3); try done; [lia|].
  destruct H as (w & w' & -> & Hw & ?), H' as (v & v' & Hv & -> & ?). rewrite Hw in Hv; simplify_eq.
  exists w, v'. split_and!; [done..|lia].
Qed.

Lemma head_permits_newer fact value_json seq h :
  observed_utc fact → head_ok h → head_permits fact h → head_newer h (head_row received_at fact value_json seq).
Proof.
  unfold head_permits, head_newer, head_row; simpl. intros Hu Hok [Hm H]. split; [done|].
  destruct (f_source_seq fact) as [s|].
  - destruct H as (hs & -> & ?). done.
  - destruct H as (w & at_ & -> & Hw & Hat & ?). rewrite Hat. exists w, (sqlite_store at_).
    split_and!; [done..|]. pose proof (Hu _ Hat) as E. unfold instant, sqlite_store in *. rewrite E in *.
    simpl in *. lia.
Qed.

Lemma forward_carried facts db : Forall observed_utc facts → carried facts (forward db).
Proof.
  intros Hutc n fact st st' Hin _ Hwf Hf He. rewrite Forall_forall in Hutc.
  destruct He as [| | |ex pos kind _ _|json pos _ _ _ _ Hperm]; try done.
  - by rewrite insert_conflict_eq.
  - rewrite accept_fact_eq. intros c h Hh. simpl.
    destruct (Hf c h Hh) as (h1 & Hh1 & Hle).
    destruct (decide (c = candidate_key fact)) as [->|?].
    + rewrite lookup_insert_eq. eexists; split; [done|]. right.
      assert (head_newer h1 (head_row received_at fact json (commit_of override st))).
      { apply head_permits_newer; [auto|by eapply wf_heads|auto]. }
      destruct Hle as [->|Hle]; [done|]. by eapply head_newer_trans.
    + rewrite lookup_insert_ne by done. eauto.
Qed.

(** *** No head is newer than the catalog *)

Definition commits_bounded (db : catalog) : Prop :=
  map_Forall (λ _ h, h_updated_commit_seq h ≤ commit_seq db) (heads db).

Lemma commits_carried facts db :
  (match override with Some c => c = commit_seq db | None => True end) →
  carried facts (λ n st, committed db n st ∧ commits_bounded (rd_db st)).
Proof.
  intros Ho n fact st st' Hin Ha Hwf [Hc Hb] He. split; [by eapply committed_carried|].
  pose proof (commit_after db n st Hc) as (H1 & H2 & H3).
  assert (commit_seq (rd_db st) ≤ commit_seq (commit_db received_at override st)).
  { unfold commit_db. destruct (rd_allocated_commit st), override; simpl; lia. }
  destruct He as [| | |ex pos kind _ _|json pos _ _ _ _ _]; try done.
  - rewrite insert_conflict_eq. intros k h Hh. specialize (Hb k h Hh). simpl in *. lia.
  - rewrite accept_fact_eq. unfold commits_bounded; simpl. apply map_Forall_insert_2.
    + simpl. rewrite H1, H2. unfold batch_commit. destruct override; lia.
    + intros k h Hh. specialize (Hb k h Hh). simpl in *. lia.
Qed.

(** *** Every head holds the evidence it is named by *)

Definition well_keyed (fact : ReducerFact) : Prop := distinct_keys (VDict (f_value fact)).

Definition backed (h : FactHead) : Prop :=
  ∃ value, distinct_keys value ∧ canonical_value_json value = Ok (h_value_json h) ∧
           canonical_evidence_hash value = Ok (h_evidence_hash h).

Definition heads_backed (db : catalog) : Prop := map_Forall (λ _ h, backed h) (heads db).

Lemma validate_fact_hash fact :
  validate_fact fact = Ok fact → canonical_evidence_hash (VDict (f_value fact)) = Ok (f_evidence_hash fact).
Proof.
  unfold validate_fact. intros H. do 8 (apply bind_ok in H as ([] & _ & H)).
  apply bind_ok in H as (computed & Hc & H). apply bind_ok in H as ([] & E%guard_ok & _).
  apply String.eqb_eq in E as ->. done.
Qed.

Lemma backed_carried facts : Forall well_keyed facts → carried facts (λ _ st, heads_backed (rd_db st)).
Proof.
  intros Hk n fact st st' Hin [Hv _] _ Hb He. rewrite Forall_forall in Hk.
  destruct He as [| | |ex pos kind _ _|json pos Hj _ _ _ _]; try done.
  - by rewrite insert_conflict_eq.
  - rewrite accept_fact_eq. unfold heads_backed; simpl. apply map_Forall_insert_2; [|done].
    exists (VDict (f_value fact)). split_and!; [by apply Hk|done|by apply validate_fact_hash].
Qed.

Lemma carried_impl facts (P : Prop) I : (P → carried facts I) → carried facts (λ n st, P → I n st).
Proof. intros HI n fact st st' ? ? ? H ? HP. eapply (HI HP); eauto. Qed.

Lemma carried_and facts I J : carried facts I → carried facts J → carried facts (λ n st, I n st ∧ J n st).
Proof. intros HI HJ n fact st st' ? ? ? [? ?] ?. split; [eapply HI|eapply HJ]; done. Qed.
End Loop.
