(* ===== verification/FactReducerSim.v ===== *)
(** * The set-wise reducer simulates the row-wise one

    The simulation relation between the tables the row-wise reducer writes
    through and the indexes and pending writes of the set-wise fold, its
    preservation by every iteration, and the agreement of the two bounds
    passes. *)

From S2P Require Import Prelude PyStr PyTime PyValue.
From S2P Require Import FactStore FactReducer FactReducerSetwise FactStoreLaws FactReducerLaws.

Open Scope list_scope.
Open Scope Z_scope.

(** ** The bounds passes *)

Lemma fold_prune_candidate facts db :
  fold_left prune_candidate facts db =
  set_conflicts
    (fold_left (λ rows c, prune_candidate_rows c MAX_CONFLICTS_PER_CANDIDATE rows) (map candidate_key facts)
       (conflicts db))
    (set_receipts
       (fold_left (λ rows c, prune_candidate_rows c MAX_RECEIPTS_PER_CANDIDATE rows) (map candidate_key facts)
          (receipts db)) db).
Proof.
  revert db; induction facts as [|fact facts IH]; intros db; simpl; [by destruct db|].
  by rewrite IH.
Qed.

Lemma touched_candidates (touched : list (cand * ReducerFact)) :
  Forall (λ kf : cand * ReducerFact, kf.1 = candidate_key kf.2) touched →
  map candidate_key (map snd touched) = map fst touched.
Proof. induction 1 as [|[k f] l Hk _ IH]; simpl in *; congruence. Qed.

Lemma prune_touched_rows touched db :
  wf db → Forall (λ kf : cand * ReducerFact, kf.1 = candidate_key kf.2) touched →
  prune_touched touched db =
  fold_left (λ db family, prune_fact_family family db) (touched_families touched)
    (prune_rows (map fst touched) MAX_RECEIPTS_PER_CANDIDATE MAX_CONFLICTS_PER_CANDIDATE db).
Proof.
  intros Hwf Ht. unfold prune_touched. rewrite fold_prune_candidate, touched_candidates by done.
  by rewrite !fold_prune_candidate_rows by apply Hwf.
Qed.

Lemma prune_family_if_over_eq family db : wf db → prune_family_if_over db family = prune_fact_family family db.
Proof.
  intros Hwf. unfold prune_family_if_over. destruct (Nat.ltb_spec MAX_HEADS_PER_FAMILY (head_count family db)); [done|].
  by rewrite prune_fact_family_id.
Qed.

Lemma fold_prune_families families db :
  wf db →
  fold_left prune_family_if_over families db
  = fold_left (λ db family, prune_fact_family family db) families db.
Proof.
  revert db; induction families as [|f families IH]; intros db Hwf; simpl; [done|].
  rewrite prune_family_if_over_eq by done. by apply IH, prune_fact_family_wf.
Qed.

Lemma prune_touched_agree touched db :
  wf db → Forall (λ kf : cand * ReducerFact, kf.1 = candidate_key kf.2) touched →
  prune_touched touched db = prune_touched_setwise touched db.
Proof.
  intros Hwf Ht. rewrite prune_touched_rows by done. unfold prune_touched_setwise.
  rewrite !prune_setwise_pruned by apply Hwf.
  rewrite !(pruned_proper (py_sorted cand_cmp (map fst touched)) (map fst touched)) by apply py_sorted_perm.
  symmetry. apply fold_prune_families. by apply prune_rows_wf.
Qed.

(** ** The indexes *)

Lemma index_get_set c k v c' k' ix :
  index_get c k (index_set c' k' v ix) = if decide (c = c' ∧ k = k') then Some v else index_get c k ix.
Proof.
  unfold index_get, index_set. destruct (decide (c = c')) as [->|Hc].
  - rewrite lookup_insert_eq. simpl. destruct (decide (k = k')) as [->|Hk].
    + rewrite lookup_insert_eq. by rewrite decide_True.
    + rewrite lookup_insert_ne by done. by rewrite decide_False by naive_solver.
  - rewrite lookup_insert_ne by done. by rewrite decide_False by naive_solver.
Qed.

Lemma index_get_load (key : FactReceipt → string) c k rows ix :
  index_get c k (fold_left (λ ix r, index_set (rc_cand r) (key r) (rc_evidence_hash r) ix) rows ix)
  = match last (map rc_evidence_hash (filter (λ r, rc_cand r = c ∧ key r = k) rows)) with
    | Some v => Some v
    | None => index_get c k ix
    end.
Proof.
  induction rows as [|r rows IH] using rev_ind; [done|].
  rewrite fold_left_app, filter_app, map_app. cbn [fold_left]. rewrite index_get_set, IH.
  destruct (decide (rc_cand r = c ∧ key r = k)) as [[<- <-]|Hn].
  - rewrite filter_cons_True by done. simpl. rewrite last_snoc. by rewrite decide_True.
  - rewrite filter_cons_False by done. simpl. rewrite app_nil_r. by rewrite decide_False by naive_solver.
Qed.

Lemma index_get_load_unique (key : FactReceipt → string) c k (cl : list cand) rows :
  c ∈ cl → NoDup (map (λ r, (rc_cand r, key r)) rows) →
  index_get c k (fold_left (λ ix r, index_set (rc_cand r) (key r) (rc_evidence_hash r) ix)
                   (filter (λ r, rc_cand r ∈ cl) rows) ∅)
  = head (map rc_evidence_hash (filter (λ r, rc_cand r = c ∧ key r = k) rows)).
Proof.
  intros Hc Hn. rewrite index_get_load, list_filter_filter.
  rewrite (filter_ext_in _ (λ r, rc_cand r = c ∧ key r = k)) by (intros r _; naive_solver).
  pose proof (scalar_one_or_none_filter (λ r, (rc_cand r, key r)) rc_evidence_hash
                (λ r, rc_cand r = c ∧ key r = k) rows (c, k) Hn) as H.
  destruct (filter _ rows) as [|r1 [|r2 l]]; [by unfold index_get; rewrite lookup_empty|done|].
  simpl in H. by specialize (H ltac:(by intros r [-> ->])).
Qed.

(** ** What the bulk writes bind *)

(** Every pending row fits its columns. *)
Definition clean (fs : fold_state) : Prop :=
  map_Forall (λ _ h, bindable (h_source_seq h) = true) (fs_pending_heads fs) ∧
  Forall (λ row : Z → FactReceipt, bindable (rc_source_seq (row 0)) = true) (fs_pending_receipts fs) ∧
  Forall (λ row : Z → FactConflict, bindable (cf_source_seq (row 0)) = true) (fs_pending_conflicts fs).

(** Some pending receipt or conflict does not. *)
Definition spoilt (fs : fold_state) : Prop :=
  Exists (λ row : Z → FactReceipt, bindable (rc_source_seq (row 0)) = false) (fs_pending_receipts fs) ∨
  Exists (λ row : Z → FactConflict, bindable (cf_source_seq (row 0)) = false) (fs_pending_conflicts fs).

Lemma forallb_Exists_false {A} (p : A → bool) l : Exists (λ x, p x = false) l → forallb p l = false.
Proof. induction 1 as [x l E|x l _ IH]; simpl; [by rewrite E|]. by rewrite IH, andb_false_r. Qed.

Lemma bind_pending_clean fs : clean fs → bind_pending fs = Ok tt.
Proof.
  intros (Hh & Hr & Hc). unfold bind_pending. rewrite !Forall_forall in *.
  rewrite !(proj2 (forallb_forall _ _)); [done|intros x Hx..].
  - apply Hc. by apply list_elem_of_In.
  - apply Hr. by apply list_elem_of_In.
  - destruct x as [k h]. apply list_elem_of_In, elem_of_map_to_list in Hx. by eapply Hh.
Qed.

Lemma bind_pending_spoilt fs : spoilt fs → bind_pending fs = Err OverflowError.
Proof.
  intros [H|H]; apply forallb_Exists_false in H; unfold bind_pending; rewrite H; [by rewrite andb_false_r|by rewrite andb_false_r].
Qed.

(** ** The simulation relation *)

Record sim (cl : list cand) (st : reduction) (fs : fold_state) : Prop := {
  sim_clean : clean fs;
  sim_db : rd_db st = write_pending fs;
  sim_allocated : rd_allocated_commit st = fs_allocated_commit fs;
  sim_changed : rd_changed_heads st = fs_changed_heads fs;
  sim_duplicates : rd_duplicates st = fs_duplicates fs;
  sim_stale : rd_stale st = fs_stale fs;
  sim_conflicts : rd_conflicts st = fs_conflicts fs;
  sim_touched : rd_touched st = fs_touched fs;
  sim_dedupe c k : c ∈ cl →
    index_get c k (fs_dedupe_index fs) = head (receipts_by_dedupe c k (receipts (rd_db st)));
  sim_position c k : c ∈ cl →
    index_get c k (fs_position_index fs) = head (receipts_by_position c k (receipts (rd_db st)));
  sim_head c : c ∈ cl → fs_head_index fs !! c = load_head_info <$> heads (rd_db st) !! c;
  sim_known c p h : c ∈ cl →
    (c, p, h) ∈ fs_known_conflicts fs ↔ (c, p, h) ∈ map marker_of (conflicts (rd_db st));
}.

Lemma sim_start cl dup db : wf db → sim cl (start_reduction db dup) (start_fold db dup cl).
Proof.
  intros Hwf. split; simpl; try done.
  - unfold write_pending; simpl. rewrite (left_id_L ∅ (∪)). by destruct db.
  - intros c k Hc. by apply (index_get_load_unique rc_dedupe_key); [|apply Hwf].
  - intros c k Hc. by apply (index_get_load_unique rc_position_key); [|apply Hwf].
  - intros c Hc. unfold load_head_index. rewrite lookup_fmap. f_equal.
    rewrite map_lookup_filter. destruct (heads db !! c); simpl; [|done]. by rewrite option_guard_True.
  - intros c p h Hc. unfold load_known_conflicts. rewrite elem_of_list_to_set, !list_elem_of_fmap.
    unfold marker_of. setoid_rewrite list_elem_of_filter. naive_solver.
Qed.

(** ** Every iteration is simulated *)

Section Steps.
Context (received_at : datetime) (override : option Z) (cl : list cand).

Definition fs_commit_of (fs : fold_state) : Z :=
  match fs_allocated_commit fs with
  | Some c => c
  | None => match override with Some c => c | None => commit_seq (fs_db fs) + 1 end
  end.

Definition fs_commit_db (fs : fold_state) : catalog :=
  match fs_allocated_commit fs, override with
  | None, None => (advance_commit_seq received_at (fs_db fs)).2
  | _, _ => fs_db fs
  end.

Lemma fs_take_commit_eq fs :
  fs_take_commit received_at override fs
  = (fs_commit_of fs, fs_with_commit (Some (fs_commit_of fs)) (fs_commit_db fs) fs).
Proof.
  unfold fs_take_commit, fs_commit_of, fs_commit_db. destruct fs as [db a]; simpl.
  by destruct a, override.
Qed.

Lemma sim_commit st fs :
  sim cl st fs →
  commit_of override st = fs_commit_of fs ∧
  commit_seq (commit_db received_at override st) = commit_seq (fs_commit_db fs) ∧
  meta_updated_at (commit_db received_at override st) = meta_updated_at (fs_commit_db fs) ∧
  heads (fs_commit_db fs) = heads (fs_db fs) ∧ receipts (fs_commit_db fs) = receipts (fs_db fs) ∧
  conflicts (fs_commit_db fs) = conflicts (fs_db fs).
Proof.
  intros Hs. unfold commit_of, fs_commit_of, commit_db, fs_commit_db.
  rewrite (sim_db _ _ _ Hs), (sim_allocated _ _ _ Hs).
  by destruct (fs_allocated_commit fs), override.
Qed.

Lemma bulk_insert_snoc {R} `{Row R} (pending : list (Z → R)) mk rows :
  bulk_insert (pending ++ [mk]) rows
  = bulk_insert pending rows ++ [mk (next_id (bulk_insert pending rows))].
Proof. unfold bulk_insert. by rewrite fold_left_app. Qed.

Lemma head_filter_snoc {A B} (f : A → B) (P : A → Prop) `{∀ x, Decision (P x)} l a :
  (P a → head (map f (filter P l)) = None) →
  head (map f (filter P (l ++ [a])))
  = if decide (P a) then Some (f a) else head (map f (filter P l)).
Proof.
  intros HP. rewrite filter_app. case_decide as Ha.
  - rewrite (filter_cons_True P) by done. specialize (HP Ha). by destruct (filter P l).
  - rewrite (filter_cons_False P) by done. by rewrite app_nil_r.
Qed.

(** A fold with a spoilt row: its head index can still be read to the end. *)
Definition readable (fs : fold_state) : Prop :=
  ∀ c hi, c ∈ cl → fs_head_index fs !! c = Some hi → hi_ordering_mode hi = "sequenced"%string → is_Some (hi_source_seq hi).

Definition lost (fs : fold_state) : Prop := spoilt fs ∧ readable fs.

Lemma sim_readable st fs : sim cl st fs → wf (rd_db st) → readable fs.
Proof.
  intros Hs Hwf c hi Hc H Hm. rewrite (sim_head _ _ _ Hs c Hc) in H. apply fmap_Some in H as (h & Hh & ->).
  apply (wf_heads _ Hwf) in Hh as [[_ [z Hz]]|[E _]]; [unfold load_head_info; simpl; rewrite Hz; eauto|simpl in Hm; congruence].
Qed.

(** One branch of the row-wise reducer against the same branch of the fold.
    When the row-wise reducer overflows, the fold goes on to its writes, which
    overflow. *)
Definition agree (r1 : res reduction) (r2 : res fold_state) : Prop :=
  match r1, r2 with
  | Ok st, Ok fs => sim cl st fs
  | Err e1, Ok fs => e1 = OverflowError ∧ lost fs
  | Err e1, Err e2 => e1 = e2
  | _, _ => False
  end.

Lemma conflict_agree fact existing position kind st fs :
  sim cl st fs → wf (rd_db st) → candidate_key fact ∈ cl →
  agree (conflict_and_touch received_at override fact existing position kind st)
        (Ok (note_conflict received_at override fact existing position kind fs)).
Proof.
  intros Hs Hwf Hc. pose proof (sim_readable _ _ Hs Hwf) as Hread.
  unfold conflict_and_touch, record_conflict. rewrite conflicts_for_one by done. simpl.
  unfold note_conflict. pose proof (sim_known _ _ _ Hs (candidate_key fact) position (f_evidence_hash fact) Hc) as Hk.
  destruct (head _) eqn:E; simpl.
  - rewrite decide_True; [|].
    + destruct Hs. split; simpl; rewrite ?Z.add_0_r; try done. by f_equal.
    + apply Hk. destruct (decide ((candidate_key fact, position, f_evidence_hash fact)
                                   ∈ map marker_of (conflicts (rd_db st)))); [done|].
      by apply marker_free in n; rewrite n in E.
  - apply marker_free in E. rewrite decide_False by by rewrite Hk. rewrite fs_take_commit_eq. unfold bind_position.
    destruct (bindable _) eqn:Eb; simpl.
    2: { split; [done|]. split; [|done]. right. simpl. apply Exists_app. right. by constructor. }
    rewrite insert_conflict_eq. destruct (sim_commit st fs Hs) as (Ec & Eq1 & Eq2 & Eh & Er & Ef).
    destruct Hs as [(Ch & Cr & Cc) Hdb Ha H1 H2 H3 H4 Ht Hd Hp Hhd Hkn]. split; simpl; try done; try congruence.
    + split; [done|]. split; [done|]. apply Forall_app. split; [done|]. by constructor.
    + unfold write_pending; simpl. rewrite Ec, Eq1, Eq2, Eh, Er, Ef, bulk_insert_snoc.
      by rewrite Hdb.
    + intros c p h Hin. rewrite elem_of_union, elem_of_singleton, map_app, elem_of_app, (Hkn c p h Hin).
      simpl. rewrite list_elem_of_singleton. unfold marker_of at 2; simpl. tauto.
Qed.

Lemma accept_sim fact value_json position st fs :
  sim cl st fs → candidate_key fact ∈ cl → observed_utc fact → bindable (f_source_seq fact) = true →
  (candidate_key fact, f_dedupe_key fact) ∉ map dedupe_of (receipts (rd_db st)) →
  (candidate_key fact, position) ∉ map position_of (receipts (rd_db st)) →
  sim cl (accept_fact received_at override fact value_json position st)
         (establish received_at override fact value_json position fs).
Proof.
  intros Hs Hc Hutc Hbind Hfd Hfp. apply dedupe_free in Hfd. apply position_free in Hfp.
  rewrite accept_fact_eq. unfold establish. rewrite fs_take_commit_eq.
  destruct (sim_commit st fs Hs) as (Ec & Eq1 & Eq2 & Eh & Er & Ef).
  destruct Hs as [(Ch & Cr & Cc) Hdb Ha H1 H2 H3 H4 Ht Hd Hp Hhd Hkn]. split; simpl; try done; try congruence.
  - split; [by apply map_Forall_insert_2|]. split; [|done]. apply Forall_app. split; [done|]. by constructor.
  - unfold write_pending; simpl. rewrite Ec, Eq1, Eq2, Eh, Er, Ef, bulk_insert_snoc, <- insert_union_l.
    by rewrite Hdb.
  - intros c k Hin. rewrite index_get_set, Hd by done. unfold receipts_by_dedupe.
    rewrite head_filter_snoc; simpl; [repeat case_decide; naive_solver|by intros [<- <-]].
  - intros c k Hin. rewrite index_get_set, Hp by done. unfold receipts_by_position.
    rewrite head_filter_snoc; simpl; [repeat case_decide; naive_solver|by intros [<- <-]].
  - intros c Hin. destruct (decide (c = candidate_key fact)) as [->|Hne].
    + rewrite !lookup_insert_eq. simpl. unfold load_head_info, head_row; simpl. do 2 f_equal.
      destruct (f_observed_at fact) as [at_|] eqn:E; simpl; [|done].
      pose proof (sqlite_roundtrip_utc at_ (Hutc _ E)) as Hr. simpl in Hr. by rewrite Hr.
    + rewrite !lookup_insert_ne by done. by apply Hhd.
Qed.

Lemma bump_duplicates_sim st fs : sim cl st fs → sim cl (bump_duplicates st) (fs_bump_duplicates fs).
Proof. intros []. split; simpl; congruence || done. Qed.

Lemma bump_stale_sim st fs : sim cl st fs → sim cl (bump_stale st) (fs_bump_stale fs).
Proof. intros []. split; simpl; congruence || done. Qed.

Lemma establish_readable fact value_json position fs :
  readable fs → readable (establish received_at override fact value_json position fs).
Proof.
  intros Hread c hi Hc H Hm. unfold establish in H. rewrite fs_take_commit_eq in H. simpl in H.
  apply lookup_insert_Some in H as [[_ <-]|[_ H]]; [|by eapply Hread]. simpl in Hm |- *. unfold ordering_mode in Hm.
  destruct (f_source_seq fact); [eauto|done].
Qed.

Lemma try_accept_agree fact value_json position st fs :
  sim cl st fs → wf (rd_db st) → candidate_key fact ∈ cl → observed_utc fact →
  (candidate_key fact, f_dedupe_key fact) ∉ map dedupe_of (receipts (rd_db st)) →
  (candidate_key fact, position) ∉ map position_of (receipts (rd_db st)) →
  agree (try_accept received_at override fact value_json position st)
        (Ok (establish received_at override fact value_json position fs)).
Proof.
  intros Hs Hwf Hc Hutc Hd Hp. unfold try_accept, bind_position. destruct (bindable _) eqn:Eb; simpl; [by apply accept_sim|].
  split; [done|]. split; [|by eapply establish_readable, sim_readable]. left. unfold establish. rewrite fs_take_commit_eq. simpl.
  apply Exists_app. right. by constructor.
Qed.

Lemma against_head_agree fact value_json position head st fs :
  sim cl st fs → wf (rd_db st) → candidate_key fact ∈ cl → observed_utc fact →
  (candidate_key fact, f_dedupe_key fact) ∉ map dedupe_of (receipts (rd_db st)) →
  (candidate_key fact, position) ∉ map position_of (receipts (rd_db st)) →
  agree (against_head received_at override fact value_json position head st)
        (against_head_info received_at override fact value_json position (load_head_info head) fs).
Proof.
  intros Hs Hwf Hc Hutc Hd Hp. unfold against_head, against_head_info; cbn [load_head_info hi_ordering_mode hi_source_seq hi_evidence_hash hi_observed_at].
  destruct (negb _); [by apply conflict_agree|].
  destruct (String.eqb (ordering_mode fact) _).
  - destruct (h_source_seq head) as [hs|]; [|done]. destruct (f_source_seq fact) as [s|]; [|done].
    destruct (s <? hs); [by apply bump_stale_sim|].
    destruct (s =? hs); [|by apply try_accept_agree].
    destruct (String.eqb _ _); [by apply bump_duplicates_sim|by apply conflict_agree].
  - destruct (f_observed_at fact) as [at_|]; [|done].
    destruct (normalize_utc _) as [hat|]; [|by apply try_accept_agree].
    destruct (dt_lt at_ hat); [by apply bump_stale_sim|].
    destruct (dt_eq at_ hat); [|by apply try_accept_agree].
    destruct (String.eqb _ _); [by apply bump_duplicates_sim|by apply conflict_agree].
Qed.

Lemma reduce_fact_agree fact value_json st fs :
  sim cl st fs → wf (rd_db st) → admissible fact → candidate_key fact ∈ cl → observed_utc fact →
  agree (reduce_fact received_at override st (fact, value_json))
        (fold_fact received_at override fs (fact, value_json)).
Proof.
  intros Hs Hwf Ha Hc Hutc. unfold reduce_fact, fold_fact.
  destruct (admissible_position fact Ha) as [position ->]. cbn [mbind res_bind].
  rewrite receipts_by_dedupe_one by done. rewrite (sim_dedupe _ _ _ Hs) by done. cbn [mbind res_bind].
  destruct (head (receipts_by_dedupe _ _ _)) as [h|] eqn:Ed.
  { destruct (String.eqb _ _); [by apply bump_duplicates_sim|by apply conflict_agree]. }
  rewrite receipts_by_position_one by done. rewrite (sim_position _ _ _ Hs) by done. cbn [mbind res_bind].
  destruct (head (receipts_by_position _ _ _)) as [h|] eqn:Ep.
  { destruct (String.eqb _ _); [by apply bump_duplicates_sim|by apply conflict_agree]. }
  apply dedupe_free in Ed. apply position_free in Ep. rewrite (sim_head _ _ _ Hs) by done.
  destruct (heads (rd_db st) !! candidate_key fact) as [head|]; simpl.
  - by apply against_head_agree.
  - by apply try_accept_agree.
Qed.
(** *** After an overflow *)

(** The fold can still be read, and a spoilt row stays. *)
Definition keeps_on (fs fs' : fold_state) : Prop := readable fs' ∧ (spoilt fs → spoilt fs').

Lemma note_conflict_keeps fact existing position kind fs :
  readable fs → keeps_on fs (note_conflict received_at override fact existing position kind fs).
Proof.
  intros Hread. unfold note_conflict. case_decide; [by split|]. rewrite fs_take_commit_eq. split; [done|].
  intros [Hsp|Hsp]; [by left|right]. simpl. apply Exists_app. by left.
Qed.

Lemma establish_keeps fact value_json position fs :
  readable fs → keeps_on fs (establish received_at override fact value_json position fs).
Proof.
  intros Hread. split; [by apply establish_readable|]. unfold establish. rewrite fs_take_commit_eq.
  intros [Hsp|Hsp]; [left|by right]. simpl. apply Exists_app. by left.
Qed.

Lemma against_head_keeps fact value_json position hi fs :
  readable fs → admissible fact → candidate_key fact ∈ cl → fs_head_index fs !! candidate_key fact = Some hi →
  ∃ fs', against_head_info received_at override fact value_json position hi fs = Ok fs' ∧ keeps_on fs fs'.
Proof.
  intros Hl [_ Ha] Hc Hhi. unfold against_head_info.
  destruct (String.eqb_spec (hi_ordering_mode hi) (ordering_mode fact)) as [Hm|]; simpl; [|eauto using note_conflict_keeps].
  pose proof (Hl _ _ Hc Hhi) as Hseq. rewrite Hm in Hseq. unfold ordering_mode in *.
  destruct (f_source_seq fact) as [z|]; simpl in *.
  - destruct (Hseq eq_refl) as [hs ->]. destruct (z <? hs); [by eexists|].
    destruct (z =? hs); [|eauto using establish_keeps]. destruct (String.eqb _ _); [by eexists|eauto using note_conflict_keeps].
  - destruct Ha as [[]|[at_ ->]]; [done|]. destruct (hi_observed_at hi) as [hat|]; [|eauto using establish_keeps].
    destruct (dt_lt at_ hat); [by eexists|]. destruct (dt_eq at_ hat); [|eauto using establish_keeps].
    destruct (String.eqb _ _); [by eexists|eauto using note_conflict_keeps].
Qed.

Lemma fold_fact_keeps fact value_json fs :
  readable fs → admissible fact → candidate_key fact ∈ cl →
  ∃ fs', fold_fact received_at override fs (fact, value_json) = Ok fs' ∧ keeps_on fs fs'.
Proof.
  intros Hl Ha Hc. unfold fold_fact. destruct (admissible_position fact Ha) as [position ->]. cbn [mbind res_bind].
  destruct (index_get _ _ (fs_dedupe_index fs)); [destruct (String.eqb _ _); [by eexists|eauto using note_conflict_keeps]|].
  destruct (index_get _ _ (fs_position_index fs)); [destruct (String.eqb _ _); [by eexists|eauto using note_conflict_keeps]|].
  destruct (fs_head_index fs !! candidate_key fact) as [hi|] eqn:E; [by apply against_head_keeps|eauto using establish_keeps].
Qed.

Lemma fold_lost l fs :
  lost fs → (∀ f json, (f, json) ∈ l → admissible f ∧ candidate_key f ∈ cl) →
  ∃ fs', fold_res (fold_fact received_at override) fs l = Ok fs' ∧ lost fs'.
Proof.
  revert fs; induction l as [|[f json] l IH]; intros fs Hl Hin; cbn [fold_res]; [by eexists|].
  destruct (Hin f json ltac:(left)) as [Ha Hc]. destruct (fold_fact_keeps f json fs (proj2 Hl) Ha Hc) as (fs1 & -> & Hread & Hsp).
  apply IH; [split; [by apply Hsp, Hl|done]|]. intros g j Hg. apply (Hin g j). by right.
Qed.

Lemma fold_pairs_lost l fs :
  lost fs → (∀ w i, (w, i) ∈ l → admissible i) →
  ∃ fs', fold_res (fold_batch_conflict received_at override) fs l = Ok fs' ∧ lost fs'.
Proof.
  revert fs; induction l as [|[w i] l IH]; intros fs Hl Hin; cbn [fold_res]; [by eexists|].
  unfold fold_batch_conflict at 1. destruct (admissible_position i (Hin w i ltac:(left))) as [p ->]. cbn [mbind res_bind].
  destruct (note_conflict_keeps i (f_evidence_hash w) p "same_batch_position_reuse" fs (proj2 Hl)) as [Hread Hsp].
  apply IH; [split; [by apply Hsp, Hl|done]|]. intros v j Hj. apply (Hin v j). by right.
Qed.

(** *** The loops *)

Definition same_outcome (r1 : res reduction) (r2 : res fold_state) : Prop :=
  match r1, r2 with
  | Ok st, Ok fs => sim cl st fs ∧ wf (rd_db st)
  | Err e1, Ok fs => e1 = OverflowError ∧ lost fs
  | _, _ => False
  end.

Lemma fold_prepared_agree facts l st fs :
  Forall observed_utc facts →
  (∀ f json, (f, json) ∈ l → f ∈ facts ∧ admissible f ∧ stored_as f json) → (∀ f json, (f, json) ∈ l → candidate_key f ∈ cl) →
  sim cl st fs → wf (rd_db st) →
  same_outcome (fold_res (reduce_fact received_at override) st l) (fold_res (fold_fact received_at override) fs l).
Proof.
  intros Hutc. revert st fs; induction l as [|[f json] l IH]; intros st fs Hl Hcl Hs Hwf; cbn [fold_res]; [done|].
  destruct (Hl f json ltac:(left)) as (Hf & Ha & Hj). pose proof (Hcl f json ltac:(left)) as Hc.
  assert (observed_utc f) as Hu by (rewrite Forall_forall in Hutc; by apply Hutc).
  assert (∀ g j, (g, j) ∈ l → g ∈ facts ∧ admissible g ∧ stored_as g j) as Hl' by (intros g j Hg; apply (Hl g j); by right).
  assert (∀ g j, (g, j) ∈ l → candidate_key g ∈ cl) as Hcl' by (intros g j Hg; apply (Hcl g j); by right).
  pose proof (reduce_fact_effect received_at override f json st Hwf Ha Hj) as He.
  pose proof (reduce_fact_agree f json st fs Hs Hwf Ha Hc Hu) as Hag. unfold agree, ends in *.
  destruct (reduce_fact _ _ st (f, json)) as [st1|e], (fold_fact _ _ fs (f, json)) as [fs1|e'] eqn:Ef; try done.
  - apply IH; [done..|]. eapply effect_wf; [done|apply He|done].
  - destruct Hag as [-> Hlost]. destruct (fold_lost l fs1 Hlost) as (fs2 & -> & ?); [|by split].
    intros g j Hg. split; [by apply (Hl' g j)|by apply (Hcl' g j)].
  - destruct (fold_fact_keeps f json fs (sim_readable _ _ Hs Hwf) Ha Hc) as (? & ? & _). congruence.
Qed.

Lemma fold_pairs_agree l st fs :
  (∀ w i, (w, i) ∈ l → admissible i ∧ candidate_key i ∈ cl ∧ is_Some (heads (rd_db st) !! candidate_key i)) →
  sim cl st fs → wf (rd_db st) →
  same_outcome (fold_res (reduce_batch_conflict received_at override) st l)
               (fold_res (fold_batch_conflict received_at override) fs l).
Proof.
  revert st fs; induction l as [|[w i] l IH]; intros st fs Hl Hs Hwf; cbn [fold_res]; [done|].
  destruct (Hl w i ltac:(left)) as (Ha & Hc & Hh). destruct (admissible_position i Ha) as [p Hp].
  unfold reduce_batch_conflict at 1, fold_batch_conflict at 1. rewrite Hp. cbn [mbind res_bind].
  pose proof (conflict_and_touch_effect received_at override i (f_evidence_hash w) p
              "same_batch_position_reuse" st Hwf Hh) as He.
  pose proof (conflict_agree i (f_evidence_hash w) p "same_batch_position_reuse" st fs Hs Hwf Hc) as Hag.
  unfold agree, ends in *. destruct (conflict_and_touch _ _ _ _ _ _ st) as [st1|e].
  - apply IH; [|done|by eapply effect_wf].
    intros v j Hj. destruct (Hl v j ltac:(by right)) as (? & ? & ?). split_and!; [done..|by eapply effect_heads].
  - destruct Hag as [-> Hlost]. destruct (fold_pairs_lost l _ Hlost) as (fs2 & -> & ?); [|by split].
    intros v j Hj. apply (Hl v j). by right.
Qed.
End Steps.

(** Both loops of the two reducers, from the same catalog. *)
Lemma loops_agree facts prepared pairs db dup received_at override cl :
  wf db → Forall observed_utc facts → prepared_ok facts prepared pairs →
  (∀ f json, (f, json) ∈ prepared → candidate_key f ∈ cl) → (∀ w i, (w, i) ∈ pairs → candidate_key i ∈ cl) →
  same_outcome cl
    (reduce_prepared received_at override (start_reduction db dup) prepared pairs)
    (let! fs := fold_res (fold_fact received_at override) (start_fold db dup cl) prepared in
     fold_res (fold_batch_conflict received_at override) fs pairs).
Proof.
  intros Hwf Hutc Hprep Hcl Hcl'. pose proof Hprep as [Hp Hc Hw].
  pose proof (fold_prepared received_at override facts (λ _ _, True) prepared 0 (start_reduction db dup)) as Hheads.
  specialize (Hheads ltac:(done) Hp Hwf I).
  pose proof (fold_prepared_agree received_at override cl facts prepared (start_reduction db dup)
                (start_fold db dup cl) Hutc Hp Hcl (sim_start cl dup db Hwf) Hwf) as H1.
  unfold reduce_prepared, same_outcome, loop_ends in *.
  destruct (fold_res (reduce_fact received_at override) _ prepared) as [st1|e]; cbn [mbind res_bind].
  - destruct (fold_res (fold_fact received_at override) _ prepared) as [fs1|]; [|done]. destruct H1 as [Hs Hwf1]. cbn [mbind res_bind].
    destruct Hheads as (_ & _ & _ & Hheads). apply fold_pairs_agree; [|done..].
    intros w i Hwi. destruct (Hc w i Hwi) as [? ?]; destruct (Hw w i Hwi) as (E & _ & j & ?).
    split_and!; [done|by eapply Hcl'|rewrite E; by eapply Hheads].
  - destruct (fold_res (fold_fact received_at override) _ prepared) as [fs1|]; [|done]. destruct H1 as [-> Hlost]. cbn [mbind res_bind].
    destruct (fold_pairs_lost received_at override cl pairs fs1 Hlost) as (fs & -> & ?); [|done]. intros w i Hwi. by apply (Hc w i).
Qed.
