(* ===== verification/FactReducerRun.v ===== *)
(** * Whole reductions

    The run of a reduction that returns: its prepared batch, the state its
    loops reach, and what the bounds pass leaves of the tables.  The
    theorems about the reducers apply these lemmas. *)

From S2P Require Import Prelude PyStr PyTime PyValue Sha256 MachineEvidence.
From S2P Require Import FactStore FactReducer FactReducerSetwise FactStoreLaws FactReducerLaws FactReducerSim.

Open Scope list_scope.
Open Scope Z_scope.

(** ** Tables that only lose rows *)

Definition shrinks (db' db : catalog) : Prop :=
  heads db' ⊆ heads db ∧ receipts db' `sublist_of` receipts db ∧ conflicts db' `sublist_of` conflicts db.

#[export] Instance shrinks_preorder : PreOrder shrinks.
Proof.
  split.
  - intros db. split_and!; done.
  - intros a b c (? & ? & ?) (? & ? & ?). split_and!; by etransitivity.
Qed.

Lemma prune_rows_shrinks cs k1 k2 db : shrinks (prune_rows cs k1 k2 db) db.
Proof. unfold shrinks, prune_rows, pruned; simpl. split_and!; [done|apply sublist_filter..]. Qed.

Lemma prune_fact_family_shrinks family db : shrinks (prune_fact_family family db) db.
Proof. unfold shrinks, prune_fact_family; simpl. split_and!; [apply map_filter_subseteq|apply sublist_filter..]. Qed.

Definition sweep (families : list string) (db : catalog) : catalog :=
  fold_left (λ db family, prune_fact_family family db) families db.

Lemma sweep_shrinks families db : shrinks (sweep families db) db.
Proof.
  unfold sweep. revert db; induction families as [|f families IH]; intros db; simpl; [done|].
  etransitivity; [apply IH|apply prune_fact_family_shrinks].
Qed.

Lemma sweep_wf families db : wf db → wf (sweep families db).
Proof.
  unfold sweep. revert db; induction families as [|f families IH]; intros db Hwf; simpl; [done|].
  by apply IH, prune_fact_family_wf.
Qed.

Lemma sweep_commit_seq families db : commit_seq (sweep families db) = commit_seq db.
Proof. unfold sweep. revert db; induction families as [|f families IH]; intros db; simpl; [done|]. by rewrite IH. Qed.

Lemma sweep_bound families family db :
  family ∈ families → (head_count family (sweep families db) ≤ MAX_HEADS_PER_FAMILY)%nat.
Proof.
  unfold sweep. revert db; induction families as [|f families IH]; intros db; simpl; [set_solver|].
  intros [->|Hf]%elem_of_cons; [|by apply IH].
  etransitivity; [|apply (head_count_pruned f db)]. apply head_count_mono, sweep_shrinks.
Qed.

(** ** Bounded catalogs *)

Record bounded (db : catalog) : Prop := {
  bounded_receipts c : (length (rows_of c (receipts db)) ≤ MAX_RECEIPTS_PER_CANDIDATE)%nat;
  bounded_conflicts c : (length (rows_of c (conflicts db)) ≤ MAX_CONFLICTS_PER_CANDIDATE)%nat;
  bounded_heads family : (head_count family db ≤ MAX_HEADS_PER_FAMILY)%nat;
}.

Lemma rows_of_sublist {R} `{Row R} c (rows rows' : list R) :
  rows' `sublist_of` rows → (length (rows_of c rows') ≤ length (rows_of c rows))%nat.
Proof. intros Hs. unfold rows_of. by apply sublist_length, filter_sublist. Qed.

Lemma rank_le {R} `{Row R} (rows : list R) r :
  r ∈ rows → (rank rows r ≤ length (rows_of (row_cand r) rows))%nat.
Proof.
  intros Hr. unfold rank, rows_of.
  rewrite (filter_ext_in _ (λ r', row_id r < row_id r' ∧ row_cand r' = row_cand r)) by (intros; tauto).
  rewrite <- list_filter_filter. apply (length_filter_lt _ _ r); [|lia].
  by apply list_elem_of_filter.
Qed.

Lemma pruned_id {R} `{Row R} cs keep (rows : list R) :
  (∀ c, (length (rows_of c rows) ≤ keep)%nat) → pruned cs keep rows = rows.
Proof.
  intros Hb. apply filter_id_in. intros r Hr [_ Hk].
  pose proof (rank_le rows r Hr). specialize (Hb (row_cand r)). lia.
Qed.

Lemma prune_rows_id cs db :
  bounded db → prune_rows cs MAX_RECEIPTS_PER_CANDIDATE MAX_CONFLICTS_PER_CANDIDATE db = db.
Proof. intros []. unfold prune_rows. rewrite !pruned_id by done. by destruct db. Qed.

Lemma sweep_id families db : wf db → bounded db → sweep families db = db.
Proof.
  intros Hwf Hb. unfold sweep. induction families as [|f families IH]; simpl; [done|].
  rewrite prune_fact_family_id; [done|done|apply Hb].
Qed.

(** ** A reduction that returns *)

Definition finish (st : reduction) : catalog :=
  sweep (touched_families (rd_touched st))
    (prune_rows (map fst (rd_touched st)) MAX_RECEIPTS_PER_CANDIDATE MAX_CONFLICTS_PER_CANDIDATE (rd_db st)).

(** The facts a reduction that returned rests on. *)
Record run (db : catalog) (facts : list ReducerFact) (received_at : datetime) (override : option Z)
    (st : reduction) (n : nat) (dup : Z) : Prop := {
  run_length : (length facts ≤ MAX_REDUCER_FACTS)%nat;
  run_override : match override with Some c => c = commit_seq db | None => True end;
  run_wf : wf (rd_db st);
  run_untouched : keeps_untouched db n st;
  run_committed : committed override db n st;
  run_counted : counted dup n st;
  run_forward : Forall observed_utc facts → forward db n st;
  run_commits : commits_bounded db → commits_bounded (rd_db st);
  run_backed : Forall well_keyed facts → heads_backed db → heads_backed (rd_db st);
}.

Lemma reduce_run db facts received_at override db' r :
  wf db → reduce_fact_batch db facts received_at override = Ok (db', r) →
  ∃ prepared dup pairs st,
    prepare_batch facts = Ok (prepared, dup, pairs) ∧
    reduce_prepared (astimezone_utc received_at) override (start_reduction db dup) prepared pairs = Ok st ∧
    run db facts received_at override st (length prepared + length pairs) dup ∧
    db' = finish st ∧ r = result_of (commit_seq db) st.
Proof.
  intros Hwf H. unfold reduce_fact_batch in H.
  apply bind_ok in H as ([] & Hlen%guard_ok & H). apply bind_ok in H as (at' & Haware & H).
  apply check_aware_ok in Haware as [_ ->].
  apply bind_ok in H as ([[prepared dup] pairs] & Hp & H).
  apply bind_ok in H as ([] & Ho%guard_ok & H).
  pose proof (prepare_batch_ok _ _ _ _ Hp) as Hprep.
  set (at' := astimezone_utc received_at) in *.
  assert (∃ st, reduce_prepared at' override (start_reduction db dup) prepared pairs = Ok st ∧
            db' = prune_touched (rd_touched st) (rd_db st) ∧ r = result_of (commit_seq db) st) as (st & Hst & -> & ->).
  { unfold reduce_prepared. apply bind_ok in H as (st1 & -> & H). apply bind_ok in H as (st & H & [= <- <-]). by exists st. }
  pose proof (reduce_prepared_inv at' override facts
              (λ n st, keeps_untouched db n st ∧ counted dup n st ∧ (Forall observed_utc facts → forward db n st) ∧
                       committed override db n st ∧
                       (commits_bounded db → committed override db n st ∧ commits_bounded (rd_db st)) ∧
                       (Forall well_keyed facts ∧ heads_backed db → heads_backed (rd_db st)))
              prepared pairs (start_reduction db dup) Hprep) as Hinv.
  rewrite Hst in Hinv. destruct Hinv as (Hwf' & Hu & Hn & Hf & Hc & Hb & Hk).
  - apply carried_and; [apply untouched_carried|]. apply carried_and; [apply counted_carried|].
    apply carried_and; [apply carried_impl, forward_carried|].
    apply carried_and; [apply committed_carried|]. apply carried_and.
    + apply carried_impl. intros _. apply commits_carried. destruct override; [by apply Z.eqb_eq in Ho|done].
    + apply carried_impl. intros [? _]. by apply backed_carried.
  - done.
  - unfold keeps_untouched, untouched, committed, counted, forward; simpl. split_and!; try (done || lia); naive_solver.
  - exists prepared, dup, pairs, st. split_and!; try done.
    + split; try done; [by apply Nat.leb_le| |by intros [_ ?]%Hb|by auto].
      destruct override; [by apply Z.eqb_eq in Ho|done].
    + apply prune_touched_rows; [done|apply Hu].
Qed.

(** Given a prepared batch and a valid override the reduction returns, unless a
    position does not fit its column. *)
Lemma reduce_returns db facts received_at override prepared dup pairs :
  wf db → (length facts ≤ MAX_REDUCER_FACTS)%nat → representable received_at = true →
  prepare_batch facts = Ok (prepared, dup, pairs) → check_override override db = Ok tt →
  match reduce_fact_batch db facts received_at override with
  | Ok _ => True
  | Err e => e = OverflowError ∧ ∃ f, f ∈ facts ∧ bindable (f_source_seq f) = false
  end.
Proof.
  intros Hwf Hlen Haw Hp Ho. pose proof (prepare_batch_ok _ _ _ _ Hp) as Hprep.
  pose proof (reduce_prepared_inv (astimezone_utc received_at) override facts (λ _ _, True)
              prepared pairs (start_reduction db dup) Hprep ltac:(done) Hwf I) as Hst.
  unfold reduce_fact_batch.
  apply Nat.leb_le in Hlen. rewrite Hlen, (proj2 (check_aware_ok received_at _) (conj Haw eq_refl)). simpl. rewrite Hp. simpl. rewrite Ho. simpl.
  unfold reduce_prepared, loop_ends in Hst. destruct (fold_res _ _ prepared) as [st1|e]; simpl in *; [|done].
  by destruct (fold_res _ st1 pairs).
Qed.

Lemma finish_wf st : wf (rd_db st) → wf (finish st).
Proof. intros Hwf. by apply sweep_wf, prune_rows_wf. Qed.

Lemma finish_shrinks st : shrinks (finish st) (rd_db st).
Proof. etransitivity; [apply sweep_shrinks|apply prune_rows_shrinks]. Qed.

Lemma finish_commit_seq st : commit_seq (finish st) = commit_seq (rd_db st).
Proof. unfold finish. by rewrite sweep_commit_seq. Qed.

Lemma elem_of_touched_families family touched :
  family ∈ touched_families touched ↔ ∃ k f, (k, f) ∈ touched ∧ f_family f = family.
Proof.
  unfold touched_families. rewrite (elem_of_py_sorted str_cmp), elem_of_remove_dups, list_elem_of_fmap.
  split; [intros ([k f] & -> & ?); eauto|intros (k & f & ? & <-)]. by exists (k, f).
Qed.

Lemma finish_bounded db n st : bounded db → wf (rd_db st) → keeps_untouched db n st → bounded (finish st).
Proof.
  intros Hb Hwf [Ht Hu]. split.
  - intros c. etransitivity; [apply rows_of_sublist, sweep_shrinks|]. simpl.
    destruct (decide (c ∈ map fst (rd_touched st))) as [Hc|Hc]; [apply length_pruned; [apply Hwf|done]|].
    etransitivity; [apply rows_of_sublist, sublist_filter|].
    destruct (Hu c Hc) as (_ & -> & _). apply Hb.
  - intros c. etransitivity; [apply rows_of_sublist, sweep_shrinks|]. simpl.
    destruct (decide (c ∈ map fst (rd_touched st))) as [Hc|Hc]; [apply length_pruned; [apply Hwf|done]|].
    etransitivity; [apply rows_of_sublist, sublist_filter|].
    destruct (Hu c Hc) as (_ & _ & ->). apply Hb.
  - intros family. destruct (decide (family ∈ touched_families (rd_touched st))) as [Hf|Hf]; [by apply sweep_bound|].
    etransitivity; [apply head_count_mono, finish_shrinks|].
    etransitivity; [|apply (bounded_heads db Hb family)].
    apply head_count_mono_family. intros k h Hh Hk.
    destruct (decide (k ∈ map fst (rd_touched st))) as [Hin|Hin]; [exfalso|].
    + apply list_elem_of_fmap in Hin as ([k' f] & -> & Hin). apply Hf, elem_of_touched_families.
      exists k', f; split; [done|]. rewrite Forall_forall in Ht. specialize (Ht _ Hin). simpl in *. by subst.
    + by destruct (Hu k Hin) as (<- & _).
Qed.

Lemma finish_commits st : commits_bounded (rd_db st) → commits_bounded (finish st).
Proof.
  intros Hb k h Hh. rewrite finish_commit_seq. apply (Hb k). by eapply lookup_weaken, finish_shrinks.
Qed.
