(* ===== verification/FactBatchOrder.v ===== *)
(** * The canonical order of a batch

    [_prepare_batch] forgets the order of delivery: grouping commutes, so
    two deliveries of the same facts prepare to the same batch.  A batch of
    one fact prepares to that fact. *)

From S2P Require Import Prelude PyStr PyTime PyValue Sha256 MachineEvidence.
From S2P Require Import FactStore FactReducer FactStoreLaws FactReducerLaws.

Open Scope list_scope.
Open Scope Z_scope.

(** Facts of one batch that share candidate, position and content are the
    same fact. *)
Definition unambiguous (facts : list ReducerFact) : Prop :=
  ∀ a b, a ∈ facts → b ∈ facts → group_key a = group_key b → f_evidence_hash a = f_evidence_hash b → a = b.

(** [group_step] on a fact that passed validation. *)
Definition group_add (key : list string) (fact : ReducerFact) (st : grouping * Z) : grouping * Z :=
  let values := default ∅ (st.1 !! key) in
  match values !! f_evidence_hash fact with
  | Some _ => (<[key := values]> st.1, st.2 + 1)
  | None => (<[key := <[f_evidence_hash fact := fact]> values]> st.1, st.2)
  end.

Lemma group_step_inv st fact st' :
  group_step st fact = Ok st' →
  ∃ key, validate_fact fact = Ok fact ∧ group_key fact = Ok key ∧ st' = group_add key fact st.
Proof.
  destruct st as [g n]. unfold group_step. intros H.
  apply bind_ok in H as (f & Hv & H). apply bind_ok in H as (key & Hk & H).
  pose proof (validate_fact_ok _ _ Hv) as ->. exists key. split_and!; [done..|].
  unfold group_add; simpl. destruct (default ∅ (g !! key) !! f_evidence_hash fact); by simplify_eq.
Qed.

Lemma group_step_add st fact key :
  validate_fact fact = Ok fact → group_key fact = Ok key → group_step st fact = Ok (group_add key fact st).
Proof.
  intros Hv Hk. destruct st as [g n]. unfold group_step, group_add. rewrite Hv. simpl. rewrite Hk. simpl.
  by destruct (default ∅ (g !! key) !! f_evidence_hash fact).
Qed.

Lemma group_add_other key fact st key' :
  key' ≠ key → (group_add key fact st).1 !! key' = st.1 !! key'.
Proof. intros Hn. unfold group_add. by case_match; simpl; rewrite lookup_insert_ne. Qed.

Lemma group_add_swap ka kb a b st :
  ka ≠ kb ∨ f_evidence_hash a ≠ f_evidence_hash b →
  group_add kb b (group_add ka a st) = group_add ka a (group_add kb b st).
Proof.
  intros Hne. destruct (decide (ka = kb)) as [->|Hk].
  - destruct Hne as [|Hh]; [done|]. destruct st as [g n]. unfold group_add; simpl.
    destruct (default ∅ (g !! kb) !! f_evidence_hash a) eqn:Ea,
             (default ∅ (g !! kb) !! f_evidence_hash b) eqn:Eb; simpl;
      rewrite !lookup_insert_eq; simpl; rewrite ?lookup_insert_ne by done; rewrite ?Ea, ?Eb; simpl;
      rewrite !insert_insert_eq; try done.
    by rewrite insert_insert_ne by done.
  - unfold group_add at 1 3. rewrite !group_add_other by done. unfold group_add.
    destruct (default ∅ (st.1 !! kb) !! f_evidence_hash b),
             (default ∅ (st.1 !! ka) !! f_evidence_hash a); simpl; by rewrite insert_insert_ne.
Qed.

Lemma group_step_swap facts a b st1 st2 st3 :
  unambiguous facts → a ∈ facts → b ∈ facts →
  group_step st1 a = Ok st2 → group_step st2 b = Ok st3 →
  ∃ st2', group_step st1 b = Ok st2' ∧ group_step st2' a = Ok st3.
Proof.
  intros Hu Ha Hb (ka & Hva & Hka & ->)%group_step_inv (kb & Hvb & Hkb & ->)%group_step_inv.
  eexists; split; [by apply group_step_add|]. rewrite (group_step_add _ a ka) by done. f_equal.
  destruct (decide (ka = kb ∧ f_evidence_hash a = f_evidence_hash b)) as [[-> Hh]|Hn].
  - by assert (a = b) as -> by (apply Hu; congruence || done).
  - symmetry. apply group_add_swap. destruct (decide (ka = kb)); [right; naive_solver|by left].
Qed.

Lemma prepare_batch_perm facts facts' batch :
  unambiguous facts → facts ≡ₚ facts' → prepare_batch facts = Ok batch → prepare_batch facts' = Ok batch.
Proof.
  intros Hu Hp. unfold prepare_batch. rewrite !bind_ok. intros ([g n] & Hg & H).
  exists (g, n); split; [|done].
  eapply (fold_res_perm _ (λ f, f ∈ facts)); [|by apply Forall_forall|done|done].
  intros; by eapply (group_step_swap facts).
Qed.

(** ** One fact *)

Lemma validate_fact_json fact :
  validate_fact fact = Ok fact → ∃ json, canonical_value_json (VDict (f_value fact)) = Ok json.
Proof.
  unfold validate_fact. intros H. do 9 apply bind_ok in H as (? & _ & H).
  apply bind_ok in H as (? & _ & H). apply bind_ok in H as (json & Hj & _). eauto.
Qed.

Lemma prepare_batch_single fact :
  admissible fact →
  ∃ json, canonical_value_json (VDict (f_value fact)) = Ok json ∧ prepare_batch [fact] = Ok ([(fact, json)], 0, []).
Proof.
  intros Ha. destruct Ha as [Hv Ha]. destruct (validate_fact_json fact Hv) as [json Hj].
  exists json; split; [done|].
  destruct (admissible_position fact (conj Hv Ha)) as [p Hp].
  assert (group_key fact = Ok (cand_list (candidate_key fact) ++ [p])) as Hk by (unfold group_key; by rewrite Hp).
  unfold prepare_batch. cbn [fold_res]. rewrite (group_step_add _ _ _ Hv Hk).
  unfold group_add; simpl. rewrite lookup_empty. simpl. rewrite lookup_empty. simpl.
  unfold sorted_groups. rewrite insert_empty, map_to_list_singleton. simpl.
  rewrite lookup_singleton_eq. simpl. unfold prepare_group, ordered_facts.
  rewrite insert_empty, map_to_list_singleton. simpl. rewrite lookup_singleton_eq. simpl. by rewrite Hj.
Qed.

(** ** Every fact of the batch is prepared, paired or counted *)

Lemma omap_lookup_keys {K V} `{Countable K} (m : gmap K V) :
  omap (λ k, m !! k) (map fst (map_to_list m)) = map snd (map_to_list m).
Proof.
  assert (∀ l : list (K * V), (∀ k v, (k, v) ∈ l → m !! k = Some v) →
            omap (λ k, m !! k) (map fst l) = map snd l) as Hl.
  { induction l as [|[k v] l IH]; intros Hin; [done|]. csimpl.
    rewrite (Hin k v) by left. simpl. f_equal. apply IH. intros; apply Hin; by right. }
  apply Hl. intros k v. by rewrite elem_of_map_to_list.
Qed.

Lemma sorted_groups_perm grouped : sorted_groups grouped ≡ₚ map snd (map_to_list grouped).
Proof. unfold sorted_groups. by rewrite (py_sorted_perm strs_cmp), omap_lookup_keys. Qed.

Lemma ordered_facts_perm values : ordered_facts values ≡ₚ map snd (map_to_list values).
Proof. unfold ordered_facts. by rewrite (py_sorted_perm str_cmp), omap_lookup_keys. Qed.

Definition total (grouped : grouping) : nat := sum_list (map (λ kv, size kv.2) (map_to_list grouped)).

Lemma total_delete grouped key : total grouped = (size (default ∅ (grouped !! key)) + total (delete key grouped))%nat.
Proof.
  destruct (grouped !! key) as [values|] eqn:E; simpl.
  - unfold total. by rewrite <- (map_to_list_delete grouped key values E).
  - by rewrite map_size_empty, delete_id.
Qed.

Lemma total_insert grouped key values :
  total (<[key := values]> grouped) = (size values + total (delete key grouped))%nat.
Proof. rewrite (total_delete _ key), lookup_insert_eq, delete_insert_eq. done. Qed.

Lemma group_add_total key fact st :
  Z.of_nat (total (group_add key fact st).1) + (group_add key fact st).2 = Z.of_nat (total st.1) + st.2 + 1.
Proof.
  unfold group_add. rewrite (total_delete st.1 key).
  destruct (default ∅ (st.1 !! key) !! f_evidence_hash fact) eqn:E; simpl; rewrite total_insert; [lia|].
  rewrite map_size_insert_None by done. lia.
Qed.

Lemma grouping_total facts st st' :
  fold_res group_step st facts = Ok st' →
  Z.of_nat (total st'.1) + st'.2 = Z.of_nat (total st.1) + st.2 + Z.of_nat (length facts).
Proof.
  revert st; induction facts as [|f facts IH]; intros st; cbn [fold_res length]; [intros [= ->]; lia|].
  destruct (group_step st f) as [st1|] eqn:E; [|done]. intros H. apply IH in H.
  apply group_step_inv in E as (key & _ & _ & ->). rewrite group_add_total in H. lia.
Qed.

Lemma prepare_group_length values prepared pairs :
  prepare_group values = Ok (prepared, pairs) → (length prepared + length pairs)%nat = size values.
Proof.
  assert (size values = length (ordered_facts values)) as ->
    by (by rewrite ordered_facts_perm, length_map, length_map_to_list).
  unfold prepare_group.
  destruct (ordered_facts values) as [|w others]; [by intros [= <- <-]|].
  intros H. apply bind_ok in H as (json & _ & [= <- <-]). simpl. by rewrite length_map.
Qed.

Lemma prepare_batch_count facts prepared dup pairs :
  prepare_batch facts = Ok (prepared, dup, pairs) →
  0 ≤ dup ∧ dup + Z.of_nat (length prepared + length pairs) = Z.of_nat (length facts).
Proof.
  unfold prepare_batch. intros H. apply bind_ok in H as ([g n] & Hg & H).
  apply bind_ok in H as (groups & Hm & [= <- <- <-]). apply map_res_ok in Hm.
  split.
  { change n with (g, n).2. eapply (fold_res_inv group_step (λ st, 0 ≤ st.2)); [| |exact Hg]; [|done].
    intros f s1 s2 _ H0 (key & _ & _ & ->)%group_step_inv. unfold group_add. case_match; simpl; lia. }
  apply grouping_total in Hg. change (total (∅, 0).1) with 0%nat in Hg. simpl in Hg.
  assert (length (concat (map fst groups)) + length (concat (map snd groups)) = total g)%nat as Ht; [|lia].
  transitivity (sum_list (map size (sorted_groups g))).
  - clear Hg. induction Hm as [|values [p c] vs groups Hv _ IH]; [done|]. simpl.
    rewrite !length_app, <- IH, <- (prepare_group_length _ _ _ Hv). simpl. lia.
  - unfold total. by rewrite sorted_groups_perm, map_map.
Qed.

(** A batch of admissible facts always prepares. *)
Lemma prepare_batch_returns facts : Forall admissible facts → ∃ batch, prepare_batch facts = Ok batch.
Proof.
  intros Ha. assert (∃ st, fold_res group_step (∅, 0) facts = Ok st) as [[g n] Hg].
  { generalize ((∅, 0) : grouping * Z). induction Ha as [|f facts Hf _ IH]; intros st; cbn [fold_res]; [eauto|].
    destruct (admissible_position f Hf) as [p Hp].
    erewrite group_step_add; [apply IH|apply Hf|]. unfold group_key. by rewrite Hp. }
  assert (∃ groups, map_res prepare_group (sorted_groups g) = Ok groups) as [groups Hm].
  { pose proof (grouping_ok _ _ _ Hg) as Hok.
    assert (∀ l, (∀ v, v ∈ l → v ∈ sorted_groups g) → ∃ groups, map_res prepare_group l = Ok groups) as Hl.
    { induction l as [|v l IH]; intros Hin; simpl; [eauto|].
      destruct IH as [groups ->]; [intros; apply Hin; by right|].
      destruct (elem_of_sorted_groups v g (Hin v ltac:(left))) as [k Hk].
      unfold prepare_group. destruct (ordered_facts v) as [|w others] eqn:E; simpl; [eauto|].
      destruct (elem_of_ordered_facts w v) as [h Hh]; [rewrite E; left|].
      destruct (Hok k v h w Hk Hh) as (_ & Hv & _). destruct (validate_fact_json w Hv) as [json ->]. simpl. eauto. }
    apply Hl. done. }
  unfold prepare_batch. rewrite Hg. simpl. rewrite Hm. simpl. eauto.
Qed.

Lemma prepare_batch_admissible facts batch : prepare_batch facts = Ok batch → Forall admissible facts.
Proof.
  unfold prepare_batch. intros H. apply bind_ok in H as (st & Hg & _). revert Hg.
  generalize ((∅, 0) : grouping * Z). induction facts as [|f facts IH]; intros st0; cbn [fold_res]; [done|].
  destruct (group_step st0 f) as [st1|] eqn:E; [|done]. intros Hg. constructor; [|by eapply IH].
  apply group_step_inv in E as (key & Hv & Hk & _). by eapply group_key_ok.
Qed.
