(* ===== verification/FactReducerProps.v ===== *)
(** * Correctness of the fact reducers

    The properties of [reduce_fact_batch] and [reduce_fact_batch_setwise]:
    they agree on every batch of UTC evidence, keep the tables well-formed
    and bounded, never move a head backwards, do not depend on the order of
    delivery of an unambiguous batch, return on every valid batch whose
    positions fit their column, and take one commit for a batch that changes
    something and none for one that does not. *)

From S2P Require Import Prelude PyStr PyTime PyValue Sha256 MachineEvidence.
From S2P Require Import FactStore FactReducer FactReducerSetwise.
From S2P Require Import FactStoreLaws FactReducerLaws FactReducerSim FactReducerRun FactBatchOrder.

Open Scope list_scope.
Open Scope Z_scope.

(** ** Agreement of the loops *)

Lemma batch_candidates_in facts prepared pairs :
  prepared_ok facts prepared pairs →
  (∀ f json, (f, json) ∈ prepared → candidate_key f ∈ batch_candidates prepared pairs) ∧
  (∀ w i, (w, i) ∈ pairs → candidate_key i ∈ batch_candidates prepared pairs).
Proof.
  intros Hp. unfold batch_candidates. split.
  - intros f json Hin. rewrite (elem_of_py_sorted cand_cmp), elem_of_remove_dups, elem_of_app. left.
    apply list_elem_of_fmap. by exists (f, json).
  - intros w i Hin. rewrite (elem_of_py_sorted cand_cmp), elem_of_remove_dups, elem_of_app. right.
    apply list_elem_of_fmap. by exists (w, i).
Qed.

Lemma batch_candidates_nil prepared pairs : batch_candidates prepared pairs = [] → prepared = [] ∧ pairs = [].
Proof.
  unfold batch_candidates. intros H.
  assert (∀ c, c ∉ map (λ p : ReducerFact * string, candidate_key p.1) prepared
                 ++ map (λ p : ReducerFact * ReducerFact, candidate_key p.2) pairs) as Hn.
  { intros c Hc. assert (c ∈ py_sorted cand_cmp (remove_dups
      (map (λ p : ReducerFact * string, candidate_key p.1) prepared
       ++ map (λ p : ReducerFact * ReducerFact, candidate_key p.2) pairs))) as Hin.
    { by rewrite (elem_of_py_sorted cand_cmp), elem_of_remove_dups. }
    rewrite H in Hin. set_solver. }
  destruct prepared as [|p prepared]; [|exfalso; apply (Hn (candidate_key p.1)); set_solver].
  destruct pairs as [|p pairs]; [done|exfalso; apply (Hn (candidate_key p.2)); set_solver].
Qed.

(** The two reducers agree on UTC evidence. *)
Lemma reducers_agree_on_utc db facts received_at override :
  wf db → Forall observed_utc facts →
  reduce_fact_batch db facts received_at override = reduce_fact_batch_setwise db facts received_at override.
Proof.
  intros Hwf Hutc. unfold reduce_fact_batch, reduce_fact_batch_setwise.
  destruct (guard _ _); [simpl|done]. destruct (check_aware received_at) as [at_|]; [simpl|done].
  destruct (prepare_batch facts) as [[[prepared dup] pairs]|] eqn:Hp; [simpl|done].
  destruct (check_override override db); [simpl|done].
  pose proof (prepare_batch_ok _ _ _ _ Hp) as Hprep.
  destruct (batch_candidates prepared pairs) as [|c cl'] eqn:Hcl.
  { by apply batch_candidates_nil in Hcl as [-> ->]. }
  rewrite <- Hcl. clear c cl' Hcl.
  destruct (batch_candidates_in facts prepared pairs Hprep) as [Hin Hin'].
  pose proof (loops_agree facts prepared pairs db dup at_ override _ Hwf Hutc Hprep Hin Hin') as Hag.
  pose proof (reduce_prepared_inv at_ override facts (keeps_untouched db) prepared pairs (start_reduction db dup) Hprep
    (untouched_carried _ _ _ _) Hwf ltac:(by split)) as Hinv.
  unfold same_outcome, loop_ends, reduce_prepared in *.
  destruct (fold_res (reduce_fact at_ override) _ prepared) as [st1|e], (fold_res (fold_fact at_ override) _ prepared) as [fs1|e'];
    cbn [mbind res_bind] in *; try done.
  - destruct (fold_res (reduce_batch_conflict at_ override) st1 pairs) as [st|e],
      (fold_res (fold_batch_conflict at_ override) fs1 pairs) as [fs|e']; cbn [mbind res_bind]; try done.
    + destruct Hag as [[Hclean Hdb ? ? ? ? ? Ht _ _ _ _] _], Hinv as [Hwf' Hu]. rewrite bind_pending_clean by done. simpl.
      f_equal. f_equal; [|unfold result_of, fold_result_of; congruence].
      rewrite (prune_touched_agree _ _ Hwf' (proj1 Hu)). by rewrite Ht, Hdb.
    + destruct Hag as [-> [Hsp _]]. by rewrite bind_pending_spoilt.
  - by destruct (fold_res (reduce_batch_conflict at_ override) st1 pairs).
  - destruct (fold_res (fold_batch_conflict at_ override) fs1 pairs) as [fs|e']; [|done]. cbn [mbind res_bind].
    destruct Hag as [-> [Hsp _]]. by rewrite bind_pending_spoilt.
Qed.

(** C1: on a well-formed catalog the set-wise reducer that the catalog
    daemon runs returns exactly what the row-wise reducer returns, final
    tables, counters and exceptions alike, for every batch whose observation
    times are in UTC. *)
Theorem reducers_agree db facts received_at override :
  wf db → Forall observed_utc facts →
  reduce_fact_batch db facts received_at override = reduce_fact_batch_setwise db facts received_at override.
Proof. apply reducers_agree_on_utc. Qed.

Lemma reduction_sound db facts received_at override db' r :
  wf db → bounded db → commits_bounded db →
  reduce_fact_batch db facts received_at override = Ok (db', r) →
  wf db' ∧ bounded db' ∧ commits_bounded db'.
Proof.
  intros Hwf Hb Hc H. apply reduce_run in H as (prepared & dup & pairs & st & _ & _ & Hrun & -> & _); [|done].
  destruct Hrun. split_and!.
  - by apply finish_wf.
  - by eapply finish_bounded.
  - by apply finish_commits; auto.
Qed.

(** C2: every reduction that returns leaves the fact tables well-formed
    (unique keys, no receipt or conflict without its head), within the
    retention bounds (16 receipts and 8 conflicts per candidate, 2048 heads
    per family), and with no head newer than the catalog's commit. *)
Theorem reduction_keeps_tables_sound db facts received_at override db' r :
  wf db → bounded db → commits_bounded db →
  reduce_fact_batch db facts received_at override = Ok (db', r) →
  wf db' ∧ bounded db' ∧ commits_bounded db'.
Proof. apply reduction_sound. Qed.

(** C3: evidence never moves a served head backwards: after any reduction of
    UTC evidence the head of a candidate is the old one, or one with the same
    ordering mode and a strictly later source position. *)
Theorem heads_only_move_forward db facts received_at override db' r c h h' :
  wf db → Forall observed_utc facts →
  reduce_fact_batch db facts received_at override = Ok (db', r) →
  heads db !! c = Some h → heads db' !! c = Some h' → h' = h ∨ head_newer h h'.
Proof.
  intros Hwf Hutc H Hh Hh'. apply reduce_run in H as (prepared & dup & pairs & st & _ & _ & Hrun & -> & _); [|done].
  destruct (run_forward _ _ _ _ _ _ _ Hrun Hutc c h Hh) as (h1 & Hh1 & Hle).
  assert (heads (rd_db st) !! c = Some h') by by eapply lookup_weaken, finish_shrinks.
  by simplify_eq.
Qed.

(** C6: the outcome of a reduction does not depend on the order in which the
    facts of a batch were delivered, when facts of the batch that share
    candidate, position and content hash are the same fact.  Of two facts that
    share these and differ in their dedupe key or observation time the reducer
    keeps the one delivered first. *)
Theorem delivery_order_is_irrelevant db facts facts' received_at override out :
  unambiguous facts → facts ≡ₚ facts' →
  reduce_fact_batch db facts received_at override = Ok out →
  reduce_fact_batch db facts' received_at override = Ok out.
Proof.
  intros Hu Hp. unfold reduce_fact_batch. rewrite (Permutation_length Hp).
  destruct (guard _ _); simpl; [|done]. destruct (check_aware received_at); simpl; [|done].
  destruct (prepare_batch facts) as [batch|] eqn:E; simpl; [|done].
  by rewrite (prepare_batch_perm facts facts' batch).
Qed.

(** C7: the reducer returns on no batches but those of at most 256 facts, each
    valid and with a position, received at an aware time that has a UTC form,
    and with an override equal to the current commit; and it returns on all of
    these whose source sequences fit a 64-bit column.  On a valid batch that
    holds a longer one it returns or raises [OverflowError], and nothing else.
    No state of well-formed tables makes it raise. *)
Theorem reducer_returns_iff_input_valid db facts received_at override :
  wf db →
  let valid := (length facts ≤ MAX_REDUCER_FACTS)%nat ∧ representable received_at = true ∧ Forall admissible facts ∧
                 check_override override db = Ok tt in
  (is_ok (reduce_fact_batch db facts received_at override) = true → valid) ∧
  (valid → match reduce_fact_batch db facts received_at override with
           | Ok _ => True
           | Err e => e = OverflowError ∧ ∃ f, f ∈ facts ∧ bindable (f_source_seq f) = false
           end).
Proof.
  intros Hwf valid. split.
  - destruct (reduce_fact_batch _ _ _ _) as [out|] eqn:H; [intros _|done]. unfold reduce_fact_batch in H.
    apply bind_ok in H as ([] & Hlen%guard_ok%Nat.leb_le & H). apply bind_ok in H as (at' & Haw & H).
    apply check_aware_ok in Haw as [Haw _].
    apply bind_ok in H as ([[p d] q] & Hp%prepare_batch_admissible & H).
    apply bind_ok in H as ([] & Ho & _). done.
  - intros (Hlen & Haw & Ha & Ho). destruct (prepare_batch_returns facts Ha) as [[[p d] q] Hp].
    by eapply reduce_returns.
Qed.

(** one commit per batch.  A reduction that accepts no head and records
    no conflict changes nothing at all and reports the current commit; any
    other advances the commit sequence by exactly one, or stays at the
    caller's commit when the caller passed one, and reports it. *)
Theorem one_commit_per_changing_batch db facts received_at override db' r :
  wf db → bounded db → reduce_fact_batch db facts received_at override = Ok (db', r) →
  if res_changed_heads r + res_conflicts r =? 0
  then db' = db ∧ res_commit_seq r = commit_seq db
  else res_commit_seq r = commit_seq db' ∧
       commit_seq db' = commit_seq db + match override with Some _ => 0 | None => 1 end.
Proof.
  intros Hwf Hb H. apply reduce_run in H as (prepared & dup & pairs & st & _ & _ & Hrun & -> & ->); [|done].
  destruct Hrun as [_ Ho Hwf' _ Hc _ _ _]. rewrite finish_commit_seq. unfold result_of; simpl.
  unfold committed in Hc. destruct (rd_allocated_commit st) as [c|]; simpl.
  - destruct Hc as (-> & Hn & ->). destruct (Z.eqb_spec (rd_changed_heads st + rd_conflicts st) 0); [lia|].
    unfold batch_commit. destruct override; subst; split; lia.
  - destruct Hc as (Hdb & -> & ->). simpl. split; [|done]. unfold finish. rewrite Hdb.
    rewrite prune_rows_id by done. by apply sweep_id.
Qed.

(** C16: the counters account for the batch: each is non-negative and no fact
    is counted twice. *)
Theorem counters_account_for_the_batch db facts received_at override db' r :
  wf db → reduce_fact_batch db facts received_at override = Ok (db', r) →
  0 ≤ res_changed_heads r ∧ 0 ≤ res_duplicates r ∧ 0 ≤ res_stale r ∧ 0 ≤ res_conflicts r ∧
  res_changed_heads r + res_duplicates r + res_stale r + res_conflicts r ≤ Z.of_nat (length facts) ≤ 256.
Proof.
  intros Hwf H. apply reduce_run in H as (prepared & dup & pairs & st & Hp & _ & Hrun & -> & ->); [|done].
  destruct Hrun as [Hlen _ _ _ _ Hc _ _]. apply prepare_batch_count in Hp as [Hd Hn].
  unfold counted in Hc. unfold result_of; simpl. unfold MAX_REDUCER_FACTS in Hlen. lia.
Qed.

(** ** A single fact *)

Lemma conflict_changes_no_head received_at override fact existing position kind st st' :
  conflict_and_touch received_at override fact existing position kind st = Ok st' →
  rd_changed_heads st' = rd_changed_heads st.
Proof.
  unfold conflict_and_touch, record_conflict. intros H. apply bind_ok in H as (st1 & H & [= <-]).
  apply bind_ok in H as (e & _ & H). destruct e; [by simplify_eq|]. apply bind_ok in H as ([] & _ & [= <-]).
  pose proof (insert_conflict_eq received_at override fact existing position kind st) as E.
  by apply (f_equal rd_changed_heads) in E.
Qed.

Lemma changed_head_is_accepted received_at override fact json st st' :
  reduce_fact received_at override st (fact, json) = Ok st' → rd_changed_heads st' ≠ rd_changed_heads st →
  ∃ position, st' = accept_fact received_at override fact json position st.
Proof.
  unfold reduce_fact, against_head, try_accept. intros H Hne.
  apply bind_ok in H as (position & _ & H). apply bind_ok in H as (d & _ & H).
  exists position.
  repeat first
    [ done
    | match goal with
      | H : conflict_and_touch _ _ _ _ _ _ _ = Ok _ |- _ => by apply conflict_changes_no_head in H
      | H : Ok _ = Ok _ |- _ => injection H as <-
      | H : mbind _ _ = Ok _ |- _ => apply bind_ok in H as (? & _ & H)
      | H : context [match ?x with _ => _ end] |- _ => destruct x
      end ].
Qed.

Lemma reduce_single db fact at_ db1 r1 :
  wf db → reduce_fact_batch db [fact] at_ None = Ok (db1, r1) → res_changed_heads r1 = 1 →
  ∃ json position st, canonical_value_json (VDict (f_value fact)) = Ok json ∧
    prepare_batch [fact] = Ok ([(fact, json)], 0, []) ∧ admissible fact ∧ wf (rd_db st) ∧ db1 = finish st ∧
    st = accept_fact (astimezone_utc at_) None fact json position (start_reduction db 0).
Proof.
  intros Hwf H Hr. apply reduce_run in H as (prepared & dup & pairs & st & Hp & Hst & Hrun & -> & ->); [|done].
  pose proof (prepare_batch_admissible _ _ Hp) as [Ha _]%Forall_cons.
  destruct (prepare_batch_single fact Ha) as (json & Hj & Hs). rewrite Hs in Hp. injection Hp as <- <- <-.
  unfold reduce_prepared in Hst. cbn [fold_res] in Hst.
  destruct (reduce_fact (astimezone_utc at_) None (start_reduction db 0) (fact, json)) as [st'|] eqn:E; [|done].
  simpl in Hst. injection Hst as ->.
  destruct (changed_head_is_accepted _ _ _ _ _ _ E) as [position Hacc]; [by unfold result_of in Hr; simpl in Hr; rewrite Hr|].
  exists json, position, st. split_and!; [done..|apply Hrun|done|done].
Qed.

Lemma single_fact_families fact : touched_families [(candidate_key fact, fact)] = [f_family fact].
Proof. reflexivity. Qed.

(** What is left of the tables after accepting one fact. *)
Lemma accepted_single db fact json position at_ st :
  wf db → commits_bounded db →
  st = accept_fact at_ None fact json position (start_reduction db 0) →
  heads (finish st) !! candidate_key fact = Some (head_row at_ fact json (commit_seq db + 1)) ∧
  ∃ row, row ∈ receipts (finish st) ∧ rc_cand row = candidate_key fact ∧ rc_dedupe_key row = f_dedupe_key fact ∧
         rc_evidence_hash row = f_evidence_hash fact.
Proof.
  intros Hwf Hb ->. rewrite accept_fact_eq. unfold finish. cbn [rd_touched rd_db].
  change (dict_set (candidate_key fact) fact (rd_touched (start_reduction db 0))) with [(candidate_key fact, fact)].
  rewrite single_fact_families. cbn [sweep fold_left map fst]. unfold commit_of; cbn [rd_allocated_commit start_reduction rd_db].
  set (db2 := prune_rows _ _ _ _).
  assert (heads (prune_fact_family (f_family fact) db2) !! candidate_key fact
          = Some (head_row at_ fact json (commit_seq db + 1))) as Hhead.
  { apply newest_head_kept; [apply lookup_insert_eq|done|].
    intros k' h' Hk' Hne. cbn in Hk'. rewrite lookup_insert_ne in Hk' by done.
    specialize (Hb k' h' Hk'). simpl in *. lia. }
  split; [done|].
  exists (Receipt (next_id (receipts db)) (candidate_key fact) position (f_source_seq fact)
            (f_dedupe_key fact) (f_evidence_hash fact) (sqlite_store at_) (commit_seq db + 1)).
  split; [|done].
  apply list_elem_of_filter. split; [|by apply (newest_row_kept (receipts db))].
  intros [_ Hn]. simpl in Hhead. apply map_lookup_filter_Some in Hhead as [_ Hk]. by apply Hk.
Qed.

(** Accepted evidence is served at once and replaying it is free: a
    reduction that accepts its single fact makes it the head of its
    candidate, under the commit it took, and reducing the same fact again, at
    any representable time, changes nothing and counts one duplicate. *)
Theorem accepted_fact_is_served_and_replay_is_free db fact received_at db1 r1 :
  wf db → bounded db → commits_bounded db →
  reduce_fact_batch db [fact] received_at None = Ok (db1, r1) → res_changed_heads r1 = 1 →
  (∃ json, canonical_value_json (VDict (f_value fact)) = Ok json ∧
     heads db1 !! candidate_key fact = Some (head_row (astimezone_utc received_at) fact json (commit_seq db1))) ∧
  ∀ later, representable later = true →
    reduce_fact_batch db1 [fact] later None = Ok (db1, Result (commit_seq db1) 0 1 0 0).
Proof.
  intros Hwf Hb Hc H Hr. pose proof (reduce_single db fact received_at db1 r1 Hwf H Hr)
    as (json & position & st & Hj & Hp & Ha & Hwf1 & -> & Hst).
  destruct (accepted_single db fact json position _ st Hwf Hc Hst) as [Hhead (row & Hrow & Ec & Ed & Eh)].
  assert (commit_seq (finish st) = commit_seq db + 1) as Hseq.
  { rewrite finish_commit_seq, Hst, accept_fact_eq. done. }
  split; [exists json; by rewrite Hseq|]. intros later Hl.
  pose proof (finish_wf st Hwf1) as Hwf2.
  destruct (admissible_position fact Ha) as [p Hpos].
  unfold reduce_fact_batch. rewrite (proj2 (check_aware_ok later _) (conj Hl eq_refl)). simpl. rewrite Hp. simpl. rewrite Hpos. simpl.
  rewrite receipts_by_dedupe_one by done. simpl.
  rewrite <- Ec, <- Ed, receipt_found by done. simpl. by rewrite Eh, String.eqb_refl.
Qed.

(** ** Batches built from machine evidence *)

Lemma parse_wire_datetime_utc parse off v nullable at_ :
  parse_wire_datetime parse off v nullable = Ok (Some at_) → dt_off at_ = Some 0.
Proof.
  unfold parse_wire_datetime. intros H. repeat case_match; simplify_eq.
  match goal with H : mbind _ _ = Ok _ |- _ => apply bind_ok in H as (u & Hu & [= ->]) end.
  unfold astimezone in Hu. case_match; by apply to_utc_ok in Hu as [_ ->].
Qed.

Lemma wire_facts_utc parse off evidence facts :
  reducer_facts_from_machine_evidence parse off evidence = Ok facts → Forall observed_utc facts.
Proof.
  unfold reducer_facts_from_machine_evidence. intros H. destruct evidence; simplify_eq; try constructor.
  case_match; simplify_eq; [|constructor]. apply bind_ok in H as (ids & _ & H). apply map_res_ok in H.
  induction H as [|i f ids facts Hf _ IH]; constructor; [|done].
  unfold fact_of_identity in Hf. apply bind_ok in Hf as (o & Ho & Hf). apply bind_ok in Hf as (v & _ & [= <-]).
  intros at_ Hat. simpl in Hat. subst o. by eapply parse_wire_datetime_utc.
Qed.

(** the reducers agree on every batch extracted from a machine-evidence
    report, whatever its timestamps say and whatever the host's time zone
    is: extraction converts every timestamp to UTC. *)
Theorem evidence_batches_reduce_alike parse local_offset evidence facts db received_at override :
  reducer_facts_from_machine_evidence parse local_offset evidence = Ok facts → wf db →
  reduce_fact_batch db facts received_at override = reduce_fact_batch_setwise db facts received_at override.
Proof. intros Hf Hwf. by apply reducers_agree_on_utc; [|eapply wire_facts_utc]. Qed.
