(* ===== verification/FactReads.v ===== *)
(** * Reading fact heads

    Models the read functions of [src/server/zerg/catalogd/fact_reducer.py]
    that serve the timeline and the session detail.  A returned row is a head
    with its key. *)

From S2P Require Import Prelude PyStr PyTime PyValue FactStore FactReducer FactStoreLaws.

Open Scope list_scope.
Open Scope Z_scope.

Abbreviation head_entry := (cand * FactHead)%type.

(** The columns that order a read: the newest commit first, then the key. *)
Definition recency (kh : head_entry) : Z * cand := (h_updated_commit_seq kh.2, kh.1).

Definition select_heads (P : head_entry → bool) (db : catalog) : list head_entry :=
  filter (λ kh, P kh = true) (map_to_list (heads db)).

(** The rows that a list of keys names. *)
Definition fetch (db : catalog) (keys : list cand) : list head_entry :=
  omap (λ k, pair k <$> heads db !! k) keys.

(** [read_fact_heads]. *)
Definition read_fact_heads (db : catalog) (family subject_key : string) : Z * list head_entry :=
  let rows := select_heads (λ kh, bool_decide (kh.1.1.1.1 = family ∧ kh.1.1.1.2 = subject_key)) db in
  (commit_seq db, fetch db (py_sorted cand_cmp (map fst rows))).

Definition bounded_session_id (session_id : string) : bool := str_truthy session_id && len_le session_id 255.

(** [read_session_fact_heads]; the statement has no order, so the rows are a
    map. *)
Definition read_session_fact_heads (db : catalog) (session_id : string) : res (Z * gmap cand FactHead) :=
  let! _ := guard (bounded_session_id session_id) (ValueError "session_id is missing or too long") in
  Ok (commit_seq db, filter (λ kh : head_entry, h_session_id kh.2 = Some session_id) (heads db)).

Definition of_session (session_id : string) (families : list string) (kh : head_entry) : bool :=
  opt_is (h_session_id kh.2) session_id && str_in (cand_family kh.1) families.

(** [read_bounded_session_fact_heads]. *)
Definition read_bounded_session_fact_heads (db : catalog) (session_id : string) (families : list string)
    (limit : nat) : res (Z * list head_entry * bool) :=
  let! _ := guard (bounded_session_id session_id) (ValueError "session_id is missing or too long") in
  let! _ := guard (negb (bool_decide (families = [])) && (0 <? limit)%nat)
                  (ValueError "fact head families and limit are required") in
  let keys := py_sorted recent_cmp (map recency (select_heads (of_session session_id families) db)) in
  let rows := fetch db (map snd (take (limit + 1) keys)) in
  Ok (commit_seq db, take limit rows, (limit <? length rows)%nat).

(** The order of the page read: the session first. *)
Definition page_cmp : string * (Z * cand) → string * (Z * cand) → comparison := pair_cmp str_cmp recent_cmp.

#[export] Instance page_comparison : Comparison page_cmp := pair_comparison str_cmp recent_cmp.

Definition page_key (kh : head_entry) : string * (Z * cand) := (or_empty (h_session_id kh.2), recency kh).

(** One iteration over the rows of the page. *)
Definition page_step (limit : nat) (st : gmap string (list head_entry) * gset string) (row : head_entry) :
    gmap string (list head_entry) * gset string :=
  let '(grouped, truncated) := st in
  let session_id := or_empty (h_session_id row.2) in
  let rows := default [] (grouped !! session_id) in
  if (length rows <? limit)%nat then (<[session_id := rows ++ [row]]> grouped, truncated)
  else (grouped, {[session_id]} ∪ truncated).

(** [read_bounded_sessions_fact_heads]. *)
Definition read_bounded_sessions_fact_heads (db : catalog) (session_ids families : list string)
    (limit_per_session : nat) : res (Z * gmap string (list head_entry) * gset string) :=
  let! _ := guard ((length session_ids <=? 200)%nat && forallb bounded_session_id session_ids)
                  (ValueError "session_ids must contain at most 200 bounded identifiers") in
  let! _ := guard (negb (bool_decide (families = [])) && (0 <? limit_per_session)%nat)
                  (ValueError "fact head families and limit_per_session are required") in
  let grouped := list_to_map (map (λ s, (s, [])) session_ids) in
  match session_ids with
  | [] => Ok (commit_seq db, grouped, ∅)
  | _ =>
      let rows := select_heads (λ kh, opt_in (h_session_id kh.2) session_ids
                                      && str_in (cand_family kh.1) families) db in
      let page := fetch db (map (λ k, k.2.2) (py_sorted page_cmp (map page_key rows))) in
      let '(grouped, truncated) := fold_left (page_step limit_per_session) page (grouped, ∅) in
      Ok (commit_seq db, grouped, truncated)
  end.

(** ** Laws *)

(** What the loop over the page leaves for one session. *)
Definition page_of (session_id : string) (rows : list head_entry) : list head_entry :=
  filter (λ r, or_empty (h_session_id r.2) = session_id) rows.

Lemma fold_page limit rows session_id grouped truncated grouped' truncated' :
  fold_left (page_step limit) rows (grouped, truncated) = (grouped', truncated') →
  (0 < limit)%nat → (length (default [] (grouped !! session_id)) ≤ limit)%nat →
  default [] (grouped' !! session_id) = take limit (default [] (grouped !! session_id) ++ page_of session_id rows) ∧
  (session_id ∈ truncated' ↔ session_id ∈ truncated ∨
     (limit < length (default [] (grouped !! session_id) ++ page_of session_id rows))%nat).
Proof.
  intros H Hl. revert grouped truncated H. induction rows as [|row rows IH]; intros grouped truncated H Hle.
  { simpl in H. simplify_eq. unfold page_of. rewrite filter_nil, app_nil_r, take_ge by done.
    split; [done|]. split; [by left|]. intros [?|?]; [done|lia]. }
  cbn [fold_left] in H. unfold page_step at 2 in H. unfold page_of. rewrite filter_cons.
  destruct (Nat.ltb_spec (length (default [] (grouped !! or_empty (h_session_id row.2)))) limit) as [Hlt|Hge].
  - destruct (decide (or_empty (h_session_id row.2) = session_id)) as [E|E].
    + rewrite E in *. apply IH in H; rewrite lookup_insert_eq in *; simpl in *.
      * by rewrite <- app_assoc in H.
      * rewrite length_app; simpl; lia.
    + apply IH in H; rewrite lookup_insert_ne in * by done; done.
  - apply IH in H; [|done].
    destruct (decide (or_empty (h_session_id row.2) = session_id)) as [E|E].
    + rewrite E in *. destruct H as [-> ->]. rewrite !take_app_le by lia. split; [done|].
      rewrite elem_of_union, elem_of_singleton, !length_app. simpl. split; [intros _; right; lia|tauto].
    + destruct H as [-> ->]. split; [done|]. rewrite elem_of_union, elem_of_singleton. naive_solver.
Qed.

(** A key read from the table itself. *)
Definition live_key (db : catalog) (k : string * (Z * cand)) : Prop :=
  ∃ h, heads db !! k.2.2 = Some h ∧ k = page_key (k.2.2, h).

Lemma fetch_cons db k keys h : heads db !! k = Some h → fetch db (k :: keys) = (k, h) :: fetch db keys.
Proof. intros Hh. unfold fetch. cbn. by rewrite Hh. Qed.

Lemma page_of_fetch db session_id keys :
  Forall (live_key db) keys →
  page_of session_id (fetch db (map (λ k, k.2.2) keys))
  = fetch db (map (λ k, k.2.2) (filter (λ k, k.1 = session_id) keys)).
Proof.
  induction 1 as [|k keys (h & Hh & Hk) _ IH]; [done|]. cbn [map].
  rewrite (fetch_cons db _ _ h Hh). unfold page_of in *. rewrite !filter_cons.
  replace (or_empty (h_session_id (k.2.2, h).2)) with k.1 by (by rewrite Hk).
  destruct (decide (k.1 = session_id)); [|done]. cbn [map]. by rewrite (fetch_cons db _ _ h Hh), IH.
Qed.

Lemma sorted_page_session session_id keys :
  StronglySorted (cmp_le page_cmp) keys →
  StronglySorted (cmp_le recent_cmp) (map snd (filter (λ k, k.1 = session_id) keys)).
Proof.
  induction 1 as [|k keys _ IH Hall]; [constructor|]. rewrite filter_cons. case_decide as Hk; [|done].
  simpl. constructor; [done|]. apply Forall_forall. intros x (k' & -> & [Hk' Hin]%list_elem_of_filter)%list_elem_of_fmap.
  rewrite Forall_forall in Hall. specialize (Hall k' Hin). unfold cmp_le, page_cmp, pair_cmp in *.
  by rewrite Hk, Hk', (cmp_self str_cmp) in Hall.
Qed.

Lemma page_keys_session db session_id session_ids families :
  session_id ∈ session_ids →
  map snd (filter (λ k, k.1 = session_id)
    (py_sorted page_cmp (map page_key
       (select_heads (λ kh, opt_in (h_session_id kh.2) session_ids && str_in (cand_family kh.1) families) db))))
  = py_sorted recent_cmp (map recency (select_heads (of_session session_id families) db)).
Proof.
  intros Hin. apply (StronglySorted_unique (cmp_le recent_cmp)).
  - apply sorted_page_session, (py_sorted_sorted page_cmp).
  - apply (py_sorted_sorted recent_cmp).
  - rewrite (py_sorted_perm recent_cmp), (py_sorted_perm page_cmp).
    assert (∀ l, map snd (filter (λ k, k.1 = session_id) (map page_key l))
                 = map recency (filter (λ kh, or_empty (h_session_id kh.2) = session_id) l)) as ->.
    { induction l as [|kh l IH]; [done|]. csimpl. rewrite !filter_cons. simpl. case_decide; simpl; by rewrite IH. }
    unfold select_heads. rewrite list_filter_filter. erewrite filter_ext_in; [done|].
    intros kh _; simpl. unfold of_session. rewrite !andb_true_iff, opt_is_spec, opt_in_spec. split.
    + intros [E [(s & Hs & _) Hf]]. rewrite Hs in E |- *. simpl in E. by subst.
    + intros [-> Hf]. simpl. eauto.
Qed.

Lemma page_keys_live db (P : head_entry → bool) :
  Forall (live_key db) (py_sorted page_cmp (map page_key (select_heads P db))).
Proof.
  apply Forall_forall. intros k. rewrite (elem_of_py_sorted page_cmp).
  intros ([c h] & -> & [_ Hin]%list_elem_of_filter)%list_elem_of_fmap.
  apply elem_of_map_to_list in Hin. by exists h.
Qed.

Lemma fetch_take db n keys :
  Forall (λ k, is_Some (heads db !! k)) keys → fetch db (take n keys) = take n (fetch db keys).
Proof.
  intros Hk. revert n. induction Hk as [|k keys [h Hh] _ IH]; intros [|n]; [done..|].
  cbn [take]. by rewrite !(fetch_cons db _ _ h Hh), IH.
Qed.

Lemma recent_keys_live db (P : head_entry → bool) :
  Forall (λ k, is_Some (heads db !! k)) (map snd (py_sorted recent_cmp (map recency (select_heads P db)))).
Proof.
  apply Forall_forall. intros k (sk & -> & Hin)%list_elem_of_fmap.
  rewrite (elem_of_py_sorted recent_cmp) in Hin.
  apply list_elem_of_fmap in Hin as ([c h] & -> & [_ Hin]%list_elem_of_filter).
  apply elem_of_map_to_list in Hin. simpl. eauto.
Qed.

Lemma empty_page (session_ids : list string) session_id :
  default [] ((list_to_map (map (λ s, (s, [])) session_ids) : gmap string (list head_entry)) !! session_id) = [].
Proof.
  destruct (_ !! session_id) as [l|] eqn:E; [|done].
  apply elem_of_list_to_map_2, list_elem_of_fmap in E as (s & [= _ ->] & _). done.
Qed.

(** the page read of many sessions answers, for each of them, exactly
    what the read of that one session answers: the same rows in the same
    order, truncated in the same cases. *)
Theorem page_read_is_read_per_session db session_ids families limit seq grouped truncated session_id :
  read_bounded_sessions_fact_heads db session_ids families limit = Ok (seq, grouped, truncated) →
  session_id ∈ session_ids →
  read_bounded_session_fact_heads db session_id families limit
  = Ok (seq, default [] (grouped !! session_id), bool_decide (session_id ∈ truncated)).
Proof.
  intros H Hin. unfold read_bounded_sessions_fact_heads in H.
  apply bind_ok in H as ([] & Hids%guard_ok & H). apply bind_ok in H as ([] & Hlim%guard_ok & H).
  apply andb_true_iff in Hids as [_ Hids]. rewrite forallb_forall in Hids.
  pose proof Hlim as [_ Hl%Nat.ltb_lt]%andb_true_iff.
  unfold read_bounded_session_fact_heads.
  rewrite (Hids session_id) by (by apply list_elem_of_In). simpl. rewrite Hlim. simpl.
  destruct session_ids as [|s0 ids]; [set_solver|]. set (session_ids := s0 :: ids) in *.
  destruct (fold_left _ _ _) as [g t] eqn:Hf. injection H as <- <- <-.
  destruct (fold_page limit _ session_id _ _ _ _ Hf Hl) as [-> Ht]; rewrite ?empty_page in *; [simpl; lia|].
  rewrite page_of_fetch in * by apply page_keys_live.
  rewrite <- !(map_map snd snd) in Ht |- *. rewrite !page_keys_session in Ht |- * by done.
  rewrite <- firstn_map, fetch_take by apply recent_keys_live. cbn [app] in *.
  set (rows := fetch db _) in *. rewrite take_take, Nat.min_l by lia. repeat f_equal.
  apply Bool.eq_true_iff_eq. rewrite Nat.ltb_lt, bool_decide_eq_true, Ht, length_take. set_solver by lia.
Qed.
