(* ===== verification/StoredEvidence.v ===== *)
(** * Stored evidence

    A fact value is stored as its canonical JSON and named by the hash of
    that text.  Reading the text back gives the canonical value with its
    dicts in key order; it is its own canonical form, and so has the stored
    hash.  The tables keep this for every head. *)

From S2P Require Import Prelude PyStr PyTime PyValue Sha256 MachineEvidence Timestamps PyJson PyJsonLaws.
From S2P Require Import FactStore FactReducer FactReducerSetwise FactStoreLaws FactReducerLaws FactReducerRun.

Open Scope Z_scope.

(** ** The canonical form *)

Definition canonical_item (kv : string * pyval) : res (string * pyval) :=
  let! x := canonical_value (Some kv.1) kv.2 in Ok (kv.1, x).

Lemma canonical_dict field items :
  canonical_value field (VDict items) = (let! items' := map_res canonical_item items in Ok (VDict items')).
Proof.
  cbn [canonical_value]. f_equal. induction items as [|[k x] items IH]; [done|]. cbn [map_res].
  rewrite IH. unfold canonical_item. cbn. by destruct (canonical_value (Some k) x).
Qed.

Lemma canonical_list field l :
  canonical_value field (VList l) = (let! l' := map_res (canonical_value field) l in Ok (VList l')).
Proof. cbn [canonical_value]. f_equal. induction l as [|x l IH]; [done|]. cbn [map_res]. by rewrite IH. Qed.

(** Canonical content is free of floats, keeps the keys of its dicts, and is
    canonical again once its dicts are sorted. *)
Definition settled (field : option string) (v w : pyval) : Prop :=
  distinct_keys w ∧ float_free w ∧ canonical_value field (sort_value w) = Ok (sort_value w).

Lemma canonical_item_ok kv kw :
  canonical_item kv = Ok kw ↔ kw.1 = kv.1 ∧ canonical_value (Some kv.1) kv.2 = Ok kw.2.
Proof.
  unfold canonical_item. rewrite bind_ok. destruct kw as [k w]; simpl. split.
  - by intros (x & Hx & [= <- <-]).
  - intros [-> Hx]. eauto.
Qed.

Lemma canonical_settled v : ∀ field w, distinct_keys v → canonical_value field v = Ok w → settled field v w.
Proof.
  induction v as [|b|z|i r|t|l IH|l IH] using pyval_rec_strong; intros field w Hd H.
  - by injection H as <-.
  - by injection H as <-.
  - cbn in H. destruct (_ && _) eqn:E; [|done]. injection H as <-. split; [done|]. split; [done|]. cbn. by rewrite E.
  - done.
  - injection H as <-. unfold settled. cbn [canonical_value]. destruct (opt_in _ _) eqn:E; cbn; rewrite E; [|done].
    by rewrite canonical_timestamp_idemp.
  - rewrite canonical_list in H. apply bind_ok in H as (l' & Hl & [= <-]). apply map_res_ok in Hl.
    simpl in Hd. apply foldr_and in Hd.
    assert (Forall (λ w, distinct_keys w ∧ float_free w ∧ canonical_value field (sort_value w) = Ok (sort_value w)) l') as Hall.
    { clear -Hl IH Hd. induction Hl as [|x y l l' Hx Hl IH2]; [done|]. apply Forall_cons in IH as [IHx IH].
      apply Forall_cons in Hd as [Hdx Hd]. constructor; [|by apply IH2]. by eapply IHx. }
    unfold settled. cbn [sort_value distinct_keys float_free]. rewrite !foldr_and. rewrite Forall_and, Forall_and in Hall. destruct Hall as (? & ? & Hc).
    split; [done|]. split; [done|]. rewrite canonical_list.
    apply bind_ok. exists (map sort_value l'). split; [|done]. apply map_res_ok. by apply Forall2_fmap, Forall_Forall2_diag.
  - rewrite canonical_dict in H. apply bind_ok in H as (l' & Hl & [= <-]). apply map_res_ok in Hl.
    destruct Hd as [Hn Hd]. apply (foldr_and (λ kv, distinct_keys kv.2)) in Hd.
    assert (map fst l' = map fst l ∧
      Forall (λ kw, distinct_keys kw.2 ∧ float_free kw.2 ∧
                    canonical_value (Some kw.1) (sort_value kw.2) = Ok (sort_value kw.2)) l') as [Hkeys Hall].
    { clear -Hl IH Hd. induction Hl as [|x y l l' Hx Hl IH2]; [done|]. apply Forall_cons in IH as [IHx IH].
      apply Forall_cons in Hd as [Hdx Hd]. destruct (IH2 IH Hd) as [Ek Hall].
      apply canonical_item_ok in Hx as [Ey Hx]. simpl. split; [congruence|]. constructor; [|done].
      rewrite Ey. by eapply IHx. }
    rewrite <- Hkeys in Hn. rewrite Forall_and, Forall_and in Hall. destruct Hall as (? & ? & Hc).
    split; [|split].
    + split; [done|]. by apply (foldr_and (λ kv, distinct_keys kv.2)).
    + by apply (foldr_and (λ kv, float_free kv.2)).
    + cbn [sort_value]. rewrite canonical_dict, sort_items_map by done. apply bind_ok. eexists; split; [|done].
      rewrite <- (sort_items_perm l') in Hc. apply map_res_ok, Forall2_fmap, Forall_Forall2_diag.
      eapply Forall_impl; [done|]. intros kv Hkv. by apply canonical_item_ok.
Qed.

(** The text does not depend on the order of the keys. *)
Lemma dumps_sort_value v : distinct_keys v → dumps (sort_value v) = dumps v.
Proof.
  induction v as [|b|z|i r|t|l IH|l IH] using pyval_rec_strong; intros Hd; try done.
  - simpl in Hd. apply foldr_and in Hd. cbn [sort_value dumps]. do 3 f_equal. rewrite map_map. apply map_ext_in.
    intros v Hv%list_elem_of_In. rewrite Forall_forall in *. auto.
  - destruct Hd as [Hn Hd]. apply (foldr_and (λ kv, distinct_keys kv.2)) in Hd. cbn [sort_value dumps].
    do 4 f_equal. apply sort_items_proper; [by rewrite map_map, sort_items_perm, map_map|].
    rewrite sort_items_perm, map_map. erewrite map_ext_in; [done|]. intros kv Hkv%list_elem_of_In. cbn [fst snd].
    rewrite Forall_forall in *. f_equal. auto.
Qed.

Lemma distinct_sort_value v : distinct_keys v → distinct_keys (sort_value v).
Proof.
  induction v as [|b|z|i r|t|l IH|l IH] using pyval_rec_strong; intros Hd; try done.
  - cbn [sort_value distinct_keys] in *. rewrite foldr_and in *. apply Forall_map.
    rewrite Forall_forall in *. intros v Hv. apply IH; auto.
  - destruct Hd as [Hn Hd]. apply (foldr_and (λ kv, distinct_keys kv.2)) in Hd. cbn [sort_value]. split.
    + by rewrite sort_items_perm, map_map.
    + apply (foldr_and (λ kv, distinct_keys kv.2)). rewrite sort_items_perm. apply Forall_map.
      rewrite Forall_forall in *. intros kv Hkv. apply IH; auto.
Qed.

(** ** Fields of a stored object *)

Lemma assoc_elem k (v : pyval) l : NoDup (map fst l) → (k, v) ∈ l → assoc k l = v.
Proof.
  induction l as [|[k' v'] l IH]; intros Hn Hin; [by apply not_elem_of_nil in Hin|].
  apply NoDup_cons in Hn as [Hk Hn]. simpl. apply elem_of_cons in Hin as [[= -> ->]|Hin].
  - by rewrite String.eqb_refl.
  - destruct (String.eqb_spec k' k) as [->|]; [|auto]. exfalso. apply Hk. by apply (list_elem_of_fmap_2 fst) in Hin.
Qed.

Lemma assoc_absent k l : k ∉ map fst l → assoc k l = VNone.
Proof.
  induction l as [|[k' v] l IH]; [done|]. simpl. rewrite not_elem_of_cons. intros [Hk Hl].
  destruct (String.eqb_spec k' k); [by subst|auto].
Qed.

Lemma assoc_sort_items k l : NoDup (map fst l) → assoc k (sort_items l) = assoc k l.
Proof.
  intros Hn. destruct (decide (k ∈ map fst l)) as [Hk|Hk].
  - apply list_elem_of_fmap in Hk as ([k' v] & -> & Hin). simpl. rewrite (assoc_elem k' v l) by done.
    apply assoc_elem; by rewrite sort_items_perm.
  - rewrite !assoc_absent; [done|done|by rewrite sort_items_perm].
Qed.

Lemma assoc_map (f : pyval → pyval) k l : f VNone = VNone → assoc k (map (λ kv, (kv.1, f kv.2)) l) = f (assoc k l).
Proof. intros Hf. induction l as [|[k' v] l IH]; simpl; [done|]. by destruct (String.eqb k' k). Qed.

Lemma assoc_canonical k items items' :
  map_res canonical_item items = Ok items' → canonical_value (Some k) (assoc k items) = Ok (assoc k items').
Proof.
  intros H%map_res_ok. induction H as [|[k' v] [k2 v'] items items' Hx H IH]; [done|].
  apply canonical_item_ok in Hx as [E Hx]. simpl in *. subst. by destruct (String.eqb_spec k' k) as [->|].
Qed.

Section Stored.
Context (float : string → pyval).

(** What a stored text reads back as. *)
Lemma loads_canonical v j :
  distinct_keys v → canonical_value_json v = Ok j →
  ∃ w, loads float j = Ok w ∧ distinct_keys w ∧ canonical_value_json w = Ok j.
Proof.
  intros Hd H. unfold canonical_value_json in H. apply bind_ok in H as (c & Hc & [= <-]).
  destruct (canonical_settled v None c Hd Hc) as (Hdc & Hf & Hs). exists (sort_value c).
  split; [by apply loads_dumps|]. split; [by apply distinct_sort_value|].
  unfold canonical_value_json. rewrite Hs. simpl. by rewrite dumps_sort_value.
Qed.
(** An object's fields read back one by one. *)
Lemma loads_fields items j :
  distinct_keys (VDict items) → canonical_value_json (VDict items) = Ok j →
  ∃ fields, loads float j = Ok (VDict fields) ∧ canonical_value_json (VDict fields) = Ok j ∧
    ∀ k, ∃ x, canonical_value (Some k) (assoc k items) = Ok x ∧ assoc k fields = sort_value x.
Proof.
  intros Hd H. unfold canonical_value_json in H. apply bind_ok in H as (c & Hc & [= <-]).
  destruct (canonical_settled _ None c Hd Hc) as (Hdc & Hf & Hs).
  rewrite canonical_dict in Hc. apply bind_ok in Hc as (items' & Hi & [= <-]).
  pose proof Hdc as [Hn _]. exists (sort_items (map (λ kv, (kv.1, sort_value kv.2)) items')).
  split; [by apply loads_dumps|]. split.
  - unfold canonical_value_json. cbn [sort_value] in Hs. rewrite Hs. cbn [mbind res_bind].
    by rewrite <- (dumps_sort_value (VDict items')).
  - intros k. exists (assoc k items'). split; [by apply assoc_canonical|].
    rewrite assoc_sort_items by by rewrite map_map. by apply assoc_map.
Qed.

Lemma backed_verifies h :
  backed h → ∃ w, loads float (h_value_json h) = Ok w ∧ distinct_keys w ∧
                  canonical_evidence_hash w = Ok (h_evidence_hash h).
Proof.
  intros (v & Hd & Hj & Hh). destruct (loads_canonical v _ Hd Hj) as (w & Hl & Hdw & Hw).
  exists w. split; [done|]. split; [done|]. unfold canonical_evidence_hash in *. by rewrite Hw, <- Hj.
Qed.

Lemma reduction_keeps_backed db facts received_at override db' r :
  wf db → heads_backed db → Forall well_keyed facts →
  reduce_fact_batch db facts received_at override = Ok (db', r) → heads_backed db'.
Proof.
  intros Hwf Hb Hk H. apply reduce_run in H as (prepared & dup & pairs & st & _ & _ & Hrun & -> & _); [|done].
  intros c h Hh. eapply (run_backed _ _ _ _ _ _ _ Hrun Hk Hb c h).
  by eapply lookup_weaken, finish_shrinks.
Qed.

(** C32: a canonical value survives its storage: the text the reducer stores
    reads back (the reader's bound on its recursion never ends it early) as a
    value with the same canonical text and the same evidence hash. *)
Theorem stored_value_reads_back v j :
  distinct_keys v → canonical_value_json v = Ok j →
  ∃ w, loads float j = Ok w ∧ canonical_value_json w = Ok j ∧
       canonical_evidence_hash w = canonical_evidence_hash v.
Proof.
  intros Hd Hj. destruct (loads_canonical v j Hd Hj) as (w & Hl & _ & Hw).
  exists w. split; [done|]. split; [done|]. unfold canonical_evidence_hash. by rewrite Hw, Hj.
Qed.

(** C33: evidence stays verifiable: after any reduction of evidence whose
    objects have distinct keys, the stored value of every head still parses
    and hashes to the evidence hash its head is named by. *)
Theorem stored_heads_verify db facts received_at override db' r :
  wf db → heads_backed db → Forall well_keyed facts →
  reduce_fact_batch db facts received_at override = Ok (db', r) →
  heads_backed db' ∧
  ∀ c h, heads db' !! c = Some h →
    ∃ w, loads float (h_value_json h) = Ok w ∧ canonical_evidence_hash w = Ok (h_evidence_hash h).
Proof.
  intros Hwf Hb Hk H. pose proof (reduction_keeps_backed _ _ _ _ _ _ Hwf Hb Hk H) as Hb'. split; [done|].
  intros c h Hh. destruct (backed_verifies h (Hb' c h Hh)) as (w & Hl & _ & Hw). by exists w.
Qed.
End Stored.
