(* ===== verification/FactSamples.v ===== *)
(** * Concrete reductions

    Facts and catalogs on which the theorems of [FactReducerProps] are
    instantiated, and a batch off UTC on which the two reducers differ. *)

From S2P Require Import Prelude PyStr PyTime PyValue Sha256 MachineEvidence.
From S2P Require Import FactStore FactReducer FactReducerSetwise.
From S2P Require Import FactStoreLaws FactReducerLaws FactReducerSim FactReducerRun FactBatchOrder FactReducerProps.
From S2P Require Import PyJson PyJsonLaws StoredEvidence.

Open Scope list_scope.
Open Scope Z_scope.

Definition hash_of (value : list (string * pyval)) : string :=
  match canonical_evidence_hash (VDict value) with Ok h => h | Err _ => "none" end.

Definition phase_value (phase : string) : list (string * pyval) :=
  [("phase", VStr phase); ("session_id", VStr "s1")].

Definition sample_fact (seq : option Z) (phase : string) (at_ : datetime) : ReducerFact :=
  Fact "phase" "phase:s1" "engine" "boot1" seq (hash_of [("at", VInt (dt_wall at_)); ("phase", VStr phase)])
       (hash_of (phase_value phase)) (phase_value phase) (Some at_) (Some "s1") None None.

Definition noon : datetime := utc_at 2026 8 1 12 0 0.
Definition one_pm : datetime := utc_at 2026 8 1 13 0 0.

Definition empty_catalog : catalog := Catalog ∅ [] [] 7 "2026-08-01T00:00:00+00:00".

Definition running_fact : ReducerFact := sample_fact (Some 1) "running" noon.
Definition idle_fact : ReducerFact := sample_fact (Some 2) "idle" one_pm.

(** The catalog after one accepted fact. *)
Definition sample_catalog : catalog :=
  match reduce_fact_batch empty_catalog [running_fact] noon None with Ok (db, _) => db | Err _ => empty_catalog end.

Lemma empty_catalog_sound : wf empty_catalog ∧ bounded empty_catalog ∧ commits_bounded empty_catalog.
Proof.
  split_and!.
  - split; try apply NoDup_nil_2; try (intros r Hr; by apply not_elem_of_nil in Hr). intros k h Hh. done.
  - split; intros; vm_compute; lia.
  - intros k h Hh. done.
Qed.

Lemma sample_catalog_reduced : ∃ r, reduce_fact_batch empty_catalog [running_fact] noon None = Ok (sample_catalog, r).
Proof. eexists. vm_compute. reflexivity. Qed.

Lemma sample_catalog_sound : wf sample_catalog ∧ bounded sample_catalog ∧ commits_bounded sample_catalog.
Proof.
  destruct empty_catalog_sound as (Hwf & Hb & Hc). destruct sample_catalog_reduced as [r Hr].
  by apply reduction_sound in Hr.
Qed.

Lemma idle_fact_utc : Forall observed_utc [idle_fact].
Proof. constructor; [|done]. by intros ? [= <-]. Qed.

Lemma reducers_agree_witness :
  wf sample_catalog ∧ Forall observed_utc [idle_fact] ∧
  reduce_fact_batch sample_catalog [idle_fact] one_pm None
  = reduce_fact_batch_setwise sample_catalog [idle_fact] one_pm None.
Proof.
  split; [apply sample_catalog_sound|]. split; [apply idle_fact_utc|].
  apply (reducers_agree sample_catalog [idle_fact] one_pm None); [apply sample_catalog_sound|apply idle_fact_utc].
Defined.

(** The catalog after both facts. *)
Definition later_catalog : catalog :=
  match reduce_fact_batch sample_catalog [idle_fact] one_pm None with Ok (db, _) => db | Err _ => empty_catalog end.

Definition accepted_one : ReducerResult := Result 9 1 0 0 0.

Lemma later_catalog_reduced :
  reduce_fact_batch sample_catalog [idle_fact] one_pm None = Ok (later_catalog, accepted_one).
Proof. vm_compute. reflexivity. Qed.

Lemma reduction_keeps_tables_sound_witness :
  wf later_catalog ∧ bounded later_catalog ∧ commits_bounded later_catalog.
Proof.
  destruct sample_catalog_sound as (Hwf & Hb & Hc).
  apply (reduction_keeps_tables_sound sample_catalog [idle_fact] one_pm None later_catalog accepted_one Hwf Hb Hc).
  apply later_catalog_reduced.
Defined.

Definition head_of (db : catalog) : FactHead :=
  default (Head None "" None "" None None "" None 0 0) (heads db !! candidate_key idle_fact).

Lemma heads_only_move_forward_witness :
  head_of later_catalog = head_of sample_catalog ∨ head_newer (head_of sample_catalog) (head_of later_catalog).
Proof.
  apply (heads_only_move_forward sample_catalog [idle_fact] one_pm None later_catalog accepted_one
           (candidate_key idle_fact)).
  - apply sample_catalog_sound.
  - apply idle_fact_utc.
  - apply later_catalog_reduced.
  - vm_compute. reflexivity.
  - vm_compute. reflexivity.
Defined.

Lemma delivery_order_is_irrelevant_witness :
  is_ok (reduce_fact_batch empty_catalog [running_fact; idle_fact] one_pm None) = true ∧
  reduce_fact_batch empty_catalog [idle_fact; running_fact] one_pm None
  = reduce_fact_batch empty_catalog [running_fact; idle_fact] one_pm None.
Proof.
  split; [vm_compute; reflexivity|].
  destruct (reduce_fact_batch empty_catalog [running_fact; idle_fact] one_pm None) as [out|e] eqn:E.
  - apply (delivery_order_is_irrelevant empty_catalog [running_fact; idle_fact] [idle_fact; running_fact]
             one_pm None out); [|apply perm_swap|exact E].
    intros a b Ha Hb Hk Hh. apply elem_of_cons in Ha as [->|Ha%list_elem_of_singleton];
      apply elem_of_cons in Hb as [->|Hb%list_elem_of_singleton]; subst; try reflexivity;
      exfalso; vm_compute in Hh; discriminate Hh.
  - exfalso. vm_compute in E. discriminate E.
Defined.

(** A fact whose source sequence does not fit a column: it validates, and both
    reducers raise when they insert it. *)
Definition long_fact : ReducerFact := sample_fact (Some (2 ^ 63)) "idle" one_pm.

Example long_fact_overflows :
  validate_fact long_fact = Ok long_fact ∧
  reduce_fact_batch sample_catalog [long_fact] one_pm None = Err OverflowError ∧
  reduce_fact_batch_setwise sample_catalog [long_fact] one_pm None = Err OverflowError.
Proof. split; [|split]; vm_compute; reflexivity. Qed.

Lemma reducer_returns_iff_input_valid_witness :
  (length [idle_fact] ≤ MAX_REDUCER_FACTS)%nat ∧ representable one_pm = true ∧ Forall admissible [idle_fact] ∧
  check_override None sample_catalog = Ok tt ∧
  match reduce_fact_batch sample_catalog [long_fact] one_pm None with
  | Ok _ => True
  | Err e => e = OverflowError ∧ ∃ f, f ∈ [long_fact] ∧ bindable (f_source_seq f) = false
  end.
Proof.
  destruct sample_catalog_sound as [Hwf _].
  destruct (reducer_returns_iff_input_valid sample_catalog [idle_fact] one_pm None Hwf) as [H _].
  destruct (reducer_returns_iff_input_valid sample_catalog [long_fact] one_pm None Hwf) as [_ H'].
  destruct H as (H1 & H2 & H3 & H4); [vm_compute; reflexivity|]. 
  split; [exact H1|]. split; [exact H2|]. split; [exact H3|]. split; [exact H4|]. apply H'.
  split; [vm_compute; lia|]. split; [reflexivity|]. split; [|reflexivity].
  constructor; [split; [vm_compute; reflexivity|left; by eexists]|constructor].
Defined.

Lemma one_commit_per_changing_batch_witness : 9 = commit_seq later_catalog ∧ commit_seq later_catalog = commit_seq sample_catalog + 1.
Proof.
  apply (one_commit_per_changing_batch sample_catalog [idle_fact] one_pm None later_catalog accepted_one);
    [apply sample_catalog_sound..|apply later_catalog_reduced].
Defined.

Lemma counters_account_for_the_batch_witness :
  0 ≤ 1 ∧ 0 ≤ 0 ∧ 0 ≤ 0 ∧ 0 ≤ 0 ∧ 1 + 0 + 0 + 0 ≤ Z.of_nat (length [idle_fact]) ≤ 256.
Proof.
  apply (counters_account_for_the_batch sample_catalog [idle_fact] one_pm None later_catalog accepted_one);
    [apply sample_catalog_sound|apply later_catalog_reduced].
Defined.

Lemma accepted_fact_is_served_and_replay_is_free_witness :
  reduce_fact_batch later_catalog [idle_fact] one_pm None
  = Ok (later_catalog, Result (commit_seq later_catalog) 0 1 0 0).
Proof.
  destruct sample_catalog_sound as (Hwf & Hb & Hc).
  apply (accepted_fact_is_served_and_replay_is_free sample_catalog idle_fact one_pm later_catalog accepted_one
           Hwf Hb Hc); [apply later_catalog_reduced|reflexivity|reflexivity].
Defined.

(** A report of no identities, whose batch is empty. *)
Definition bare_evidence : pyval := VDict [("schema_version", VInt 3); ("identities", VList [])].

Lemma evidence_batches_reduce_alike_witness :
  ∃ facts, reducer_facts_from_machine_evidence (λ _, None) (λ _, 0) bare_evidence = Ok facts ∧
    reduce_fact_batch sample_catalog facts one_pm None = reduce_fact_batch_setwise sample_catalog facts one_pm None.
Proof.
  exists []. split; [vm_compute; reflexivity|].
  apply (evidence_batches_reduce_alike (λ _, None) (λ _, 0) bare_evidence [] sample_catalog one_pm None);
    [vm_compute; reflexivity|apply sample_catalog_sound].
Defined.

(** ** A batch off UTC *)

(** Noon at UTC+2 is ten o'clock UTC; eleven o'clock UTC is later. *)
Definition noon_plus_two : datetime := DT (dt_wall noon) (Some (2 * 3600 * US_PER_SECOND)).
Definition eleven : datetime := utc_at 2026 8 1 11 0 0.

Definition off_utc_batch : list ReducerFact :=
  [sample_fact None "running" noon_plus_two; sample_fact None "idle" eleven].

(** off UTC the reducers differ.  Both facts of the batch validate and
    the second is the later one, but the row-wise reducer reads the first
    back from its column as noon UTC and drops the second as stale, while the
    set-wise reducer compares the instants and accepts both. *)
Theorem reducers_differ_off_utc :
  (∃ db', reduce_fact_batch empty_catalog off_utc_batch one_pm None = Ok (db', Result 8 1 0 1 0)) ∧
  (∃ db', reduce_fact_batch_setwise empty_catalog off_utc_batch one_pm None = Ok (db', Result 8 2 0 0 0)).
Proof. split; eexists; vm_compute; reflexivity. Qed.

(** ** Stored evidence *)

Definition float_text (s : string) : pyval := VFloat None s.

(** A value with an unsorted key and a timestamp off UTC. *)
Definition wire_value : pyval :=
  VDict [("observed_at", VStr "2026-08-01T14:00:00+02:00"); ("count", VInt (-12)); ("note", VStr "a\b")].

Definition wire_json : string := match canonical_value_json wire_value with Ok j => j | Err _ => "" end.

Lemma stored_value_reads_back_witness :
  distinct_keys wire_value ∧ canonical_value_json wire_value = Ok wire_json ∧
  ∃ w, loads float_text wire_json = Ok w ∧ canonical_value_json w = Ok wire_json ∧
       canonical_evidence_hash w = canonical_evidence_hash wire_value.
Proof.
  assert (distinct_keys wire_value) as Hd by (split; [by apply (bool_decide_unpack _)|by repeat split]).
  assert (canonical_value_json wire_value = Ok wire_json) as Hj by (vm_compute; reflexivity).
  split; [exact Hd|]. split; [exact Hj|]. exact (stored_value_reads_back float_text wire_value wire_json Hd Hj).
Defined.

Lemma sample_facts_well_keyed : Forall well_keyed [running_fact; idle_fact].
Proof. repeat constructor; set_solver. Qed.

Lemma sample_catalog_backed : heads_backed sample_catalog.
Proof.
  destruct sample_catalog_reduced as [r Hr].
  eapply reduction_keeps_backed; [apply empty_catalog_sound|by intros k h Hh| |exact Hr].
  pose proof sample_facts_well_keyed as H. by apply Forall_cons in H as [H _]; constructor.
Qed.

Lemma stored_heads_verify_witness :
  heads_backed later_catalog ∧
  ∀ c h, heads later_catalog !! c = Some h →
    ∃ w, loads float_text (h_value_json h) = Ok w ∧ canonical_evidence_hash w = Ok (h_evidence_hash h).
Proof.
  refine (stored_heads_verify float_text sample_catalog [idle_fact] one_pm None later_catalog accepted_one _ _ _ _).
  - apply sample_catalog_sound.
  - exact sample_catalog_backed.
  - pose proof sample_facts_well_keyed as H. by apply Forall_cons in H as [_ H].
  - exact later_catalog_reduced.
Defined.
