(* ===== verification/ConsoleControl.v ===== *)
(** * Console control

    Models [src/server/zerg/services/console_control_projection.py]: the one
    typed answer for Console reachability and turn-scoped actions, and its
    form as catalog facts. *)

From S2P Require Import Prelude PyStr PyValue.

Open Scope list_scope.

(** [ConsoleTurnState], [ConsoleStartBlocker], [ConsoleConnection]. *)
Definition TURN_STATES : list string := ["idle"; "queued"; "starting"; "active"; "draining"]%string.
Definition START_BLOCKERS : list string :=
  ["session_closed"; "execution_target_missing"; "machine_offline"; "adapter_unavailable"]%string.
Definition EXECUTION_STATES : list string := ["starting"; "active"; "draining"]%string.

(** [_turn_state] on a string or [None]. *)
Definition turn_state_of (value : option string) : string :=
  let normalized := lower (strip (default "idle" (opt_or value (Some "idle"))))%string in
  if str_in normalized TURN_STATES then normalized else "idle"%string.

Record ConsoleControlProjection : Type := Console {
  cc_turn_state : string;
  cc_machine_online : bool;
  cc_adapter_available : bool;
  cc_interrupt_adapter_available : bool;
  cc_can_start_turn : bool;
  cc_start_turn_blocked_by : option string;
  cc_can_interrupt_active_turn : bool;
}.

(** The [connection] property. *)
Definition connection (p : ConsoleControlProjection) : string :=
  if negb (cc_machine_online p) then "disconnected"
  else if negb (cc_adapter_available p) then "degraded"
  else "connected".

(** [turn_is_executing]. *)
Definition turn_is_executing (p : ConsoleControlProjection) : bool := str_in (cc_turn_state p) EXECUTION_STATES.

Definition interrupt_unavailable_reason (p : ConsoleControlProjection) : string :=
  if negb (cc_machine_online p) then "machine_offline"
  else if negb (cc_interrupt_adapter_available p) then "unsupported"
  else if negb (turn_is_executing p) then "no_active_turn"
  else "interrupt_unavailable".

Definition of_opt (v : option string) : pyval := match v with Some s => VStr s | None => VNone end.

(** [as_catalog_facts]. *)
Definition as_catalog_facts (p : ConsoleControlProjection) : list (string * pyval) :=
  [("turn_state", VStr (cc_turn_state p));
   ("machine_online", VBool (cc_machine_online p));
   ("adapter_available", VBool (cc_adapter_available p));
   ("interrupt_adapter_available", VBool (cc_interrupt_adapter_available p));
   ("can_start_turn", VBool (cc_can_start_turn p));
   ("start_turn_blocked_by", of_opt (cc_start_turn_blocked_by p));
   ("can_interrupt_active_turn", VBool (cc_can_interrupt_active_turn p))]%string.

(** [from_catalog_facts]. *)
Definition from_catalog_facts (value : list (string * pyval)) : ConsoleControlProjection :=
  let blocked := or_none (strip (or_empty (str_or (assoc "start_turn_blocked_by" value)))) in
  let blocked := match blocked with
                 | Some b => if str_in b START_BLOCKERS then Some b else Some "adapter_unavailable"%string
                 | None => None
                 end in
  Console (turn_state_of (str_or (assoc "turn_state" value)))
          (truthy (assoc "machine_online" value))
          (truthy (assoc "adapter_available" value))
          (truthy (assoc "interrupt_adapter_available" value))
          (truthy (assoc "can_start_turn" value))
          blocked
          (truthy (assoc "can_interrupt_active_turn" value)).

(** The four checks of [project_console_control], first match wins. *)
Definition start_blocker (closed execution_target_available machine_online adapter_available : bool) :
    option string :=
  if closed then Some "session_closed"%string
  else if negb execution_target_available then Some "execution_target_missing"%string
  else if negb machine_online then Some "machine_offline"%string
  else if negb adapter_available then Some "adapter_unavailable"%string
  else None.

(** [project_console_control]. *)
Definition project_console_control (closed execution_target_available : bool) (turn_state : option string)
    (machine_online adapter_available interrupt_adapter_available : bool) : ConsoleControlProjection :=
  let normalized_state := turn_state_of turn_state in
  let blocked_by := start_blocker closed execution_target_available machine_online adapter_available in
  Console normalized_state machine_online adapter_available interrupt_adapter_available
          (bool_decide (blocked_by = None)) blocked_by
          (str_in normalized_state EXECUTION_STATES && machine_online && interrupt_adapter_available).

(** ** Laws *)

Lemma turn_state_known v : turn_state_of v ∈ TURN_STATES.
Proof.
  unfold turn_state_of. destruct (str_in _ _) eqn:E; [by apply str_in_spec in E|]. left.
Qed.

(** Recorded states are already in normal form. *)
Lemma turn_state_fixed s : s ∈ TURN_STATES → turn_state_of (Some s) = s.
Proof.
  unfold TURN_STATES. rewrite !elem_of_cons, elem_of_nil.
  intros [->|[->|[->|[->|[->|[]]]]]]; vm_compute; reflexivity.
Qed.

Lemma str_or_str s : str_or (VStr s) = or_none s.
Proof. unfold str_or, or_none; simpl. by destruct (str_truthy s). Qed.

Lemma blocker_fixed b : b ∈ START_BLOCKERS → or_none (strip (or_empty (or_none b))) = Some b.
Proof.
  unfold START_BLOCKERS. rewrite !elem_of_cons, elem_of_nil.
  intros [->|[->|[->|[->|[]]]]]; vm_compute; reflexivity.
Qed.

Lemma start_blocker_known c t m a b : start_blocker c t m a = Some b → b ∈ START_BLOCKERS.
Proof. unfold start_blocker, START_BLOCKERS. destruct c, t, m, a; simpl; intros [= <-]; set_solver. Qed.

(** The typed record and its catalog facts carry the same information. *)
Lemma catalog_facts_roundtrip p :
  cc_turn_state p ∈ TURN_STATES → (∀ b, cc_start_turn_blocked_by p = Some b → b ∈ START_BLOCKERS) →
  from_catalog_facts (as_catalog_facts p) = p.
Proof.
  destruct p as [s m a i c b x]; simpl. intros Hs Hb. unfold from_catalog_facts, as_catalog_facts.
  cbn [assoc cc_turn_state cc_machine_online cc_adapter_available cc_interrupt_adapter_available cc_can_start_turn
       cc_start_turn_blocked_by cc_can_interrupt_active_turn]. simpl. rewrite str_or_str.
  assert (or_none s = Some s) as Hor.
  { apply or_none_Some; split; [done|]. intros ->. unfold TURN_STATES in Hs. set_solver. }
  rewrite Hor, turn_state_fixed by done.
  destruct b as [b|]; simpl; [|done]. rewrite str_or_str, blocker_fixed by auto.
  assert (str_in b START_BLOCKERS = true) as -> by (apply str_in_spec; auto). done.
Qed.

(** A projected Console answer survives the catalog: writing it as
    catalog facts and reading it back gives the same answer. *)
Theorem console_control_roundtrip closed target turn_state online adapter interrupt_adapter :
  let p := project_console_control closed target turn_state online adapter interrupt_adapter in
  from_catalog_facts (as_catalog_facts p) = p.
Proof.
  intros p. apply catalog_facts_roundtrip; [apply turn_state_known|]. intros b. apply start_blocker_known.
Qed.

(** Console actions are gated and reachability is independent of the
    gates: a turn can start exactly when no blocker is reported, the reported
    blocker is the first that applies in the order closed, target, machine,
    adapter, an interrupt needs a running turn on a reachable machine, and
    the connection depends on the machine and the adapter alone. *)
Theorem console_actions_are_gated closed target turn_state online adapter interrupt_adapter :
  let p := project_console_control closed target turn_state online adapter interrupt_adapter in
  (cc_can_start_turn p = true ↔ closed = false ∧ target = true ∧ online = true ∧ adapter = true) ∧
  (cc_can_start_turn p = true ↔ cc_start_turn_blocked_by p = None) ∧
  (cc_can_start_turn p = true → connection p = "connected"%string) ∧
  (cc_can_interrupt_active_turn p = true ↔
     turn_is_executing p = true ∧ online = true ∧ interrupt_adapter = true) ∧
  (∀ closed' target' turn_state',
     connection (project_console_control closed' target' turn_state' online adapter interrupt_adapter)
     = connection p).
Proof.
  unfold project_console_control, start_blocker, connection, turn_is_executing; simpl.
  rewrite !andb_true_iff. split_and!; [..|done]; destruct closed, target, online, adapter; simpl; naive_solver.
Qed.
