(* ===== verification/ProviderContracts.v ===== *)
(** * Managed provider contracts

    Models [src/server/zerg/services/managed_provider_contracts.py]: what each
    provider's contract supports, which machine-control operations it can
    carry, and the registry that finds a contract by provider or by control
    plane.  The contracts themselves come from the provider manifest, a data
    file, so a registry is loaded from any list of contracts. *)

From S2P Require Import Prelude PyStr PyValue.

Open Scope list_scope.

(** [ManagedSessionTransport] of [session_execution_home.py]. *)
Inductive ManagedSessionTransport : Type :=
  | CLAUDE_CHANNEL_BRIDGE | CODEX_APP_SERVER | OPENCODE_SERVER_BRIDGE | OPENCODE_PROCESS
  | ANTIGRAVITY_HOOK_INBOX | ANTIGRAVITY_PROCESS | CURSOR_EXEC | CURSOR_ACP | CURSOR_HELM | PI_PRINT.

#[export] Instance transport_eq_dec : EqDecision ManagedSessionTransport.
Proof. solve_decision. Defined.

(** The fields of [ManagedProviderContract] that operations read; probes,
    digests, release channels and proof profiles are carried data. *)
Record ManagedProviderContract : Type := Contract {
  mc_provider : string;
  mc_managed_transport : ManagedSessionTransport;
  mc_control_plane : string;
  mc_control_plane_aliases : list string;
  mc_support_tier : string;
  mc_run_once : bool;
  mc_reattach : bool;
  mc_send_input : bool;
  mc_interrupt : bool;
  mc_steer_active_turn : bool;
  mc_answer_pause : bool;
  mc_terminate : bool;
  mc_tail_output : bool;
  mc_can_resume : bool;
  mc_turn_start : bool;
  mc_live_proof : bool;
  mc_machine_control_supports : list string;
  mc_operation_evidence : list (string * list (string * string));
}.

(** [MACHINE_CONTROL_SUPPORT_OPERATION_BY_SUFFIX] of
    [managed_provider_contract_manifest.py]. *)
Definition MACHINE_CONTROL_SUPPORT_OPERATION_BY_SUFFIX : list (string * string) :=
  [("send", "send_input"); ("interrupt", "interrupt"); ("steer", "steer_active_turn");
   ("answer_pause", "answer_pause"); ("terminate", "terminate"); ("run_once", "run_once");
   ("resume_run_once", "run_once"); ("turn_start", "turn_start"); ("turn_interrupt", "interrupt")]%string.

Definition MACHINE_CONTROL_SUFFIX_BY_COMMAND : list (string * string) :=
  [("session.send_text", "send"); ("session.interrupt", "interrupt"); ("session.steer_text", "steer");
   ("session.answer_pause", "answer_pause"); ("session.terminate", "terminate");
   ("session.run_once", "run_once"); ("session.turn.start", "turn_start");
   ("session.turn.interrupt", "turn_interrupt")]%string.

(** [table.get(key)]. *)
Fixpoint lookup_str {A} (key : string) (table : list (string * A)) : option A :=
  match table with
  | [] => None
  | (k, v) :: table' => if String.eqb k key then Some v else lookup_str key table'
  end.

Definition control_planes (c : ManagedProviderContract) : list string :=
  mc_control_plane c :: mc_control_plane_aliases c.

(** [getattr(self, operation, False)] over the boolean fields: every caller
    passes the name of one of them. *)
Definition supports_contract_operation (c : ManagedProviderContract) (operation : string) : bool :=
  default false (lookup_str operation
    [("run_once", mc_run_once c); ("reattach", mc_reattach c); ("send_input", mc_send_input c);
     ("interrupt", mc_interrupt c); ("steer_active_turn", mc_steer_active_turn c);
     ("answer_pause", mc_answer_pause c); ("terminate", mc_terminate c); ("tail_output", mc_tail_output c);
     ("can_resume", mc_can_resume c); ("turn_start", mc_turn_start c); ("live_proof", mc_live_proof c)]%string).

Definition dot : ascii := Ascii.ascii_of_nat 46.

(** [s.partition(".")]: before, whether the separator was found, after. *)
Fixpoint partition_dot (s : string) : string * bool * string :=
  match s with
  | EmptyString => (EmptyString, false, EmptyString)
  | String ch s' =>
      if Ascii.eqb ch dot then (EmptyString, true, s')
      else let '(before, found, after) := partition_dot s' in (String ch before, found, after)
  end.

(** [dispatchable_operation]. *)
Definition dispatchable_operation (c : ManagedProviderContract) (operation : string) : bool :=
  supports_contract_operation c operation &&
  existsb (λ support, opt_is (lookup_str (partition_dot support).2 MACHINE_CONTROL_SUPPORT_OPERATION_BY_SUFFIX)
                             operation) (mc_machine_control_supports c).

(** [connection_capabilities]. *)
Definition connection_capabilities (c : ManagedProviderContract) : list (string * bool) :=
  [("can_send_input", dispatchable_operation c "send_input");
   ("can_interrupt", dispatchable_operation c "interrupt");
   ("can_terminate", dispatchable_operation c "terminate");
   ("can_tail_output", mc_tail_output c);
   ("can_resume", mc_reattach c)]%string.

Definition operation_evidence_for (c : ManagedProviderContract) (operation : string) : list (string * string) :=
  default [] (lookup_str operation (mc_operation_evidence c)).

(** [machine_control_operation_for_support] on a string. *)
Definition machine_control_operation_for_support (c : ManagedProviderContract) (support : string) : option string :=
  let '(provider, found, operation) := partition_dot (strip support) in
  if negb found || negb (String.eqb provider (mc_provider c)) then None
  else match lookup_str operation MACHINE_CONTROL_SUPPORT_OPERATION_BY_SUFFIX with
       | None => None
       | Some contract_operation =>
           if negb (supports_contract_operation c contract_operation) then None
           else if str_in support (mc_machine_control_supports c) then Some operation else None
       end.

(** [machine_control_capability_for_operation]. *)
Definition machine_control_capability_for_operation (c : ManagedProviderContract) (operation : string) :
    option string :=
  let operation := strip operation in
  match lookup_str operation MACHINE_CONTROL_SUPPORT_OPERATION_BY_SUFFIX with
  | None => None
  | Some contract_operation =>
      if negb (supports_contract_operation c contract_operation) then None
      else let capability := (mc_provider c +:+ "." +:+ operation)%string in
           if str_in capability (mc_machine_control_supports c) then Some capability else None
  end.

Definition machine_control_operations (c : ManagedProviderContract) : list string :=
  omap (machine_control_operation_for_support c) (mc_machine_control_supports c).

(** ** The registry *)

(** The module-level [_CONTRACTS] and [_BY_CONTROL_PLANE]. *)
Record registry : Type := Registry {
  reg_contracts : list ManagedProviderContract;
  reg_by_plane : gmap string ManagedProviderContract;
}.

Definition add_plane (c : ManagedProviderContract) (by_plane : gmap string ManagedProviderContract)
    (plane : string) : res (gmap string ManagedProviderContract) :=
  match by_plane !! plane with
  | Some existing => Err (ValueError "managed provider control_plane is claimed twice")
  | None => Ok (<[plane := c]> by_plane)
  end.

(** [_contracts_by_control_plane]. *)
Definition contracts_by_control_plane (contracts : list ManagedProviderContract) :
    res (gmap string ManagedProviderContract) :=
  fold_res (λ by_plane c, fold_res (add_plane c) by_plane (control_planes c)) ∅ contracts.

(** Importing the module. *)
Definition load_registry (contracts : list ManagedProviderContract) : res registry :=
  let! by_plane := contracts_by_control_plane contracts in Ok (Registry contracts by_plane).

(** [_BY_PROVIDER], a dict comprehension: the last contract of a provider wins. *)
Definition by_provider (contracts : list ManagedProviderContract) : gmap string ManagedProviderContract :=
  fold_left (λ m c, <[mc_provider c := c]> m) contracts ∅.

Definition LEGACY_CONTROL_PLANE_PROVIDERS : list (string * string) :=
  [("opencode_process", "opencode"); ("antigravity_process", "antigravity")]%string.

Definition LEGACY_CONTROL_PLANE_TRANSPORTS : list (string * ManagedSessionTransport) :=
  [("opencode_process"%string, OPENCODE_PROCESS); ("antigravity_process"%string, ANTIGRAVITY_PROCESS)].

Definition contract_for_provider (reg : registry) (provider : option string) : option ManagedProviderContract :=
  by_provider (reg_contracts reg) !! lower (strip (or_empty provider)).

Definition require_contract_for_provider (reg : registry) (provider : option string) : res ManagedProviderContract :=
  match contract_for_provider reg provider with
  | Some c => Ok c
  | None => Err (ValueError "Unsupported managed-local provider")
  end.

Definition contract_for_control_plane (reg : registry) (plane : option string) : option ManagedProviderContract :=
  reg_by_plane reg !! strip (or_empty plane).

Definition managed_transport_for_provider (reg : registry) (provider : option string) : res ManagedSessionTransport :=
  mc_managed_transport <$> require_contract_for_provider reg provider.

Definition managed_transport_for_control_plane (reg : registry) (plane : option string) :
    option ManagedSessionTransport :=
  match lookup_str (strip (or_empty plane)) LEGACY_CONTROL_PLANE_TRANSPORTS with
  | Some t => Some t
  | None => mc_managed_transport <$> contract_for_control_plane reg plane
  end.

Definition control_plane_for_provider (reg : registry) (provider : option string) : res string :=
  mc_control_plane <$> require_contract_for_provider reg provider.

Definition provider_for_control_plane (reg : registry) (plane : option string) : option string :=
  match lookup_str (strip (or_empty plane)) LEGACY_CONTROL_PLANE_PROVIDERS with
  | Some p => Some p
  | None => mc_provider <$> contract_for_control_plane reg plane
  end.

Definition factory_provider_names (reg : registry) (include_maintenance : bool) : list string :=
  py_sorted str_cmp (map mc_provider
    (filter (λ c, include_maintenance || String.eqb (mc_support_tier c) "launch" = true) (reg_contracts reg))).

Definition run_once_supported_providers (reg : registry) : list string :=
  map mc_provider (filter (λ c, mc_run_once c = true) (reg_contracts reg)).

(** [machine_control_operations_by_provider]; the dict as a finite map. *)
Definition machine_control_operations_by_provider (reg : registry) (supports : list string) (connected : bool) :
    gmap string (list string) :=
  if negb connected then ∅
  else
    let support_set := filter (λ s, s ≠ EmptyString) (map strip supports) in
    fold_left
      (λ m c,
         let operations := omap (λ capability, if str_in capability support_set
                                               then machine_control_operation_for_support c capability else None)
                                (mc_machine_control_supports c) in
         match operations with [] => m | _ => <[mc_provider c := operations]> m end)
      (reg_contracts reg) ∅.

Definition steer_control_planes (reg : registry) : list string :=
  concat (map control_planes (filter (λ c, mc_steer_active_turn c = true) (reg_contracts reg))).

Definition trusted_non_runner_control_planes (reg : registry) : list string :=
  concat (map control_planes (reg_contracts reg)).

Definition machine_control_capability_for_command (reg : registry) (provider command_type : option string) :
    option string :=
  match contract_for_provider reg provider,
        lookup_str (strip (or_empty command_type)) MACHINE_CONTROL_SUFFIX_BY_COMMAND with
  | Some c, Some operation => machine_control_capability_for_operation c operation
  | _, _ => None
  end.

Definition live_proof_supported_providers (reg : registry) : list string :=
  map mc_provider (filter (λ c, mc_live_proof c = true) (reg_contracts reg)).

(** ** Laws *)

Definition plane_claims (contracts : list ManagedProviderContract) : list (string * ManagedProviderContract) :=
  concat (map (λ c, map (λ p, (p, c)) (control_planes c)) contracts).

Definition claim_step (m : gmap string ManagedProviderContract) (pc : string * ManagedProviderContract) :
    res (gmap string ManagedProviderContract) := add_plane pc.2 m pc.1.

Lemma fold_planes c m planes :
  fold_res (add_plane c) m planes = fold_res claim_step m (map (λ p, (p, c)) planes).
Proof.
  revert m; induction planes as [|p planes IH]; intros m; simpl; [done|].
  unfold claim_step at 1. simpl. destruct (add_plane c m p); [apply IH|done].
Qed.

Lemma contracts_by_control_plane_claims contracts :
  contracts_by_control_plane contracts = fold_res claim_step ∅ (plane_claims contracts).
Proof.
  unfold contracts_by_control_plane. generalize (∅ : gmap string ManagedProviderContract).
  induction contracts as [|c contracts IH]; intros m; [done|].
  unfold plane_claims. cbn [map concat]. rewrite fold_res_app. cbn [fold_res]. rewrite fold_planes.
  destruct (fold_res claim_step m _); simpl; [apply IH|done].
Qed.

Lemma claims_load m l :
  (∀ p, p ∈ map fst l → m !! p = None) → NoDup (map fst l) →
  ∃ m', fold_res claim_step m l = Ok m' ∧ ∀ p c, m' !! p = Some c ↔ m !! p = Some c ∨ (p, c) ∈ l.
Proof.
  revert m; induction l as [|[p c] l IH]; intros m Hm Hn; cbn [fold_res map] in *.
  { exists m. split; [done|]. set_solver. }
  apply NoDup_cons in Hn as [Hp Hn]. unfold claim_step at 1, add_plane; simpl.
  rewrite Hm by (left). destruct (IH (<[p := c]> m)) as (m' & -> & Hm'); [|done|].
  { intros q Hq. rewrite lookup_insert_ne by (intros ->; done). apply Hm. by right. }
  exists m'; split; [done|]. intros q d. rewrite Hm', lookup_insert_Some, elem_of_cons. split.
  - intros [[[-> ->]|[? ?]]|?]; auto.
  - intros [Hq|[[= -> ->]|?]]; [left; right|auto|auto]. split; [|done]. intros ->. by rewrite Hm in Hq by left.
Qed.

Lemma claims_ok m l m' : fold_res claim_step m l = Ok m' → (∀ p, p ∈ map fst l → m !! p = None) ∧ NoDup (map fst l).
Proof.
  revert m; induction l as [|[p c] l IH]; intros m; cbn [fold_res map]; [split; [set_solver|constructor]|].
  unfold claim_step at 1, add_plane; simpl. destruct (m !! p) as [e|] eqn:E; [done|].
  intros [Hl Hn]%IH. split.
  - intros q [->|Hq]%elem_of_cons; [done|]. specialize (Hl q Hq).
    by apply lookup_insert_None in Hl as [? _].
  - constructor; [|done]. intros Hp. specialize (Hl p Hp). by rewrite lookup_insert_eq in Hl.
Qed.

Lemma plane_claims_fst contracts : map fst (plane_claims contracts) = concat (map control_planes contracts).
Proof.
  unfold plane_claims. rewrite concat_map, map_map. f_equal. apply map_ext. intros c.
  rewrite map_map. apply map_id.
Qed.

Lemma elem_of_plane_claims p c contracts : (p, c) ∈ plane_claims contracts ↔ c ∈ contracts ∧ p ∈ control_planes c.
Proof.
  unfold plane_claims. induction contracts as [|d contracts IH]; cbn [map concat]; [set_solver|].
  rewrite elem_of_app, IH, elem_of_cons, list_elem_of_fmap. naive_solver.
Qed.

(** The registry loads exactly when no control plane is claimed twice,
    and then the plane index finds a contract exactly when that contract
    claims the plane. *)
Theorem registry_loads_iff_planes_are_unclaimed contracts :
  (is_ok (load_registry contracts) = true ↔ NoDup (concat (map control_planes contracts))) ∧
  ∀ reg plane c, load_registry contracts = Ok reg →
    contract_for_control_plane reg plane = Some c ↔
    c ∈ contracts ∧ strip (or_empty plane) ∈ control_planes c.
Proof.
  unfold load_registry. rewrite contracts_by_control_plane_claims, <- plane_claims_fst. split.
  - split.
    + destruct (fold_res _ _ _) eqn:E; [|done]. intros _. by apply claims_ok in E as [_ ?].
    + intros Hn. by destruct (claims_load ∅ (plane_claims contracts)) as (m & -> & _).
  - intros reg plane c H. apply bind_ok in H as (m & Hm & [= <-]).
    pose proof (claims_ok _ _ _ Hm) as [_ Hn].
    destruct (claims_load ∅ (plane_claims contracts)) as (m' & Hm' & Hl); [done|done|].
    rewrite Hm in Hm'. injection Hm' as <-. unfold contract_for_control_plane; simpl.
    rewrite Hl, lookup_empty, elem_of_plane_claims. naive_solver.
Qed.

(** *** Machine-control names *)

Lemma partition_dot_join s before after : partition_dot s = (before, true, after) → s = (before +:+ "." +:+ after)%string.
Proof.
  revert before; induction s as [|ch s IH]; intros before; simpl; [done|].
  destruct (Ascii.eqb_spec ch dot) as [->|Hn].
  - by intros [= <- <-].
  - destruct (partition_dot s) as [[b f] a]. intros [= <- -> ->].
    change (String ch s = String ch (b +:+ "." +:+ after)). f_equal. by apply IH.
Qed.

Lemma partition_dot_app before after :
  has_char dot before = false → partition_dot (before +:+ "." +:+ after) = (before, true, after).
Proof.
  induction before as [|ch before IH]; [done|].
  assert (has_char dot (String ch before) = Ascii.eqb dot ch || has_char dot before) as ->
    by (unfold has_char; simpl; by rewrite negb_andb, negb_involutive).
  intros [Hc H]%orb_false_iff. change (String ch before +:+ "." +:+ after)%string with (String ch (before +:+ "." +:+ after)).
  simpl. rewrite Ascii.eqb_sym, Hc. by rewrite IH.
Qed.

(** A contract as the manifest loads it: a dotless provider name and trimmed
    support names. *)
Definition well_named (c : ManagedProviderContract) : Prop :=
  has_char dot (mc_provider c) = false ∧ Forall (λ s, strip s = s) (mc_machine_control_supports c).

(** The machine-control support names of a contract are a faithful
    encoding: an operation has the capability name [cap] exactly when [cap]
    is advertised and names that operation. *)
Theorem machine_control_names_are_faithful c operation cap :
  well_named c → strip operation = operation →
  machine_control_capability_for_operation c operation = Some cap ↔
  machine_control_operation_for_support c cap = Some operation.
Proof.
  intros [Hdot Htrim] Hop. rewrite Forall_forall in Htrim.
  unfold machine_control_capability_for_operation, machine_control_operation_for_support. rewrite Hop. split.
  - destruct (lookup_str operation MACHINE_CONTROL_SUPPORT_OPERATION_BY_SUFFIX) as [co|] eqn:Eco; [|done].
    destruct (negb (supports_contract_operation c co)) eqn:Es; [done|].
    destruct (str_in _ _) eqn:Ei; [|done]. intros [= <-]. pose proof Ei as Hin. apply str_in_spec in Hin.
    rewrite (Htrim _ Hin), (partition_dot_app (mc_provider c) operation) by done.
    by rewrite String.eqb_refl, Eco, Es, Ei.
  - destruct (partition_dot (strip cap)) as [[p f] o] eqn:Ep.
    destruct f; [|done]. cbn [negb orb].
    destruct (String.eqb_spec p (mc_provider c)) as [->|]; cbn [negb]; [|done].
    destruct (lookup_str o MACHINE_CONTROL_SUPPORT_OPERATION_BY_SUFFIX) as [co|] eqn:Eco; [|done].
    destruct (negb (supports_contract_operation c co)) eqn:Es; [done|].
    destruct (str_in cap _) eqn:Ei; [|done]. intros [= ->]. rewrite Eco, Es.
    apply partition_dot_join in Ep. pose proof Ei as Hin. apply str_in_spec in Hin.
    rewrite (Htrim _ Hin) in Ep. by rewrite <- Ep, Ei.
Qed.
