(* ===== verification/Capabilities.v ===== *)
(** * Kernel session capabilities

    Models [src/server/zerg/services/agents/kernel_capabilities.py]: the map
    from a session's thread, latest run and connections to the capability
    payload every client reads, for one session and in bulk.  Rows are
    records of the columns the module reads; a query is a filter and a sort
    of the table's rows. *)

From S2P Require Import Prelude PyStr PyTime PyValue ConsoleControl ProviderContracts.

Open Scope list_scope.
Open Scope Z_scope.

Record SessionThread : Type := Thread {
  th_id : string;
  th_session_id : string;
  th_is_primary : Z;
  th_created_at : datetime;
}.

Record SessionRun : Type := Run {
  sr_id : string;
  sr_thread_id : string;
  sr_started_at : option datetime;
  sr_ended_at : option datetime;
  sr_exit_status : option string;
}.

Record SessionConnection : Type := Connection {
  sc_id : Z;
  sc_run_id : string;
  sc_control_plane : option string;
  sc_acquisition_kind : option string;
  sc_state : option string;
  sc_can_send_input : Z;
  sc_can_interrupt : Z;
  sc_can_terminate : Z;
  sc_can_tail_output : Z;
  sc_can_resume : Z;
  sc_acquired_at : option datetime;
  sc_last_health_at : option datetime;
  (** Present on the live catalog's rows only. *)
  sc_adapter_connection_id : option string;
  sc_lease_generation : option string;
}.

Record kernel_db : Type := KernelDb {
  db_threads : list SessionThread;
  db_runs : list SessionRun;
  db_connections : list SessionConnection;
}.

Definition STATE_PRIORITY : list (string * Z) :=
  [("attached", 5); ("degraded", 4); ("detached", 3); ("released", 2); ("ended", 1)]%string.

Definition CONTROL_ACQUISITION_KINDS : list string := ["spawned_control"; "adopted_control"]%string.

(** [timedelta(milliseconds=DEFAULT_MANAGED_CONTROL_LEASE_TTL_MS)]. *)
Definition DEFAULT_MANAGED_CONTROL_LEASE_TTL_MS : Z := 15 * 60 * 1000.
Definition MANAGED_CONTROL_LEASE_TTL : Z := ms DEFAULT_MANAGED_CONTROL_LEASE_TTL_MS.

Definition LIVE_STATES : list string := ["attached"; "degraded"]%string.

(** [_effective_connection_state].  [instant] reads a naive value as UTC. *)
Definition effective_connection_state (best : option SessionConnection) (now : datetime) : string :=
  match best with
  | None => EmptyString
  | Some best =>
      let state := strip (or_empty (sc_state best)) in
      if negb (str_in state LIVE_STATES) then state
      else match sc_last_health_at best with
           | None => "detached"
           | Some last_health =>
               if MANAGED_CONTROL_LEASE_TTL <? instant now - instant last_health then "detached" else state
           end
  end.

(** [thread_ever_had_managed_control]. *)
Definition thread_ever_had_managed_control (db : kernel_db) (thread_id : string) : bool :=
  existsb (λ c, existsb (λ r, String.eqb (sc_run_id c) (sr_id r) && String.eqb (sr_thread_id r) thread_id)
                        (db_runs db)
                && opt_in (sc_acquisition_kind c) CONTROL_ACQUISITION_KINDS)
          (db_connections db).

(** [KernelSessionCapabilities]. *)
Record KernelSessionCapabilities : Type := Caps {
  kc_session_id : string;
  kc_thread_id : option string;
  kc_run_id : option string;
  kc_connection_id : option Z;
  kc_control_plane : option string;
  kc_connection_state : option string;
  kc_control_label : string;
  kc_live_control_available : bool;
  kc_host_reattach_available : bool;
  kc_observe_only : bool;
  kc_search_only : bool;
  kc_can_send_input : bool;
  kc_can_interrupt : bool;
  kc_can_terminate : bool;
  kc_can_tail_output : bool;
  kc_can_resume : bool;
  kc_turn_state : string;
  kc_can_start_turn : bool;
  kc_start_turn_blocked_by : option string;
  kc_can_interrupt_active_turn : bool;
  kc_console_control : option ConsoleControlProjection;
  kc_staleness_reason : option string;
  kc_adapter_connection_id : option string;
  kc_lease_generation : option string;
  kc_control_owned : bool;
  kc_run_started_at : option datetime;
  kc_run_ended_at : option datetime;
  kc_run_end_reason : option string;
}.

Definition truthy_int (z : Z) : bool := negb (z =? 0).

Definition connection_capability_count (conn : SessionConnection) : Z :=
  Z.of_nat (length (List.filter truthy_int
    [sc_can_send_input conn; sc_can_interrupt conn; sc_can_terminate conn; sc_can_tail_output conn])).

(** [_connection_sort_key]; [datetime.min] is instant 0. *)
Definition connection_sort_key (now : datetime) (conn : SessionConnection) : list Z :=
  [default 0 (lookup_str (effective_connection_state (Some conn) now) STATE_PRIORITY);
   connection_capability_count conn;
   match sc_last_health_at conn with Some at_ => instant at_ | None => 0 end;
   sc_id conn].

Definition key_cmp : list Z → list Z → comparison := lex Z.compare.

(** [_select_best_connection]: [sorted(...)[-1]]. *)
Definition select_best_connection (connections : list SessionConnection) (now : datetime) : option SessionConnection :=
  last (sort_on key_cmp (connection_sort_key now) connections).

Record label : Type := Label {
  lb_control_label : string;
  lb_live : bool;
  lb_reattach : bool;
  lb_observe_only : bool;
  lb_search_only : bool;
  lb_staleness_reason : option string;
}.

Definition imported (reason : string) : label := Label "imported" false false false true (Some reason).

(** [_label_for]. *)
Definition label_for (has_thread has_run run_ended : bool) (best : option SessionConnection) (now : datetime) : label :=
  if negb has_thread then imported "imported_only"
  else if negb has_run then imported "no_run"
  else match best with
  | None => imported "no_connection"
  | Some conn =>
      let raw_state := strip (or_empty (sc_state conn)) in
      if String.eqb raw_state "" || String.eqb raw_state "ended" then imported "process_ended"
      else if run_ended then imported "process_ended"
      else
        let state := effective_connection_state best now in
        let stale_clamped := negb (String.eqb state raw_state) in
        let acquisition := strip (or_empty (sc_acquisition_kind conn)) in
        let is_steerable_kind := str_in acquisition CONTROL_ACQUISITION_KINDS in
        let can_tail := truthy_int (sc_can_tail_output conn) in
        if is_steerable_kind && str_in state LIVE_STATES then Label "live" true true false false None
        else if is_steerable_kind && str_in state ["detached"; "released"]%string then
          Label "reattach" false true false false
                (Some (if stale_clamped then "control_stale" else "connection_released")%string)
        else if can_tail && str_in state LIVE_STATES then
          Label "search-only" false false true false (Some "observe_only"%string)
        else Label "search-only" false false true false (Some "observe_only"%string)
  end.

(** The constructor call shared by the three places that build a payload,
    with the dataclass defaults for what they leave out. *)
Definition payload (sid : string) (thread_id run_id : option string) (connection : option SessionConnection)
    (l : label) (send interrupt terminate tail resume : bool) (adapter lease : option string) (owned : bool)
    (run : option SessionRun) : KernelSessionCapabilities :=
  Caps sid thread_id run_id (sc_id <$> connection) (connection ≫= sc_control_plane) (connection ≫= sc_state)
       (lb_control_label l) (lb_live l) (lb_reattach l) (lb_observe_only l) (lb_search_only l)
       send interrupt terminate tail resume "idle" false None false None (lb_staleness_reason l)
       adapter lease owned (run ≫= sr_started_at) (run ≫= sr_ended_at) (run ≫= sr_exit_status).

(** [_imported_payload]. *)
Definition imported_payload (sid : string) (thread_id run_id : option string) (has_thread has_run run_ended : bool)
    (best : option SessionConnection) (now : datetime) : KernelSessionCapabilities :=
  payload sid thread_id run_id None (label_for has_thread has_run run_ended best now)
          false false false false false None None false None.

(** The conditional expression for [lease_generation]. *)
Definition lease_generation_of (best : SessionConnection) : option string :=
  if opt_truthy (sc_adapter_connection_id best) && opt_truthy (sc_lease_generation best)
  then sc_lease_generation best
  else match normalize_utc (sc_acquired_at best) with
       | Some at_ => Some (pretty (sc_id best) +:+ ":" +:+ isoformat at_)%string
       | None => Some (pretty (sc_id best))
       end.

Section Capabilities.
Context (reg : registry).

(** [_control_plane_supports]. *)
Definition control_plane_supports (control_plane : option string) (operation : string) : bool :=
  let contract := match contract_for_control_plane reg control_plane with
                  | Some c => Some c
                  | None => contract_for_provider reg (provider_for_control_plane reg control_plane)
                  end in
  match contract with
  | None => true
  | Some c => supports_contract_operation c operation
  end.

(** [_payload_from_rows]. *)
Definition payload_from_rows (sid : string) (thread : option SessionThread) (latest_run : option SessionRun)
    (connections : list SessionConnection) (now : datetime) : KernelSessionCapabilities :=
  match thread with
  | None => imported_payload sid None None false false false None now
  | Some thread =>
      match latest_run with
      | None => imported_payload sid (Some (th_id thread)) None true false false None now
      | Some run =>
          let best := select_best_connection connections now in
          let run_ended := bool_decide (is_Some (sr_ended_at run)) in
          let l := label_for true true run_ended best now in
          match best with
          | None => payload sid (Some (th_id thread)) (Some (sr_id run)) None l
                            false false false false false None None false (Some run)
          | Some conn =>
              let supports := control_plane_supports (sc_control_plane conn) in
              payload sid (Some (th_id thread)) (Some (sr_id run)) best l
                (truthy_int (sc_can_send_input conn) && lb_live l && supports "send_input"%string)
                (truthy_int (sc_can_interrupt conn) && lb_live l && supports "interrupt"%string)
                (truthy_int (sc_can_terminate conn) && lb_live l && supports "terminate"%string)
                (truthy_int (sc_can_tail_output conn) && (lb_live l || lb_observe_only l)
                   && supports "tail_output"%string)
                (truthy_int (sc_can_resume conn) && (lb_live l || lb_reattach l) && supports "reattach"%string)
                (if opt_truthy (sc_adapter_connection_id conn) then sc_adapter_connection_id conn else None)
                (lease_generation_of conn) (opt_in (sc_acquisition_kind conn) CONTROL_ACQUISITION_KINDS) (Some run)
          end
      end
  end.

(** [project_capabilities_from_rows]. *)
Definition project_capabilities_from_rows (session_id : string) (thread : option SessionThread)
    (latest_run : option SessionRun) (connections : list SessionConnection) (now : option datetime)
    (clock : datetime) : KernelSessionCapabilities :=
  payload_from_rows session_id thread latest_run connections (default clock now).

(** ** Queries *)

(** [ORDER BY created_at ASC, id ASC] and [ORDER BY started_at DESC, id DESC];
    a column compares by what is stored, [NULL] below every value. *)
Definition thread_key (t : SessionThread) : Z * string := (sqlite_store (th_created_at t), th_id t).
Definition thread_cmp (a b : Z * string) : comparison :=
  match Z.compare a.1 b.1 with Eq => str_cmp a.2 b.2 | c => c end.

Definition run_key (r : SessionRun) : Z * string :=
  (match sr_started_at r with Some at_ => sqlite_store at_ + 1 | None => 0 end, sr_id r).
Definition run_cmp (a b : Z * string) : comparison := thread_cmp b a.

(** [project_session_capabilities]. *)
Definition project_session_capabilities (db : kernel_db) (session_id : string) (clock : datetime) :
    KernelSessionCapabilities :=
  let thread := head (sort_on thread_cmp thread_key
                        (filter (λ t, th_session_id t = session_id ∧ th_is_primary t = 1) (db_threads db))) in
  let latest_run := t ← thread;
                    head (sort_on run_cmp run_key (filter (λ r, sr_thread_id r = th_id t) (db_runs db))) in
  let connections := match latest_run with
                     | Some r => filter (λ c, sc_run_id c = sr_id r) (db_connections db)
                     | None => []
                     end in
  payload_from_rows session_id thread latest_run connections clock.

(** [for t in rows: d.setdefault(key(t), t)]. *)
Definition setdefault_all {A} (key : A → string) (rows : list A) : gmap string A :=
  fold_left (λ m a, match m !! key a with Some _ => m | None => <[key a := a]> m end) rows ∅.

(** [project_capabilities_bulk]; the result dict as a finite map. *)
Definition project_capabilities_bulk (db : kernel_db) (session_ids : list string) (clock : datetime) :
    gmap string KernelSessionCapabilities :=
  let threads := sort_on thread_cmp thread_key
                   (filter (λ t, th_session_id t ∈ session_ids ∧ th_is_primary t = 1) (db_threads db)) in
  let thread_by_session := setdefault_all th_session_id threads in
  let thread_ids := map (λ kt, th_id kt.2) (map_to_list thread_by_session) in
  let runs := sort_on run_cmp run_key (filter (λ r, sr_thread_id r ∈ thread_ids) (db_runs db)) in
  let runs_by_thread := setdefault_all sr_thread_id runs in
  let run_ids := map (λ kr, sr_id kr.2) (map_to_list runs_by_thread) in
  let conns := filter (λ c, sc_run_id c ∈ run_ids) (db_connections db) in
  fold_left
    (λ out sid,
       let thread := thread_by_session !! sid in
       let latest_run := t ← thread; runs_by_thread !! th_id t in
       let connections := match latest_run with
                          | Some r => filter (λ c, sc_run_id c = sr_id r) conns
                          | None => []
                          end in
       <[sid := payload_from_rows sid thread latest_run connections clock]> out)
    session_ids ∅.

(** ** The derived properties of a payload *)

Definition reply_to_live_session_available (c : KernelSessionCapabilities) : bool :=
  kc_live_control_available c && kc_can_send_input c.
Definition can_queue_next_input (c : KernelSessionCapabilities) : bool :=
  kc_live_control_available c && kc_can_send_input c.
Definition can_steer_active_turn (c : KernelSessionCapabilities) : bool :=
  kc_live_control_available c && kc_can_send_input c
  && str_in (strip (or_empty (kc_control_plane c))) (steer_control_planes reg).
Definition execution_home (c : KernelSessionCapabilities) : string :=
  if kc_live_control_available c || kc_host_reattach_available c then "managed_local" else "unmanaged_local".
Definition managed_transport (c : KernelSessionCapabilities) : option ManagedSessionTransport :=
  managed_transport_for_control_plane reg (kc_control_plane c).
Definition home_label (c : KernelSessionCapabilities) : option string :=
  if kc_live_control_available c || kc_host_reattach_available c then Some "On this Mac"%string else None.
End Capabilities.

(** [project_console_turn_capabilities]. *)
Definition project_console_turn_capabilities (c : KernelSessionCapabilities) (closed target : bool)
    (turn_state : option string) (machine_online adapter_available interrupt_adapter_available : bool) :
    KernelSessionCapabilities :=
  let p := project_console_control closed target turn_state machine_online adapter_available
                                   interrupt_adapter_available in
  Caps (kc_session_id c) (kc_thread_id c) (kc_run_id c) (kc_connection_id c) (kc_control_plane c)
       (kc_connection_state c) "console" false false false false
       (cc_can_start_turn p) (cc_interrupt_adapter_available p) (kc_can_terminate c) (kc_can_tail_output c) false
       (cc_turn_state p) (cc_can_start_turn p) (cc_start_turn_blocked_by p) (cc_can_interrupt_active_turn p)
       (Some p) (cc_start_turn_blocked_by p) (kc_adapter_connection_id c) (kc_lease_generation c) true
       (kc_run_started_at c) (kc_run_ended_at c) (kc_run_end_reason c).

(** ** Laws *)

#[export] Instance thread_comparison : Comparison thread_cmp.
Proof.
  unfold thread_cmp; split.
  - intros [s a] [t b]; simpl. rewrite (Z.compare_antisym s t).
    destruct (s ?= t); simpl; [apply (cmp_flip str_cmp)|done|done].
  - intros [s a] [t b] [u c]; simpl.
    destruct (Z.compare_spec s t), (Z.compare_spec t u), (Z.compare_spec s u); try done; try lia.
    apply (cmp_chain str_cmp).
  - intros [s a] [t b]; simpl. destruct (Z.compare_spec s t) as [->|H|H].
    + rewrite (cmp_same str_cmp). naive_solver.
    + split; [done|intros [= -> ->]; lia].
    + split; [done|intros [= -> ->]; lia].
Qed.

#[export] Instance run_comparison : Comparison run_cmp.
Proof.
  unfold run_cmp; split.
  - intros a b. apply (cmp_flip thread_cmp).
  - intros a b c Hab Hbc. by apply (cmp_chain thread_cmp c b a).
  - intros a b. rewrite (cmp_same thread_cmp). naive_solver.
Qed.

#[export] Instance key_comparison : Comparison key_cmp.
Proof. unfold key_cmp. apply _. Qed.

(** *** Selection *)

Lemma select_best_spec connections now best :
  select_best_connection connections now = Some best →
  best ∈ connections ∧
  ∀ c, c ∈ connections → cmp_le key_cmp (connection_sort_key now c) (connection_sort_key now best).
Proof. intros H. by apply (sort_on_last key_cmp (connection_sort_key now)) in H. Qed.

Lemma select_best_None connections now : select_best_connection connections now = None ↔ connections = [].
Proof.
  unfold select_best_connection. rewrite last_None. split; [|by intros ->].
  intros H. pose proof (sort_on_perm key_cmp (connection_sort_key now) connections) as Hp. rewrite H in Hp.
  by apply Permutation_nil_l in Hp.
Qed.

Lemma sort_key_id now c d : connection_sort_key now c = connection_sort_key now d → sc_id c = sc_id d.
Proof. unfold connection_sort_key. congruence. Qed.

Lemma select_best_perm connections connections' now :
  NoDup (map sc_id connections) → connections ≡ₚ connections' →
  select_best_connection connections' now = select_best_connection connections now.
Proof.
  intros Hn Hp. destruct (select_best_connection connections now) as [b|] eqn:E.
  2:{ apply select_best_None in E as ->. by rewrite (Permutation_nil Hp). }
  destruct (select_best_connection connections' now) as [b'|] eqn:E'.
  2:{ apply select_best_None in E' as ->. symmetry in Hp. rewrite (Permutation_nil Hp) in E. done. }
  apply select_best_spec in E as [Hb Hmax], E' as [Hb' Hmax']. rewrite <- Hp in Hb'. f_equal.
  apply (NoDup_map_inj sc_id connections); [done..|]. apply (sort_key_id now).
  apply (anti_symm (cmp_le key_cmp)); [by apply Hmax|apply Hmax'; by rewrite <- Hp].
Qed.

(** of the connections of a run the projection picks one that no other
    outranks, in the order freshness-clamped state, granted capabilities,
    recency, id, and the choice does not depend on the order in which the
    database returns the rows. *)
Theorem best_connection_is_greatest connections now :
  NoDup (map sc_id connections) →
  (select_best_connection connections now = None ↔ connections = []) ∧
  (∀ best, select_best_connection connections now = Some best →
     best ∈ connections ∧
     ∀ c, c ∈ connections → cmp_le key_cmp (connection_sort_key now c) (connection_sort_key now best)) ∧
  (∀ connections', connections ≡ₚ connections' →
     select_best_connection connections' now = select_best_connection connections now).
Proof.
  intros Hn. split_and!; [apply select_best_None|intros best; apply select_best_spec|].
  intros connections'. by apply select_best_perm.
Qed.

(** *** Labels *)

(** An observer confirmed the connection ready within the lease TTL. *)
Definition confirmed (conn : SessionConnection) (now : datetime) : Prop :=
  strip (or_empty (sc_state conn)) ∈ LIVE_STATES ∧
  ∃ at_, sc_last_health_at conn = Some at_ ∧ instant now - instant at_ ≤ MANAGED_CONTROL_LEASE_TTL.

Lemma effective_state_live conn now :
  effective_connection_state (Some conn) now ∈ LIVE_STATES ↔ confirmed conn now.
Proof.
  unfold effective_connection_state, confirmed.
  destruct (str_in (strip (or_empty (sc_state conn))) LIVE_STATES) eqn:E; simpl.
  - apply str_in_spec in E. destruct (sc_last_health_at conn) as [at_|].
    + destruct (Z.ltb_spec MANAGED_CONTROL_LEASE_TTL (instant now - instant at_)).
      * split; [unfold LIVE_STATES; set_solver|]. intros (_ & at' & [= <-] & ?). lia.
      * split; [intros _; split; [done|]; eexists; split; [done|lia]|done].
    + split; [unfold LIVE_STATES; set_solver|naive_solver].
  - split; [|naive_solver]. intros Hin. apply str_in_spec in Hin. congruence.
Qed.

#[local] Arguments effective_connection_state : simpl never.
#[local] Arguments str_in : simpl never.

(** The four buckets. *)
Definition buckets : list (string * (bool * bool) * (bool * bool)) :=
  [("live", (true, true), (false, false)); ("reattach", (false, true), (false, false));
   ("search-only", (false, false), (true, false)); ("imported", (false, false), (false, true))]%string.

Definition bucket_of (l : label) : string * (bool * bool) * (bool * bool) :=
  (lb_control_label l, (lb_live l, lb_reattach l), (lb_observe_only l, lb_search_only l)).

Lemma label_bucket t r e best now :
  bucket_of (label_for t r e best now) ∈ buckets ∧
  (lb_live (label_for t r e best now) = true ↔ lb_staleness_reason (label_for t r e best now) = None).
Proof.
  unfold label_for, imported. destruct t, r; simpl; [|split; [set_solver|done]..].
  destruct best as [conn|]; [|split; [set_solver|done]].
  repeat (case_match; simpl; try (split; [set_solver|done])).
Qed.

Lemma label_live t r e best now :
  lb_live (label_for t r e best now) = true ↔
  t = true ∧ r = true ∧ e = false ∧
  ∃ conn, best = Some conn ∧ strip (or_empty (sc_acquisition_kind conn)) ∈ CONTROL_ACQUISITION_KINDS ∧
          confirmed conn now.
Proof.
  unfold label_for. destruct t, r; simpl; [|split; naive_solver..].
  destruct best as [conn|]; [|split; naive_solver].
  setoid_rewrite <- effective_state_live.
  destruct (String.eqb _ "" || String.eqb _ "ended") eqn:Eraw; simpl.
  { split; [done|]. intros (_ & _ & _ & c & [= <-] & _ & Hl). exfalso.
    unfold effective_connection_state in Hl. apply orb_true_iff in Eraw.
    destruct Eraw as [E|E]; apply String.eqb_eq in E; rewrite E in Hl; simpl in Hl; unfold LIVE_STATES in Hl; set_solver. }
  destruct e; [split; naive_solver|].
  destruct (str_in (strip (or_empty (sc_acquisition_kind conn))) CONTROL_ACQUISITION_KINDS) eqn:Ek,
           (str_in (effective_connection_state (Some conn) now) LIVE_STATES) eqn:El; simpl.
  - apply str_in_spec in Ek, El. split; [naive_solver|done].
  - split; [by repeat case_match|]. intros (_ & _ & _ & c & [= <-] & _ & Hl). apply str_in_spec in Hl. congruence.
  - split; [by repeat case_match|]. intros (_ & _ & _ & c & [= <-] & Hk & _). apply str_in_spec in Hk. congruence.
  - split; [by repeat case_match|]. intros (_ & _ & _ & c & [= <-] & Hk & _). apply str_in_spec in Hk. congruence.
Qed.

(** C18: a session is live exactly when its latest run has not ended and its
    best connection is a spawned or adopted control path that an observer
    confirmed attached or degraded within the fifteen-minute lease.  No other
    row, flag or heartbeat makes it live. *)
Theorem live_means_confirmed_control reg sid thread latest_run connections now :
  kc_live_control_available (payload_from_rows reg sid thread latest_run connections now) = true ↔
  ∃ t r conn, thread = Some t ∧ latest_run = Some r ∧ sr_ended_at r = None ∧
    select_best_connection connections now = Some conn ∧
    strip (or_empty (sc_acquisition_kind conn)) ∈ CONTROL_ACQUISITION_KINDS ∧ confirmed conn now.
Proof.
  unfold payload_from_rows. destruct thread as [t|]; [|split; [done|naive_solver]].
  destruct latest_run as [r|]; [|split; [done|naive_solver]].
  destruct (select_best_connection connections now) as [conn|] eqn:E; [|split; [done|naive_solver]].
  cbn [payload kc_live_control_available]. rewrite label_live. split.
  - intros (_ & _ & He & c & [= <-] & Hk & Hc). exists t, r, conn. split_and!; try done.
    apply bool_decide_eq_false in He. by destruct (sr_ended_at r); [destruct He|].
  - intros (t' & r' & c & [= <-] & [= <-] & He & [= <-] & Hk & Hc). split_and!; try done.
    + apply bool_decide_eq_false. rewrite He. by intros [].
    + by exists conn.
Qed.

(** the payload is in exactly one of the four buckets, it names a
    staleness reason exactly when it is not live, and every granted action
    is backed: send, interrupt and terminate need live control, tailing needs
    live control or observation, resuming needs live control or a reattachable
    host, and each needs its bit on the best connection and the support of the
    control plane's provider contract. *)
Theorem granted_actions_are_backed reg sid thread latest_run connections now :
  let c := payload_from_rows reg sid thread latest_run connections now in
  (kc_control_label c, (kc_live_control_available c, kc_host_reattach_available c),
   (kc_observe_only c, kc_search_only c)) ∈ buckets ∧
  (kc_live_control_available c = true ↔ kc_staleness_reason c = None) ∧
  ∀ operation bit granted gate,
    (operation, bit, granted, gate) ∈
      [("send_input", sc_can_send_input, kc_can_send_input c, kc_live_control_available c);
       ("interrupt", sc_can_interrupt, kc_can_interrupt c, kc_live_control_available c);
       ("terminate", sc_can_terminate, kc_can_terminate c, kc_live_control_available c);
       ("tail_output", sc_can_tail_output, kc_can_tail_output c, kc_live_control_available c || kc_observe_only c);
       ("reattach", sc_can_resume, kc_can_resume c, kc_live_control_available c || kc_host_reattach_available c)]%string →
    granted = true →
    gate = true ∧ ∃ conn, select_best_connection connections now = Some conn ∧ bit conn ≠ 0 ∧
                          control_plane_supports reg (sc_control_plane conn) operation = true.
Proof.
  assert (∀ z, truthy_int z = true → z ≠ 0) as Hz.
  { unfold truthy_int. intros z Hz%negb_true_iff%Z.eqb_neq. done. }
  unfold payload_from_rows, imported_payload. destruct thread as [t|].
  2:{ simpl. split_and!; [apply (label_bucket false false false None now)..|]. set_solver. }
  destruct latest_run as [r|].
  2:{ simpl. split_and!; [apply (label_bucket true false false None now)..|]. set_solver. }
  destruct (select_best_connection connections now) as [conn|] eqn:E; cbn -[label_for buckets].
  2:{ split_and!; [apply label_bucket..|]. set_solver. }
  split_and!; [apply label_bucket..|]. intros operation bit granted gate Hin Hg.
  repeat (apply elem_of_cons in Hin as [[= -> -> -> ->]|Hin];
          [apply andb_true_iff in Hg as [[Hb Hgate]%andb_true_iff Hs]; split; [done|];
           exists conn; split_and!; [done|by apply Hz|done]|]).
  set_solver.
Qed.

(** *** The bulk projection *)

Lemma setdefault_all_lookup {A} (key : A → string) rows k :
  setdefault_all key rows !! k = head (filter (λ a, key a = k) rows).
Proof.
  unfold setdefault_all.
  assert (∀ m : gmap string A, fold_left (λ m a, match m !! key a with Some _ => m | None => <[key a := a]> m end) rows m !! k
               = match m !! k with Some a => Some a | None => head (filter (λ a, key a = k) rows) end) as H.
  { induction rows as [|a rows IH]; intros m; simpl; [by destruct (m !! k)|].
    rewrite IH, filter_cons. destruct (decide (key a = k)) as [<-|Hk].
    - destruct (m !! key a) eqn:E; [by rewrite E|]. by rewrite lookup_insert_eq.
    - destruct (m !! key a) eqn:E; [done|]. by rewrite lookup_insert_ne. }
  by rewrite H, lookup_empty.
Qed.

Lemma fold_insert_lookup {A} (f : string → A) (l : list string) k (m : gmap string A) :
  k ∈ l → fold_left (λ out s, <[s := f s]> out) l m !! k = Some (f k).
Proof.
  revert m. induction l as [|s l IH] using rev_ind; intros m; [set_solver|].
  rewrite fold_left_app. simpl. intros Hk. destruct (decide (s = k)) as [->|Hs]; [by rewrite lookup_insert_eq|].
  rewrite lookup_insert_ne by done. apply IH. apply elem_of_app in Hk as [?|Hk]; [done|set_solver].
Qed.

(** The bulk projection with its three batched queries gives every
    session the payload that projecting it alone gives. *)
Theorem bulk_projection_is_per_session reg db session_ids clock sid :
  sid ∈ session_ids →
  project_capabilities_bulk reg db session_ids clock !! sid
  = Some (project_session_capabilities reg db sid clock).
Proof.
  intros Hin. unfold project_capabilities_bulk.
  set (threads := sort_on thread_cmp thread_key _). set (by_session := setdefault_all th_session_id threads).
  set (runs := sort_on run_cmp run_key _). set (by_thread := setdefault_all sr_thread_id runs).
  set (conns := filter _ (db_connections db)).
  rewrite (fold_insert_lookup (λ sid, payload_from_rows reg sid _ _ _ clock)) by done.
  f_equal. unfold project_session_capabilities.
  assert (by_session !! sid = head (sort_on thread_cmp thread_key
            (filter (λ t, th_session_id t = sid ∧ th_is_primary t = 1) (db_threads db)))) as Ht.
  { unfold by_session, threads. rewrite setdefault_all_lookup, (filter_sort_on thread_cmp), list_filter_filter by apply _.
    do 2 f_equal. apply filter_ext_in. intros t _. split; [naive_solver|]. intros [-> ?]. done. }
  rewrite <- Ht. destruct (by_session !! sid) as [t|] eqn:Et; cbn [mbind option_bind]; [|done].
  assert (by_thread !! th_id t = head (sort_on run_cmp run_key
            (filter (λ r, sr_thread_id r = th_id t) (db_runs db)))) as Hr.
  { unfold by_thread, runs. rewrite setdefault_all_lookup, (filter_sort_on run_cmp), list_filter_filter by apply _.
    do 2 f_equal. apply filter_ext_in. intros r _. split; [naive_solver|]. intros Hr; split; [done|].
    rewrite Hr. apply list_elem_of_fmap. exists (sid, t). split; [done|]. by apply elem_of_map_to_list. }
  rewrite <- Hr. destruct (by_thread !! th_id t) as [r|] eqn:Er; [|done].
  unfold conns. rewrite list_filter_filter.
  rewrite (filter_ext_in _ (λ c, sc_run_id c = sr_id r)); [done|]. intros c _. split; [naive_solver|].
  intros Hc; split; [done|]. rewrite Hc. apply list_elem_of_fmap. exists (th_id t, r).
  split; [done|]. by apply elem_of_map_to_list.
Qed.
