(* ===== verification/RuntimeView.v ===== *)
(** * The runtime view of a session

    Models the read side of [src/server/zerg/services/session_runtime.py]: the
    view built from a materialized runtime state, the fallback view of a
    session without one, and the phase freshness windows; and the tool label
    of [session_runtime_display.py]. *)

From S2P Require Import Prelude PyStr PyTime PyValue ProviderContracts.

Open Scope list_scope.
Open Scope Z_scope.

Definition seconds (n : Z) : Z := n * US_PER_SECOND.

(** [PHASE_FRESHNESS], in microseconds. *)
Definition PHASE_FRESHNESS : list (string * Z) :=
  [("thinking", seconds 90); ("running", seconds 600); ("stalled", seconds 600); ("idle", seconds 600);
   ("blocked", seconds 86400); ("needs_user", seconds 600)]%string.

Definition MANAGED_CODEX_FRESHNESS : Z := seconds 900.
Definition EXPLICIT_CLOSED_TERMINAL_STATES : list string := ["user_closed"]%string.
Definition RUN_END_TERMINAL_STATES : list string := ["session_ended"; "process_gone"]%string.
Definition RUN_TERMINAL_STATES : list string := ["run_completed"; "run_failed"; "run_cancelled"]%string.
Definition UNVERIFIED_TERMINAL_STATES : list string := ["host_expired"]%string.
Definition LIVE_EXECUTION_PHASES : list string := ["thinking"; "running"]%string.
Definition ATTENTION_PHASES : list string := ["blocked"]%string.
Definition KNOWN_PHASES : list string :=
  ["thinking"; "running"; "blocked"; "stalled"; "needs_user"; "idle"; "finished"]%string.

(** The columns of [SessionRuntimeState] that the view reads. *)
Record SessionRuntimeState : Type := RuntimeState {
  rs_phase : option string;
  rs_phase_source : option string;
  rs_active_tool : option string;
  rs_terminal_state : option string;
  rs_terminal_reason : option string;
  rs_terminal_source : option string;
  rs_runtime_version : option Z;
  rs_phase_started_at : option datetime;
  rs_last_progress_at : option datetime;
  rs_last_runtime_signal_at : option datetime;
  rs_last_live_at : option datetime;
  rs_timeline_anchor_at : option datetime;
  rs_freshness_expires_at : option datetime;
}.

(** The attributes of a session row that the projections of this library
    read; an attribute the row does not have is [None].  Enumerations are
    their value. *)
Record SessionRow : Type := Session {
  se_launch_surface : option string;
  se_origin_kind : option string;
  se_execution_home : option string;
  se_started_at : option datetime;
  se_ended_at : option datetime;
  se_closed_at : option datetime;
  se_close_reason : option string;
  se_terminal_state : option string;
  se_transcript_revision : option Z;
  se_last_console_result_at : option datetime;
  se_last_console_result_outcome : option string;
  se_last_read_at : option datetime;
}.

Record SessionRuntimeView : Type := View {
  rv_signal_tier : string;
  rv_runtime_phase : option string;
  rv_phase_started_at : option datetime;
  rv_last_progress_at : option datetime;
  rv_runtime_source : string;
  rv_terminal_state : option string;
  rv_terminal_reason : option string;
  rv_terminal_source : option string;
  rv_runtime_version : Z;
  rv_status : string;
  rv_presence_state : option string;
  rv_presence_tool : option string;
  rv_presence_updated_at : option datetime;
  rv_last_live_at : option datetime;
  rv_display_phase : string;
  rv_active_tool : option string;
  rv_confidence : option string;
  rv_timeline_anchor_at : datetime;
  rv_freshness_expires_at : option datetime;
}.

(** [a or b] on optional datetimes: a datetime is always truthy. *)
Definition dt_or (a b : option datetime) : option datetime := match a with Some _ => a | None => b end.

(** The normalized clock of a caller that passes one. *)
Definition normalized_now (now : datetime) : datetime := default now (normalize_utc (Some now)).

(** [session_input_block_reason], from the terminal state it loads. *)
Definition session_input_block_reason (terminal_state : option string) : option string :=
  let terminal := strip (or_empty terminal_state) in
  if str_in terminal EXPLICIT_CLOSED_TERMINAL_STATES then Some "session_closed"%string
  else if str_in terminal (RUN_END_TERMINAL_STATES ++ RUN_TERMINAL_STATES) then Some "run_ended"%string
  else if str_in terminal ([EmptyString; "finished"%string] ++ UNVERIFIED_TERMINAL_STATES) then None
  else Some "run_ended"%string.

(** [_latest_timestamp]. *)
Definition latest_timestamp (values : list (option datetime)) : option datetime :=
  match omap normalize_utc values with
  | [] => None
  | d :: ds => Some (fold_left (λ best v, if dt_lt best v then v else best) ds d)
  end.

(** [runtime_key_for_session]. *)
Definition runtime_key_for_session (provider : option string) (session_identifier : string) : string :=
  let p := strip (if opt_truthy provider then or_empty provider else "unknown"%string) in
  ((if str_truthy p then p else "unknown") +:+ ":" +:+ strip session_identifier)%string.

(** [phase_freshness_ms]. *)
Definition phase_freshness_ms (phase : option string) : option Z :=
  (λ us, us / 1000) <$> lookup_str (strip (or_empty phase)) PHASE_FRESHNESS.

(** [_confidence_for_state]. *)
Definition confidence_for_state (state : SessionRuntimeState) (now : datetime) : string :=
  match normalize_utc (rs_freshness_expires_at state) with
  | Some e => if dt_lt now e then "live" else "stale"
  | None => "stale"
  end.

(** [_display_phase_for_state]. *)
Definition display_phase_for_state (phase : string) (active_tool : option string) (confidence : string)
    (terminal_state : option string) (status : string) : string :=
  let with_tool (prefix bare : string) := if opt_truthy active_tool
                                          then (prefix +:+ or_empty active_tool)%string else bare in
  if bool_decide (is_Some terminal_state) || String.eqb phase "finished" || String.eqb status "completed"
  then "Completed"
  else if String.eqb confidence "stale" && str_in phase KNOWN_PHASES then "Inactive"
  else if String.eqb phase "running" then with_tool "Running " "Running"
  else if String.eqb phase "thinking" then "Thinking"
  else if String.eqb phase "needs_user" then "Idle"
  else if String.eqb phase "blocked" then with_tool "Blocked on " "Needs permission"
  else if String.eqb phase "stalled" then "Stalled"
  else if String.eqb phase "idle" then "Idle"
  else "Inactive".

(** [_status_for_state]. *)
Definition status_for_state (phase confidence : string) (terminal_state : option string) : string :=
  if bool_decide (is_Some terminal_state) || String.eqb phase "finished" then "completed"
  else if String.eqb confidence "live" then
    if str_in phase LIVE_EXECUTION_PHASES then "working"
    else if str_in phase ATTENTION_PHASES then "active"
    else "idle"
  else "idle".

(** [_signal_tier_for_state]. *)
Definition signal_tier_for_state (phase_source : string) : string :=
  if String.eqb phase_source "progress" then "transcript_progress"
  else if negb (str_in phase_source ["fallback"; ""]%string) then "phase_signal"
  else "none".

(** [(value or default).strip() or default]. *)
Definition strip_or (value : option string) (fallback : string) : string :=
  default fallback (or_none (strip (default fallback (opt_or value (Some fallback))))).

(** [build_runtime_view]. *)
Definition build_runtime_view (state : SessionRuntimeState) (session : SessionRow) (now : datetime) :
    SessionRuntimeView :=
  let now := normalized_now now in
  let confidence := confidence_for_state state now in
  let runtime_phase := strip_or (rs_phase state) "idle" in
  let terminal_state := clean (rs_terminal_state state) in
  let phase_source := strip_or (rs_phase_source state) "fallback" in
  let active_tool := clean (rs_active_tool state) in
  let open_progress := String.eqb phase_source "progress" && negb (bool_decide (is_Some terminal_state)) in
  let status := status_for_state runtime_phase confidence terminal_state in
  let presence_updated_at := normalize_utc (rs_last_runtime_signal_at state) in
  let last_live_at := if open_progress then None else normalize_utc (rs_last_live_at state) in
  let present := String.eqb confidence "live" && str_in runtime_phase KNOWN_PHASES in
  let exposed := if (negb (String.eqb confidence "live") && negb (bool_decide (is_Some terminal_state))
                     && negb (String.eqb runtime_phase "finished")) || open_progress
                 then EmptyString else runtime_phase in
  let display := if open_progress && String.eqb confidence "stale" then "Inactive"%string
                 else display_phase_for_state runtime_phase active_tool confidence terminal_state status in
  View (signal_tier_for_state phase_source) (or_none exposed) (normalize_utc (rs_phase_started_at state))
       (normalize_utc (rs_last_progress_at state)) phase_source terminal_state
       (clean (rs_terminal_reason state)) (clean (rs_terminal_source state)) (default 0 (rs_runtime_version state))
       status (if present then Some runtime_phase else None)
       (if present && str_in runtime_phase ["running"; "blocked"]%string then active_tool else None)
       presence_updated_at (dt_or last_live_at presence_updated_at) display active_tool (Some confidence)
       (default now (dt_or (normalize_utc (rs_timeline_anchor_at state)) (normalize_utc (se_started_at session))))
       (normalize_utc (rs_freshness_expires_at state)).

(** [build_fallback_runtime_view]. *)
Definition build_fallback_runtime_view (session : SessionRow) (last_activity_at : option datetime) (now : datetime) :
    SessionRuntimeView :=
  let now := normalized_now now in
  let started_at := default now (normalize_utc (se_started_at session)) in
  let last_activity := dt_or (normalize_utc last_activity_at) (normalize_utc (se_ended_at session)) in
  let progress_at := default started_at last_activity in
  let anchor := default now (latest_timestamp [Some progress_at; Some started_at]) in
  let explicit_terminal := clean (se_terminal_state session) in
  let status := match explicit_terminal with Some _ => "completed" | None => "idle" end%string in
  View "none" (match explicit_terminal with Some _ => Some "finished"%string | None => None end)
       (Some progress_at) (Some progress_at) "fallback" explicit_terminal None None 0 status None None None None
       (match explicit_terminal with
        | Some _ => display_phase_for_state "finished" None "stale" explicit_terminal status
        | None => "Inactive"%string
        end)
       None None anchor None.

(** [should_include_runtime_view]. *)
Definition should_include_runtime_view (session : SessionRow) (view : option SessionRuntimeView) : bool :=
  match view with
  | None => false
  | Some v =>
      negb (bool_decide (is_Some (clean (se_terminal_state session))))
      || bool_decide (is_Some (rv_presence_updated_at v)) || bool_decide (is_Some (rv_last_live_at v))
      || negb (String.eqb (rv_runtime_source v) "fallback")
  end.

(** ** Tool labels *)

Definition is_separator (c : ascii) : bool := (code c =? 45)%nat || (code c =? 95)%nat || (code c =? 46)%nat.

(** [raw.split("__")[-1]]. *)
Fixpoint after_last_dunder (acc s : string) : string :=
  match s with
  | EmptyString => str_rev_acc acc ""
  | String c1 s1 =>
      match s1 with
      | String c2 s2 =>
          if (code c1 =? 95)%nat && (code c2 =? 95)%nat then after_last_dunder "" s2
          else after_last_dunder (String c1 acc) s1
      | EmptyString => after_last_dunder (String c1 acc) s1
      end
  end.

(** [re.sub(r"^(hatch_|tool_|mcp_)", "", s)]. *)
Definition drop_tool_prefix (s : string) : string :=
  if startswith "hatch_" s then String.substring 6 (String.length s) s
  else if startswith "tool_" s then String.substring 5 (String.length s) s
  else if startswith "mcp_" s then String.substring 4 (String.length s) s
  else s.

(** [re.sub(r"[-_.]+", " ", s)]; [inside] while a run is being read. *)
Fixpoint separators_to_space (inside : bool) (s : string) : string :=
  match s with
  | EmptyString => EmptyString
  | String c s' =>
      if is_separator c then (if inside then separators_to_space true s'
                              else String (Ascii.ascii_of_nat 32) (separators_to_space true s'))
      else String c (separators_to_space false s')
  end.

(** [value.split()]. *)
Fixpoint words (acc s : string) : list string :=
  match s with
  | EmptyString => match acc with EmptyString => [] | _ => [str_rev_acc acc ""] end
  | String c s' =>
      if is_space c then match acc with EmptyString => words "" s' | _ => str_rev_acc acc "" :: words "" s' end
      else words (String c acc) s'
  end.

(** [upper] on the letters of ASCII, which tool names are made of. *)
Definition upper_char (c : ascii) : ascii :=
  if ((97 <=? code c) && (code c <=? 122))%nat then Ascii.ascii_of_nat (code c - 32) else c.

Fixpoint upper (s : string) : string :=
  match s with EmptyString => EmptyString | String c s' => String (upper_char c) (upper s') end.

Definition title_word (word : string) : string :=
  if (String.length word <=? 3)%nat && String.eqb word (upper word) then word
  else match word with EmptyString => EmptyString | String c w => String (upper_char c) w end.

(** [_title_case_words]. *)
Definition title_case_words (value : string) : string := join " " (map title_word (words "" value)).

(** [compact_runtime_tool_label]. *)
Definition compact_runtime_tool_label (tool_name : option string) : option string :=
  let raw := strip (or_empty tool_name) in
  if negb (str_truthy raw) then None
  else
    let normalized := strip (separators_to_space false (drop_tool_prefix (after_last_dunder "" raw))) in
    if negb (str_truthy normalized) then None
    else
      let l := lower normalized in
      Some (if String.eqb l "codex" then "Codex"
            else if String.eqb l "claude" then "Claude"
            else if String.eqb l "gemini" || String.eqb l "antigravity" then "Antigravity"
            else if String.eqb l "default" then "Z.ai"
            else if str_in l ["shell"; "bash"; "terminal"] then "Shell"
            else if str_in l ["edit"; "write"; "patch"; "apply patch"; "file change"; "filechange"] then "Edit"
            else title_case_words normalized)%string.

(** ** Laws *)

Example label_examples :
  map compact_runtime_tool_label
    [Some "mcp__server__read_file"; Some "Bash"; Some "apply.patch"; Some "  "; Some "tool_web-search"]%string
  = [Some "Read File"; Some "Shell"; Some "Edit"; None; Some "Web Search"]%string.
Proof. vm_compute. reflexivity. Qed.

Lemma strip_or_nonempty value fallback : fallback ≠ EmptyString → strip_or value fallback ≠ EmptyString.
Proof.
  intros Hf. unfold strip_or. destruct (or_none _) as [s|] eqn:E; simpl; [|done].
  by apply or_none_Some in E as [-> ?].
Qed.

Lemma confidence_live state now :
  confidence_for_state state now = "live"%string ↔
  ∃ e, normalize_utc (rs_freshness_expires_at state) = Some e ∧ instant now < instant e.
Proof.
  unfold confidence_for_state, dt_lt. destruct (normalize_utc (rs_freshness_expires_at state)) as [e|].
  - destruct (Z.ltb_spec (instant now) (instant e)); split; naive_solver lia.
  - split; naive_solver.
Qed.

(** A runtime view shows nothing live on stale evidence: when the
    freshness window of the state has passed, or was never set, and the run
    has not ended, the view reports no presence, no phase, an idle status and
    the display phase Inactive, whatever phase the state last recorded. *)
Theorem stale_runtime_shows_nothing_live state session now :
  let v := build_runtime_view state session now in
  (∀ e, normalize_utc (rs_freshness_expires_at state) = Some e → instant e ≤ instant now) →
  rv_terminal_state v = None → strip_or (rs_phase state) "idle" ≠ "finished"%string →
  rv_presence_state v = None ∧ rv_presence_tool v = None ∧ rv_runtime_phase v = None ∧
  rv_status v = "idle"%string ∧ rv_display_phase v = "Inactive"%string ∧ rv_confidence v = Some "stale"%string.
Proof.
  intros v Hstale Hterm Hphase. unfold v, build_runtime_view in *. cbn [rv_terminal_state] in Hterm.
  assert (confidence_for_state state (normalized_now now) = "stale"%string) as Hc.
  { unfold confidence_for_state, dt_lt. destruct (normalize_utc (rs_freshness_expires_at state)) as [e|]; [|done].
    specialize (Hstale e eq_refl).
    assert (instant (normalized_now now) = instant now) as ->.
    { unfold normalized_now. destruct (normalize_utc (Some now)) as [d|] eqn:E; [|done].
      by apply normalize_utc_instant in E. }
    by destruct (Z.ltb_spec (instant now) (instant e)); [lia|]. }
  rewrite Hc, Hterm. set (phase := strip_or (rs_phase state) "idle") in *.
  apply String.eqb_neq in Hphase. cbn.
  unfold status_for_state, display_phase_for_state. cbn. rewrite Hphase. cbn.
  split_and!; try done. destruct (String.eqb _ "progress"); cbn; [done|].
  destruct (str_in phase KNOWN_PHASES) eqn:Ek; [done|].
  assert (∀ p, p ∈ KNOWN_PHASES → String.eqb phase p = false) as Hn.
  { intros p Hp. apply String.eqb_neq. intros ->. apply str_in_spec in Hp. congruence. }
  by rewrite !Hn by (unfold KNOWN_PHASES; set_solver).
Qed.
