(* ===== verification/Liveness.v ===== *)
(** * Session liveness facts

    Models [src/server/zerg/services/session_liveness_facts.py]: what was
    observed of a session's control path, host, process and phase, and the
    lifecycle that follows.  An overlay is any object with optional
    attributes; an attribute it lacks is [None]. *)

From S2P Require Import Prelude PyStr PyTime PyValue ConsoleControl ProviderContracts Capabilities RuntimeView.

Open Scope list_scope.
Open Scope Z_scope.

Record HostObservation : Type := HostObs {
  ho_state : string;
  ho_last_seen_at : option datetime;
  ho_source : option string;
}.

Record ProcessObservation : Type := ProcessObs {
  po_status : string;
  po_pid : option Z;
  po_process_start_time : option datetime;
  po_observed_at : option datetime;
  po_last_seen_at : option datetime;
  po_source_mtime : option datetime;
  po_source_path : option string;
  po_reason : option string;
  po_source : option string;
}.

Record PhaseObservation : Type := PhaseObs {
  ph_kind : option string;
  ph_tool : option string;
  ph_source : option string;
  ph_observed_at : option datetime;
  ph_expires_at : option datetime;
}.

Record ControlObservation : Type := ControlObs {
  co_state : string;
  co_reason : option string;
  co_source : option string;
  co_last_seen_at : option datetime;
  co_expires_at : option datetime;
  co_transport : option string;
}.

Record ActivityObservation : Type := ActivityObs {
  ao_last_transcript_at : option datetime;
  ao_last_runtime_signal_at : option datetime;
  ao_last_progress_at : option datetime;
}.

Record LifecycleFact : Type := Lifecycle {
  lf_state : string;
  lf_reason : option string;
  lf_observed_at : option datetime;
}.

Record SessionLivenessFacts : Type := LivenessFacts {
  sl_control_path : string;
  sl_control : ControlObservation;
  sl_process_state : string;
  sl_host : HostObservation;
  sl_process : ProcessObservation;
  sl_phase : PhaseObservation;
  sl_activity : ActivityObservation;
  sl_lifecycle : LifecycleFact;
}.

(** The attributes read from a control overlay. *)
Record control_overlay : Type := ControlOverlay {
  ov_control_state : option string;
  ov_state : option string;
  ov_lease_state : option string;
  ov_source : option string;
  ov_last_control_seen_at : option datetime;
  ov_last_seen_at : option datetime;
  ov_control_expires_at : option datetime;
  ov_expires_at : option datetime;
  ov_transport : option string;
  ov_reason : option string;
}.

(** The attributes read from a binding overlay. *)
Record binding_overlay : Type := BindingOverlay {
  bo_host_state : option string;
  bo_host_last_seen_at : option datetime;
  bo_terminal_reason : option string;
  bo_binding_state : option string;
  bo_pid : option Z;
  bo_process_start_time : option datetime;
  bo_observed_at : option datetime;
  bo_last_seen_at : option datetime;
  bo_source_mtime : option datetime;
  bo_source_path : option string;
}.

(** [_control_path]. *)
Definition control_path_of (c : KernelSessionCapabilities) : string :=
  if kc_live_control_available c || kc_host_reattach_available c then "managed" else "unmanaged".

(** [a or b] after [_normalized], whose result is never the empty string. *)
Definition or_else (a b : option string) : option string := match a with Some _ => a | None => b end.

(** The map from an overlay's raw state, with the reason it adds. *)
Definition overlay_state (raw_state : string) (reason : option string) : string * option string :=
  if String.eqb raw_state "attached" then ("online"%string, reason)
  else if str_in raw_state ["online"; "degraded"; "offline"; "unknown"]%string then (raw_state, reason)
  else if str_in raw_state ["detached"; "missing"]%string then
    ("offline"%string, or_else reason (Some (if String.eqb raw_state "missing" then "missing_from_snapshot"
                                             else "detached")%string))
  else ("unknown"%string, or_else reason (Some "unknown_control_state"%string)).

(** [_control_observation]. *)
Definition control_observation (control_path : string) (host : HostObservation) (overlay : option control_overlay)
    (now : datetime) : ControlObservation :=
  if negb (String.eqb control_path "managed") then
    ControlObs "none" (Some "no_control_path"%string) None None None None
  else match overlay with
  | None =>
      let reason := if opt_in (clean (Some (ho_state host))) ["offline"; "stale"]%string
                    then "host_offline" else "cold_start" in
      ControlObs "unknown" (Some reason) None None None None
  | Some ov =>
      let now := normalized_now now in
      let raw_state := default "unknown"%string
                         (or_else (clean (ov_control_state ov)) (or_else (clean (ov_state ov)) (clean (ov_lease_state ov)))) in
      let last_seen_at := normalize_utc (dt_or (ov_last_control_seen_at ov) (ov_last_seen_at ov)) in
      let expires_at := normalize_utc (dt_or (ov_control_expires_at ov) (ov_expires_at ov)) in
      let '(state, reason) := overlay_state raw_state (clean (ov_reason ov)) in
      let fresh := match expires_at with Some e => negb (dt_le e now) | None => false end in
      let '(state, reason) := if String.eqb state "online" && negb fresh
                              then ("unknown"%string, Some "lease_stale"%string) else (state, reason) in
      let reason := if str_in state ["degraded"; "offline"]%string && negb (bool_decide (is_Some reason))
                    then Some (if str_in raw_state ["degraded"; "detached"; "missing"]%string then raw_state else state)
                    else reason in
      ControlObs state reason (clean (ov_source ov)) last_seen_at expires_at (clean (ov_transport ov))
  end.

(** [_explicit_lifecycle]. *)
Definition explicit_lifecycle (view : option SessionRuntimeView) : option LifecycleFact :=
  v ← view;
  terminal_state ← clean (rv_terminal_state v);
  if String.eqb terminal_state "finished" then None
  else
    let observed_at := dt_or (rv_presence_updated_at v) (rv_last_live_at v) in
    let terminal_reason := clean (rv_terminal_reason v) in
    if str_in terminal_state EXPLICIT_CLOSED_TERMINAL_STATES then
      Some (Lifecycle "closed" (or_else terminal_reason (Some terminal_state)) observed_at)
    else if str_in terminal_state RUN_END_TERMINAL_STATES then
      Some (Lifecycle "unknown" (or_else terminal_reason (Some terminal_state)) observed_at)
    else if str_in terminal_state UNVERIFIED_TERMINAL_STATES then
      Some (Lifecycle "unknown" (or_else terminal_reason (Some terminal_state)) observed_at)
    else Some (Lifecycle "closed" (or_else terminal_reason (Some "provider_signal"%string)) observed_at).

(** [_phase_observation]. *)
Definition phase_observation (view : option SessionRuntimeView) : PhaseObservation :=
  match view with
  | None => PhaseObs None None None None None
  | Some v =>
      let source := clean (Some (rv_runtime_source v)) in
      if negb (bool_decide (is_Some source)) || opt_in source ["fallback"; "progress"]%string
         || negb (opt_is (rv_confidence v) "live")
      then PhaseObs None None source None None
      else PhaseObs (clean (rv_runtime_phase v)) (clean (rv_active_tool v)) source
                    (dt_or (rv_presence_updated_at v) (rv_phase_started_at v)) (rv_freshness_expires_at v)
  end.

(** [_host_observation]. *)
Definition host_observation (overlay : option binding_overlay) (binding_host_state : option string) : HostObservation :=
  let state := default "unknown"%string (or_else (clean binding_host_state) (clean (overlay ≫= bo_host_state))) in
  HostObs state (overlay ≫= bo_host_last_seen_at)
          (if negb (String.eqb state "unknown") then Some "machine_heartbeat"%string else None).

(** [_process_observation]. *)
Definition process_observation (control_path : string) (overlay : option binding_overlay)
    (binding_terminal_reason : option string) : ProcessObservation :=
  match overlay with
  | None => ProcessObs "unknown" None None None None None None None None
  | Some ov =>
      let reason := or_else (clean binding_terminal_reason) (clean (bo_terminal_reason ov)) in
      let binding_state := default "observed"%string (clean (bo_binding_state ov)) in
      let status :=
        if String.eqb control_path "managed" then "unknown"
        else if opt_is reason "process_gone" then "not_observed"
        else if opt_is reason "host_expired" then "unknown"
        else if String.eqb binding_state "observed" && opt_is (clean (bo_host_state ov)) "online"
                && bool_decide (is_Some (bo_pid ov)) && bool_decide (is_Some (bo_process_start_time ov))
        then "observed"
        else "unknown" in
      ProcessObs status (bo_pid ov) (bo_process_start_time ov) (bo_observed_at ov) (bo_last_seen_at ov)
                 (bo_source_mtime ov) (bo_source_path ov) reason (Some "machine_process_scan"%string)
  end.

(** [_lifecycle]. *)
Definition lifecycle_of (explicit : option LifecycleFact) (control_path : string) (control : ControlObservation)
    (process : ProcessObservation) (phase : PhaseObservation) : LifecycleFact :=
  match explicit with
  | Some f => f
  | None =>
      if String.eqb (po_status process) "observed" then
        Lifecycle "open" (Some "process_observed"%string) (dt_or (po_observed_at process) (po_last_seen_at process))
      else if String.eqb control_path "unmanaged" && String.eqb (po_status process) "not_observed"
              && opt_is (po_reason process) "process_gone" then
        Lifecycle "closed" (Some "process_gone"%string) (dt_or (po_last_seen_at process) (po_observed_at process))
      else if String.eqb control_path "managed" && bool_decide (is_Some (co_source control))
              && str_in (co_state control) ["online"; "degraded"; "offline"]%string then
        Lifecycle "open" (Some "control_observed"%string) (co_last_seen_at control)
      else if bool_decide (is_Some (ph_kind phase)) then
        Lifecycle "open" (Some "phase_observed"%string) (ph_observed_at phase)
      else Lifecycle "unknown" None None
  end.

(** [_process_state]. *)
Definition process_state_of (process : ProcessObservation) (lifecycle : LifecycleFact) : string :=
  if String.eqb (lf_state lifecycle) "closed" then "closed"
  else if String.eqb (po_status process) "observed" then "running"
  else "unknown".

(** [build_session_liveness_facts]. *)
Definition build_session_liveness_facts (view : option SessionRuntimeView) (capabilities : KernelSessionCapabilities)
    (last_activity_at : option datetime) (binding : option binding_overlay)
    (binding_host_state binding_terminal_reason : option string) (overlay : option control_overlay)
    (now : datetime) : SessionLivenessFacts :=
  let control_path := control_path_of capabilities in
  let host := host_observation binding binding_host_state in
  let control := control_observation control_path host overlay now in
  let process := process_observation control_path binding binding_terminal_reason in
  let phase := phase_observation view in
  let activity := ActivityObs last_activity_at (view ≫= rv_presence_updated_at) (view ≫= rv_last_progress_at) in
  let lifecycle := lifecycle_of (explicit_lifecycle view) control_path control process phase in
  LivenessFacts control_path control (process_state_of process lifecycle) host process phase activity lifecycle.

(** ** Laws *)

#[local] Arguments str_in : simpl never.
#[local] Arguments opt_in : simpl never.
#[local] Arguments opt_is : simpl never.

Lemma instant_normalized_now now : instant (normalized_now now) = instant now.
Proof.
  unfold normalized_now. destruct (normalize_utc (Some now)) as [d|] eqn:E; [|done].
  by apply normalize_utc_instant in E.
Qed.

(** control is reported online only on a path Longhouse owns, from an
    overlay that says so, and while the lease it names has not expired; an
    expired or undated lease is reported unknown with the reason
    lease_stale, never online. *)
Theorem online_control_has_an_unexpired_lease path host overlay now :
  co_state (control_observation path host overlay now) = "online"%string →
  path = "managed"%string ∧ ∃ ov expires,
    overlay = Some ov ∧ co_expires_at (control_observation path host overlay now) = Some expires ∧
    instant now < instant expires.
Proof.
  unfold control_observation. destruct (String.eqb_spec path "managed") as [->|]; simpl; [|done].
  destruct overlay as [ov|]; [|done].
  destruct (overlay_state _ _) as [state reason].
  destruct (normalize_utc (dt_or (ov_control_expires_at ov) (ov_expires_at ov))) as [e|] eqn:Ee.
  - unfold dt_le. rewrite instant_normalized_now.
    destruct (String.eqb_spec state "online") as [->|Hne]; simpl.
    + destruct (Z.leb_spec (instant e) (instant now)); simpl; [done|]. intros _. split; [done|]. by exists ov, e.
    + intros ->. done.
  - destruct (String.eqb_spec state "online") as [->|Hne]; simpl; [done|]. intros ->. done.
Qed.

(** The lifecycle follows the evidence: closed needs an explicit closing
    terminal state or, off Longhouse's control paths, a process seen gone; a
    run that merely ended or a host that expired closes nothing; and a
    process is called running only when it was observed and the session is
    not closed. *)
Theorem closed_lifecycle_needs_closing_evidence view caps last_activity binding host_state reason overlay now :
  let facts := build_session_liveness_facts view caps last_activity binding host_state reason overlay now in
  (lf_state (sl_lifecycle facts) = "closed"%string →
     (∃ v t, view = Some v ∧ clean (rv_terminal_state v) = Some t ∧
        t ∉ "finished"%string :: RUN_END_TERMINAL_STATES ++ UNVERIFIED_TERMINAL_STATES) ∨
     (explicit_lifecycle view = None ∧ control_path_of caps = "unmanaged"%string ∧
        po_reason (sl_process facts) = Some "process_gone"%string)) ∧
  (sl_process_state facts = "closed"%string ↔ lf_state (sl_lifecycle facts) = "closed"%string) ∧
  (sl_process_state facts = "running"%string ↔
     lf_state (sl_lifecycle facts) ≠ "closed"%string ∧ po_status (sl_process facts) = "observed"%string).
Proof.
  intros facts. unfold facts, build_session_liveness_facts; cbn [sl_lifecycle sl_process sl_process_state].
  set (process := process_observation _ _ _). set (control := control_observation _ _ _ _).
  set (phase := phase_observation _). split_and!.
  - unfold lifecycle_of. destruct (explicit_lifecycle view) as [f|] eqn:Ef.
    + intros Hf. left. unfold explicit_lifecycle in Ef. destruct view as [v|]; [|done]. simpl in Ef.
      destruct (clean (rv_terminal_state v)) as [t|] eqn:Et; [|done]. simpl in Ef.
      exists v, t. split_and!; [done..|].
      destruct (String.eqb_spec t "finished") as [->|Hfin]; [done|].
      destruct (str_in t EXPLICIT_CLOSED_TERMINAL_STATES) eqn:E1.
      { apply str_in_spec in E1. unfold EXPLICIT_CLOSED_TERMINAL_STATES in E1.
        apply list_elem_of_singleton in E1 as ->. unfold RUN_END_TERMINAL_STATES, UNVERIFIED_TERMINAL_STATES. set_solver. }
      destruct (str_in t RUN_END_TERMINAL_STATES) eqn:E2; [by injection Ef as <-|].
      destruct (str_in t UNVERIFIED_TERMINAL_STATES) eqn:E3; [by injection Ef as <-|].
      intros [->|[H|H]%elem_of_app]%elem_of_cons; [done| |]; apply str_in_spec in H; congruence.
    + intros Hl. right. split; [done|].
      destruct (String.eqb (po_status process) "observed"); [done|].
      destruct (String.eqb_spec (control_path_of caps) "unmanaged") as [Hu|]; simpl in Hl.
      * destruct (String.eqb (po_status process) "not_observed"); simpl in Hl.
        { destruct (opt_is (po_reason process) "process_gone") eqn:Er; [by apply opt_is_spec in Er|].
          repeat case_match; done. }
        repeat case_match; done.
      * repeat case_match; done.
  - unfold process_state_of. destruct (String.eqb_spec (lf_state (lifecycle_of (explicit_lifecycle view)
      (control_path_of caps) control process phase)) "closed"); [done|].
    destruct (String.eqb _ "observed"); done.
  - unfold process_state_of. destruct (String.eqb_spec (lf_state (lifecycle_of (explicit_lifecycle view)
      (control_path_of caps) control process phase)) "closed"); [naive_solver|].
    destruct (String.eqb_spec (po_status process) "observed"); naive_solver.
Qed.
