(* ===== verification/StateContract.v ===== *)
(** * The session state contract

    Models [src/server/zerg/services/session_state_contract.py]: the axes of a
    session's state, each projected from already-loaded observations, and the
    presentation derived from the axes alone. *)

From S2P Require Import Prelude PyStr PyTime PyValue Sha256 ConsoleControl ProviderContracts Capabilities.
From S2P Require Import RuntimeView Liveness.

Open Scope list_scope.
Open Scope Z_scope.

Definition STATE_CONTRACT_VERSION : Z := 2.
Definition PRESENTATION_POLICY_VERSION : Z := 2.

Definition PRIMARY_PRESENTATION_KEYS : list string :=
  ["closed"; "launch_failed"; "starting"; "needs_answer"; "needs_approval"; "thinking"; "executing"; "stalled";
   "blocked"; "idle"; "ended"; "ready"; "no_recent_activity"; "activity_unknown"]%string.

Definition ACCESS_PRESENTATION_KEYS : list string :=
  ["live_control"; "reattach"; "control_degraded"; "control_disconnected"; "control_unknown"; "read_only";
   "observe_only"; "search_only"; "closed"; "machine_offline"; "console_no_turn_path"; "console_no_target"]%string.

Definition TRANSCRIPT_PRESENTATION_KEYS : list string := ["transcript_lagging"]%string.

Definition manifest_payload : list (string * pyval) :=
  [("state_contract_version", VInt STATE_CONTRACT_VERSION);
   ("presentation_policy_version", VInt PRESENTATION_POLICY_VERSION);
   ("presentation_keys",
    VDict [("primary", VList (map VStr PRIMARY_PRESENTATION_KEYS));
           ("access", VList (map VStr ACCESS_PRESENTATION_KEYS));
           ("transcript", VList (map VStr TRANSCRIPT_PRESENTATION_KEYS))])]%string.

(** [session_state_contract_manifest]. *)
Definition session_state_contract_manifest : list (string * pyval) :=
  manifest_payload ++ [("fingerprint"%string, VStr (sha256_hex (utf8_encode (dumps (VDict manifest_payload)))))].

(** ** The axes *)

Inductive ActivityState : Type := AThinking | AExecuting | AQuiescent | ABlocked | AStalled | AUnknown.
Inductive RunLifecycle : Type := RStarting | RRunning | REnded | RUnknown.
Inductive ConnectionState : Type := Connected | Degraded | Disconnected | ConnUnknown | NotApplicable.
Inductive ActionState : Type := Available | Unavailable | ActionUnknown.
Inductive TranscriptConvergence : Type := Current | Lagging | ConvUnknown.
Inductive SessionMode : Type := Shadow | Helm | ConsoleMode | ModeUnknown.
Inductive WorkingSet : Type := OpenSet | History.
Inductive DispositionState : Type := DOpen | DClosed.
Inductive LaunchState : Type := LPending | LDispatched | LFailed | LAdopted | LAbandoned.
Inductive Ownership : Type := Owned | Unowned.
Inductive InteractionKind : Type := Question | Permission | Approval.
Inductive HostState : Type := HOnline | HStale | HOffline | HUnknown.

#[export] Instance activity_eq_dec : EqDecision ActivityState. Proof. solve_decision. Defined.
#[export] Instance run_eq_dec : EqDecision RunLifecycle. Proof. solve_decision. Defined.
#[export] Instance connection_eq_dec : EqDecision ConnectionState. Proof. solve_decision. Defined.
#[export] Instance action_eq_dec : EqDecision ActionState. Proof. solve_decision. Defined.
#[export] Instance convergence_eq_dec : EqDecision TranscriptConvergence. Proof. solve_decision. Defined.
#[export] Instance mode_eq_dec : EqDecision SessionMode. Proof. solve_decision. Defined.
#[export] Instance disposition_eq_dec : EqDecision DispositionState. Proof. solve_decision. Defined.
#[export] Instance launch_eq_dec : EqDecision LaunchState. Proof. solve_decision. Defined.
#[export] Instance ownership_eq_dec : EqDecision Ownership. Proof. solve_decision. Defined.
#[export] Instance kind_eq_dec : EqDecision InteractionKind. Proof. solve_decision. Defined.

Record SessionDispositionFacts : Type := Disposition {
  di_state : DispositionState;
  di_closed_at : option datetime;
  di_close_reason : option string;
}.

Record SessionRunFacts : Type := RunFacts {
  ru_id : option string;
  ru_lifecycle : RunLifecycle;
  ru_started_at : option datetime;
  ru_ended_at : option datetime;
  ru_end_reason : option string;
}.

Record SessionLaunchFacts : Type := LaunchFacts {
  la_state : LaunchState;
  la_error_code : option string;
  la_error_message : option string;
}.

Record SessionActivityFacts : Type := ActivityFacts {
  ac_state : ActivityState;
  ac_raw_kind : option string;
  ac_tool : option string;
  ac_source : option string;
  ac_observed_at : option datetime;
  ac_valid_until : option datetime;
}.

Record SessionActionAvailability : Type := Action {
  aa_state : ActionState;
  aa_reason : option string;
}.

Record SessionControlActions : Type := Actions {
  ca_start_turn : SessionActionAvailability;
  ca_send_input : SessionActionAvailability;
  ca_interrupt : SessionActionAvailability;
  ca_terminate : SessionActionAvailability;
  ca_reattach : SessionActionAvailability;
  ca_resume : SessionActionAvailability;
}.

Record SessionControlFacts : Type := ControlFacts {
  ct_ownership : Ownership;
  ct_connection : ConnectionState;
  ct_connection_id : option (Z + string);
  ct_lease_generation : option string;
  ct_control_plane : option string;
  ct_terminal_attached : option bool;
  ct_observed_at : option datetime;
  ct_valid_until : option datetime;
  ct_actions : SessionControlActions;
}.

Record SessionPendingInteractionFacts : Type := Interaction {
  in_id : string;
  in_kind : InteractionKind;
  in_opened_at : option datetime;
  in_resolved_at : option datetime;
  in_provider_request_id : option string;
  in_can_respond : bool;
}.

Record SessionTranscriptFacts : Type := TranscriptFacts {
  tr_convergence : TranscriptConvergence;
  tr_source_revision : option Z;
  tr_durable_revision : option Z;
  tr_render_revision : option Z;
  tr_last_append_at : option datetime;
  tr_searchable : bool;
  tr_live_observation : bool;
}.

Record SessionHostFacts : Type := HostFacts {
  hf_state : HostState;
  hf_observed_at : option datetime;
}.

Record SessionPresentationLabel : Type := PLabel {
  pl_key : string;
  pl_label : string;
  pl_tone : string;
  pl_observed_at : option datetime;
}.

Record SessionPresentation : Type := Presentation {
  pr_primary : option SessionPresentationLabel;
  pr_access : option SessionPresentationLabel;
  pr_transcript : option SessionPresentationLabel;
}.

Record SessionStateFacts : Type := StateFacts {
  sf_mode : SessionMode;
  sf_disposition : SessionDispositionFacts;
  sf_launch : option SessionLaunchFacts;
  sf_run : option SessionRunFacts;
  sf_activity : SessionActivityFacts;
  sf_control : SessionControlFacts;
  sf_pending_interaction : option SessionPendingInteractionFacts;
  sf_transcript : SessionTranscriptFacts;
  sf_host : SessionHostFacts;
  sf_working_set : WorkingSet;
  sf_unread : bool;
  sf_last_result_at : option datetime;
  sf_last_result_outcome : option string;
  sf_presentation : SessionPresentation;
  sf_commit_seq : option Z;
}.

(** ** Projecting the axes *)

Definition LAST_SEEN_LABEL : list (string * string) :=
  [("thinking", "thinking"); ("running", "running a tool"); ("idle", "idle"); ("needs_user", "idle");
   ("blocked", "blocked"); ("stalled", "stalled")]%string.

Definition ENDED_RUNTIME_STATES : list string := ["session_ended"; "process_gone"]%string ++ RUN_TERMINAL_STATES.

Definition ACTIVITY_MAP : list (string * ActivityState) :=
  [("thinking"%string, AThinking); ("running"%string, AExecuting); ("idle"%string, AQuiescent);
   ("needs_user"%string, AQuiescent); ("blocked"%string, ABlocked); ("stalled"%string, AStalled)].

(** [_mode]. *)
Definition mode_of (session : SessionRow) (execution_lifetime : option string) (c : KernelSessionCapabilities) :
    SessionMode :=
  let origin_kind := clean (se_origin_kind session) in
  let surface := clean (se_launch_surface session) in
  let execution_home := clean (se_execution_home session) in
  if opt_is origin_kind "console" || opt_is execution_lifetime "one_shot"
     || opt_in surface ["web"; "ios"; "api"]%string then ConsoleMode
  else if kc_observe_only c then Shadow
  else if opt_is execution_lifetime "live_control" || opt_is execution_home "managed_local" || kc_control_owned c
          || kc_live_control_available c || kc_host_reattach_available c then Helm
  else if bool_decide (execution_home = None)
          || opt_in execution_home ["local"; "imported"; "unmanaged"; "unmanaged_local"]%string then Shadow
  else ModeUnknown.

(** [_disposition]. *)
Definition disposition_of (session : SessionRow) (view : option SessionRuntimeView) : SessionDispositionFacts :=
  match normalize_utc (se_closed_at session) with
  | Some closed_at =>
      Disposition DClosed (Some closed_at) (or_else (clean (se_close_reason session)) (Some "user_closed"%string))
  | None =>
      if opt_is (clean (view ≫= rv_terminal_state)) "user_closed" then
        Disposition DClosed (normalize_utc (rv_timeline_anchor_at <$> view)) (Some "user_closed"%string)
      else Disposition DOpen None None
  end.

Definition unknown_activity : SessionActivityFacts := ActivityFacts AUnknown None None None None None.

(** [_activity]. *)
Definition activity_of (view : option SessionRuntimeView) : SessionActivityFacts :=
  match view with
  | None => unknown_activity
  | Some v =>
      let raw_kind := or_else (clean (rv_presence_state v)) (clean (rv_runtime_phase v)) in
      let state := if opt_is (rv_confidence v) "live"
                   then default AUnknown (lookup_str (or_empty raw_kind) ACTIVITY_MAP) else AUnknown in
      let source := clean (Some (rv_runtime_source v)) in
      let state := if opt_in source ["fallback"; "progress"]%string then AUnknown else state in
      ActivityFacts state raw_kind (compact_runtime_tool_label (opt_or (rv_active_tool v) (rv_presence_tool v)))
                    source (normalize_utc (dt_or (rv_presence_updated_at v) (rv_phase_started_at v)))
                    (normalize_utc (rv_freshness_expires_at v))
  end.

Definition LAUNCH_STATE_MAP : list (string * LaunchState) :=
  [("launching"%string, LPending); ("launching_unknown"%string, LDispatched); ("live"%string, LAdopted);
   ("launch_failed"%string, LFailed); ("launch_orphaned"%string, LAbandoned); ("pending"%string, LPending);
   ("dispatched"%string, LDispatched); ("adopted"%string, LAdopted); ("failed"%string, LFailed);
   ("abandoned"%string, LAbandoned)].

(** [_launch]. *)
Definition launch_of (launch_state error_code error_message : option string) : option SessionLaunchFacts :=
  s ← lookup_str (or_empty (clean launch_state)) LAUNCH_STATE_MAP;
  Some (LaunchFacts s (clean error_code) (clean error_message)).

(** [_run]. *)
Definition run_of (session : SessionRow) (view : option SessionRuntimeView) (c : KernelSessionCapabilities)
    (liveness : SessionLivenessFacts) (activity : SessionActivityFacts) (launch : option SessionLaunchFacts)
    (mode : SessionMode) : option SessionRunFacts :=
  let pending := match launch with
                 | Some l => bool_decide (la_state l = LPending) || bool_decide (la_state l = LDispatched)
                 | None => false
                 end in
  if pending && bool_decide (kc_run_id c = None) then
    Some (RunFacts None RStarting (normalize_utc (se_started_at session)) None None)
  else
    let terminal := clean (view ≫= rv_terminal_state) in
    let started_at := dt_or (normalize_utc (kc_run_started_at c)) (normalize_utc (se_started_at session)) in
    let run_id := clean (kc_run_id c) in
    let observed := String.eqb (po_status (sl_process liveness)) "observed" in
    let active := negb (bool_decide (ac_state activity = AUnknown)) in
    let console := bool_decide (mode = ConsoleMode) in
    if opt_in terminal ENDED_RUNTIME_STATES || opt_is (kc_staleness_reason c) "process_ended" then
      Some (RunFacts run_id REnded started_at (normalize_utc (kc_run_ended_at c))
                     (or_else terminal (or_else (clean (kc_run_end_reason c)) (Some "process_ended"%string))))
    else if console && str_in (kc_turn_state c) ["queued"; "starting"]%string then
      Some (RunFacts run_id RStarting started_at None None)
    else if console && str_in (kc_turn_state c) ["active"; "draining"]%string then
      Some (RunFacts run_id RRunning started_at None None)
    else if bool_decide (run_id = None) && negb active && negb observed then None
    else Some (RunFacts run_id (if observed || active then RRunning else RUnknown) started_at None None).

(** [_action_unavailable_reason]. *)
Definition action_unavailable_reason (ownership : Ownership) (connection : ConnectionState) (fallback : option string) :
    ActionState * string :=
  match ownership, connection with
  | Unowned, _ => (Unavailable, "observe_only")
  | _, ConnUnknown => (ActionUnknown, "control_freshness_unknown")
  | _, Degraded => (Unavailable, "control_degraded")
  | _, Disconnected => (Unavailable, "control_disconnected")
  | _, _ => (Unavailable, default "not_granted" (opt_or fallback (Some "not_granted")))
  end%string.

(** [_operation]. *)
Definition operation (available : bool) (ownership : Ownership) (connection : ConnectionState)
    (fallback : option string) (allow_disconnected : bool) : SessionActionAvailability :=
  if available && (bool_decide (connection = Connected)
                   || (allow_disconnected && bool_decide (connection = Disconnected)))
  then Action Available None
  else let '(state, reason) := action_unavailable_reason ownership connection fallback in
       Action state (Some reason).

(** The connection branch of [_control]. *)
Definition connection_of (ownership : Ownership) (expired : bool) (raw_connection : option string)
    (c : KernelSessionCapabilities) : ConnectionState :=
  match ownership with
  | Unowned => NotApplicable
  | Owned =>
      if expired then ConnUnknown
      else if kc_live_control_available c then
        (if opt_is (clean (kc_connection_state c)) "degraded" then Degraded else Connected)
      else if kc_host_reattach_available c then Disconnected
      else if opt_in raw_connection ["online"; "attached"]%string then Connected
      else if opt_is raw_connection "degraded" then Degraded
      else if opt_in raw_connection ["offline"; "detached"; "released"; "ended"]%string then Disconnected
      else ConnUnknown
  end.

Definition ownership_of (c : KernelSessionCapabilities) : Ownership :=
  if kc_control_owned c || kc_live_control_available c || kc_host_reattach_available c then Owned else Unowned.

(** [_control]. *)
Definition control_of (c : KernelSessionCapabilities) (liveness : SessionLivenessFacts) (now : datetime) :
    SessionControlFacts :=
  let ownership := ownership_of c in
  let valid_until := normalize_utc (co_expires_at (sl_control liveness)) in
  let expired := match valid_until with Some e => dt_le e now | None => false end in
  let connection := connection_of ownership expired (clean (Some (co_state (sl_control liveness)))) c in
  let fallback := clean (kc_staleness_reason c) in
  let live := kc_live_control_available c in
  let reattach_available := kc_host_reattach_available c && negb live in
  let blocked_by := if kc_can_start_turn c && str_in (ho_state (sl_host liveness)) ["offline"; "stale"]%string
                    then Some "machine_offline"%string else kc_start_turn_blocked_by c in
  let start_turn := if kc_can_start_turn c && bool_decide (blocked_by = None) then Action Available None
                    else Action Unavailable (opt_or blocked_by (Some "not_console"%string)) in
  ControlFacts ownership connection
    (match kc_adapter_connection_id c with
     | Some s => if str_truthy s then Some (inr s) else inl <$> kc_connection_id c
     | None => inl <$> kc_connection_id c
     end)
    (kc_lease_generation c) (clean (kc_control_plane c)) None
    (normalize_utc (co_last_seen_at (sl_control liveness))) valid_until
    (Actions start_turn
       (operation (kc_can_send_input c && live) ownership connection fallback false)
       (operation (kc_can_interrupt c && live) ownership connection fallback false)
       (operation (kc_can_terminate c && live) ownership connection fallback false)
       (operation reattach_available ownership connection
                  (if live then Some "already_connected"%string else fallback) true)
       (operation (kc_can_resume c && (live || reattach_available)) ownership connection fallback true)).

(** The literal a Console connection becomes when the model validates it. *)
Definition connection_literal (s : string) : ConnectionState :=
  if String.eqb s "connected" then Connected
  else if String.eqb s "degraded" then Degraded
  else Disconnected.

Definition unavailable (reason : string) : SessionActionAvailability := Action Unavailable (Some reason).

(** [_console_control]. *)
Definition console_control_of (c : KernelSessionCapabilities) : SessionControlFacts :=
  let blocked := kc_start_turn_blocked_by c in
  let p := default (project_console_control (opt_is blocked "session_closed")
                      (negb (opt_is blocked "execution_target_missing")) (Some (kc_turn_state c))
                      (negb (opt_is blocked "machine_offline")) (negb (opt_is blocked "adapter_unavailable"))
                      (kc_can_interrupt c)) (kc_console_control c) in
  let blocked_by := cc_start_turn_blocked_by p in
  let start_turn := if cc_can_start_turn p && bool_decide (blocked_by = None) then Action Available None
                    else Action Unavailable (opt_or blocked_by (Some "start_turn_unavailable"%string)) in
  let interrupt := if cc_can_interrupt_active_turn p then Action Available None
                   else unavailable (interrupt_unavailable_reason p) in
  ControlFacts Owned (connection_literal (connection p)) None None None None None None
    (Actions start_turn (unavailable "use_start_turn") interrupt (unavailable "unsupported")
             (unavailable "not_helm") (unavailable "not_helm")).

(** The keys that [_interaction] reads from a pause request. *)
Record pause_request : Type := PauseRequest {
  pq_status : option string;
  pq_kind : option string;
  pq_id : option string;
  pq_request_key : option string;
  pq_provider_request_id : option string;
  pq_occurred_at : option datetime;
  pq_created_at : option datetime;
  pq_resolved_at : option datetime;
  pq_can_respond : bool;
}.

Definition INTERACTION_KIND_MAP : list (string * InteractionKind) :=
  [("structured_question"%string, Question); ("permission_prompt"%string, Permission);
   ("plan_approval"%string, Approval)].

(** [_interaction], which [project_pending_interaction_facts] returns. *)
Definition interaction_of (request : option pause_request) : option SessionPendingInteractionFacts :=
  q ← request;
  if negb (opt_is (clean (pq_status q)) "pending") then None
  else
    kind ← lookup_str (or_empty (clean (pq_kind q))) INTERACTION_KIND_MAP;
    id ← clean (opt_or (pq_id q) (opt_or (pq_request_key q) (pq_provider_request_id q)));
    Some (Interaction id kind (normalize_utc (dt_or (pq_occurred_at q) (pq_created_at q)))
                      (normalize_utc (pq_resolved_at q)) (clean (pq_provider_request_id q)) (pq_can_respond q)).

(** [a is not None and b is not None and a > b]. *)
Definition behind (a b : option Z) : bool :=
  match a, b with Some a, Some b => b <? a | _, _ => false end.

(** [_transcript], which [project_transcript_facts] returns. *)
Definition transcript_of (session : SessionRow) (has_visible_transcript_preview has_pending_response_turn : bool)
    (user_messages assistant_messages : Z) (archive_state : option string) (live_observation : bool)
    (source_revision durable_revision render_revision : option Z) (last_append_at : option datetime) :
    SessionTranscriptFacts :=
  let legacy_revision := default 0 (se_transcript_revision session) in
  let archive := clean archive_state in
  let revisions := omap id [source_revision; durable_revision; render_revision] in
  let has_expected_content := existsb (λ v, 0 <? v) revisions || (0 <? legacy_revision) || (0 <? user_messages)
                              || (0 <? assistant_messages) || has_pending_response_turn
                              || has_visible_transcript_preview in
  let revision_lag := behind source_revision durable_revision || behind source_revision render_revision
                      || behind durable_revision render_revision in
  let pending := opt_is archive "pending" in
  let lagging := revision_lag || (pending && has_expected_content)
                 || (negb has_visible_transcript_preview
                     && (has_pending_response_turn || (assistant_messages <? user_messages))) in
  let convergence := if lagging then Lagging
                     else if pending && negb has_expected_content then Current
                     else if opt_in archive ["current"; "legacy_hot"]%string then Current
                     else ConvUnknown in
  TranscriptFacts convergence source_revision durable_revision render_revision (normalize_utc last_append_at)
    ((0 <? legacy_revision) || (0 <? user_messages) || (0 <? assistant_messages)) live_observation.
