(* ===== verification/SessionState.v ===== *)
(** * Session state and its presentation

    The rest of [src/server/zerg/services/session_state_contract.py]: the
    presentation derived from the axes ([_primary], [_console_access],
    [_access]), the working set and the unread overlay, and the two builders
    that assemble the whole answer for a live and for an archived session. *)

From S2P Require Import Prelude PyStr PyTime PyValue ConsoleControl ProviderContracts Capabilities.
From S2P Require Import RuntimeView Liveness StateContract.

Open Scope list_scope.
Open Scope Z_scope.

(** [_unread]. *)
Definition unread (last_console_result_at last_read_at : option datetime) : bool :=
  match normalize_utc last_console_result_at with
  | None => false
  | Some result_at => match normalize_utc last_read_at with
                      | None => true
                      | Some read_at => dt_lt read_at result_at
                      end
  end.

Definition lifecycle_is (run : option SessionRunFacts) (s : RunLifecycle) : bool :=
  match run with Some r => bool_decide (ru_lifecycle r = s) | None => false end.

(** [_working_set]. *)
Definition working_set (disposition : SessionDispositionFacts) (activity : SessionActivityFacts)
    (control : SessionControlFacts) (interaction : option SessionPendingInteractionFacts) (mode : SessionMode)
    (run : option SessionRunFacts) : WorkingSet :=
  if bool_decide (di_state disposition = DClosed) then History
  else if bool_decide (mode = ConsoleMode) && (lifecycle_is run RStarting || lifecycle_is run RRunning) then OpenSet
  else if bool_decide (is_Some interaction) then OpenSet
  else if bool_decide (ac_state activity = AThinking) || bool_decide (ac_state activity = AExecuting) then OpenSet
  else if bool_decide (ct_terminal_attached control = Some true) then OpenSet
  else History.

(** The four checks at the end of [_primary], which decide a label once no
    activity is known. *)
Definition primary_of_run (mode : SessionMode) (run : option SessionRunFacts) (activity : SessionActivityFacts)
    (control : SessionControlFacts) : option SessionPresentationLabel :=
  match run with
  | None =>
      if bool_decide (mode = ConsoleMode) && bool_decide (ct_ownership control = Owned)
         && bool_decide (ct_connection control = Connected)
         && bool_decide (aa_state (ca_start_turn (ct_actions control)) = Available)
      then Some (PLabel "ready" "Ready" "idle" None) else None
  | Some r =>
      if bool_decide (ru_lifecycle r = REnded) then Some (PLabel "ended" "Ended" "closed" (ru_ended_at r))
      else if bool_decide (mode = ConsoleMode) && bool_decide (ru_lifecycle r = RRunning)
      then Some (PLabel "executing" "Working" "running" (ru_started_at r))
      else
        let last_seen :=
          if bool_decide (ac_state activity = AUnknown)
             && (bool_decide (ct_connection control = Connected) || bool_decide (ct_connection control = Degraded))
          then raw ← ac_raw_kind activity; lookup_str raw LAST_SEEN_LABEL else None in
        match last_seen with
        | Some seen => Some (PLabel "no_recent_activity" ("No recent activity (last: " +:+ seen +:+ ")")%string
                                    "quiet" (ac_observed_at activity))
        | None => Some (PLabel "activity_unknown" "Activity unknown" "quiet" None)
        end
  end.

(** The activity branches of [_primary]. *)
Definition primary_of_activity (activity : SessionActivityFacts) : option SessionPresentationLabel :=
  let at_ := ac_observed_at activity in
  match ac_state activity with
  | AThinking => Some (PLabel "thinking" "Thinking" "thinking" at_)
  | AExecuting =>
      Some (PLabel "executing" (if opt_truthy (ac_tool activity) then ("Using " +:+ or_empty (ac_tool activity))%string
                                else "Running"%string) "running" at_)
  | AStalled => Some (PLabel "stalled" "Stalled" "stalled" at_)
  | ABlocked => Some (PLabel "blocked" "Blocked" "blocked" at_)
  | AQuiescent => Some (PLabel "idle" "Idle" "idle" at_)
  | AUnknown => None
  end.

(** [_primary]. *)
Definition primary (mode : SessionMode) (disposition : SessionDispositionFacts) (launch : option SessionLaunchFacts)
    (run : option SessionRunFacts) (activity : SessionActivityFacts) (control : SessionControlFacts)
    (interaction : option SessionPendingInteractionFacts) : option SessionPresentationLabel :=
  let launch_failed := match launch with
                       | Some l => bool_decide (la_state l = LFailed) || bool_decide (la_state l = LAbandoned)
                       | None => false
                       end in
  if bool_decide (di_state disposition = DClosed) then
    Some (PLabel "closed" "Closed" "closed" (di_closed_at disposition))
  else if launch_failed then Some (PLabel "launch_failed" "Launch failed" "blocked" None)
  else if lifecycle_is run RStarting then Some (PLabel "starting" "Starting" "active" (run ≫= ru_started_at))
  else match interaction with
  | Some i =>
      if bool_decide (in_kind i = Question)
      then Some (PLabel "needs_answer" "Needs answer" "blocked" (in_opened_at i))
      else Some (PLabel "needs_approval" "Needs approval" "blocked" (in_opened_at i))
  | None => match primary_of_activity activity with
            | Some l => Some l
            | None => primary_of_run mode run activity control
            end
  end.

(** [_console_access]. *)
Definition console_access (control : SessionControlFacts) : option SessionPresentationLabel :=
  let start_turn := ca_start_turn (ct_actions control) in
  let at_ := ct_observed_at control in
  if bool_decide (aa_state start_turn = Available) then Some (PLabel "live_control" "Live control" "live" at_)
  else
    let reason := clean (aa_reason start_turn) in
    if opt_is reason "session_closed" then None
    else if opt_is reason "machine_offline" then Some (PLabel "machine_offline" "Machine offline" "degraded" at_)
    else if opt_is reason "adapter_unavailable" then Some (PLabel "console_no_turn_path" "Can't send" "inactive" at_)
    else if opt_is reason "execution_target_missing" then Some (PLabel "console_no_target" "No target" "inactive" at_)
    else None.

Definition is_available (a : SessionActionAvailability) : bool := bool_decide (aa_state a = Available).

(** [_access]. *)
Definition access (mode : SessionMode) (disposition : SessionDispositionFacts) (control : SessionControlFacts)
    (transcript : SessionTranscriptFacts) : option SessionPresentationLabel :=
  let owned := bool_decide (ct_ownership control = Owned) in
  let conn_is s := bool_decide (ct_connection control = s) in
  let actions := ct_actions control in
  let live_actions := [ca_start_turn actions; ca_send_input actions; ca_interrupt actions; ca_terminate actions] in
  let at_ := ct_observed_at control in
  if bool_decide (di_state disposition = DClosed) then None
  else if bool_decide (mode = ConsoleMode) && owned then console_access control
  else if owned && (conn_is Connected || existsb is_available live_actions) then
    Some (PLabel "live_control" "Live control" "live" at_)
  else if is_available (ca_reattach actions) then Some (PLabel "reattach" "Reattach" "reattach" at_)
  else if conn_is Degraded then Some (PLabel "control_degraded" "Control degraded" "degraded" at_)
  else if owned && conn_is ConnUnknown then Some (PLabel "control_unknown" "Control unknown" "inactive" at_)
  else if owned && conn_is Connected then Some (PLabel "read_only" "Read only" "neutral" at_)
  else if bool_decide (ct_ownership control = Unowned) && tr_live_observation transcript then
    Some (PLabel "observe_only" "Observe only" "observe" (tr_last_append_at transcript))
  else if tr_searchable transcript then Some (PLabel "search_only" "Search only" "search" None)
  else None.

(** [assemble_session_state_facts]. *)
Definition assemble_session_state_facts (mode : SessionMode) (disposition : SessionDispositionFacts)
    (launch : option SessionLaunchFacts) (run : option SessionRunFacts) (activity : SessionActivityFacts)
    (control : SessionControlFacts) (pending_interaction : option SessionPendingInteractionFacts)
    (transcript : SessionTranscriptFacts) (host : SessionHostFacts) (commit_seq : option Z)
    (last_console_result_at : option datetime) (last_console_result_outcome : option string)
    (last_read_at : option datetime) : SessionStateFacts :=
  let transcript_label :=
    if bool_decide (tr_convergence transcript = Lagging)
    then Some (PLabel "transcript_lagging" "Transcript catching up" "inactive" (tr_last_append_at transcript))
    else None in
  StateFacts mode disposition launch run activity control pending_interaction transcript host
    (working_set disposition activity control pending_interaction mode run)
    (unread last_console_result_at last_read_at) (normalize_utc last_console_result_at)
    (clean last_console_result_outcome)
    (Presentation (primary mode disposition launch run activity control pending_interaction)
                  (access mode disposition control transcript) transcript_label)
    commit_seq.

Definition search_only_control : SessionControlFacts :=
  ControlFacts Unowned NotApplicable None None None None None None
    (Actions (unavailable "not_console") (unavailable "search_only") (unavailable "search_only")
             (unavailable "search_only") (unavailable "search_only") (unavailable "search_only")).

(** The optional arguments that both builders take, beside the session. *)
Record row_inputs : Type := Inputs {
  ri_launch_state : option string;
  ri_launch_error_code : option string;
  ri_launch_error_message : option string;
  ri_execution_lifetime : option string;
  ri_last_activity_at : option datetime;
  ri_has_visible_transcript_preview : bool;
  ri_has_pending_response_turn : bool;
  ri_user_messages : Z;
  ri_assistant_messages : Z;
  ri_archive_state : option string;
  ri_pause_request : option pause_request;
}.

(** [build_archive_session_state_facts]. *)
Definition build_archive_session_state_facts (session : SessionRow) (c : KernelSessionCapabilities) (i : row_inputs) :
    SessionStateFacts :=
  assemble_session_state_facts (mode_of session (ri_execution_lifetime i) c) (disposition_of session None)
    (launch_of (ri_launch_state i) (ri_launch_error_code i) (ri_launch_error_message i)) None unknown_activity
    search_only_control (interaction_of (ri_pause_request i))
    (transcript_of session (ri_has_visible_transcript_preview i) (ri_has_pending_response_turn i)
       (ri_user_messages i) (ri_assistant_messages i) (ri_archive_state i) false None None None None)
    (HostFacts HUnknown None) None (se_last_console_result_at session) (se_last_console_result_outcome session)
    (se_last_read_at session).

Definition host_state_of (state : string) : HostState :=
  let s := clean (Some state) in
  if opt_is s "online" then HOnline else if opt_is s "stale" then HStale
  else if opt_is s "offline" then HOffline else HUnknown.

(** [build_session_state_facts]. *)
Definition build_session_state_facts (session : SessionRow) (view : option SessionRuntimeView)
    (c : KernelSessionCapabilities) (liveness : option SessionLivenessFacts) (i : row_inputs) (now : datetime) :
    SessionStateFacts :=
  let current_now := normalized_now now in
  let liveness := match liveness with
                  | Some l => l
                  | None => build_session_liveness_facts view c (ri_last_activity_at i) None None None None current_now
                  end in
  let disposition := disposition_of session view in
  let activity := activity_of view in
  let launch := launch_of (ri_launch_state i) (ri_launch_error_code i) (ri_launch_error_message i) in
  let mode := mode_of session (ri_execution_lifetime i) c in
  let run := run_of session view c liveness activity launch mode in
  let control := if bool_decide (mode = ConsoleMode) then console_control_of c
                 else control_of c liveness current_now in
  assemble_session_state_facts mode disposition launch run activity control (interaction_of (ri_pause_request i))
    (transcript_of session (ri_has_visible_transcript_preview i) (ri_has_pending_response_turn i)
       (ri_user_messages i) (ri_assistant_messages i) (ri_archive_state i)
       (ri_has_visible_transcript_preview i || kc_observe_only c) None None None None)
    (HostFacts (host_state_of (ho_state (sl_host liveness))) (normalize_utc (ho_last_seen_at (sl_host liveness))))
    None (se_last_console_result_at session) (se_last_console_result_outcome session) (se_last_read_at session).

(** ** Laws *)

#[local] Arguments str_in : simpl never.
#[local] Arguments opt_in : simpl never.
#[local] Arguments opt_is : simpl never.

Definition key_of (l : option SessionPresentationLabel) : option string := pl_key <$> l.

Lemma primary_of_activity_key a l : primary_of_activity a = Some l → pl_key l ∈ PRIMARY_PRESENTATION_KEYS.
Proof. unfold primary_of_activity. destruct (ac_state a); intros [= <-]; apply str_in_spec; reflexivity. Qed.

Lemma primary_of_run_key m r a c l : primary_of_run m r a c = Some l → pl_key l ∈ PRIMARY_PRESENTATION_KEYS.
Proof.
  unfold primary_of_run. intros H; apply str_in_spec; repeat case_match; simplify_eq; reflexivity.
Qed.

Lemma primary_key m d la r a c i l : primary m d la r a c i = Some l → pl_key l ∈ PRIMARY_PRESENTATION_KEYS.
Proof.
  unfold primary. set (failed := match la with Some _ => _ | None => _ end).
  repeat (case_match; [intros [= <-]; apply str_in_spec; reflexivity|]).
  destruct i as [i|]; [case_match; intros [= <-]; apply str_in_spec; reflexivity|].
  destruct (primary_of_activity a) as [l'|] eqn:E; [|by apply primary_of_run_key].
  intros [= <-]. by apply primary_of_activity_key in E.
Qed.

(** The keys [_console_access] and the ladder of [_access] can produce. *)
Definition CONSOLE_ACCESS_KEYS : list string :=
  ["live_control"; "machine_offline"; "console_no_turn_path"; "console_no_target"]%string.
Definition HELM_ACCESS_KEYS : list string :=
  ["live_control"; "reattach"; "control_degraded"; "control_unknown"; "observe_only"; "search_only"]%string.

Lemma console_access_key c l : console_access c = Some l → pl_key l ∈ CONSOLE_ACCESS_KEYS.
Proof. unfold console_access. intros H; apply str_in_spec; repeat case_match; simplify_eq; reflexivity. Qed.

Lemma access_key m d c t l :
  access m d c t = Some l →
  di_state d = DOpen ∧
  pl_key l ∈ (if bool_decide (m = ConsoleMode) && bool_decide (ct_ownership c = Owned)
              then CONSOLE_ACCESS_KEYS else HELM_ACCESS_KEYS).
Proof.
  unfold access. destruct (di_state d); [|done]. simpl.
  destruct (bool_decide (m = ConsoleMode) && bool_decide (ct_ownership c = Owned)).
  { intros H. split; [done|]. by apply (console_access_key c). }
  set (helm := HELM_ACCESS_KEYS). intros H; split; [done|].
  destruct (bool_decide (ct_ownership c = Owned)), (bool_decide (ct_connection c = Connected)); simpl in H;
    repeat case_match; simplify_eq; try (apply str_in_spec; reflexivity).
Qed.

(** whatever the axes say, every label the policy emits carries a key
    the manifest publishes; the primary label says closed exactly for a closed
    session; a closed session shows no access label and belongs to history; and
    three published access keys are never emitted. *)
Theorem presentation_keys_are_published mode d launch run activity control i transcript host seq result outcome read :
  let facts := assemble_session_state_facts mode d launch run activity control i transcript host seq result outcome read in
  let p := sf_presentation facts in
  (∀ l, pr_primary p = Some l → pl_key l ∈ PRIMARY_PRESENTATION_KEYS) ∧
  (∀ l, pr_access p = Some l → pl_key l ∈ ACCESS_PRESENTATION_KEYS ∧
     pl_key l ∉ ["closed"; "control_disconnected"; "read_only"]%string) ∧
  (∀ l, pr_transcript p = Some l → pl_key l ∈ TRANSCRIPT_PRESENTATION_KEYS) ∧
  (key_of (pr_primary p) = Some "closed"%string ↔ di_state d = DClosed) ∧
  (di_state d = DClosed → pr_access p = None ∧ sf_working_set facts = History).
Proof.
  intros facts p. split_and!.
  - intros l. apply primary_key.
  - intros l [_ Hl]%access_key. revert Hl. generalize (pl_key l). intros k Hk.
    assert (k ∈ CONSOLE_ACCESS_KEYS ++ HELM_ACCESS_KEYS) as Hin
      by (case_match; apply elem_of_app; auto).
    assert (Forall (λ k, k ∈ ACCESS_PRESENTATION_KEYS ∧ k ∉ ["closed"; "control_disconnected"; "read_only"]%string)
              (CONSOLE_ACCESS_KEYS ++ HELM_ACCESS_KEYS)) as Hall
      by (apply (bool_decide_unpack _); vm_compute; exact I).
    by apply (proj1 (Forall_forall _ _) Hall).
  - simpl. intros l; case_match; [|done]. intros [= <-]. left.
  - simpl. unfold primary. destruct (di_state d); [|done]. simpl. split; [|done]. intros H. exfalso.
    repeat case_match; simplify_eq; unfold primary_of_activity, primary_of_run in *; repeat case_match; by simplify_eq.
  - simpl. unfold access, working_set. by intros ->.
Qed.

(** A session is in the open working set exactly when it is not closed and
    something was observed that the user is carrying: a Console turn under way,
    a pending interaction, an agent thinking or executing, or an attached
    terminal.  Control capability alone (connection, lease, granted actions)
    never puts a session there. *)
Theorem working_set_follows_observations mode d launch run activity control i transcript host seq result outcome read :
  sf_working_set (assemble_session_state_facts mode d launch run activity control i transcript host seq result
                                               outcome read) = OpenSet ↔
  di_state d = DOpen ∧
  ((mode = ConsoleMode ∧ ∃ r, run = Some r ∧ (ru_lifecycle r = RStarting ∨ ru_lifecycle r = RRunning)) ∨
   is_Some i ∨ ac_state activity = AThinking ∨ ac_state activity = AExecuting ∨
   ct_terminal_attached control = Some true).
Proof.
  simpl. unfold working_set, lifecycle_is. destruct (di_state d); simpl; [|naive_solver].
  destruct run as [r|]; [|rewrite andb_false_r];
    repeat case_match; repeat match goal with H : _ && _ = true |- _ => apply andb_true_iff in H as [? ?] end;
    repeat rewrite ?orb_true_iff, ?orb_false_iff, ?andb_false_iff, ?bool_decide_eq_true, ?bool_decide_eq_false in *;
    naive_solver.
Qed.

(** *** Control actions *)

Lemma operation_available available ownership connection fallback allow :
  aa_state (operation available ownership connection fallback allow) = Available ↔
  available = true ∧ (connection = Connected ∨ (allow = true ∧ connection = Disconnected)).
Proof.
  unfold operation. destruct available; simpl.
  - destruct connection, allow; simpl; unfold action_unavailable_reason; destruct ownership; simpl; naive_solver.
  - unfold action_unavailable_reason. destruct ownership, connection; simpl; naive_solver.
Qed.

Lemma operation_reason available ownership connection fallback allow :
  aa_reason (operation available ownership connection fallback allow) = None ↔
  aa_state (operation available ownership connection fallback allow) = Available.
Proof.
  unfold operation, action_unavailable_reason. destruct (available && _); simpl; [done|].
  destruct ownership, connection; done.
Qed.

(** The lease of a control observation has passed. *)
Definition lease_expired (liveness : SessionLivenessFacts) (now : datetime) : Prop :=
  ∃ e, normalize_utc (co_expires_at (sl_control liveness)) = Some e ∧ instant e ≤ instant now.

Lemma connection_owned c :
  ownership_of c = Owned ↔
  kc_control_owned c = true ∨ kc_live_control_available c = true ∨ kc_host_reattach_available c = true.
Proof.
  unfold ownership_of. destruct (kc_control_owned c), (kc_live_control_available c), (kc_host_reattach_available c);
    naive_solver.
Qed.

Lemma connection_expired c liveness now :
  lease_expired liveness now → ct_ownership (control_of c liveness now) = Owned →
  ct_connection (control_of c liveness now) = ConnUnknown.
Proof.
  intros (e & He & Hle) Ho. simpl in *. rewrite Ho, He. unfold connection_of, dt_le.
  by assert ((instant e <=? instant now) = true) as -> by lia.
Qed.

Lemma connection_unowned c liveness now :
  ct_ownership (control_of c liveness now) = Unowned ↔
  ct_connection (control_of c liveness now) = NotApplicable.
Proof.
  simpl. unfold connection_of. destruct (ownership_of c); [|done]. repeat case_match; done.
Qed.

(** The lease-bound actions of a Helm session with the grant each needs. *)
Definition lease_actions (c : KernelSessionCapabilities) (a : SessionControlActions) :
    list (SessionActionAvailability * bool * bool) :=
  let live := kc_live_control_available c in
  let reattach := kc_host_reattach_available c && negb live in
  [(ca_send_input a, kc_can_send_input c && live, false);
   (ca_interrupt a, kc_can_interrupt c && live, false);
   (ca_terminate a, kc_can_terminate c && live, false);
   (ca_reattach a, reattach, true);
   (ca_resume a, kc_can_resume c && (live || reattach), true)].

(** outside Console an action is available exactly when the kernel grants
    it and the connection is up, reattach and resume also when it is down; an
    action carries a reason exactly when it is not available; and once the
    lease has expired the connection of an owned session is unknown and every
    lease-bound action is gone. *)
Theorem lease_actions_need_grant_and_connection c liveness now a grant when_down :
  (a, grant, when_down) ∈ lease_actions c (ct_actions (control_of c liveness now)) →
  let connection := ct_connection (control_of c liveness now) in
  (aa_state a = Available ↔
     grant = true ∧ (connection = Connected ∨ (when_down = true ∧ connection = Disconnected))) ∧
  (aa_reason a = None ↔ aa_state a = Available) ∧
  (lease_expired liveness now → aa_state a ≠ Available) ∧
  (lease_expired liveness now → ct_ownership (control_of c liveness now) = Owned → connection = ConnUnknown).
Proof.
  intros Hin connection.
  assert ((aa_state a = Available ↔
     grant = true ∧ (connection = Connected ∨ (when_down = true ∧ connection = Disconnected))) ∧
     (aa_reason a = None ↔ aa_state a = Available)) as [Ha Hr].
  { unfold lease_actions in Hin. simpl in Hin.
    repeat (apply elem_of_cons in Hin as [[= -> -> ->]|Hin]; [split; [apply operation_available|apply operation_reason]|]).
    set_solver. }
  split_and!; [done|done| |apply connection_expired].
  intros He Hav. apply Ha in Hav as [_ Hc]. unfold connection in Hc.
  destruct (ct_ownership (control_of c liveness now)) eqn:Ho.
  - rewrite (connection_expired c liveness now He Ho) in Hc. naive_solver.
  - apply connection_unowned in Ho. rewrite Ho in Hc. naive_solver.
Qed.

(** *** Console *)

Lemma start_blocker_cases closed target online adapter :
  start_blocker closed target online adapter =
  if closed then Some "session_closed"%string else if target then
    (if online then (if adapter then None else Some "adapter_unavailable"%string) else Some "machine_offline"%string)
  else Some "execution_target_missing"%string.
Proof. by destruct closed, target, online, adapter. Qed.

(** A Console session answers in Console terms: starting a turn and
    interrupting one are the only actions it can offer, it never carries a
    lease, and its access label names the first blocker that applies (closed
    shows nothing, then target, machine, adapter) whatever the kernel says of
    the session's connections. *)
Theorem console_access_names_the_blocker c closed target turn_state online adapter interrupt_adapter d transcript :
  let control := console_control_of (project_console_turn_capabilities c closed target turn_state online adapter
                                                                       interrupt_adapter) in
  let actions := ct_actions control in
  (di_state d = DOpen →
   key_of (access ConsoleMode d control transcript) =
   if closed then None
   else Some (if negb target then "console_no_target" else if negb online then "machine_offline"
              else if negb adapter then "console_no_turn_path" else "live_control")%string) ∧
  (aa_state (ca_start_turn actions) = Available ↔ closed = false ∧ target = true ∧ online = true ∧ adapter = true) ∧
  (aa_state (ca_interrupt actions) = Available ↔
     turn_state_of turn_state ∈ EXECUTION_STATES ∧ online = true ∧ interrupt_adapter = true) ∧
  Forall (λ a, aa_state a = Unavailable)
         [ca_send_input actions; ca_terminate actions; ca_reattach actions; ca_resume actions] ∧
  ct_lease_generation control = None ∧ ct_valid_until control = None ∧ ct_connection control ≠ ConnUnknown.
Proof.
  intros control actions. unfold actions, control, console_control_of, project_console_turn_capabilities,
    project_console_control. cbn [default kc_console_control ct_actions ca_start_turn ca_interrupt ca_send_input
    ca_terminate ca_reattach ca_resume ct_lease_generation ct_valid_until ct_connection cc_start_turn_blocked_by
    cc_can_start_turn cc_can_interrupt_active_turn]. rewrite !start_blocker_cases.
  split_and!.
  - intros Hd. unfold access. rewrite Hd. by destruct closed, target, online, adapter.
  - destruct closed, target, online, adapter; simpl; naive_solver.
  - rewrite <- str_in_spec. destruct (str_in _ EXECUTION_STATES), online, interrupt_adapter; simpl; naive_solver.
  - repeat constructor.
  - done.
  - done.
  - unfold connection. simpl. by destruct online, adapter.
Qed.

(** *** Archived sessions *)

(** An archived session is projected without inventing runtime truth: no
    action is available, control is unowned and not applicable, activity and
    host are unknown and there is no run; unless it is closed, failed to launch
    or is waiting on the user it has no primary label, and the only access
    label it can carry is search only, exactly when its transcript is
    searchable. *)
Theorem archive_invents_nothing session c i :
  let facts := build_archive_session_state_facts session c i in
  let actions := ct_actions (sf_control facts) in
  Forall (λ a, aa_state a = Unavailable)
         [ca_start_turn actions; ca_send_input actions; ca_interrupt actions; ca_terminate actions;
          ca_reattach actions; ca_resume actions] ∧
  sf_run facts = None ∧ ac_state (sf_activity facts) = AUnknown ∧
  (∀ l, pr_primary (sf_presentation facts) = Some l →
     pl_key l ∈ ["closed"; "launch_failed"; "needs_answer"; "needs_approval"]%string) ∧
  (key_of (pr_access (sf_presentation facts)) = Some "search_only"%string ↔
     di_state (sf_disposition facts) = DOpen ∧ tr_searchable (sf_transcript facts) = true) ∧
  (∀ l, pr_access (sf_presentation facts) = Some l → pl_key l = "search_only"%string) ∧
  (sf_working_set facts = OpenSet ↔
     di_state (sf_disposition facts) = DOpen ∧ sf_pending_interaction facts ≠ None).
Proof.
  intros facts actions. unfold facts, actions, build_archive_session_state_facts, assemble_session_state_facts.
  set (d := disposition_of session None). set (la := launch_of _ _ _). set (pi := interaction_of _).
  set (tr := transcript_of _ _ _ _ _ _ _ _ _ _ _).
  cbn [sf_control sf_run sf_activity sf_presentation sf_disposition sf_transcript sf_working_set
       sf_pending_interaction pr_primary pr_access ct_actions search_only_control].
  assert (tr_live_observation tr = false) as Hlive by done. clearbody tr.
  split_and!; [repeat constructor|done|done|..].
  - unfold primary, primary_of_activity, primary_of_run. simpl. rewrite andb_false_r. simpl.
    intros l H. apply str_in_spec. repeat case_match; simplify_eq; reflexivity.
  - unfold access. simpl. rewrite andb_false_r, Hlive. simpl. destruct (di_state d), (tr_searchable tr); simpl; naive_solver.
  - unfold access. simpl. rewrite andb_false_r, Hlive. simpl. intros l H. repeat case_match; by simplify_eq.
  - unfold working_set, lifecycle_is. simpl. rewrite andb_false_r. destruct (di_state d), pi; simpl; naive_solver.
Qed.

(** *** From rows to the composer *)

(** A granted send of a kernel payload, traced to the rows. *)
Lemma payload_send_backed reg sid thread latest_run connections now :
  let c := payload_from_rows reg sid thread latest_run connections now in
  kc_can_send_input c && kc_live_control_available c = true →
  ∃ r conn, latest_run = Some r ∧ sr_ended_at r = None ∧ select_best_connection connections now = Some conn ∧
    strip (or_empty (sc_acquisition_kind conn)) ∈ CONTROL_ACQUISITION_KINDS ∧ confirmed conn now ∧
    sc_can_send_input conn ≠ 0 ∧ control_plane_supports reg (sc_control_plane conn) "send_input" = true.
Proof.
  unfold payload_from_rows. destruct thread as [t|]; [|done]. destruct latest_run as [r|]; [|done].
  destruct (select_best_connection connections now) as [conn|] eqn:E; [|done].
  cbn [payload kc_can_send_input kc_live_control_available]. rewrite !andb_true_iff.
  intros [[[Hbit _] Hs] (_ & _ & He & c & [= <-] & Hk & Hc)%label_live]. exists r, conn. split_and!; try done.
  - apply bool_decide_eq_false in He. by destruct (sr_ended_at r); [destruct He|].
  - apply negb_true_iff, Z.eqb_neq in Hbit. done.
Qed.

(** C28: end to end, from the kernel rows to the action every client reads: a
    session outside Console offers to send input only if its latest run has not
    ended, its best connection is a control path that Longhouse spawned or
    adopted, an observer confirmed that connection within the lease, the
    connection carries the send bit, the contract of its control plane supports
    sending, and the control lease on record has not expired. *)
Theorem offered_send_is_backed_end_to_end reg sid thread latest_run connections clock session view liveness i now :
  let c := payload_from_rows reg sid thread latest_run connections clock in
  let facts := build_session_state_facts session view c (Some liveness) i now in
  sf_mode facts ≠ ConsoleMode →
  aa_state (ca_send_input (ct_actions (sf_control facts))) = Available →
  ¬ lease_expired liveness now ∧
  ∃ r conn, latest_run = Some r ∧ sr_ended_at r = None ∧ select_best_connection connections clock = Some conn ∧
    strip (or_empty (sc_acquisition_kind conn)) ∈ CONTROL_ACQUISITION_KINDS ∧ confirmed conn clock ∧
    sc_can_send_input conn ≠ 0 ∧ control_plane_supports reg (sc_control_plane conn) "send_input" = true.
Proof.
  intros c facts Hmode. unfold facts, build_session_state_facts, assemble_session_state_facts in *.
  cbn [sf_mode sf_control] in *. rewrite bool_decide_eq_false_2 by done.
  set (now' := normalized_now now) in *.
  assert (instant now' = instant now) as Hnow by apply instant_normalized_now.
  intros Hav. change (ca_send_input _) with (operation (kc_can_send_input c && kc_live_control_available c)
    (ct_ownership (control_of c liveness now')) (ct_connection (control_of c liveness now'))
    (clean (kc_staleness_reason c)) false) in Hav.
  apply operation_available in Hav as [Hgrant Hconn]. split; [|by apply (payload_send_backed reg sid thread)].
  intros (e & He & Hle). rewrite <- Hnow in Hle.
  destruct (ct_ownership (control_of c liveness now')) eqn:Ho.
  - rewrite connection_expired in Hconn; [naive_solver| |done]. by exists e.
  - apply connection_unowned in Ho. rewrite Ho in Hconn. naive_solver.
Qed.

Lemma activity_of_stale state session now :
  (∀ e, normalize_utc (rs_freshness_expires_at state) = Some e → instant e ≤ instant now) →
  ac_state (activity_of (Some (build_runtime_view state session now))) = AUnknown.
Proof.
  intros Hstale. unfold activity_of. cbn [ac_state].
  assert (opt_is (rv_confidence (build_runtime_view state session now)) "live" = false) as ->; [|by case_match].
  cbn [build_runtime_view rv_confidence]. apply not_true_is_false. intros H%opt_is_spec. injection H as H.
  apply confidence_live in H as (e & He & Hlt). specialize (Hstale e He). rewrite instant_normalized_now in Hlt. lia.
Qed.

(** End to end, from stored runtime state to the label: once the evidence
    of a state has expired (or it never carried a deadline) the session's
    activity is unknown and its primary label claims no thinking, stalled,
    blocked or idle agent; it says executing only for a Console turn that the
    kernel reports under way, never from the expired phase. *)
Theorem expired_evidence_shows_no_activity state session c liveness i now :
  (∀ e, normalize_utc (rs_freshness_expires_at state) = Some e → instant e ≤ instant now) →
  let facts := build_session_state_facts session (Some (build_runtime_view state session now)) c liveness i now in
  ac_state (sf_activity facts) = AUnknown ∧
  (∀ l, pr_primary (sf_presentation facts) = Some l →
     pl_key l ∉ ["thinking"; "stalled"; "blocked"; "idle"]%string ∧
     (pl_key l = "executing"%string → sf_mode facts = ConsoleMode ∧ lifecycle_is (sf_run facts) RRunning = true)) ∧
  (sf_working_set facts = OpenSet → sf_mode facts = ConsoleMode ∨ sf_pending_interaction facts ≠ None).
Proof.
  intros Hstale%(activity_of_stale state session now) facts.
  unfold facts, build_session_state_facts, assemble_session_state_facts.
  set (act := activity_of _) in *. set (mode := mode_of _ _ _). set (d := disposition_of _ _).
  set (l := match liveness with Some _ => _ | None => _ end). set (la := launch_of _ _ _).
  set (run := run_of _ _ _ _ _ _ _). set (ctl := if bool_decide (mode = ConsoleMode) then _ else _).
  set (pi := interaction_of _). cbn [sf_activity sf_presentation sf_mode sf_run sf_working_set sf_pending_interaction pr_primary].
  assert (ct_terminal_attached ctl = None) as Hterm by (unfold ctl; by case_match).
  clearbody act mode d la run ctl pi. split_and!; [done|..].
  - intros lbl. unfold primary, primary_of_activity. rewrite Hstale.
    unfold primary_of_run, lifecycle_is. rewrite Hstale.
    destruct run as [r|]; [destruct (ru_lifecycle r), (decide (mode = ConsoleMode))|]; intros H;
      repeat case_match; simplify_eq; simpl in *; (split; [by apply (bool_decide_unpack _)|]); try done;
      intros _; match goal with H : _ && _ = true |- _ => apply andb_true_iff in H as [?%bool_decide_eq_true ?] end; done.
  - unfold working_set. rewrite Hstale, Hterm. simpl.
    destruct (bool_decide (di_state d = DClosed)); [done|].
    destruct (decide (mode = ConsoleMode)) as [->|Hm]; [by left|]. rewrite bool_decide_eq_false_2 by done. simpl.
    destruct pi; [by right|done].
Qed.

(** *** Transcript convergence *)

(** A transcript called current is not behind: no known revision is ahead
    of a later stage's, and unless a preview is on screen every user message
    has its answer and no response is pending; and an empty control-only shell,
    with nothing yet to catch up on, is never reported as lagging. *)
Theorem current_transcript_is_not_behind session preview pending users assistants archive live source durable render at_ :
  let t := transcript_of session preview pending users assistants archive live source durable render at_ in
  (tr_convergence t = Current →
     (∀ s d, source = Some s → durable = Some d → s ≤ d) ∧ (∀ s r, source = Some s → render = Some r → s ≤ r) ∧
     (∀ d r, durable = Some d → render = Some r → d ≤ r) ∧
     (preview = false → pending = false ∧ users ≤ assistants)) ∧
  (users = 0 → assistants = 0 → pending = false → preview = false → se_transcript_revision session = None →
     Forall (λ v, default 0 v = 0) [source; durable; render] → tr_convergence t ≠ Lagging).
Proof.
  intros t. unfold t, transcript_of. cbn [tr_convergence]. split.
  - set (lag := behind source durable || behind source render || behind durable render).
    intros H.
    assert (lag = false ∧ (preview = false → pending = false ∧ users ≤ assistants)) as [Hl Hp].
    { destruct lag; [done|]. simpl in H. split; [done|]. intros ->. destruct pending; simpl in H.
      - rewrite orb_true_r in H. done.
      - destruct (Z.ltb_spec assistants users); [by rewrite orb_true_r in H|done]. }
    unfold lag in Hl. rewrite !orb_false_iff in Hl. destruct Hl as [[H1 H2] H3].
    split_and!; [..|done]; intros x y -> ->; simpl in *; lia.
  - intros -> -> -> -> Hrev [H1 [H2 [H3 _]%Forall_cons]%Forall_cons]%Forall_cons. rewrite Hrev.
    assert (behind source durable || behind source render || behind durable render = false) as ->.
    { rewrite !orb_false_iff. split_and!; destruct source, durable, render; simpl in *; subst; done. }
    assert (existsb (λ v, 0 <? v) (omap id [source; durable; render]) = false) as ->.
    { destruct source, durable, render; simpl in *; subst; reflexivity. }
    simpl. rewrite ?andb_false_r. simpl. repeat case_match; done.
Qed.
