(* ===== verification/SendAffordance.v ===== *)
(** * The send affordance

    Models [src/server/zerg/services/send_affordance.py]: whether the user can
    type into a session, what the primary send action does, and why it is
    disabled. *)

From S2P Require Import Prelude PyStr PyTime PyValue ConsoleControl ProviderContracts Capabilities.

Open Scope list_scope.

Inductive InputMode : Type := ModeLive | ModeConsole | ModeOffline | ModeReadOnly.
Inductive InputIntent : Type := IntentAuto | IntentSteer | IntentQueue | IntentNone.
Inductive SendDisabledReason : Type := SessionClosed | ControlOffline | InputNotSupported | ReadOnly.

#[export] Instance input_mode_eq_dec : EqDecision InputMode. Proof. solve_decision. Defined.
#[export] Instance intent_eq_dec : EqDecision InputIntent. Proof. solve_decision. Defined.
#[export] Instance disabled_eq_dec : EqDecision SendDisabledReason. Proof. solve_decision. Defined.

Definition OFFLINE_HOST_STATES : list string := ["stale"; "offline"; "lost"; "unknown"]%string.
Definition DEFAULT_PLACEHOLDER : string := "Type a message...".

Record SendAffordance : Type := Affordance {
  af_input_mode : InputMode;
  af_default_input_intent : InputIntent;
  af_composer_enabled : bool;
  af_composer_placeholder : string;
  af_composer_disabled_reason : option string;
  af_send_disabled_reason : option SendDisabledReason;
}.

(** [_provider_session_label]. *)
Definition provider_session_label (provider_label : option string) : string :=
  let provider := default "session"%string (clean provider_label) in
  if endswith (lower provider) "session" then provider else (provider +:+ " session")%string.

(** [_disabled]. *)
Definition disabled (mode : InputMode) (reason : SendDisabledReason) (copy : string) : SendAffordance :=
  Affordance mode IntentNone false DEFAULT_PLACEHOLDER (Some copy) (Some reason).

(** [_control_offline_reason]. *)
Definition control_offline_reason (provider_session : string) : string :=
  ("Longhouse can see this " +:+ provider_session +:+
   ", but cannot send prompts until the engine reconnects.")%string.

(** The Console branch of [project_send_affordance]. *)
Definition console_affordance (can_start_turn : bool) (start_turn_blocked_by : option string) : SendAffordance :=
  if can_start_turn then Affordance ModeConsole IntentAuto true "Message this coding agent" None None
  else
    let closed := opt_is (opt_or start_turn_blocked_by (Some "read_only"%string)) "session_closed" in
    disabled ModeReadOnly (if closed then SessionClosed else InputNotSupported)
             (if closed then "This session is closed." else "Console execution is unavailable.")%string.

(** [project_send_affordance]. *)
Definition project_send_affordance (reg : registry) (c : KernelSessionCapabilities) (read_only_reason : string)
    (provider_label session_mode lifecycle : option string) (is_executing : bool) (host_state : option string)
    (can_start_turn : bool) (start_turn_blocked_by : option string) : SendAffordance :=
  let provider_session := provider_session_label provider_label in
  if opt_is session_mode "console" then console_affordance can_start_turn start_turn_blocked_by
  else if opt_is lifecycle "closed" then disabled ModeReadOnly SessionClosed read_only_reason
  else
    let runtime_offline := str_in (lower (strip (or_empty host_state))) OFFLINE_HOST_STATES in
    let live := kc_live_control_available c && negb runtime_offline in
    let has_managed_control_path := kc_live_control_available c || kc_host_reattach_available c in
    if live && kc_can_send_input c then
      let intent := if can_steer_active_turn reg c && is_executing then IntentSteer
                    else if is_executing then IntentQueue else IntentAuto in
      Affordance ModeLive intent true ("Send a message to the live " +:+ provider_session +:+ "...")%string None None
    else if (runtime_offline && has_managed_control_path) || (negb live && kc_host_reattach_available c) then
      disabled ModeOffline ControlOffline (control_offline_reason provider_session)
    else if live then
      disabled ModeReadOnly InputNotSupported
        ("This live " +:+ provider_session +:+ " is connected, but this control path cannot accept typed input.")%string
    else disabled ModeReadOnly ReadOnly read_only_reason.

(** ** Laws *)

#[local] Arguments str_in : simpl never.
#[local] Arguments opt_is : simpl never.

Definition host_offline (host_state : option string) : Prop :=
  lower (strip (or_empty host_state)) ∈ OFFLINE_HOST_STATES.

(** The composer's three answers agree: it is enabled exactly when no
    reason is given, exactly when the primary action has an intent; outside
    Console it is enabled exactly when the session is not closed, control is
    live on a host not known to be offline, and the kernel grants input; and
    then it steers only an executing turn that the control plane can steer,
    and queues behind an executing turn otherwise. *)
Theorem composer_answers_agree reg c reason label mode lifecycle executing host can_start blocked :
  let a := project_send_affordance reg c reason label mode lifecycle executing host can_start blocked in
  (af_composer_enabled a = true ↔ af_send_disabled_reason a = None) ∧
  (af_composer_enabled a = true ↔ af_default_input_intent a ≠ IntentNone) ∧
  (af_composer_enabled a = true ↔ af_composer_disabled_reason a = None) ∧
  (mode = Some "console"%string → (af_composer_enabled a = true ↔ can_start = true)) ∧
  (mode ≠ Some "console"%string →
     (af_composer_enabled a = true ↔
        lifecycle ≠ Some "closed"%string ∧ kc_live_control_available c = true ∧ ¬ host_offline host ∧
        kc_can_send_input c = true) ∧
     (af_default_input_intent a = IntentSteer →
        executing = true ∧ strip (or_empty (kc_control_plane c)) ∈ steer_control_planes reg) ∧
     (af_default_input_intent a = IntentAuto → executing = false) ∧
     (af_send_disabled_reason a = Some ControlOffline →
        kc_live_control_available c = true ∨ kc_host_reattach_available c = true)).
Proof.
  intros a. unfold a, project_send_affordance, console_affordance, host_offline.
  rewrite <- str_in_spec, <- opt_is_spec. setoid_rewrite <- opt_is_spec.
  assert (∀ b : bool, b = false → b ≠ true) as Hb by by intros ? ->.
  destruct (opt_is mode "console"); [destruct can_start; simpl; intuition congruence|].
  destruct (opt_is lifecycle "closed"); [simpl; intuition congruence|].
  unfold can_steer_active_turn. rewrite <- str_in_spec.
  destruct (str_in (lower (strip (or_empty host))) OFFLINE_HOST_STATES), (kc_live_control_available c),
    (kc_host_reattach_available c), (kc_can_send_input c); simpl; try (intuition congruence);
    destruct (str_in _ (steer_control_planes reg)), executing; simpl; intuition congruence.
Qed.
