(* ===== verification/StateProjector.v ===== *)
(** * Session state from catalog facts

    Models [src/server/zerg/services/session_state_facts_projector.py]: the
    reducer heads that a session's projection may rest on, the axes projected
    from them and from the durable catalog facts, and the authorization of one
    exact control subject.

    A head is a row of the table of [FactStore]; its callers pass it as read
    ([table_row]) or through the catalog's wire form ([catalog_wire]), which
    differ in the time column alone.  [catalog_facts] is the decoded JSON of a
    catalog snapshot. *)

From S2P Require Import Prelude PyStr PyTime PyValue Sha256 MachineEvidence PyJson FactStore FactReducer FactReads.
From S2P Require Import ConsoleControl ProviderContracts Capabilities RuntimeView Liveness StateContract SessionState.

Open Scope list_scope.
Open Scope Z_scope.

Definition AUTHORITY_RANK : list (string * string) :=
  [("activity", "provider_runtime"); ("control", "provider_control"); ("continuation", "retained_launch_contract")]%string.

Definition ACTIVITY_STATE : list (string * ActivityState) :=
  [("thinking"%string, AThinking); ("running"%string, AExecuting); ("idle"%string, AQuiescent);
   ("needs_user"%string, AQuiescent); ("blocked"%string, ABlocked); ("stalled"%string, AStalled)].

Inductive head_form : Type := table_row | catalog_wire.

(** The value of a time: a column, or a JSON value. *)
Inductive raw_time : Type :=
  | TimeColumn (d : datetime)
  | TimeJson (v : pyval).

(** The tuple [(head, value, observed_at, valid_until)]. *)
Record winner : Type := Winner {
  w_head : head_entry;
  w_value : list (string * pyval);
  w_observed_at : datetime;
  w_valid_until : datetime;
}.

Record FactHeadDiagnostic : Type := HeadDiagnostic {
  fd_family : string;
  fd_subject_key : string;
  fd_source : string;
  fd_source_epoch : string;
  fd_evidence_hash : string;
  fd_observed_at : datetime;
  fd_valid_until : datetime;
  fd_updated_commit_seq : option Z;
}.

Record ShadowSessionStateProjection : Type := ShadowProjection {
  sp_commit_seq : Z;
  sp_mode : SessionMode;
  sp_disposition : SessionDispositionFacts;
  sp_launch : option SessionLaunchFacts;
  sp_run : option SessionRunFacts;
  sp_activity : SessionActivityFacts;
  sp_control : option SessionControlFacts;
  sp_control_run_id : option string;
  sp_fact_sources : list (string * FactHeadDiagnostic);
  sp_rejected_heads : Z;
  sp_rejected_activity_heads : Z;
  sp_rejected_control_heads : Z;
}.

Record ControlFactAuthorization : Type := Authorization {
  au_allowed : bool;
  au_reason : option string;
  au_control : option SessionControlFacts;
  au_run_id : option string;
}.

(** [a or b] on values. *)
Definition py_or (a b : pyval) : pyval := if truthy a then a else b.

(** [_aware]. *)
Definition aware_time (value : datetime) : res datetime :=
  if aware value then to_utc value else Err (ValueError "must include a timezone").

(** The catalog's operations whose grant a control fact may carry: a string
    list, sorted, unique and supported ([_validated_grants]). *)
Definition validated_grants (value : list (string * pyval)) : res (list string) :=
  match as_list (assoc "granted_operations" value) with
  | Some raw =>
      match mapM as_str raw with
      | Some grants =>
          if bool_decide (grants = py_sorted str_cmp (remove_dups grants))
             && forallb (λ o, str_in o GRANTED_OPERATIONS) grants
          then Ok grants
          else Err (ValueError "control granted_operations must be sorted, unique, and supported")
      | None => Err (ValueError "control granted_operations must be a string list")
      end
  | None => Err (ValueError "control granted_operations must be a string list")
  end.

(** The order of the candidates' keys. *)
Abbreviation head_key := (Z * Z * Z * list string)%type.

Definition head_key_cmp : head_key → head_key → comparison :=
  pair_cmp (pair_cmp (pair_cmp Z.compare Z.compare) Z.compare) strs_cmp.

#[export] Instance head_key_comparison : Comparison head_key_cmp.
Proof. unfold head_key_cmp. apply _. Qed.

(** [max(candidates, key=...)]: the first of the greatest. *)
Definition later_candidate {A} (best c : head_key * A) : head_key * A :=
  match head_key_cmp best.1 c.1 with Lt => c | _ => best end.

Definition max_candidate {A} (l : list (head_key * A)) : option (head_key * A) :=
  match l with [] => None | c :: l' => Some (fold_left later_candidate l' c) end.

Section Projector.
Context (float : string → pyval) (other_form : string → option datetime) (form : head_form).

(** [_wire_datetime]. *)
Definition wire_datetime (value : raw_time) : res datetime :=
  match value with
  | TimeColumn d => aware_time d
  | TimeJson (VStr s) =>
      match parse_iso other_form (replace_z s) with
      | Some d => aware_time d
      | None => Err (ValueError "must be an RFC3339 timestamp")
      end
  | TimeJson _ => Err (ValueError "must be an RFC3339 timestamp")
  end.

(** [_optional_wire_datetime]. *)
Definition optional_wire_datetime (value : pyval) : res (option datetime) :=
  if is_none value || eq_str value "" then Ok None
  else let! d := wire_datetime (TimeJson value) in Ok (Some d).

(** ** Heads *)

(** The [valid_until] column of a head, in the form it was passed. *)
Definition column_valid_until (h : FactHead) : raw_time :=
  match h_valid_until h with
  | None => TimeJson VNone
  | Some wall => match form with
                 | table_row => TimeColumn (sqlite_load wall)
                 | catalog_wire => TimeJson (VStr (naive_isoformat wall))
                 end
  end.

(** [_valid_until]. *)
Definition valid_until_of (family : string) (h : FactHead) (value : list (string * pyval)) (observed_at : datetime) :
    res datetime :=
  if String.eqb family "control" then
    match as_int (assoc "lease_ttl_ms" value) with
    | Some ttl_ms =>
        if ttl_ms <=? 0 then Err (ValueError "control lease_ttl_ms must be positive")
        else to_utc (dt_add observed_at (ms ttl_ms))
    | None => Err (ValueError "control lease_ttl_ms must be positive")
    end
  else
    let raw := assoc "valid_until" value in
    wire_datetime (if truthy raw then TimeJson raw else column_valid_until h).

(** The subject a value names, by family. *)
Definition expected_head_subject (family session_id : string) (value : list (string * pyval)) : res string :=
  if String.eqb family "activity" then
    match text (assoc "run_id" value) with
    | Some run_id => Ok ("run:" +:+ run_id)
    | None => Err (ValueError "activity run_id is missing")
    end
  else if String.eqb family "control" then
    match text (assoc "connection_id" value), text (assoc "lease_generation" value) with
    | Some connection_id, Some lease_generation =>
        let! _ := validated_grants value in Ok ("connection:" +:+ connection_id +:+ ":" +:+ lease_generation)
    | _, _ => Err (ValueError "control connection identity is missing")
    end
  else
    let! _ := check_hashable (assoc "contract_state" value) in
    if eq_str (assoc "contract_state" value) "valid" || eq_str (assoc "contract_state" value) "invalid"
    then Ok ("resume:" +:+ session_id)
    else Err (ValueError "continuation contract_state is invalid").

(** [_head_value]. *)
Definition head_value (kh : head_entry) (family session_id : string) : res (list (string * pyval)) :=
  let '(c, h) := kh in
  let! decoded := loads float (h_value_json h) in
  match decoded with
  | VDict value =>
      let! _ := guard (opt_is (h_session_id h) session_id)
                      (ValueError "fact head indexed session_id does not match the requested session") in
      let! _ := guard (eq_str (assoc "session_id" value) session_id)
                      (ValueError "fact head session_id does not match its value") in
      let! _ := guard (str_truthy (strip (cand_source c)) && eq_str (assoc "source" value) (cand_source c))
                      (ValueError "fact head source does not match its value") in
      let! computed := canonical_evidence_hash decoded in
      let! _ := guard (String.eqb computed (h_evidence_hash h))
                      (ValueError "fact head evidence_hash does not match its value") in
      let! expected := expected_head_subject family session_id value in
      let! _ := guard (String.eqb (cand_subject c) expected)
                      (ValueError "fact head subject_key does not match its value") in
      Ok value
  | _ => Err (ValueError "fact head value_json must contain an object")
  end.

(** The binding of [_effective_head]'s optional arguments. *)
Record head_query : Type := HeadQuery {
  q_session_id : string;
  q_family : string;
  q_expected_run_id : option string;
  q_require_run_binding : bool;
  q_allowed_control_coordinates : option (list (string * string * string));
  q_retain_expired : bool;
}.

Definition control_coordinate (run_id connection_id lease_generation : option string) : string * string * string :=
  (or_empty run_id, or_empty connection_id, or_empty lease_generation).

(** The body of the [try] of [_effective_head]: the rank of a head and what
    it says. *)
Definition evaluate_head (q : head_query) (kh : head_entry) : res (Z * winner) :=
  let family := q_family q in
  let! value := head_value kh family (q_session_id q) in
  let! rank := match as_str (assoc "authority_class" value) with
               | Some authority_class =>
                   if bool_decide ((family, authority_class) ∈ AUTHORITY_RANK) then Ok 1
                   else Err (ValueError "unsupported authority_class")
               | None => Err (ValueError "unsupported authority_class")
               end in
  let! observed_at := wire_datetime (TimeJson (assoc "observed_at" value)) in
  let! valid_until := valid_until_of family kh.2 value observed_at in
  let run_id := text (assoc "run_id" value) in
  let! _ := guard (negb (q_require_run_binding q
                         && (bool_decide (q_expected_run_id q = None)
                             || negb (bool_decide (run_id = q_expected_run_id q)))))
                  (ValueError "run_id is not bound to the durable latest run") in
  let! _ := match q_allowed_control_coordinates q with
            | Some coordinates =>
                let coordinate := control_coordinate run_id (text (assoc "connection_id" value))
                                    (text (assoc "lease_generation" value)) in
                guard (negb (String.eqb family "control") || bool_decide (coordinate ∈ coordinates))
                      (ValueError "control identity is not bound to a durable connection")
            | None => Ok tt
            end in
  Ok (rank, Winner kh value observed_at valid_until).

(** The exceptions that [except (TypeError, ValueError)] stops. *)
Definition rejects (e : exn) : bool :=
  match e with TypeError _ | ValueError _ => true | _ => false end.

Definition is_fresh (now : datetime) (w : winner) : bool := dt_lt now (w_valid_until w).

Definition stable_coordinate (kh : head_entry) : list string :=
  [cand_source kh.1; cand_epoch kh.1; h_evidence_hash kh.2].

Definition key_of_head (now : datetime) (rank : Z) (w : winner) : head_key :=
  (b2z (is_fresh now w), rank, instant (w_observed_at w), stable_coordinate (w_head w)).

(** One iteration over the heads. *)
Definition effective_step (q : head_query) (now : datetime) (st : list (head_key * winner) * Z) (kh : head_entry) :
    res (list (head_key * winner) * Z) :=
  let '(candidates, rejected) := st in
  if negb (String.eqb (cand_family kh.1) (q_family q)) then Ok st
  else
    match evaluate_head q kh with
    | Err e => if rejects e then Ok (candidates, rejected + 1) else Err e
    | Ok (rank, w) =>
        if negb (is_fresh now w) && negb (q_retain_expired q) then Ok st
        else Ok (candidates ++ [(key_of_head now rank w, w)], rejected)
    end.

(** [_effective_head]. *)
Definition effective_head (heads : list head_entry) (q : head_query) (now : datetime) : res (option winner * Z) :=
  let! '(candidates, rejected) := fold_res (effective_step q now) ([], 0) heads in
  Ok (snd <$> max_candidate candidates, rejected).

(** ** Durable facts *)

(** [_active_run_id]. *)
Definition active_run_id (catalog_facts : list (string * pyval)) : option string :=
  let latest_run := mapping (assoc "latest_run" catalog_facts) in
  if is_none (assoc "ended_at" latest_run) then text (assoc "id" latest_run) else None.

Definition bound_coordinate (connection : pyval) : option (string * string * string) :=
  let row := mapping connection in
  if negb (is_none (assoc "released_at" row)) then None
  else
    let '(run_id, connection_id, lease_generation) as coordinate :=
      control_coordinate (text (assoc "run_id" row)) (text (assoc "adapter_connection_id" row))
                         (text (assoc "lease_generation" row)) in
    if str_truthy run_id && str_truthy connection_id && str_truthy lease_generation then Some coordinate else None.

(** [_bound_control_coordinates]. *)
Definition bound_control_coordinates (catalog_facts : list (string * pyval)) : list (string * string * string) :=
  match assoc "connections" catalog_facts with VList connections => omap bound_coordinate connections | _ => [] end.

(** [_project_mode]. *)
Definition project_mode (catalog_facts : list (string * pyval)) : SessionMode :=
  let catalog := mapping (assoc "catalog" catalog_facts) in
  let execution_lifetime := text (assoc "execution_lifetime" (mapping (assoc "readiness" catalog_facts))) in
  let launch_origin := text (assoc "launch_origin" (mapping (assoc "latest_run" catalog_facts))) in
  let owns_control :=
    match assoc "connections" catalog_facts with
    | VList connections =>
        existsb (λ c, opt_in (text (assoc "acquisition_kind" (mapping c))) ["spawned_control"; "adopted_control"]%string)
                connections
    | _ => false
    end in
  if opt_is (text (assoc "origin_kind" catalog)) "console" || opt_is execution_lifetime "one_shot"
     || opt_in (text (assoc "launch_surface" catalog)) ["web"; "ios"; "api"]%string then ConsoleMode
  else if opt_is execution_lifetime "live_control" || owns_control
          || opt_in launch_origin ["longhouse_spawned"; "longhouse_continued"]%string then Helm
  else Shadow.

(** [_project_disposition]. *)
Definition project_disposition (catalog_facts : list (string * pyval)) : res SessionDispositionFacts :=
  let catalog := mapping (assoc "catalog" catalog_facts) in
  let! closed_at := optional_wire_datetime (assoc "closed_at" catalog) in
  match closed_at with
  | None => Ok (Disposition DOpen None None)
  | Some _ => Ok (Disposition DClosed closed_at
                    (opt_or (text (assoc "close_reason" catalog)) (Some "user_closed"%string)))
  end.

Definition CATALOG_LAUNCH_STATE : list (string * LaunchState) :=
  [("pending"%string, LPending); ("dispatched"%string, LDispatched); ("failed"%string, LFailed);
   ("adopted"%string, LAdopted); ("abandoned"%string, LAbandoned)].

(** [_project_launch]. *)
Definition project_launch (catalog_facts : list (string * pyval)) : option SessionLaunchFacts :=
  let readiness := mapping (assoc "readiness" catalog_facts) in
  raw_state ← text (assoc "state" readiness);
  state ← lookup_str raw_state CATALOG_LAUNCH_STATE;
  Some (LaunchFacts state (text (assoc "error_code" readiness)) (text (assoc "error_message" readiness))).

(** [_project_run]. *)
Definition project_run (catalog_facts : list (string * pyval)) (launch : option SessionLaunchFacts) :
    res (option SessionRunFacts) :=
  let run := mapping (assoc "latest_run" catalog_facts) in
  match text (assoc "id" run) with
  | None =>
      let starting := match launch with
                      | Some l => bool_decide (la_state l = LPending) || bool_decide (la_state l = LDispatched)
                      | None => false
                      end in
      if starting then
        let! started_at := optional_wire_datetime (assoc "started_at" (mapping (assoc "catalog" catalog_facts))) in
        Ok (Some (RunFacts None RStarting started_at None None))
      else Ok None
  | Some run_id =>
      let! started_at := optional_wire_datetime (assoc "started_at" run) in
      let! ended_at := optional_wire_datetime (assoc "ended_at" run) in
      let console_turn_state := text (assoc "turn_state" (mapping (assoc "console_control" catalog_facts))) in
      let lifecycle :=
        if bool_decide (ended_at = None) && bool_decide (project_mode catalog_facts = ConsoleMode) then
          if opt_in console_turn_state ["queued"; "starting"]%string then RStarting
          else if opt_in console_turn_state ["active"; "draining"]%string then RRunning
          else RRunning
        else if bool_decide (ended_at = None) then RRunning else REnded in
      Ok (Some (RunFacts (Some run_id) lifecycle started_at ended_at
                  (if bool_decide (ended_at = None) then None else text (assoc "exit_status" run))))
  end.

(** ** What a winning head says *)

(** [_project_activity]. *)
Definition project_activity (w : option winner) (now : datetime) : SessionActivityFacts :=
  match w with
  | None => unknown_activity
  | Some w =>
      let value := w_value w in
      let kind := assoc "kind" value in
      ActivityFacts
        (if is_fresh now w then default AUnknown (lookup_str (or_empty (str_or kind)) ACTIVITY_STATE) else AUnknown)
        (text (py_or (assoc "raw_kind" value) kind)) (text (assoc "tool_name" value))
        (or_none (strip (cand_source (w_head w).1))) (Some (w_observed_at w)) (Some (w_valid_until w))
  end.

(** The connection of a control fact: a table read by the raw state, which
    has to be hashable. *)
Definition control_connection (value : list (string * pyval)) : res ConnectionState :=
  let raw_state := assoc "state" value in
  let! _ := check_hashable raw_state in
  Ok (if eq_str raw_state "attached" then Connected
      else if eq_str raw_state "degraded" then Degraded
      else if eq_str raw_state "detached" then Disconnected
      else ConnUnknown).

(** [action], inside [_project_control]; [_ACTION_OPERATION] maps every name
    to itself. *)
Definition control_action (supported_operations grants : list string) (connection : ConnectionState)
    (operation : string) : SessionActionAvailability :=
  if negb (str_in operation supported_operations) then unavailable "unsupported"
  else if negb (str_in operation grants) then unavailable "not_granted"
  else if negb (bool_decide (connection = Connected)) then unavailable "connection_unavailable"
  else Action Available None.

(** The default of [SessionControlActions.start_turn]. *)
Definition default_start_turn : SessionActionAvailability := unavailable "not_console".

(** [_project_control]. *)
Definition project_control (w : option winner) (supported_operations : list string) : res (option SessionControlFacts) :=
  match w with
  | None => Ok None
  | Some w =>
      let value := w_value w in
      let! connection := control_connection value in
      let! grants := validated_grants value in
      let action := control_action supported_operations grants connection in
      Ok (Some (ControlFacts Owned connection
            (inr <$> text (assoc "connection_id" value)) (text (assoc "lease_generation" value)) None
            (match assoc "terminal_attached" value with VBool b => Some b | _ => None end)
            (Some (w_observed_at w)) (Some (w_valid_until w))
            (Actions default_start_turn (action "send_input") (action "interrupt") (action "terminate")
                     (unavailable "unsupported") (action "resume"))))
  end.

(** [_control_run_id]. *)
Definition control_run_id (w : option winner) : option string := w ≫= λ w, text (assoc "run_id" (w_value w)).

(** [_head_diagnostic]. *)
Definition head_diagnostic (family : string) (w : winner) : FactHeadDiagnostic :=
  let '(c, h) := w_head w in
  HeadDiagnostic family (cand_subject c) (cand_source c) (cand_epoch c) (h_evidence_hash h)
    (w_observed_at w) (w_valid_until w) (Some (h_updated_commit_seq h)).

Definition fact_sources (activity_head control_head : option winner) : list (string * FactHeadDiagnostic) :=
  omap (λ fw : string * option winner, (λ w, (fw.1, head_diagnostic fw.1 w)) <$> fw.2)
    [("activity", activity_head); ("control", control_head)]%string.

(** ** The diagnostic projection *)

Definition shadow_query (family session_id : string) (catalog_facts : list (string * pyval)) : head_query :=
  HeadQuery session_id family (active_run_id catalog_facts) true
    (if String.eqb family "control" then Some (bound_control_coordinates catalog_facts) else None)
    (String.eqb family "activity").

(** [project_shadow_session_state_facts]. *)
Definition project_shadow_session_state_facts (session_id : string) (commit_seq : Z)
    (catalog_facts : list (string * pyval)) (heads : list head_entry) (supported_operations : list string)
    (now : datetime) : res ShadowSessionStateProjection :=
  let! now := aware_time now in
  let! '(activity_head, rejected_activity) := effective_head heads (shadow_query "activity" session_id catalog_facts) now in
  let! '(control_head, rejected_control) := effective_head heads (shadow_query "control" session_id catalog_facts) now in
  let launch := project_launch catalog_facts in
  let! disposition := project_disposition catalog_facts in
  let! run := project_run catalog_facts launch in
  let! control := project_control control_head supported_operations in
  Ok (ShadowProjection commit_seq (project_mode catalog_facts) disposition launch run
        (project_activity activity_head now) control (control_run_id control_head)
        (fact_sources activity_head control_head) (rejected_activity + rejected_control)
        rejected_activity rejected_control).

(** ** The served projection *)

Definition availability (available : bool) (reason : string) : SessionActionAvailability :=
  if available then Action Available None else unavailable reason.

(** [_durable_action_availability], for its only operation. *)
Definition durable_action_availability (catalog_facts : list (string * pyval)) (mode : SessionMode)
    (supported_operations : list string) (operation : string) : res (bool * string) :=
  let supported := str_in operation supported_operations in
  if negb (bool_decide (mode = Helm)) || negb supported
  then Ok (false, if negb supported then "unsupported" else "not_helm")%string
  else
    let! connections := iterate (assoc "connections" catalog_facts) in
    let resumable value :=
      let connection := mapping value in
      is_none (assoc "released_at" connection)
      && negb (opt_in (text (assoc "state" connection)) ["released"; "ended"]%string)
      && truthy (assoc "can_resume" connection) in
    Ok (if existsb resumable connections then (true, "reattach_available"%string)
        else (false, (operation +:+ "_unavailable")%string)).

(** [_control_plane_for_observation]: the first connection the observation
    names. *)
Definition names_connection (observed : SessionControlFacts) (value : pyval) : bool :=
  let connection := mapping value in
  bool_decide (inr <$> text (assoc "adapter_connection_id" connection) = ct_connection_id observed)
  && bool_decide (text (assoc "lease_generation" connection) = ct_lease_generation observed).

Definition control_plane_for_observation (catalog_facts : list (string * pyval)) (observed : SessionControlFacts) :
    res (option string) :=
  let! connections := iterate (assoc "connections" catalog_facts) in
  Ok (v ← head (List.filter (names_connection observed) connections); text (assoc "control_plane" (mapping v))).

(** [_durable_control_plane]: the last unreleased connection that names one. *)
Definition durable_control_plane (catalog_facts : list (string * pyval)) : res (option string) :=
  let! connections := iterate (assoc "connections" catalog_facts) in
  let plane value :=
    let connection := mapping value in
    if is_none (assoc "released_at" connection) then text (assoc "control_plane" connection) else None in
  Ok (head (omap plane (rev connections))).

(** [_resume_action_availability]. *)
Definition continuation_query (session_id : string) : head_query :=
  HeadQuery session_id "continuation" None false None false.

Definition resume_from_contract (provider cwd provider_session_id : option string) (value : list (string * pyval)) :
    SessionActionAvailability :=
  let says field expected := bool_decide (expected ≠ None) && bool_decide (text (assoc field value) = expected) in
  if negb (says "provider"%string provider) then unavailable "provider_incompatible"
  else if negb (opt_is (text (assoc "contract_state" value)) "valid") then
    unavailable (default "contract_invalid" (text (assoc "unavailable_reason" value)))
  else if negb (says "cwd"%string cwd) then unavailable "workspace_mismatch"
  else if negb (says "provider_session_id"%string provider_session_id) then unavailable "provider_identity_mismatch"
  else Action Available None.

Definition resume_action_availability (session_id : string) (provider cwd provider_session_id : option string)
    (mode : SessionMode) (run : option SessionRunFacts) (host : SessionHostFacts) (heads : list head_entry)
    (supported_operations : list string) (now : datetime) : res SessionActionAvailability :=
  if negb (bool_decide (mode = Helm)) then Ok (unavailable "not_helm")
  else if negb (str_in "resume" supported_operations) then Ok (unavailable "unsupported")
  else if negb (bool_decide (run = None)) && negb (lifecycle_is run REnded) then Ok (unavailable "run_active")
  else
    match hf_state host with
    | HOffline | HStale => Ok (unavailable "machine_offline")
    | HUnknown => Ok (unavailable "machine_unknown")
    | HOnline =>
        let! '(w, _) := effective_head heads (continuation_query session_id) now in
        Ok (match w with
            | None => unavailable "contract_missing"
            | Some w => resume_from_contract provider cwd provider_session_id (w_value w)
            end)
    end.

(** [_served_control]. *)
Definition served_control (observed : option SessionControlFacts) (mode : SessionMode)
    (catalog_facts : list (string * pyval)) (supported_operations : list string) (resume : SessionActionAvailability) :
    res SessionControlFacts :=
  let projection := from_catalog_facts (mapping (assoc "console_control" catalog_facts)) in
  let console := bool_decide (mode = ConsoleMode) in
  let start_turn :=
    availability (console && cc_can_start_turn projection)
      (default "start_turn_unavailable"
         (opt_or (cc_start_turn_blocked_by projection) (if console then None else Some "not_console"%string))) in
  let! '(reattach_available, reattach_reason) :=
    durable_action_availability catalog_facts mode supported_operations "reattach" in
  if console then
    let! plane := durable_control_plane catalog_facts in
    Ok (ControlFacts Owned (connection_literal (connection projection)) None None plane None None None
          (Actions start_turn (unavailable "use_start_turn")
             (availability (cc_can_interrupt_active_turn projection) (interrupt_unavailable_reason projection))
             (unavailable "unsupported") (unavailable "not_helm") resume))
  else
    match observed with
    | Some o =>
        let connected := bool_decide (ct_connection o = Connected) in
        let reattach := availability (negb connected && reattach_available)
                          (if connected then "already_connected" else reattach_reason) in
        let! plane := control_plane_for_observation catalog_facts o in
        let a := ct_actions o in
        Ok (ControlFacts (ct_ownership o) (ct_connection o) (ct_connection_id o) (ct_lease_generation o) plane
              (ct_terminal_attached o) (ct_observed_at o) (ct_valid_until o)
              (Actions start_turn (ca_send_input a) (ca_interrupt a) (ca_terminate a) reattach resume))
    | None =>
        let owned := bool_decide (mode = Helm) in
        let reason := if owned then "control_unknown"%string else "observe_only"%string in
        let! plane := durable_control_plane catalog_facts in
        Ok (ControlFacts (if owned then Owned else Unowned)
              (if bool_decide (mode = Shadow) then NotApplicable else ConnUnknown) None None plane None None None
              (Actions start_turn (unavailable reason) (unavailable reason) (unavailable reason)
                 (availability (owned && reattach_available) reattach_reason) resume))
    end.

(** [project_served_session_state_facts]. *)
Definition project_served_session_state_facts (session_id : string) (commit_seq : Z)
    (catalog_facts : list (string * pyval)) (heads : list head_entry) (supported_operations : list string)
    (pending_interaction : option SessionPendingInteractionFacts) (transcript : SessionTranscriptFacts)
    (host : SessionHostFacts) (now : datetime) : res SessionStateFacts :=
  let! shadow := project_shadow_session_state_facts session_id commit_seq catalog_facts heads supported_operations now in
  let catalog := mapping (assoc "catalog" catalog_facts) in
  let mode := sp_mode shadow in
  let! now := aware_time now in
  let! resume := resume_action_availability session_id (text (assoc "provider" catalog)) (text (assoc "cwd" catalog))
                   (text (assoc "provider_session_id" (mapping (assoc "resume" catalog_facts)))) mode (sp_run shadow) host
                   heads supported_operations now in
  let! control := served_control (sp_control shadow) mode catalog_facts supported_operations resume in
  let! last_console_result_at := optional_wire_datetime (assoc "last_console_result_at" catalog) in
  let! last_read_at := optional_wire_datetime (assoc "last_read_at" catalog) in
  Ok (assemble_session_state_facts mode (sp_disposition shadow) (sp_launch shadow) (sp_run shadow) (sp_activity shadow)
        control pending_interaction transcript host (Some commit_seq) last_console_result_at
        (text (assoc "last_console_result_outcome" catalog)) last_read_at).

(** ** Authorizing one exact control subject *)

Definition exact_query (session_id : string) : head_query := HeadQuery session_id "control" None false None false.

Definition denied (reason : string) : ControlFactAuthorization := Authorization false (Some reason) None None.

Definition action_named (operation : string) (a : SessionControlActions) : SessionActionAvailability :=
  if String.eqb operation "send_input" then ca_send_input a
  else if String.eqb operation "interrupt" then ca_interrupt a
  else ca_terminate a.

(** [authorize_exact_control_fact]. *)
Definition authorize_exact_control_fact (session_id run_id provider connection_id lease_generation operation : string)
    (heads : list head_entry) (supported_operations : list string) (now : datetime) : res ControlFactAuthorization :=
  let expected_subject := ("connection:" +:+ connection_id +:+ ":" +:+ lease_generation)%string in
  let exact_heads := List.filter (λ kh : head_entry, String.eqb (cand_family kh.1) "control"
                                                   && String.eqb (cand_subject kh.1) expected_subject) heads in
  match exact_heads with
  | [] => Ok (denied "control_head_missing")
  | _ =>
      let! now := aware_time now in
      let! '(w, rejected) := effective_head exact_heads (exact_query session_id) now in
      if negb (rejected =? 0) then Ok (denied "control_head_rejected")
      else
        match w with
        | None => Ok (denied "lease_expired")
        | Some win =>
            let value := w_value win in
            if negb (opt_is (text (assoc "provider" value)) provider && opt_is (text (assoc "run_id" value)) run_id
                     && opt_is (text (assoc "connection_id" value)) connection_id
                     && opt_is (text (assoc "lease_generation" value)) lease_generation)
            then Ok (denied "identity_diverged")
            else if negb (str_in operation supported_operations) then Ok (denied "unsupported")
            else
              let! control := project_control w supported_operations in
              match control with
              | None => Ok (denied "control_head_missing")
              | Some c =>
                  let action := action_named operation (ct_actions c) in
                  if negb (bool_decide (aa_state action = Available))
                  then Ok (Authorization false (opt_or (aa_reason action) (Some "control_unavailable"%string)) (Some c)
                             (control_run_id w))
                  else Ok (Authorization true None (Some c) (control_run_id w))
              end
        end
  end.
End Projector.
