(* ===== verification/StateProjectorLaws.v ===== *)
(** * Laws of the projector

    What a winning head rests on, and the projector's properties. *)

From S2P Require Import Prelude PyStr PyTime PyValue Sha256 MachineEvidence PyJson FactStore FactReducer FactReads.
From S2P Require Import ConsoleControl ProviderContracts Capabilities RuntimeView Liveness StateContract SessionState.
From S2P Require Import StateProjector.

Open Scope list_scope.
Open Scope Z_scope.

(** ** The greatest candidate *)

Lemma fold_later {A} (l : list (head_key * A)) b :
  let m := fold_left later_candidate l b in
  (m = b ∨ m ∈ l) ∧ cmp_le head_key_cmp b.1 m.1 ∧ ∀ c, c ∈ l → cmp_le head_key_cmp c.1 m.1.
Proof.
  revert b. induction l as [|c l IH]; intros b; simpl.
  { split; [by left|]. split; [by unfold cmp_le; rewrite (cmp_self head_key_cmp)|set_solver]. }
  destruct (IH (later_candidate b c)) as (Hin & Hb & Hl). set (m := fold_left _ l _) in *.
  assert (cmp_le head_key_cmp b.1 (later_candidate b c).1 ∧ cmp_le head_key_cmp c.1 (later_candidate b c).1) as [H1 H2].
  { unfold later_candidate, cmp_le. pose proof (cmp_flip head_key_cmp b.1 c.1) as Hf.
    destruct (head_key_cmp b.1 c.1) eqn:E; simpl in Hf; rewrite ?(cmp_self head_key_cmp); split; congruence. }
  split.
  - destruct Hin as [->|Hin]; [|by right; right]. unfold later_candidate. destruct (head_key_cmp _ _); [by left|right; left|by left].
  - split; [by transitivity (later_candidate b c).1|].
    intros d [->|Hd]%elem_of_cons; [by transitivity (later_candidate b c).1|auto].
Qed.

Lemma max_candidate_Some {A} (l : list (head_key * A)) m :
  max_candidate l = Some m → m ∈ l ∧ ∀ c, c ∈ l → cmp_le head_key_cmp c.1 m.1.
Proof.
  destruct l as [|b l]; [done|]. intros [= <-]. destruct (fold_later l b) as (Hin & Hb & Hl). split.
  - destruct Hin as [->|?]; [left|by right].
  - intros c [->|Hc]%elem_of_cons; auto.
Qed.

Lemma max_candidate_None {A} (l : list (head_key * A)) : max_candidate l = None ↔ l = [].
Proof. by destruct l. Qed.

(** ** Values *)

Lemma eq_str_ok v s : eq_str v s = true ↔ v = VStr s.
Proof. unfold eq_str. rewrite bool_decide_eq_true. destruct v; simpl; naive_solver. Qed.

Lemma as_strs_ok l ss : mapM as_str l = Some ss → l = map VStr ss.
Proof.
  revert ss. induction l as [|v l IH]; intros ss; simpl; [by intros [= <-]|].
  destruct v; simpl; try done. destruct (mapM as_str l) as [ss'|] eqn:E; simpl; [|done]. intros [= <-].
  by rewrite (IH ss').
Qed.

Lemma validated_grants_ok value grants :
  validated_grants value = Ok grants → assoc "granted_operations" value = VList (map VStr grants).
Proof.
  unfold validated_grants. destruct (as_list _) as [raw|] eqn:El; [|done].
  destruct (mapM as_str raw) as [ss|] eqn:E; [|done]. destruct (_ && _); [|done]. intros [= <-].
  apply as_strs_ok in E as ->. by destruct (assoc _ value); simplify_eq/=.
Qed.

Lemma control_connection_connected value : control_connection value = Ok Connected → assoc "state" value = VStr "attached".
Proof.
  unfold control_connection. intros ([] & _ & [= H])%bind_ok.
  destruct (eq_str (assoc "state" value) "attached") eqn:E; [by apply eq_str_ok|by repeat case_match].
Qed.

Lemma control_action_available ops grants connection operation :
  aa_state (control_action ops grants connection operation) = Available →
  operation ∈ ops ∧ operation ∈ grants ∧ connection = Connected.
Proof.
  unfold control_action. destruct (str_in operation ops) eqn:E1; simpl; [|done].
  destruct (str_in operation grants) eqn:E2; simpl; [|done]. case_bool_decide; [|done].
  intros _. by rewrite <- !str_in_spec.
Qed.

Section Laws.
Context (float : string → pyval) (other_form : string → option datetime) (form : head_form).

Abbreviation evaluate := (evaluate_head float other_form form).
Abbreviation step := (effective_step float other_form form).
Abbreviation effective := (effective_head float other_form form).

(** A head a query may pick: of its family, accepted, and current unless
    expired heads are retained. *)
Definition eligible (q : head_query) (now : datetime) (kh : head_entry) (rank : Z) (w : winner) : Prop :=
  cand_family kh.1 = q_family q ∧ evaluate q kh = Ok (rank, w) ∧ (is_fresh now w = true ∨ q_retain_expired q = true).

(** A head of the query's family that the projector counts as rejected. *)
Definition rejected_head (q : head_query) (kh : head_entry) : Prop :=
  cand_family kh.1 = q_family q ∧ ∃ e, evaluate q kh = Err e.

Lemma step_ok q now cs n kh st' :
  step q now (cs, n) kh = Ok st' →
  (∀ c, c ∈ st'.1 ↔ c ∈ cs ∨ ∃ rank w, eligible q now kh rank w ∧ c = (key_of_head now rank w, w)) ∧
  ((rejected_head q kh ∧ st'.2 = n + 1) ∨ (¬ rejected_head q kh ∧ st'.2 = n)).
Proof.
  unfold step, eligible, rejected_head.
  destruct (String.eqb_spec (cand_family kh.1) (q_family q)) as [Hf|Hf]; simpl; [|intros [= <-]; naive_solver].
  destruct (evaluate q kh) as [[rank w]|e] eqn:Ee.
  - assert ((is_fresh now w = true ∨ q_retain_expired q = true) ↔
            negb (is_fresh now w) && negb (q_retain_expired q) = false) as Hk
      by (destruct (is_fresh now w), (q_retain_expired q); naive_solver).
    destruct (negb _ && negb _); intros [= <-]; simpl; (split; [|right; naive_solver]); intros c.
    + split; [by left|]. intros [?|(r & w' & (_ & [= <- <-] & Hw) & _)]; [done|naive_solver].
    + rewrite elem_of_app, list_elem_of_singleton. split.
      * intros [?| ->]; [by left|right]. exists rank, w. naive_solver.
      * intros [?|(r & w' & (_ & [= <- <-] & _) & ->)]; [by left|by right].
  - destruct (rejects e); [|done]. intros [= <-]. simpl. split; [naive_solver|left; eauto].
Qed.

Lemma steps_ok q now heads cs n cs' n' :
  fold_res (step q now) (cs, n) heads = Ok (cs', n') →
  (∀ c, c ∈ cs' ↔ c ∈ cs ∨ ∃ kh rank w, kh ∈ heads ∧ eligible q now kh rank w ∧ c = (key_of_head now rank w, w)) ∧
  n ≤ n' ∧ (n' = n ↔ ∀ kh, kh ∈ heads → ¬ rejected_head q kh).
Proof.
  revert cs n. induction heads as [|kh heads IH]; intros cs n; cbn [fold_res].
  { intros [= <- <-]. split_and!; [|lia|]; set_solver. }
  destruct (step q now (cs, n) kh) as [[cs1 n1]|e] eqn:E; [|done]. intros H.
  apply step_ok in E as [Hc Hn]. apply IH in H as (Hc' & Hle & Hr). simpl in *. split_and!.
  - intros c. rewrite Hc', Hc. setoid_rewrite elem_of_cons. naive_solver.
  - destruct Hn as [[_ ->]|[_ ->]]; lia.
  - setoid_rewrite elem_of_cons. destruct Hn as [[Hk ->]|[Hk ->]].
    + split; [lia|]. intros Hall. exfalso. apply (Hall kh); auto.
    + rewrite Hr. naive_solver.
Qed.

(** [_effective_head], by what it returns. *)
Lemma effective_ok q now heads ow n :
  effective heads q now = Ok (ow, n) →
  match ow with
  | Some w => ∃ kh rank, kh ∈ heads ∧ eligible q now kh rank w ∧
      ∀ kh' rank' w', kh' ∈ heads → eligible q now kh' rank' w' →
        cmp_le head_key_cmp (key_of_head now rank' w') (key_of_head now rank w)
  | None => ∀ kh rank w, kh ∈ heads → ¬ eligible q now kh rank w
  end ∧ 0 ≤ n ∧ (n = 0 ↔ ∀ kh, kh ∈ heads → ¬ rejected_head q kh).
Proof.
  unfold effective_head. intros ([cs m] & H & E)%bind_ok. injection E as <- <-.
  apply steps_ok in H as (Hc & Hle & Hr). split; [|done].
  assert (∀ kh rank w, kh ∈ heads → eligible q now kh rank w → (key_of_head now rank w, w) ∈ cs) as Hin.
  { intros kh rank w Hkh He. apply Hc. right. by exists kh, rank, w. }
  destruct (max_candidate cs) as [[k w]|] eqn:Em; simpl.
  - apply max_candidate_Some in Em as [Hm Hmax]. apply Hc in Hm as [Hm|(kh & rank & w' & Hkh & He & [= -> ->])];
      [by apply not_elem_of_nil in Hm|].
    exists kh, rank. split; [done|]. split; [done|]. intros kh' rank' w1 Hkh' He'. by apply (Hmax _ (Hin _ _ _ Hkh' He')).
  - apply max_candidate_None in Em as ->. intros kh rank w Hkh He. apply Hin in He; [|done]. by apply not_elem_of_nil in He.
Qed.
(** ** What an accepted head rests on *)

(** What [_head_value] has checked. *)
Record read_head (kh : head_entry) (family session_id : string) (value : list (string * pyval)) : Prop := {
  rh_text : loads float (h_value_json kh.2) = Ok (VDict value);
  rh_session : h_session_id kh.2 = Some session_id;
  rh_value_session : assoc "session_id" value = VStr session_id;
  rh_source : assoc "source" value = VStr (cand_source kh.1);
  rh_hash : canonical_evidence_hash (VDict value) = Ok (h_evidence_hash kh.2);
  rh_subject : expected_head_subject family session_id value = Ok (cand_subject kh.1);
}.

Lemma head_value_ok kh family session_id value :
  head_value float kh family session_id = Ok value → read_head kh family session_id value.
Proof.
  destruct kh as [c h]. unfold head_value. intros (decoded & Hl & H)%bind_ok.
  destruct decoded as [| | | | | |fields]; try done.
  apply bind_ok in H as ([] & Hs%guard_ok%opt_is_spec & H).
  apply bind_ok in H as ([] & Hv%guard_ok%eq_str_ok & H).
  apply bind_ok in H as ([] & [_ Hsrc%eq_str_ok]%guard_ok%andb_true_iff & H).
  apply bind_ok in H as (computed & Hh & H). apply bind_ok in H as ([] & E%guard_ok%String.eqb_eq & H).
  apply bind_ok in H as (expected & He & H). apply bind_ok in H as ([] & Ec%guard_ok%String.eqb_eq & [= <-]).
  subst. by split.
Qed.

(** What an accepted head says, and the bindings the query asked for. *)
Record accepted (q : head_query) (kh : head_entry) (w : winner) : Prop := {
  ah_head : w_head w = kh;
  ah_read : read_head kh (q_family q) (q_session_id q) (w_value w);
  ah_class : ∃ authority_class, assoc "authority_class" (w_value w) = VStr authority_class ∧
                                (q_family q, authority_class) ∈ AUTHORITY_RANK;
  ah_observed : wire_datetime other_form (TimeJson (assoc "observed_at" (w_value w))) = Ok (w_observed_at w);
  ah_valid : valid_until_of other_form form (q_family q) kh.2 (w_value w) (w_observed_at w) = Ok (w_valid_until w);
  ah_run : q_require_run_binding q = true →
           ∃ run_id, q_expected_run_id q = Some run_id ∧ text (assoc "run_id" (w_value w)) = Some run_id;
  ah_coordinate : ∀ coordinates, q_allowed_control_coordinates q = Some coordinates → q_family q = "control"%string →
    control_coordinate (text (assoc "run_id" (w_value w))) (text (assoc "connection_id" (w_value w)))
                       (text (assoc "lease_generation" (w_value w))) ∈ coordinates;
}.

Lemma evaluate_ok q kh rank w : evaluate q kh = Ok (rank, w) → rank = 1 ∧ accepted q kh w.
Proof.
  unfold evaluate_head. intros (value & Hv%head_value_ok & H)%bind_ok. apply bind_ok in H as (r & Hr & H).
  destruct (as_str _) as [cls|] eqn:Ec; [|done]. 
  destruct (bool_decide ((q_family q, cls) ∈ AUTHORITY_RANK)) eqn:Hcls; [apply bool_decide_eq_true in Hcls|done].
  injection Hr as <-.
  apply bind_ok in H as (o & Ho & H). apply bind_ok in H as (u & Hu & H).
  apply bind_ok in H as ([] & Hb%guard_ok & H). apply bind_ok in H as ([] & Hc & [= <- <-]).
  split; [done|]. split; simpl; try done.
  - exists cls. destruct (assoc _ value); simplify_eq/=. done.
  - intros Hq. rewrite Hq in Hb. simpl in Hb. apply negb_true_iff, orb_false_iff in Hb as [H1 H2].
    apply bool_decide_eq_false in H1. apply negb_false_iff, bool_decide_eq_true in H2.
    destruct (q_expected_run_id q); [|done]. eauto.
  - intros cs Hcs Hf. rewrite Hcs, Hf in Hc. apply guard_ok in Hc. simpl in Hc. by apply bool_decide_eq_true in Hc.
Qed.

(** The evidence an allowed operation rests on: a verified head of the
    session that names its connection, attached, granting the operation, under
    a lease that has not run out. *)
Record control_evidence (session_id operation : string) (now : datetime) (kh : head_entry)
    (value : list (string * pyval)) : Prop := {
  ce_family : cand_family kh.1 = "control"%string;
  ce_read : read_head kh "control" session_id value;
  ce_attached : assoc "state" value = VStr "attached";
  ce_granted : ∃ grants, assoc "granted_operations" value = VList (map VStr grants) ∧ operation ∈ grants;
  ce_lease : ∃ observed ttl,
    wire_datetime other_form (TimeJson (assoc "observed_at" value)) = Ok observed ∧
    assoc "lease_ttl_ms" value = VInt ttl ∧ 0 < ttl ∧ instant now < instant observed + ms ttl;
}.

Lemma control_lease h value observed until :
  valid_until_of other_form form "control" h value observed = Ok until →
  ∃ ttl, assoc "lease_ttl_ms" value = VInt ttl ∧ 0 < ttl ∧ instant until = instant observed + ms ttl.
Proof.
  unfold valid_until_of. simpl. destruct (as_int _) as [ttl|] eqn:E; [|done].
  destruct (Z.leb_spec ttl 0); [done|]. intros [_ ->]%to_utc_ok. exists ttl.
  split; [by destruct (assoc _ value); simplify_eq/=|]. split; [done|].
  rewrite astimezone_instant. unfold instant, dt_add; simpl. lia.
Qed.

(** An available action of a projected control fact has evidence. *)
Lemma action_has_evidence q now kh rank w ops c operation :
  eligible q now kh rank w → q_family q = "control"%string → q_retain_expired q = false →
  project_control (Some w) ops = Ok (Some c) → operation ∈ ["send_input"; "interrupt"; "terminate"]%string →
  aa_state (action_named operation (ct_actions c)) = Available →
  operation ∈ ops ∧ control_evidence (q_session_id q) operation now kh (w_value w).
Proof.
  intros (Hf & He & Hfresh) Hq Hret Hp Hop Ha. apply evaluate_ok in He as [_ He].
  destruct Hfresh as [Hfresh|?]; [|congruence].
  unfold project_control in Hp. apply bind_ok in Hp as (cn & Hcn & Hp). apply bind_ok in Hp as (grants & Hg & [= <-]).
  assert (aa_state (control_action ops grants cn operation) = Available) as Hact.
  { simpl in Ha. rewrite !elem_of_cons, elem_of_nil in Hop.
    by destruct Hop as [->|[->|[->|[]]]]. }
  apply control_action_available in Hact as (Hin & Hgr & ->). split; [done|].
  destruct He as [_ Hr _ Ho Hv _ _]. rewrite Hq in *. apply control_lease in Hv as (ttl & Ht & Hpos & Hu). split.
  - congruence.
  - done.
  - by apply control_connection_connected.
  - exists grants. split; [by apply validated_grants_ok|done].
  - exists (w_observed_at w), ttl. unfold is_fresh, dt_lt in Hfresh. apply Z.ltb_lt in Hfresh. split_and!; [done..|lia].
Qed.
End Laws.
