(* ===== verification/ProjectorProps.v ===== *)
(** * Properties of the projector

    The served and authorizing projections rest on verified, bound and
    current evidence; and evidence that the reducer accepts is evidence the
    projector authorizes from. *)

From S2P Require Import Prelude PyStr PyTime PyValue Sha256 MachineEvidence Timestamps PyJson PyJsonLaws.
From S2P Require Import FactStore FactReducer FactReducerSetwise FactStoreLaws FactReducerLaws FactReducerRun.
From S2P Require Import FactReducerProps.
From S2P Require Import FactReads StoredEvidence.
From S2P Require Import ConsoleControl ProviderContracts Capabilities RuntimeView Liveness StateContract SessionState.
From S2P Require Import StateProjector StateProjectorLaws.

Open Scope list_scope.
Open Scope Z_scope.

Definition CONTROL_OPERATIONS : list string := ["send_input"; "interrupt"; "terminate"]%string.

Lemma aware_time_ok d u : aware_time d = Ok u → u = astimezone_utc d.
Proof. unfold aware_time. destruct (aware d); [|done]. by intros [_ ->]%to_utc_ok. Qed.

Section Props.
Context (float : string → pyval) (other_form : string → option datetime) (form : head_form).

Abbreviation effective := (effective_head float other_form form).
Abbreviation authorize := (authorize_exact_control_fact float other_form form).
Abbreviation served := (project_served_session_state_facts float other_form form).
Abbreviation evidence := (control_evidence float other_form).

Definition control_subject (connection_id lease_generation : string) : string :=
  ("connection:" +:+ connection_id +:+ ":" +:+ lease_generation)%string.

(** C34: authorization is fail-closed.  An allowed operation has a control
    head of exactly the bound connection and lease: its stored value verifies
    against its evidence hash, names the session, provider, run, connection
    and lease, is attached, grants the operation, and its lease has not run
    out; the provider supports the operation; and no head of that subject is
    rejected: each one evaluates, with its value verified, its authority class
    supported, its observation time well-formed and its lease positive. *)
Theorem authorization_is_fail_closed session_id run_id provider connection_id lease_generation operation heads ops now a :
  operation ∈ CONTROL_OPERATIONS →
  authorize session_id run_id provider connection_id lease_generation operation heads ops now = Ok a →
  au_allowed a = true →
  operation ∈ ops ∧
  (∃ kh value, kh ∈ heads ∧ cand_subject kh.1 = control_subject connection_id lease_generation ∧
     evidence session_id operation now kh value ∧
     text (assoc "provider" value) = Some provider ∧ text (assoc "run_id" value) = Some run_id ∧
     text (assoc "connection_id" value) = Some connection_id ∧
     text (assoc "lease_generation" value) = Some lease_generation) ∧
  (∀ kh, kh ∈ heads → cand_family kh.1 = "control"%string →
     cand_subject kh.1 = control_subject connection_id lease_generation →
     ∃ rank w, evaluate_head float other_form form (exact_query session_id) kh = Ok (rank, w) ∧
               accepted float other_form form (exact_query session_id) kh w).
Proof.
  intros Hop H Ha. unfold authorize_exact_control_fact in H.
  set (exact_heads := List.filter _ heads) in H.
  assert (∀ kh, kh ∈ exact_heads ↔ kh ∈ heads ∧ cand_family kh.1 = "control"%string ∧
                                   cand_subject kh.1 = control_subject connection_id lease_generation) as Hexact.
  { intros kh. unfold exact_heads. rewrite list_elem_of_In, filter_In, <- list_elem_of_In, andb_true_iff.
    by rewrite !String.eqb_eq. }
  clearbody exact_heads. destruct exact_heads as [|kh0 exact']; [by simplify_eq|].
  set (exact_heads := kh0 :: exact') in *. clearbody exact_heads.
  apply bind_ok in H as (now' & Hnow%aware_time_ok & H). apply bind_ok in H as ([w n] & He & H).
  apply effective_ok in He as (Hw & Hn & Hrej).
  destruct (Z.eqb_spec n 0) as [->|]; simpl in H; [|by simplify_eq].
  destruct w as [w|]; [|by simplify_eq]. destruct Hw as (kh & rank & Hkh & Hel & _).
  destruct (_ && _ && _ && _) eqn:Eid; simpl in H; [|by simplify_eq].
  rewrite !andb_true_iff, !opt_is_spec in Eid. destruct Eid as [[[Hp Hr] Hc] Hl].
  destruct (str_in operation ops); simpl in H; [|by simplify_eq].
  apply bind_ok in H as (control & Hproj & H). destruct control as [c|]; [|by simplify_eq].
  destruct (bool_decide _) eqn:Eav; simpl in H; [apply bool_decide_eq_true in Eav|by simplify_eq].
  destruct (action_has_evidence float other_form form _ _ _ _ _ _ _ _ Hel eq_refl eq_refl Hproj Hop Eav) as [Hops Hev].
  apply Hexact in Hkh as (Hkh & _ & Hsub). split; [done|]. split.
  - exists kh, (w_value w). split_and!; try done. destruct Hev as [? ? ? ? Hlease]. split; try done.
    destruct Hlease as (o & ttl & ? & ? & ? & Hlt). exists o, ttl. subst now'. by rewrite astimezone_instant in Hlt.
  - intros kh' Hkh' Hf' Hs'.
    assert (¬ rejected_head float other_form form (exact_query session_id) kh') as Hnr.
    { apply Hrej; [done|]. apply Hexact. done. }
    unfold rejected_head in Hnr. destruct (evaluate_head float other_form form (exact_query session_id) kh') as [[rank' w']|e] eqn:E.
    + exists rank', w'. split; [done|]. by apply evaluate_ok in E as [_ ?].
    + exfalso. apply Hnr. eauto.
Qed.

(** the head a projection rests on is the best one it may: it is in the
    snapshot, verified and bound as the query asks; no head of the query's
    family that qualifies is current when it is expired, and none that is as
    current was observed later.  None is chosen only when none qualifies. *)
Theorem winning_head_is_the_best q now heads ow n :
  effective heads q now = Ok (ow, n) →
  match ow with
  | Some w =>
      ∃ rank, w_head w ∈ heads ∧ eligible float other_form form q now (w_head w) rank w ∧
      accepted float other_form form q (w_head w) w ∧
      ∀ kh rank' w', kh ∈ heads → eligible float other_form form q now kh rank' w' →
        (is_fresh now w' = true → is_fresh now w = true) ∧
        (is_fresh now w' = is_fresh now w → instant (w_observed_at w') ≤ instant (w_observed_at w))
  | None => ∀ kh rank w, kh ∈ heads → ¬ eligible float other_form form q now kh rank w
  end.
Proof.
  intros H. apply effective_ok in H as [Hw _]. destruct ow as [w|]; [|done].
  destruct Hw as (kh & rank & Hkh & Hel & Hmax). pose proof Hel as (_ & He & _).
  apply evaluate_ok in He as [-> Hacc]. pose proof Hacc as [-> _ _ _ _ _ _].
  exists 1. split_and!; [done..|]. intros kh' rank' w' Hkh' Hel'.
  specialize (Hmax kh' rank' w' Hkh' Hel'). destruct Hel' as (_ & He' & _). apply evaluate_ok in He' as [-> _].
  unfold cmp_le, key_of_head, head_key_cmp, pair_cmp in Hmax. simpl in Hmax.
  destruct (is_fresh now w') eqn:E1, (is_fresh now w) eqn:E2; simpl in Hmax; try done; (split; [done|]); intros Hs; try done;
    destruct (Z.compare_spec (instant (w_observed_at w')) (instant (w_observed_at w))); try done; lia.
Qed.
(** What a shadow projection that returned was made of. *)
Lemma shadow_ok session_id commit_seq facts heads ops now sp :
  project_shadow_session_state_facts float other_form form session_id commit_seq facts heads ops now = Ok sp →
  ∃ activity na control nc,
    effective heads (shadow_query "activity" session_id facts) (astimezone_utc now) = Ok (activity, na) ∧
    effective heads (shadow_query "control" session_id facts) (astimezone_utc now) = Ok (control, nc) ∧
    sp_mode sp = project_mode facts ∧ project_run other_form facts (project_launch facts) = Ok (sp_run sp) ∧
    project_disposition other_form facts = Ok (sp_disposition sp) ∧
    sp_activity sp = project_activity activity (astimezone_utc now) ∧ project_control control ops = Ok (sp_control sp).
Proof.
  unfold project_shadow_session_state_facts. intros (now' & ->%aware_time_ok & H)%bind_ok.
  apply bind_ok in H as ([activity na] & Ha & H). apply bind_ok in H as ([control nc] & Hc & H).
  apply bind_ok in H as (d & Hd & H). apply bind_ok in H as (r & Hr & H). apply bind_ok in H as (c & Hpc & [= <-]).
  exists activity, na, control, nc. split_and!; done.
Qed.

Lemma served_ok session_id commit_seq facts heads ops pending transcript host now sf :
  served session_id commit_seq facts heads ops pending transcript host now = Ok sf →
  ∃ sp resume,
    project_shadow_session_state_facts float other_form form session_id commit_seq facts heads ops now = Ok sp ∧
    served_control (sp_control sp) (sp_mode sp) facts ops resume = Ok (sf_control sf) ∧
    sf_mode sf = sp_mode sp ∧ sf_run sf = sp_run sp ∧ sf_activity sf = sp_activity sp ∧
    sf_disposition sf = sp_disposition sp ∧
    resume_action_availability float other_form form session_id
      (text (assoc "provider" (mapping (assoc "catalog" facts)))) (text (assoc "cwd" (mapping (assoc "catalog" facts))))
      (text (assoc "provider_session_id" (mapping (assoc "resume" facts)))) (sp_mode sp) (sp_run sp) host heads ops
      (astimezone_utc now) = Ok resume.
Proof.
  unfold project_served_session_state_facts. intros (sp & Hsp & H)%bind_ok.
  apply bind_ok in H as (now' & ->%aware_time_ok & H). apply bind_ok in H as (resume & Hres & H).
  apply bind_ok in H as (control & Hc & H). apply bind_ok in H as (a & _ & H). apply bind_ok in H as (b & _ & [= <-]).
  exists sp, resume. by split_and!.
Qed.

Lemma served_control_cases observed mode facts ops resume c :
  served_control observed mode facts ops resume = Ok c → mode ≠ ConsoleMode →
  ∀ operation, operation ∈ CONTROL_OPERATIONS → aa_state (action_named operation (ct_actions c)) = Available →
    ∃ o, observed = Some o ∧ aa_state (action_named operation (ct_actions o)) = Available.
Proof.
  unfold served_control. intros H Hmode operation Hop Ha. apply bind_ok in H as ([ok why] & _ & H).
  destruct (bool_decide (mode = ConsoleMode)) eqn:Em; [by apply bool_decide_eq_true in Em|].
  unfold CONTROL_OPERATIONS in Hop. rewrite !elem_of_cons, elem_of_nil in Hop. destruct observed as [o|].
  - exists o. split; [done|]. apply bind_ok in H as (plane & _ & [= <-]). by destruct Hop as [->|[->|[->|[]]]].
  - apply bind_ok in H as (plane & _ & [= <-]). by destruct Hop as [->|[->|[->|[]]]].
Qed.

(** A connection row of the catalog that binds a coordinate. *)
Definition bound_connection (facts : list (string * pyval)) (run_id connection_id lease_generation : string) : Prop :=
  ∃ rows row, assoc "connections" facts = VList rows ∧ VDict row ∈ rows ∧ assoc "released_at" row = VNone ∧
    text (assoc "run_id" row) = Some run_id ∧ text (assoc "adapter_connection_id" row) = Some connection_id ∧
    text (assoc "lease_generation" row) = Some lease_generation.

Lemma text_or_empty v s : str_truthy (or_empty (text v)) = true → or_empty (text v) = s → text v = Some s.
Proof. destruct (text v) as [t|]; simpl; [by intros _ ->|done]. Qed.

Lemma bound_coordinate_ok facts run_id connection_id lease_generation :
  (run_id, connection_id, lease_generation) ∈ bound_control_coordinates facts →
  bound_connection facts run_id connection_id lease_generation.
Proof.
  unfold bound_control_coordinates. destruct (assoc "connections" facts) as [| | | | |rows|] eqn:E;
    try (intros H; by apply not_elem_of_nil in H).
  intros (v & Hv & H)%list_elem_of_omap. unfold bound_coordinate in H.
  destruct (is_none (assoc "released_at" (mapping v))) eqn:Er; simpl in H; [|done].
  destruct (_ && _ && _) eqn:Et; [|done]. injection H as Hr Hc Hl.
  rewrite !andb_true_iff in Et. destruct Et as [[E1 E2] E3].
  apply text_or_empty in Hr, Hc, Hl; [|done..].
  destruct v as [| | | | | |row]; try (unfold mapping in Hr; simpl in Hr; by vm_compute in Hr).
  exists rows, row. split; [done|]. split; [done|]. split; [|done]. unfold mapping in Er; simpl in Er.
  by destruct (assoc "released_at" row).
Qed.

(** An operation of a session is backed by the latest run, a bound connection
    of it, and a granting head of both. *)
Definition bound_evidence (session_id : string) (facts : list (string * pyval)) (heads : list head_entry)
    (now : datetime) (operation : string) : Prop :=
  ∃ kh value run_id connection_id lease_generation,
    kh ∈ heads ∧ evidence session_id operation now kh value ∧
    cand_subject kh.1 = control_subject connection_id lease_generation ∧
    text (assoc "run_id" value) = Some run_id ∧
    text (assoc "connection_id" value) = Some connection_id ∧
    text (assoc "lease_generation" value) = Some lease_generation ∧
    active_run_id facts = Some run_id ∧ bound_connection facts run_id connection_id lease_generation.

Lemma served_operation_bound session_id commit_seq facts heads ops pending transcript host now sf operation :
  served session_id commit_seq facts heads ops pending transcript host now = Ok sf →
  sf_mode sf ≠ ConsoleMode → operation ∈ CONTROL_OPERATIONS →
  aa_state (action_named operation (ct_actions (sf_control sf))) = Available →
  operation ∈ ops ∧
  bound_evidence session_id facts heads now operation.
Proof.
  intros H Hmode Hop Ha. apply served_ok in H as (sp & resume & Hsp & Hc & Em & _).
  rewrite Em in Hmode. destruct (served_control_cases _ _ _ _ _ _ Hc Hmode operation Hop Ha) as (o & Ho & Hao).
  apply shadow_ok in Hsp as (activity & na & control & nc & _ & He & _ & _ & _ & _ & Hp).
  rewrite Ho in Hp. destruct control as [w|]; [|done].
  apply effective_ok in He as [(kh & rank & Hkh & Hel & _) _].
  destruct (action_has_evidence float other_form form _ _ _ _ _ _ _ _ Hel eq_refl eq_refl Hp Hop Hao) as [Hops Hev].
  split; [done|]. pose proof Hel as (_ & Heval & _). apply evaluate_ok in Heval as [_ [_ Hread _ _ _ Hrun Hcoord]].
  destruct (Hrun eq_refl) as (run_id & Eact & Etext). simpl in Eact.
  specialize (Hcoord _ eq_refl eq_refl). rewrite Etext in Hcoord.
  destruct Hread as [_ _ _ _ _ Hsub]. unfold expected_head_subject in Hsub. simpl in Hsub, Hcoord.
  destruct (text (assoc "connection_id" (w_value w))) as [connection_id|] eqn:Ec; [|done].
  destruct (text (assoc "lease_generation" (w_value w))) as [lease_generation|] eqn:El; [|done].
  apply bind_ok in Hsub as (_ & _ & [= Hsub]).
  exists kh, (w_value w), run_id, connection_id, lease_generation. split_and!; try done.
  - destruct Hev as [? ? ? ? Hlease]. split; try done. destruct Hlease as (ob & ttl & ? & ? & ? & Hlt).
    exists ob, ttl. by rewrite astimezone_instant in Hlt.
  - by apply bound_coordinate_ok.
Qed.

(** A served Console session does not take lease-bound input. *)
Lemma console_takes_no_input session_id commit_seq facts heads ops pending transcript host now sf :
  served session_id commit_seq facts heads ops pending transcript host now = Ok sf →
  aa_state (ca_send_input (ct_actions (sf_control sf))) = Available → sf_mode sf ≠ ConsoleMode.
Proof.
  intros H Ha Em. apply served_ok in H as (sp & resume & _ & Hc & Em' & _). rewrite Em in Em'.
  unfold served_control in Hc. apply bind_ok in Hc as ([ok why] & _ & Hc).
  rewrite bool_decide_eq_true_2 in Hc by done. apply bind_ok in Hc as (plane & _ & [= Hc]). by rewrite <- Hc in Ha.
Qed.

(** A served session outside Console offers an operation only on bound
    evidence: the latest run has not ended, an unreleased connection row of
    that run carries the connection and the lease, and a verified, attached
    head of exactly that run, connection and lease grants the operation under
    a lease that has not run out. *)
Theorem served_operation_is_bound session_id commit_seq facts heads ops pending transcript host now sf operation :
  served session_id commit_seq facts heads ops pending transcript host now = Ok sf →
  sf_mode sf ≠ ConsoleMode → operation ∈ CONTROL_OPERATIONS →
  aa_state (action_named operation (ct_actions (sf_control sf))) = Available →
  operation ∈ ops ∧
  ∃ kh value run_id connection_id lease_generation,
    kh ∈ heads ∧ evidence session_id operation now kh value ∧
    cand_subject kh.1 = control_subject connection_id lease_generation ∧
    text (assoc "run_id" value) = Some run_id ∧
    text (assoc "connection_id" value) = Some connection_id ∧
    text (assoc "lease_generation" value) = Some lease_generation ∧
    active_run_id facts = Some run_id ∧ bound_connection facts run_id connection_id lease_generation.
Proof. apply served_operation_bound. Qed.

Lemma says_ok value field (expected : option string) :
  bool_decide (expected ≠ None) && bool_decide (text (assoc field value) = expected) = true ↔
  ∃ x, expected = Some x ∧ text (assoc field value) = Some x.
Proof. rewrite andb_true_iff, !bool_decide_eq_true. destruct expected; naive_solver. Qed.

Lemma resume_from_contract_ok provider cwd provider_session_id value :
  aa_state (resume_from_contract provider cwd provider_session_id value) = Available ↔
  ∃ p c i, provider = Some p ∧ cwd = Some c ∧ provider_session_id = Some i ∧
    text (assoc "contract_state" value) = Some "valid"%string ∧ text (assoc "provider" value) = Some p ∧
    text (assoc "cwd" value) = Some c ∧ text (assoc "provider_session_id" value) = Some i.
Proof.
  unfold resume_from_contract.
  pose proof (says_ok value "provider" provider) as Hp. pose proof (says_ok value "cwd" cwd) as Hc.
  pose proof (says_ok value "provider_session_id" provider_session_id) as Hi.
  pose proof (opt_is_spec (text (assoc "contract_state" value)) "valid") as Hv.
  split.
  - intros Ha. destruct (_ && _) eqn:E1 in Ha; simpl in Ha; [|done]. destruct (opt_is _ _) eqn:E2 in Ha; simpl in Ha; [|done].
    destruct (_ && _) eqn:E3 in Ha; simpl in Ha; [|done]. destruct (_ && _) eqn:E4 in Ha; simpl in Ha; [|done].
    apply Hp in E1 as (p & -> & ?). apply Hc in E3 as (c & -> & ?). apply Hi in E4 as (i & -> & ?). apply Hv in E2.
    by exists p, c, i.
  - intros (p & c & i & -> & -> & -> & Ev & Ep & Ec & Ei).
    rewrite (proj2 Hp), (proj2 Hv), (proj2 Hc), (proj2 Hi) by eauto. done.
Qed.

(** resume is offered on a complete, current contract and nothing less:
    the session is in Helm mode, the provider resumes, no run is going, the
    machine is online, and the best current continuation head is valid and
    names the session's provider, workspace and provider session. *)
Theorem resume_offered_iff session_id provider cwd provider_session_id mode run host heads ops now a :
  resume_action_availability float other_form form session_id provider cwd provider_session_id mode run host heads ops now
  = Ok a →
  aa_state a = Available ↔
    mode = Helm ∧ "resume"%string ∈ ops ∧ (run = None ∨ ∃ r, run = Some r ∧ ru_lifecycle r = REnded) ∧
    hf_state host = HOnline ∧
    ∃ w n p c i, effective heads (continuation_query session_id) now = Ok (Some w, n) ∧
      provider = Some p ∧ cwd = Some c ∧ provider_session_id = Some i ∧
      text (assoc "contract_state" (w_value w)) = Some "valid"%string ∧ text (assoc "provider" (w_value w)) = Some p ∧
      text (assoc "cwd" (w_value w)) = Some c ∧ text (assoc "provider_session_id" (w_value w)) = Some i.
Proof.
  unfold resume_action_availability. intros H.
  destruct (bool_decide (mode = Helm)) eqn:E1; simpl in H;
    [apply bool_decide_eq_true in E1|apply bool_decide_eq_false in E1; injection H as <-; naive_solver].
  destruct (str_in "resume" ops) eqn:E2; simpl in H;
    [apply str_in_spec in E2|injection H as <-; split; [done|]; intros (_ & Hin & _); apply str_in_spec in Hin; congruence].
  assert (negb (bool_decide (run = None)) && negb (lifecycle_is run REnded) = false ↔
          (run = None ∨ ∃ r, run = Some r ∧ ru_lifecycle r = REnded)) as Hrun.
  { destruct run as [r|]; simpl; [|naive_solver]. rewrite negb_false_iff, bool_decide_eq_true. naive_solver. }
  destruct (negb _ && _) eqn:E3; [injection H as <-; split; [done|]; intros (_ & _ & Hr & _); by apply Hrun in Hr|].
  pose proof (proj1 Hrun eq_refl) as Hr. destruct (hf_state host); try (injection H as <-; naive_solver).
  apply bind_ok in H as ([w n] & He & [= <-]). destruct w as [w|];
    [|split; [done|]; intros (_ & _ & _ & _ & w & n' & p & c & i & He' & _); congruence].
  pose proof (resume_from_contract_ok provider cwd provider_session_id (w_value w)) as Hk. split.
  - intros Ha%Hk. split_and!; try done. destruct Ha as (p & c & i & Ha). exists w, n, p, c, i. by split.
  - intros (_ & _ & _ & _ & w' & n' & p & c & i & He' & Ha). rewrite He in He'. simplify_eq. apply Hk. by exists p, c, i.
Qed.
(** ** A lease past the calendar *)

Lemma fold_res_err {A S} (f : S → A → res S) (P : exn → Prop) l s a :
  a ∈ l → (∀ s', ∃ e, f s' a = Err e ∧ P e) → (∀ s' b e, f s' b = Err e → P e) → ∃ e, fold_res f s l = Err e ∧ P e.
Proof.
  intros Hin Ha Hall. revert s. induction l as [|b l IH]; intros s; [by apply not_elem_of_nil in Hin|].
  cbn [fold_res]. apply elem_of_cons in Hin as [->|Hin].
  - destruct (Ha s) as (e & -> & He). eauto.
  - destruct (f s b) as [s'|e] eqn:E; [by apply IH|]. eauto.
Qed.

(** an error that is no rejection is not contained: a control head that
    verifies but whose lease ends past the year 9999 is not counted as
    rejected; it makes every selection over its snapshot raise, whatever the
    other heads are. *)
Theorem late_lease_raises heads q now kh value observed ttl :
  kh ∈ heads → q_family q = "control"%string → cand_family kh.1 = "control"%string →
  head_value float kh "control" (q_session_id q) = Ok value →
  assoc "authority_class" value = VStr "provider_control" →
  wire_datetime other_form (TimeJson (assoc "observed_at" value)) = Ok observed →
  assoc "lease_ttl_ms" value = VInt ttl → 0 < ttl → MAX_WALL ≤ instant observed + ms ttl →
  ∃ e, effective heads q now = Err e ∧ rejects e = false.
Proof.
  intros Hin Hq Hf Hv Hc Ho Ht Hpos Hlate.
  assert (evaluate_head float other_form form q kh = Err OverflowError) as He.
  { unfold evaluate_head. rewrite Hq, Hv. cbn [mbind res_bind]. rewrite Hc. cbn [as_str].
    assert (bool_decide (("control", "provider_control")%string ∈ AUTHORITY_RANK) = true) as -> by (vm_compute; reflexivity).
    cbn [mbind res_bind]. rewrite Ho. cbn [mbind res_bind].
    unfold valid_until_of. change (String.eqb "control" "control") with true. rewrite Ht. cbn [as_int].
    destruct (Z.leb_spec ttl 0); [lia|]. unfold to_utc, in_years.
    assert (instant (dt_add observed (ms ttl)) = instant observed + ms ttl) as -> by (unfold instant, dt_add; simpl; lia).
    destruct (Z.ltb_spec (instant observed + ms ttl) MAX_WALL); [lia|]. by rewrite andb_false_r. }
  unfold effective_head.
  destruct (fold_res_err (effective_step float other_form form q now) (λ e, rejects e = false) heads ([], 0) kh Hin)
    as (e & -> & He').
  - intros [cs n]. exists OverflowError. split; [|done]. unfold effective_step. by rewrite Hf, Hq, He.
  - intros [cs n] b e. unfold effective_step. destruct (String.eqb _ _); simpl; [|done].
    destruct (evaluate_head _ _ _ q b) as [[rank w]|e']; [by destruct (_ && _)|].
    destruct (rejects e') eqn:Er; [done|]. by intros [= <-].
  - by exists e.
Qed.

(** A time column alone never supplies [valid_until]: it is read naive. *)
Lemma column_never_supplies_valid_until h value observed wall :
  form = table_row → h_valid_until h = Some wall → truthy (assoc "valid_until" value) = false →
  ∃ m, valid_until_of other_form form "activity" h value observed = Err (ValueError m).
Proof. intros -> Hh Hv. unfold valid_until_of, column_valid_until. simpl. rewrite Hv, Hh. by eexists. Qed.
End Props.
