(* ===== verification/ControlLiveness.v ===== *)
(** * From accepted evidence to an authorized operation

    The reducer, the store, the JSON reader and the projector composed: the
    control fact of an attached session, once accepted, authorizes every
    operation it grants until its lease ends. *)

From S2P Require Import Prelude PyStr PyTime PyValue Sha256 MachineEvidence Timestamps PyJson PyJsonLaws.
From S2P Require Import FactStore FactReducer FactReducerSetwise FactStoreLaws FactReducerLaws FactReducerRun.
From S2P Require Import FactReducerProps.
From S2P Require Import FactReads StoredEvidence.
From S2P Require Import ConsoleControl ProviderContracts Capabilities RuntimeView Liveness StateContract SessionState.
From S2P Require Import StateProjector StateProjectorLaws ProjectorProps.

Open Scope list_scope.
Open Scope Z_scope.

(** ** Canonical times read back *)

Lemma replace_z_cons c s : code c ≠ 90%nat → replace_z (String c "" +:+ s) = (String c "" +:+ replace_z s)%string.
Proof. intros Hc. rewrite !app_cons. cbn [replace_z]. by rewrite (proj2 (Nat.eqb_neq _ _) Hc). Qed.

Lemma replace_z_digits w z rest : replace_z (digits w z rest) = digits w z (replace_z rest).
Proof.
  revert z rest. induction w as [|w IH]; intros z rest; [done|]. cbn [digits]. rewrite IH.
  change (String ?c rest) with (String c "" +:+ rest)%string. rewrite replace_z_cons; [done|].
  pose proof (Z.mod_pos_bound z 10 ltac:(lia)). rewrite digit_char_code by lia. lia.
Qed.

Lemma replace_z_canonical w : 0 ≤ w < MAX_WALL → replace_z (canonical_text w) = utc_text w "+00:00".
Proof.
  intros Hw. destruct (utc_text_digits w Hw) as (y & m & d & h & mi & se & us & _ & _ & _ & _ & E).
  unfold canonical_text. rewrite !E.
  by repeat (rewrite replace_z_digits || rewrite replace_z_cons by (vm_compute; lia)).
Qed.

Lemma wire_datetime_canonical other_form w :
  0 ≤ w < MAX_WALL → wire_datetime other_form (TimeJson (VStr (canonical_text w))) = Ok (utc w).
Proof.
  intros Hw. unfold wire_datetime. rewrite replace_z_canonical by done. unfold parse_iso.
  destruct (match_utc_text w "+00:00" Hw (or_intror eq_refl)) as (r & -> & ->).
  unfold aware_time, aware, to_utc; cbn [dt_off].
  assert (in_years (instant (DT w (Some 0))) = true) as -> by (unfold in_years, instant; simpl; lia).
  unfold astimezone_utc, instant; simpl. do 2 f_equal. lia.
Qed.

(** A wire time that names the instant [w]. *)
Definition names_instant (s : string) (w : Z) : Prop :=
  ∃ r d, match_rfc3339 s = Some r ∧ fromisoformat r = Some d ∧ instant d = w ∧ 0 ≤ w < MAX_WALL.

Lemma names_instant_canonical s w : names_instant s w → canonical_timestamp s = canonical_text w.
Proof.
  intros (r & d & Hr & Hd & <- & Hw). unfold canonical_timestamp. rewrite Hr, Hd. cbn [mbind option_bind].
  unfold canonical_wall, in_years. rewrite (proj2 (Z.leb_le _ _)), (proj2 (Z.ltb_lt _ _)) by lia. done.
Qed.

(** ** The control fact of an attached session *)

Section Control.
Context (session_id run_id provider connection_id lease_generation : string).
Context (grants : list string) (ttl observed : Z).

Definition plain_text (s : string) : Prop := s ≠ ""%string ∧ strip s = s.

Record control_fact (fact : ReducerFact) : Prop := {
  cf_family : f_family fact = "control"%string;
  cf_subject : f_subject_key fact = control_subject connection_id lease_generation;
  cf_session : f_session_id fact = Some session_id;
  cf_source : strip (f_source fact) ≠ ""%string;
  cf_value_session : assoc "session_id" (f_value fact) = VStr session_id;
  cf_value_source : assoc "source" (f_value fact) = VStr (f_source fact);
  cf_class : assoc "authority_class" (f_value fact) = VStr "provider_control";
  cf_provider : assoc "provider" (f_value fact) = VStr provider ∧ plain_text provider;
  cf_run : assoc "run_id" (f_value fact) = VStr run_id ∧ plain_text run_id;
  cf_connection : assoc "connection_id" (f_value fact) = VStr connection_id ∧ plain_text connection_id;
  cf_lease : assoc "lease_generation" (f_value fact) = VStr lease_generation ∧ plain_text lease_generation;
  cf_state : assoc "state" (f_value fact) = VStr "attached";
  cf_ttl : assoc "lease_ttl_ms" (f_value fact) = VInt ttl ∧ 0 < ttl;
  cf_grants : validated_grants (f_value fact) = Ok grants;
  cf_observed : ∃ s, assoc "observed_at" (f_value fact) = VStr s ∧ names_instant s observed;
}.

Section Read.
Context (float : string → pyval) (other_form : string → option datetime) (form : head_form).

Lemma text_plain s : plain_text s → text (VStr s) = Some s.
Proof.
  intros [Hne Hs]. unfold text, str_or, clean. simpl.
  destruct (str_truthy s) eqn:E; [simpl|apply str_truthy_spec in Hne; congruence].
  by rewrite Hs, (proj2 (or_none_Some s s) (conj eq_refl Hne)).
Qed.

Lemma canonical_strs field l :
  opt_in field CANONICAL_TIMESTAMP_FIELDS = false →
  canonical_value field (VList (map VStr l)) = Ok (VList (map VStr l)).
Proof.
  intros Hf. rewrite canonical_list. apply bind_ok. exists (map VStr l). split; [|done].
  apply map_res_ok, Forall_Forall2_diag, Forall_map, Forall_true. intros s. cbn [canonical_value]. by rewrite Hf.
Qed.

(** What the stored text says, field by field. *)
Lemma stored_fields fact json :
  well_keyed fact → stored_as fact json →
  ∃ value, loads float json = Ok (VDict value) ∧ canonical_value_json (VDict value) = Ok json ∧
    (∀ k s, opt_in (Some k) CANONICAL_TIMESTAMP_FIELDS = false → assoc k (f_value fact) = VStr s → assoc k value = VStr s) ∧
    (∀ k z, assoc k (f_value fact) = VInt z → assoc k value = VInt z) ∧
    (∀ s w, assoc "observed_at" (f_value fact) = VStr s → names_instant s w →
       assoc "observed_at" value = VStr (canonical_text w)) ∧
    (∀ gs, validated_grants (f_value fact) = Ok gs → validated_grants value = Ok gs).
Proof.
  intros Hk Hj. destruct (loads_fields float _ _ Hk Hj) as (value & Hl & Hc & Hf).
  exists value. split; [done|]. split; [done|]. split; [|split; [|split]].
  - intros k s Hn Hs. destruct (Hf k) as (x & Hx & ->). rewrite Hs in Hx. cbn [canonical_value] in Hx.
    rewrite Hn in Hx. by injection Hx as <-.
  - intros k z Hz. destruct (Hf k) as (x & Hx & ->). rewrite Hz in Hx. cbn [canonical_value] in Hx.
    destruct (_ && _); [|done]. by injection Hx as <-.
  - intros s w Hs Hw. destruct (Hf "observed_at"%string) as (x & Hx & ->). rewrite Hs in Hx. cbn [canonical_value] in Hx.
    injection Hx as <-. cbn [sort_value]. rewrite <- (names_instant_canonical s w Hw). reflexivity.
  - intros gs Hg. pose proof (validated_grants_ok _ _ Hg) as Ha. unfold validated_grants in *.
    destruct (Hf "granted_operations"%string) as (x & Hx & ->). rewrite Ha in Hx, Hg.
    rewrite canonical_strs in Hx by (vm_compute; reflexivity). injection Hx as <-. cbn [sort_value].
    rewrite map_map. cbn [sort_value]. exact Hg.
Qed.
(** The stored head of an accepted control fact is accepted by the projector. *)
Lemma stored_head_evaluates fact json at_ seq :
  control_fact fact → well_keyed fact → stored_as fact json →
  canonical_evidence_hash (VDict (f_value fact)) = Ok (f_evidence_hash fact) → observed + ms ttl < MAX_WALL →
  let kh := (candidate_key fact, head_row at_ fact json seq) in
  ∃ value,
    evaluate_head float other_form form (exact_query session_id) kh
    = Ok (1, Winner kh value (utc observed) (utc (observed + ms ttl))) ∧
    text (assoc "provider" value) = Some provider ∧ text (assoc "run_id" value) = Some run_id ∧
    text (assoc "connection_id" value) = Some connection_id ∧
    text (assoc "lease_generation" value) = Some lease_generation ∧
    assoc "state" value = VStr "attached" ∧ validated_grants value = Ok grants.
Proof.
  intros Hc Hk Hj Hh Hend kh.
  destruct (stored_fields fact json Hk Hj) as (value & Hl & Hcj & Hstr & Hint & Hobs & Hgr).
  destruct Hc as [Hfam Hsub Hses Hsrc Hvses Hvsrc Hcls [Hprov Tprov] [Hrun Trun] [Hconn Tconn] [Hleas Tleas] Hst [Httl Hpos] Hg Hob].
  destruct Hob as (s & Hos & Hns).
  assert (Forall (λ k, opt_in (Some k) CANONICAL_TIMESTAMP_FIELDS = false)
    ["session_id"; "source"; "authority_class"; "provider"; "run_id"; "connection_id"; "lease_generation"; "state"]%string)
    as Hplain by (repeat constructor; vm_compute; reflexivity).
  rewrite !Forall_cons in Hplain. destruct Hplain as (P1 & P2 & P3 & P4 & P5 & P6 & P7 & P8 & _).
  apply (Hstr _ _ P1) in Hvses. apply (Hstr _ _ P2) in Hvsrc. apply (Hstr _ _ P3) in Hcls. apply (Hstr _ _ P4) in Hprov.
  apply (Hstr _ _ P5) in Hrun. apply (Hstr _ _ P6) in Hconn. apply (Hstr _ _ P7) in Hleas. apply (Hstr _ _ P8) in Hst.
  apply Hint in Httl. apply Hgr in Hg. pose proof (Hobs s observed Hos Hns) as Ho.
  assert (0 ≤ observed < MAX_WALL) as Hw by (by destruct Hns as (? & ? & _ & _ & _ & ?)).
  exists value. rewrite Hprov, Hrun, Hconn, Hleas, !text_plain by done. split; [|by split_and!].
  assert (head_value float kh "control" session_id = Ok value) as Hv.
  { unfold head_value, kh. cbn [h_value_json head_row]. rewrite Hl. cbn [mbind res_bind h_session_id h_evidence_hash head_row].
    rewrite Hses, (proj2 (opt_is_spec _ _) eq_refl). cbn [guard mbind res_bind].
    rewrite (proj2 (eq_str_ok _ _) Hvses). cbn [guard mbind res_bind].
    assert (cand_source (candidate_key fact) = f_source fact) as -> by done.
    assert (str_truthy (strip (f_source fact)) && eq_str (assoc "source" value) (f_source fact) = true) as ->.
    { apply andb_true_iff. split; [by apply str_truthy_spec|by apply eq_str_ok]. }
    cbn [guard mbind res_bind].
    assert (canonical_evidence_hash (VDict value) = Ok (f_evidence_hash fact)) as ->.
    { unfold canonical_evidence_hash in *. rewrite Hcj. unfold stored_as in Hj. by rewrite Hj in Hh. }
    cbn [mbind res_bind]. rewrite String.eqb_refl. cbn [guard mbind res_bind].
    unfold expected_head_subject. change (String.eqb "control" "activity") with false.
    change (String.eqb "control" "control") with true. cbv iota. rewrite Hconn, Hleas, !text_plain, Hg by done.
    cbn [mbind res_bind]. change (cand_subject (candidate_key fact)) with (f_subject_key fact).
    rewrite Hsub. unfold control_subject. rewrite String.eqb_refl. done. }
  unfold evaluate_head. cbn [q_family q_session_id exact_query]. rewrite Hv. cbn [mbind res_bind]. rewrite Hcls. cbn [as_str].
  assert (bool_decide (("control", "provider_control")%string ∈ AUTHORITY_RANK) = true) as -> by (vm_compute; reflexivity).
  cbn [mbind res_bind]. rewrite Ho, wire_datetime_canonical by done. cbn [mbind res_bind].
  assert (valid_until_of other_form form "control" kh.2 value (utc observed) = Ok (utc (observed + ms ttl))) as ->.
  { unfold valid_until_of. change (String.eqb "control" "control") with true. rewrite Httl. cbn [as_int].
    destruct (Z.leb_spec ttl 0); [lia|]. apply to_utc_ok. unfold in_years, astimezone_utc, instant, dt_add, utc, ms in *.
    simpl in *. split; [lia|]. f_equal. lia. }
  done.
Qed.
(** When one key alone has a subject, the subject's read is its head. *)
Lemma lone_subject_read db family subject c h :
  heads db !! c = Some h → cand_family c = family → cand_subject c = subject →
  (∀ c' h', heads db !! c' = Some h' → cand_family c' = family → cand_subject c' = subject → c' = c) →
  (read_fact_heads db family subject).2 = [(c, h)].
Proof.
  intros Hh Hf Hs Hlone. unfold read_fact_heads. cbn [snd].
  assert (select_heads (λ kh, bool_decide (kh.1.1.1.1 = family ∧ kh.1.1.1.2 = subject)) db = [(c, h)]) as ->.
  { apply Permutation_singleton_r, NoDup_Permutation.
    - apply NoDup_filter, NoDup_map_to_list.
    - apply NoDup_singleton.
    - intros [c' h']. unfold select_heads. rewrite list_elem_of_filter, elem_of_map_to_list, list_elem_of_singleton.
      rewrite bool_decide_eq_true. split.
      + intros [[Hf' Hs'] Hc']. assert (c' = c) as -> by by eapply Hlone. congruence.
      + intros [= -> ->]. done. }
  cbn [map fst]. assert (py_sorted cand_cmp [c] = [c]) as ->.
  { apply Permutation_singleton_r, (py_sorted_perm cand_cmp). }
  unfold fetch. cbn. by rewrite Hh.
Qed.

Lemma granted_action ops operation w c :
  operation ∈ CONTROL_OPERATIONS → operation ∈ grants → operation ∈ ops →
  assoc "state" (w_value w) = VStr "attached" → validated_grants (w_value w) = Ok grants →
  project_control (Some w) ops = Ok (Some c) → aa_state (action_named operation (ct_actions c)) = Available.
Proof.
  intros Hop Hg Ho Hst Hgr H. unfold project_control, control_connection in H. rewrite Hst, Hgr in H.
  cbn -[control_action] in H. injection H as <-. cbn [ct_actions].
  assert (aa_state (control_action ops grants Connected operation) = Available) as Ha.
  { unfold control_action. by rewrite (proj2 (str_in_spec _ _) Ho), (proj2 (str_in_spec _ _) Hg). }
  unfold CONTROL_OPERATIONS in Hop. rewrite !elem_of_cons, elem_of_nil in Hop. by destruct Hop as [->|[->|[->|[]]]].
Qed.

(** C38: accepted evidence is enough to act on: when the reducer accepts the
    control fact of an attached session and no other source speaks for that
    connection and lease, reading the subject back and authorizing any
    operation that the fact grants and the provider supports succeeds, at
    every time before the lease ends, which must be before the year 10000. *)
Theorem accepted_control_fact_authorizes db fact received_at db1 r1 operation ops now :
  wf db → commits_bounded db → well_keyed fact → control_fact fact → observed + ms ttl < MAX_WALL →
  (∀ c h, heads db !! c = Some h → cand_family c = "control"%string →
     cand_subject c = control_subject connection_id lease_generation → c = candidate_key fact) →
  reduce_fact_batch db [fact] received_at None = Ok (db1, r1) → res_changed_heads r1 = 1 →
  operation ∈ CONTROL_OPERATIONS → operation ∈ grants → operation ∈ ops →
  representable now = true → instant now < observed + ms ttl →
  ∃ a, authorize_exact_control_fact float other_form form session_id run_id provider connection_id lease_generation
         operation (read_fact_heads db1 "control" (control_subject connection_id lease_generation)).2 ops now = Ok a ∧
       au_allowed a = true.
Proof.
  intros Hwf Hcb Hk Hc Hend Hlone H Hr Hop Hg Ho Hnow Hlt.
  destruct (reduce_single db fact received_at db1 r1 Hwf H Hr) as (json & position & st & Hj & _ & [Hv _] & _ & -> & Hst).
  destruct (accepted_single db fact json position _ st Hwf Hcb Hst) as [Hhead _].
  pose proof Hc as [Hfam Hsub _ _ _ _ _ _ _ _ _ _ _ _ _].
  rewrite (lone_subject_read _ _ _ (candidate_key fact) _ Hhead).
  2: exact Hfam. 2: exact Hsub.
  2:{ intros c h Hch Hcf Hcs. destruct (decide (c = candidate_key fact)) as [|Hne]; [done|].
      eapply (Hlone c h); [|done..]. assert (heads (rd_db st) !! c = Some h) as Hraw by (by eapply lookup_weaken, finish_shrinks).
      rewrite Hst, accept_fact_eq in Hraw. cbn [rd_db heads] in Hraw. by rewrite lookup_insert_ne in Hraw by done. }
  destruct (stored_head_evaluates fact json (astimezone_utc received_at) (commit_seq db + 1) Hc Hk Hj
              (validate_fact_hash _ Hv) Hend) as (value & He & Tp & Tr & Tc & Tl & Hs & Hgr).
  set (kh := (candidate_key fact, _)) in *.
  unfold authorize_exact_control_fact. cbn [List.filter].
  assert (String.eqb (cand_family kh.1) "control" &&
          String.eqb (cand_subject kh.1) ("connection:" +:+ connection_id +:+ ":" +:+ lease_generation) = true) as ->.
  { apply andb_true_iff; split; apply String.eqb_eq; [exact Hfam|exact Hsub]. }
  cbv iota. unfold aware_time. apply andb_true_iff in Hnow as [Haw Hyears]. rewrite Haw.
  assert (to_utc now = Ok (astimezone_utc now)) as -> by by apply to_utc_ok. cbn [mbind res_bind].
  set (w := Winner kh value (utc observed) (utc (observed + ms ttl))) in *.
  assert (effective_head float other_form form [kh] (exact_query session_id) (astimezone_utc now) = Ok (Some w, 0)) as ->.
  { unfold effective_head. cbn [fold_res]. unfold effective_step.
    assert (String.eqb (cand_family kh.1) (q_family (exact_query session_id)) = true) as -> by (apply String.eqb_eq, Hfam).
    cbn [negb]. rewrite He. cbv iota.
    assert (is_fresh (astimezone_utc now) w = true) as ->.
    { unfold is_fresh, dt_lt. rewrite astimezone_instant. apply Z.ltb_lt. cbn [w w_valid_until]. by rewrite instant_utc. }
    reflexivity. }
  cbn [mbind res_bind]. cbn [w_value w]. rewrite Tp, Tr, Tc, Tl, !(proj2 (opt_is_spec _ _) eq_refl).
  rewrite (proj2 (str_in_spec _ _) Ho). cbn [negb andb].
  destruct (project_control (Some w) ops) as [[c|]|e] eqn:Ep.
  - cbn [mbind res_bind]. pose proof (granted_action ops operation w c Hop Hg Ho Hs Hgr Ep) as Ha.
    rewrite Ha, bool_decide_eq_true_2 by done. cbn [negb]. by eexists.
  - exfalso. unfold project_control in Ep. cbn [w_value w] in Ep. rewrite Hgr in Ep.
    destruct (control_connection value); done.
  - exfalso. unfold project_control, control_connection in Ep. cbn [w_value w] in Ep. rewrite Hgr, Hs in Ep. done.
Qed.
End Read.
End Control.
