(* ===== verification/ProjectorSamples.v ===== *)
(** * Concrete projections

    A Helm session with one attached connection, its control and continuation
    facts reduced into the empty catalog, and the theorems of
    [ProjectorProps] and [ControlLiveness] on it. *)

From S2P Require Import Prelude PyStr PyTime PyValue Sha256 MachineEvidence Timestamps PyJson PyJsonLaws.
From S2P Require Import FactStore FactReducer FactReducerSetwise FactStoreLaws FactReducerLaws FactReducerRun.
From S2P Require Import FactReducerProps.
From S2P Require Import FactReads StoredEvidence FactSamples.
From S2P Require Import ConsoleControl ProviderContracts Capabilities RuntimeView Liveness StateContract SessionState.
From S2P Require Import StateProjector StateProjectorLaws ProjectorProps ControlLiveness.

Open Scope string_scope.
Open Scope list_scope.
Open Scope Z_scope.

Definition control_value (observed_at : string) (ttl : Z) : list (string * pyval) :=
  [("authority_class", VStr "provider_control"); ("provider", VStr "codex"); ("session_id", VStr "s1");
   ("connection_id", VStr "c1"); ("lease_generation", VStr "g1"); ("run_id", VStr "r1");
   ("granted_operations", VList (map VStr ["interrupt"; "send_input"])); ("state", VStr "attached");
   ("lease_ttl_ms", VInt ttl); ("source", VStr "codex_bridge_scan"); ("observed_at", VStr observed_at)].

Definition attached_fact (observed_at : string) (ttl : Z) : ReducerFact :=
  Fact "control" "connection:c1:g1" "codex_bridge_scan" "boot1" (Some 1) (hash_of [("seq", VInt 1)])
       (hash_of (control_value observed_at ttl)) (control_value observed_at ttl) (Some noon) (Some "s1") None None.

Definition resume_value : list (string * pyval) :=
  [("authority_class", VStr "retained_launch_contract"); ("provider", VStr "codex"); ("session_id", VStr "s1");
   ("provider_session_id", VStr "p1"); ("cwd", VStr "/work"); ("contract_state", VStr "valid");
   ("source", VStr "managed_resume_contract_scan"); ("observed_at", VStr "2026-08-01T12:00:00.000000Z");
   ("valid_until", VStr "2026-08-01T14:00:00.000000Z")].

Definition resume_fact : ReducerFact :=
  Fact "continuation" "resume:s1" "managed_resume_contract_scan" "boot1" (Some 1) (hash_of [("seq", VInt 2)])
       (hash_of resume_value) resume_value (Some noon) (Some "s1") None None.

Definition lease_fact : ReducerFact := attached_fact "2026-08-01T14:00:00+02:00" 60000.
Definition late_fact : ReducerFact := attached_fact "9999-12-31T23:59:59.000000Z" 60000.

Definition after_reducing (facts : list ReducerFact) : catalog :=
  (ok_or (empty_catalog, Result 0 0 0 0 0) (reduce_fact_batch empty_catalog facts noon None)).1.

Definition control_heads (db : catalog) : list head_entry := (read_fact_heads db "control" "connection:c1:g1").2.

Definition lease_catalog : catalog := after_reducing [lease_fact].
Definition no_other_form (_ : string) : option datetime := None.

Definition half_past : datetime := utc_at 2026 8 1 12 0 30.
Definition lease_result : ReducerResult := Result 8 1 0 0 0.

Lemma lease_reduced : reduce_fact_batch empty_catalog [lease_fact] noon None = Ok (lease_catalog, lease_result).
Proof. vm_compute. reflexivity. Qed.

Definition authorized :=
  ok_or (denied "raised")
    (authorize_exact_control_fact float_text no_other_form table_row "s1" "r1" "codex" "c1" "g1" "send_input"
       (control_heads lease_catalog) ["send_input"; "interrupt"] half_past).

Lemma authorized_ok :
  authorize_exact_control_fact float_text no_other_form table_row "s1" "r1" "codex" "c1" "g1" "send_input"
    (control_heads lease_catalog) ["send_input"; "interrupt"] half_past = Ok authorized ∧ au_allowed authorized = true.
Proof. vm_compute. split; reflexivity. Qed.

Lemma send_is_control : "send_input" ∈ CONTROL_OPERATIONS.
Proof. left. Qed.

Lemma authorization_is_fail_closed_witness :
  "send_input" ∈ ["send_input"; "interrupt"] ∧
  (∃ kh value, kh ∈ control_heads lease_catalog ∧ cand_subject kh.1 = control_subject "c1" "g1" ∧
     control_evidence float_text no_other_form "s1" "send_input" half_past kh value ∧
     text (assoc "provider" value) = Some "codex" ∧ text (assoc "run_id" value) = Some "r1" ∧
     text (assoc "connection_id" value) = Some "c1" ∧ text (assoc "lease_generation" value) = Some "g1") ∧
  (∀ kh, kh ∈ control_heads lease_catalog → cand_family kh.1 = "control" →
     cand_subject kh.1 = control_subject "c1" "g1" →
     ∃ rank w, evaluate_head float_text no_other_form table_row (exact_query "s1") kh = Ok (rank, w) ∧
               accepted float_text no_other_form table_row (exact_query "s1") kh w).
Proof.
  exact (authorization_is_fail_closed float_text no_other_form table_row "s1" "r1" "codex" "c1" "g1" "send_input"
           (control_heads lease_catalog) ["send_input"; "interrupt"] half_past authorized
           send_is_control (proj1 authorized_ok) (proj2 authorized_ok)).
Defined.

(** ** The served session *)

Definition helm_facts : list (string * pyval) :=
  [("catalog", VDict [("provider", VStr "codex"); ("cwd", VStr "/work")]);
   ("readiness", VDict [("execution_lifetime", VStr "live_control"); ("state", VStr "adopted")]);
   ("latest_run", VDict [("id", VStr "r1"); ("started_at", VStr "2026-08-01T11:00:00+00:00"); ("ended_at", VNone)]);
   ("connections", VList [VDict [("run_id", VStr "r1"); ("adapter_connection_id", VStr "c1");
                                 ("lease_generation", VStr "g1"); ("released_at", VNone);
                                 ("control_plane", VStr "bridge")]]);
   ("resume", VDict [("provider_session_id", VStr "p1")])].

Definition no_transcript : SessionTranscriptFacts := TranscriptFacts ConvUnknown None None None None false false.

Definition no_state : SessionStateFacts :=
  StateFacts Shadow (Disposition DOpen None None) None None unknown_activity search_only_control None no_transcript
    (HostFacts HUnknown None) History false None None (Presentation None None None) None.

Definition helm_state :=
  ok_or no_state
    (project_served_session_state_facts float_text no_other_form table_row "s1" 8 helm_facts
       (control_heads lease_catalog) ["send_input"; "interrupt"] None no_transcript (HostFacts HOnline None) half_past).

Lemma helm_served :
  project_served_session_state_facts float_text no_other_form table_row "s1" 8 helm_facts
    (control_heads lease_catalog) ["send_input"; "interrupt"] None no_transcript (HostFacts HOnline None) half_past
  = Ok helm_state ∧
  sf_mode helm_state = Helm ∧
  aa_state (action_named "send_input" (ct_actions (sf_control helm_state))) = Available.
Proof. vm_compute. repeat split. Qed.

Lemma served_operation_is_bound_witness :
  "send_input" ∈ ["send_input"; "interrupt"] ∧
  ∃ kh value run_id connection_id lease_generation,
    kh ∈ control_heads lease_catalog ∧ control_evidence float_text no_other_form "s1" "send_input" half_past kh value ∧
    cand_subject kh.1 = control_subject connection_id lease_generation ∧
    text (assoc "run_id" value) = Some run_id ∧
    text (assoc "connection_id" value) = Some connection_id ∧
    text (assoc "lease_generation" value) = Some lease_generation ∧
    active_run_id helm_facts = Some run_id ∧ bound_connection helm_facts run_id connection_id lease_generation.
Proof.
  refine (served_operation_is_bound float_text no_other_form table_row "s1" 8 helm_facts (control_heads lease_catalog)
           ["send_input"; "interrupt"] None no_transcript (HostFacts HOnline None) half_past helm_state "send_input"
           (proj1 helm_served) _ send_is_control (proj2 (proj2 helm_served))).
  rewrite (proj1 (proj2 helm_served)). discriminate.
Defined.

(** ** Selection and resume *)

Definition resume_heads : list head_entry :=
  (read_fact_heads (after_reducing [resume_fact]) "continuation" "resume:s1").2.

Definition resume_winner :=
  ok_or (None, 1) (effective_head float_text no_other_form table_row resume_heads (continuation_query "s1") half_past).

Lemma resume_selected :
  effective_head float_text no_other_form table_row resume_heads (continuation_query "s1") half_past
  = Ok (resume_winner.1, resume_winner.2) ∧ is_Some resume_winner.1.
Proof. vm_compute. split; [reflexivity|eexists; reflexivity]. Qed.

Lemma winning_head_is_the_best_witness :
  match resume_winner.1 with
  | Some w =>
      ∃ rank, w_head w ∈ resume_heads ∧
      eligible float_text no_other_form table_row (continuation_query "s1") half_past (w_head w) rank w ∧
      accepted float_text no_other_form table_row (continuation_query "s1") (w_head w) w ∧
      ∀ kh rank' w', kh ∈ resume_heads →
        eligible float_text no_other_form table_row (continuation_query "s1") half_past kh rank' w' →
        (is_fresh half_past w' = true → is_fresh half_past w = true) ∧
        (is_fresh half_past w' = is_fresh half_past w → instant (w_observed_at w') ≤ instant (w_observed_at w))
  | None => ∀ kh rank w, kh ∈ resume_heads →
      ¬ eligible float_text no_other_form table_row (continuation_query "s1") half_past kh rank w
  end.
Proof.
  exact (winning_head_is_the_best float_text no_other_form table_row (continuation_query "s1") half_past resume_heads
           resume_winner.1 resume_winner.2 (proj1 resume_selected)).
Defined.

Definition r1_ended : SessionRunFacts := RunFacts (Some "r1") REnded None None None.

Lemma resume_available :
  resume_action_availability float_text no_other_form table_row "s1" (Some "codex") (Some "/work") (Some "p1") Helm
    (Some r1_ended) (HostFacts HOnline None) resume_heads ["resume"] half_past = Ok (Action Available None).
Proof. vm_compute. reflexivity. Qed.

Lemma resume_offered_iff_witness :
  aa_state (Action Available None) = Available ↔
    Helm = Helm ∧ "resume" ∈ ["resume"] ∧
    (Some r1_ended = None ∨ ∃ r, Some r1_ended = Some r ∧ ru_lifecycle r = REnded) ∧
    hf_state (HostFacts HOnline None) = HOnline ∧
    ∃ w n p c i,
      effective_head float_text no_other_form table_row resume_heads (continuation_query "s1") half_past = Ok (Some w, n) ∧
      Some "codex" = Some p ∧ Some "/work" = Some c ∧ Some "p1" = Some i ∧
      text (assoc "contract_state" (w_value w)) = Some "valid" ∧ text (assoc "provider" (w_value w)) = Some p ∧
      text (assoc "cwd" (w_value w)) = Some c ∧ text (assoc "provider_session_id" (w_value w)) = Some i.
Proof.
  exact (resume_offered_iff float_text no_other_form table_row "s1" (Some "codex") (Some "/work") (Some "p1") Helm
           (Some r1_ended) (HostFacts HOnline None) resume_heads ["resume"] half_past _ resume_available).
Defined.

(** ** From acceptance to authorization *)

Lemma attached_well_keyed observed_at ttl : well_keyed (attached_fact observed_at ttl).
Proof. split; [by apply (bool_decide_unpack _)|by repeat split]. Qed.

Lemma lease_is_control :
  control_fact "s1" "r1" "codex" "c1" "g1" ["interrupt"; "send_input"] 60000 (dt_wall noon) lease_fact.
Proof.
  split; try reflexivity; try (split; [reflexivity|]; split; [discriminate|reflexivity]).
  - discriminate.
  - split; [reflexivity|lia].
  - exists "2026-08-01T14:00:00+02:00". split; [reflexivity|].
    exists (Rfc3339 2026 8 1 14 0 0 0 120), (DT (dt_wall noon + 7200000000) (Some 7200000000)).
    split; [vm_compute; reflexivity|]. split; [vm_compute; reflexivity|]. split; [vm_compute; reflexivity|].
    vm_compute. split; [discriminate|reflexivity].
Qed.

Lemma accepted_control_fact_authorizes_witness :
  ∃ a, authorize_exact_control_fact float_text no_other_form catalog_wire "s1" "r1" "codex" "c1" "g1" "interrupt"
         (read_fact_heads lease_catalog "control" (control_subject "c1" "g1")).2 ["interrupt"] half_past = Ok a ∧
       au_allowed a = true.
Proof.
  refine (accepted_control_fact_authorizes "s1" "r1" "codex" "c1" "g1" ["interrupt"; "send_input"] 60000 (dt_wall noon)
            float_text no_other_form catalog_wire empty_catalog lease_fact noon lease_catalog lease_result
            "interrupt" ["interrupt"] half_past _ _ (attached_well_keyed _ _) lease_is_control _ _ lease_reduced eq_refl
            _ _ _ _ _).
  - exact (proj1 empty_catalog_sound).
  - exact (proj2 (proj2 empty_catalog_sound)).
  - vm_compute. reflexivity.
  - intros c h Hh. discriminate Hh.
  - right. left.
  - left.
  - left.
  - vm_compute. reflexivity.
  - vm_compute. reflexivity.
Defined.

(** ** A lease past the calendar *)

Definition late_catalog : catalog := after_reducing [late_fact].

Definition late_entry : option head_entry := head (control_heads late_catalog).

Definition unread_head : head_entry := (candidate_key late_fact, head_row noon late_fact "" 0).

Definition late_head := default unread_head late_entry.

Definition late_value := ok_or [] (head_value float_text late_head "control" "s1").

Lemma late_head_stored :
  control_heads late_catalog = [late_head] ∧ cand_family late_head.1 = "control" ∧
  head_value float_text late_head "control" "s1" = Ok late_value ∧
  assoc "authority_class" late_value = VStr "provider_control" ∧
  wire_datetime no_other_form (TimeJson (assoc "observed_at" late_value)) = Ok (utc_at 9999 12 31 23 59 59) ∧
  assoc "lease_ttl_ms" late_value = VInt 60000.
Proof. vm_compute. repeat split. Qed.

Lemma late_lease_raises_witness :
  ∃ e, effective_head float_text no_other_form table_row (control_heads late_catalog) (exact_query "s1") noon = Err e ∧
       rejects e = false.
Proof.
  refine (late_lease_raises float_text no_other_form table_row (control_heads late_catalog) (exact_query "s1") noon
            late_head late_value (utc_at 9999 12 31 23 59 59) 60000 _ eq_refl _ _ _ _ _ _ _).
  - rewrite (proj1 late_head_stored). left.
  - exact (proj1 (proj2 late_head_stored)).
  - exact (proj1 (proj2 (proj2 late_head_stored))).
  - exact (proj1 (proj2 (proj2 (proj2 late_head_stored)))).
  - exact (proj1 (proj2 (proj2 (proj2 (proj2 late_head_stored))))).
  - exact (proj2 (proj2 (proj2 (proj2 (proj2 late_head_stored))))).
  - reflexivity.
  - vm_compute. discriminate.
Defined.

(** The reducer accepted that head, and authorizing on it raises. *)
Example late_lease_denies_by_raising :
  authorize_exact_control_fact float_text no_other_form table_row "s1" "r1" "codex" "c1" "g1" "send_input"
    (control_heads late_catalog) ["send_input"] noon = Err OverflowError.
Proof. vm_compute. reflexivity. Qed.
