(* ===== verification/SessionSamples.v ===== *)
(** * Concrete sessions

    Contracts, kernel rows, runtime states and catalogs on which the theorems
    of the read side are instantiated. *)

From S2P Require Import Prelude PyStr PyTime PyValue Sha256 MachineEvidence FactStore FactReducer FactReads.
From S2P Require Import FactSamples.
From S2P Require Import ConsoleControl ProviderContracts Capabilities RuntimeView Liveness StateContract.
From S2P Require Import SessionState SendAffordance.

Open Scope list_scope.
Open Scope Z_scope.

(** ** Fact reads *)

Definition no_page : Z * gmap string (list head_entry) * gset string := (0, ∅, ∅).
Definition sample_read := read_bounded_sessions_fact_heads later_catalog ["s2"; "s1"]%string ["phase"%string] 8.
Definition sample_page :=
  match sample_read with Ok page => page | Err _ => no_page end.

Lemma sample_page_read :
  read_bounded_sessions_fact_heads later_catalog ["s2"; "s1"]%string ["phase"%string] 8
  = Ok (sample_page.1.1, sample_page.1.2, sample_page.2).
Proof. vm_compute. reflexivity. Qed.

Lemma page_read_is_read_per_session_witness :
  ∃ rows truncated, read_bounded_session_fact_heads later_catalog "s1" ["phase"%string] 8 = Ok (9, rows, truncated).
Proof.
  eexists _, _. apply (page_read_is_read_per_session later_catalog ["s2"; "s1"]%string ["phase"%string] 8 9
                         sample_page.1.2 sample_page.2 "s1"%string sample_page_read). right. left.
Defined.

(** ** Console *)

Lemma console_actions_are_gated_witness :
  cc_can_start_turn (project_console_control false true (Some " Active "%string) true true true) = true ∧
  cc_can_interrupt_active_turn (project_console_control false true (Some " Active "%string) true true true) = true.
Proof.
  destruct (console_actions_are_gated false true (Some " Active "%string) true true true) as (H1 & _ & _ & H4 & _).
  split; [by apply H1|apply H4]. vm_compute. done.
Defined.

(** ** Provider contracts *)

Definition sample_contract (provider plane : string) (transport : ManagedSessionTransport) (steer : bool) :
    ManagedProviderContract :=
  Contract provider transport plane [] "launch" true true true true steer false true true true true true
    [(provider +:+ ".send")%string; (provider +:+ ".interrupt")%string] [].

Definition claude_contract := sample_contract "claude" "claude_channel_bridge" CLAUDE_CHANNEL_BRIDGE false.
Definition codex_contract := sample_contract "codex" "codex_app_server" CODEX_APP_SERVER true.
Definition sample_contracts : list ManagedProviderContract := [claude_contract; codex_contract].

Definition sample_registry : registry :=
  match load_registry sample_contracts with Ok reg => reg | Err _ => Registry [] ∅ end.

Lemma sample_registry_loads : load_registry sample_contracts = Ok sample_registry.
Proof. vm_compute. reflexivity. Qed.

Lemma registry_loads_iff_planes_are_unclaimed_witness :
  is_ok (load_registry (sample_contracts ++ [claude_contract])) = false ∧
  contract_for_control_plane sample_registry (Some " codex_app_server "%string) = Some codex_contract.
Proof.
  split.
  - apply not_true_is_false. intros H.
    apply (proj1 (registry_loads_iff_planes_are_unclaimed (sample_contracts ++ [claude_contract]))) in H.
    apply NoDup_cons in H as [H _]. apply H. vm_compute. right. left.
  - apply (proj2 (registry_loads_iff_planes_are_unclaimed sample_contracts) sample_registry _ codex_contract
             sample_registry_loads). split; [right; left|vm_compute; left].
Defined.

Lemma machine_control_names_are_faithful_witness :
  machine_control_capability_for_operation codex_contract "interrupt" = Some "codex.interrupt"%string ∧
  machine_control_operation_for_support codex_contract "codex.interrupt" = Some "interrupt"%string.
Proof.
  assert (machine_control_capability_for_operation codex_contract "interrupt" = Some "codex.interrupt"%string) as H
    by (vm_compute; reflexivity).
  split; [done|]. apply (machine_control_names_are_faithful codex_contract "interrupt" "codex.interrupt"); [|done|done].
  split; [done|]. repeat constructor.
Defined.

(** ** Kernel rows *)

Definition sample_connection (id : Z) (state : string) (health : datetime) : SessionConnection :=
  Connection id "r1" (Some "codex_app_server"%string) (Some "spawned_control"%string) (Some state) 1 1 1 1 1
             (Some noon) (Some health) None None.

Definition sample_thread : SessionThread := Thread "t1" "s1" 1 noon.
Definition sample_run : SessionRun := Run "r1" "t1" (Some noon) None None.
Definition two_connections : list SessionConnection :=
  [sample_connection 1 "attached" noon; sample_connection 2 "detached" noon].
Definition sample_db : kernel_db := KernelDb [sample_thread] [sample_run] two_connections.

(** Five and sixty minutes after noon. *)
Definition soon : datetime := dt_add noon (seconds 300).
Definition much_later : datetime := one_pm.

Definition sample_caps (now : datetime) : KernelSessionCapabilities :=
  payload_from_rows sample_registry "s1" (Some sample_thread) (Some sample_run) two_connections now.

Lemma best_connection_is_greatest_witness :
  select_best_connection two_connections soon = Some (sample_connection 1 "attached" noon) ∧
  select_best_connection (rev two_connections) soon = select_best_connection two_connections soon.
Proof.
  split; [vm_compute; reflexivity|].
  apply (best_connection_is_greatest two_connections soon); [|apply perm_swap].
  apply (bool_decide_unpack _). vm_compute. exact I.
Defined.

Lemma live_means_confirmed_control_witness :
  kc_live_control_available (sample_caps soon) = true ∧ kc_live_control_available (sample_caps much_later) = false.
Proof.
  split; [|vm_compute; reflexivity]. apply live_means_confirmed_control.
  exists sample_thread, sample_run, (sample_connection 1 "attached" noon). do 3 (split; [reflexivity|]).
  split; [vm_compute; reflexivity|]. split.
  - by apply str_in_spec.
  - split; [by apply str_in_spec|]. exists noon. split; [reflexivity|]. vm_compute. intros [=].
Defined.

Lemma granted_actions_are_backed_witness :
  ∃ conn, select_best_connection two_connections soon = Some conn ∧ sc_can_send_input conn ≠ 0 ∧
          control_plane_supports sample_registry (sc_control_plane conn) "send_input" = true.
Proof.
  destruct (granted_actions_are_backed sample_registry "s1" (Some sample_thread) (Some sample_run) two_connections soon)
    as (_ & _ & H).
  apply (H "send_input"%string sc_can_send_input true (kc_live_control_available (sample_caps soon))); [left|done].
Defined.

Lemma bulk_projection_is_per_session_witness :
  project_capabilities_bulk sample_registry sample_db ["s2"; "s1"]%string soon !! "s1"%string
  = Some (project_session_capabilities sample_registry sample_db "s1" soon).
Proof. apply (bulk_projection_is_per_session sample_registry sample_db ["s2"; "s1"]%string soon "s1"). set_solver. Defined.

(** ** Runtime state *)

Definition sample_session : SessionRow :=
  Session None None (Some "managed_local"%string) (Some noon) None None None None (Some 3) None None None.

(** A thinking agent whose evidence holds until 12:10. *)
Definition thinking_state : SessionRuntimeState :=
  RuntimeState (Some "thinking"%string) (Some "hook"%string) None None None None (Some 4) (Some noon) (Some noon)
               (Some noon) (Some noon) (Some noon) (Some (dt_add noon (seconds 600))).

Definition sample_view (now : datetime) : SessionRuntimeView := build_runtime_view thinking_state sample_session now.

Lemma thinking_expired e : normalize_utc (rs_freshness_expires_at thinking_state) = Some e → instant e ≤ instant much_later.
Proof. intros [= <-]. vm_compute. intros [=]. Qed.

Lemma stale_runtime_shows_nothing_live_witness :
  rv_display_phase (sample_view soon) = "Thinking"%string ∧ rv_display_phase (sample_view much_later) = "Inactive"%string.
Proof.
  split; [vm_compute; reflexivity|].
  destruct (stale_runtime_shows_nothing_live thinking_state sample_session much_later) as (_ & _ & _ & _ & H & _);
    [apply thinking_expired|vm_compute; reflexivity|vm_compute; intros [=]|exact H].
Defined.

(** ** Liveness *)

Definition sample_overlay (state : string) (expires : datetime) : control_overlay :=
  ControlOverlay (Some state) None None (Some "machine_lease"%string) (Some noon) None (Some expires) None None None.

Definition online_host : HostObservation := HostObs "online" (Some noon) (Some "machine_heartbeat"%string).

Lemma online_control_has_an_unexpired_lease_witness :
  ∃ ov expires, Some (sample_overlay "attached" one_pm) = Some ov ∧
    co_expires_at (control_observation "managed" online_host (Some (sample_overlay "attached" one_pm)) soon) = Some expires ∧
    instant soon < instant expires.
Proof.
  apply (online_control_has_an_unexpired_lease "managed" online_host (Some (sample_overlay "attached" one_pm)) soon).
  vm_compute. reflexivity.
Defined.

Definition gone_binding : binding_overlay :=
  BindingOverlay (Some "online"%string) (Some noon) (Some "process_gone"%string) (Some "observed"%string) None None
                 (Some noon) (Some noon) None None.

Definition unmanaged_caps : KernelSessionCapabilities := imported_payload "s1" None None false false false None soon.

Lemma closed_lifecycle_needs_closing_evidence_witness :
  lf_state (sl_lifecycle (build_session_liveness_facts None unmanaged_caps None (Some gone_binding) None None None soon))
  = "closed"%string ∧
  sl_process_state (build_session_liveness_facts None unmanaged_caps None (Some gone_binding) None None None soon)
  = "closed"%string.
Proof.
  split; [vm_compute; reflexivity|].
  apply (closed_lifecycle_needs_closing_evidence None unmanaged_caps None (Some gone_binding) None None None soon).
  vm_compute. reflexivity.
Defined.

(** ** State contract *)

Definition sample_inputs : row_inputs := Inputs None None None None None false false 1 1 (Some "current"%string) None.

Definition sample_liveness (now : datetime) : SessionLivenessFacts :=
  build_session_liveness_facts (Some (sample_view now)) (sample_caps now) None None None None
    (Some (sample_overlay "online" (dt_add noon (seconds 600)))) now.

Definition sample_facts (now : datetime) : SessionStateFacts :=
  build_session_state_facts sample_session (Some (sample_view now)) (sample_caps now) (Some (sample_liveness now))
    sample_inputs now.

Example sample_keys :
  key_of (pr_primary (sf_presentation (sample_facts soon))) = Some "thinking"%string ∧
  key_of (pr_access (sf_presentation (sample_facts soon))) = Some "live_control"%string ∧
  key_of (pr_primary (sf_presentation (sample_facts much_later))) = Some "activity_unknown"%string.
Proof. vm_compute. done. Qed.

Definition closed_axis : SessionDispositionFacts := Disposition DClosed (Some noon) None.
Definition open_axis : SessionDispositionFacts := Disposition DOpen None None.

Lemma presentation_keys_are_published_witness :
  pr_access (sf_presentation (assemble_session_state_facts Helm closed_axis None None (sf_activity (sample_facts soon))
    (sf_control (sample_facts soon)) None (sf_transcript (sample_facts soon)) (HostFacts HOnline None) None None None None))
  = None.
Proof.
  apply (presentation_keys_are_published Helm closed_axis None None (sf_activity (sample_facts soon))
    (sf_control (sample_facts soon)) None (sf_transcript (sample_facts soon)) (HostFacts HOnline None) None None None None).
  reflexivity.
Defined.

Lemma lease_actions_need_grant_and_connection_witness :
  aa_state (ca_send_input (ct_actions (control_of (sample_caps soon) (sample_liveness soon) much_later))) ≠ Available.
Proof.
  apply (lease_actions_need_grant_and_connection (sample_caps soon) (sample_liveness soon) much_later _
           (kc_can_send_input (sample_caps soon) && kc_live_control_available (sample_caps soon)) false); [left|].
  exists (dt_add noon (seconds 600)). split; [vm_compute; reflexivity|vm_compute; intros [=]].
Defined.

Lemma console_access_names_the_blocker_witness :
  key_of (access ConsoleMode open_axis
    (console_control_of (project_console_turn_capabilities unmanaged_caps false true None false true true))
    (sf_transcript (sample_facts soon))) = Some "machine_offline"%string.
Proof.
  apply (console_access_names_the_blocker unmanaged_caps false true None false true true open_axis
           (sf_transcript (sample_facts soon))). reflexivity.
Defined.

Lemma archive_invents_nothing_witness :
  key_of (pr_access (sf_presentation (build_archive_session_state_facts sample_session unmanaged_caps sample_inputs)))
  = Some "search_only"%string.
Proof.
  apply (archive_invents_nothing sample_session unmanaged_caps sample_inputs). split; vm_compute; reflexivity.
Defined.

Lemma offered_send_is_backed_end_to_end_witness :
  ∃ conn, select_best_connection two_connections soon = Some conn ∧ confirmed conn soon.
Proof.
  destruct (offered_send_is_backed_end_to_end sample_registry "s1" (Some sample_thread) (Some sample_run)
    two_connections soon sample_session (Some (sample_view soon)) (sample_liveness soon) sample_inputs soon)
    as (_ & r & conn & _ & _ & Hbest & _ & Hc & _); [vm_compute; intros [=]|vm_compute; reflexivity|].
  by exists conn.
Defined.

Lemma expired_evidence_shows_no_activity_witness :
  ac_state (sf_activity (sample_facts much_later)) = AUnknown.
Proof.
  apply (expired_evidence_shows_no_activity thinking_state sample_session (sample_caps much_later)
           (Some (sample_liveness much_later)) sample_inputs much_later). apply thinking_expired.
Defined.

Lemma current_transcript_is_not_behind_witness :
  tr_convergence (transcript_of sample_session false false 1 1 (Some "current"%string) false (Some 3) (Some 3) None None)
  = Current ∧ 3 ≤ 3.
Proof.
  split; [vm_compute; reflexivity|].
  destruct (current_transcript_is_not_behind sample_session false false 1 1 (Some "current"%string) false (Some 3)
              (Some 3) None None) as [H _].
  destruct H as [H _]; [vm_compute; reflexivity|]. by apply H.
Defined.

Lemma composer_answers_agree_witness :
  af_composer_enabled (project_send_affordance sample_registry (sample_caps soon) "Read only." (Some "Codex"%string)
    (Some "helm"%string) None true (Some "online"%string) false None) = true ∧
  af_send_disabled_reason (project_send_affordance sample_registry (sample_caps soon) "Read only." (Some "Codex"%string)
    (Some "helm"%string) None true (Some "online"%string) false None) = None.
Proof.
  split; [vm_compute; reflexivity|].
  apply (composer_answers_agree sample_registry (sample_caps soon) "Read only." (Some "Codex"%string)
           (Some "helm"%string) None true (Some "online"%string) false None). vm_compute. reflexivity.
Defined.
