(* ===== verification/PyText.v ===== *)
(** * UUIDs, slices and the default form of json.dumps

    What the input queue uses of the standard library's text: [uuid.UUID] of a
    string and [str] of a UUID, [json.dumps(v, sort_keys=True)], and slices. *)

From S2P Require Import Prelude PyStr PyValue Sha256 PyJson.

Open Scope Z_scope.

(** ** [int(s, 16)] *)

(** The white space that [int] accepts around its digits. *)
Definition is_int_space (c : ascii) : bool :=
  let n := code c in (((9 <=? n) && (n <=? 13)) || (n =? 32) || (n =? 133) || (n =? 160))%nat.

Fixpoint skip_int_space (s : string) : string :=
  match s with
  | String c s' => if is_int_space c then skip_int_space s' else s
  | EmptyString => s
  end.

(** Hexadecimal digits, with single underscores between them; [digit] tells
    whether the last character was a digit. *)
Fixpoint hex_digits (s : string) (acc : Z) (digit : bool) : option Z :=
  match s with
  | EmptyString => if digit then Some acc else None
  | String c s' =>
      if (code c =? 95)%nat then if digit then hex_digits s' acc false else None
      else match hex_value c with
           | Some d => hex_digits s' (16 * acc + Z.of_nat d) true
           | None => if digit && String.eqb (skip_int_space s) "" then Some acc else None
           end
  end.

(** The digits after [0x] may start with an underscore. *)
Definition skip_hex_prefix (s : string) : string :=
  match s with
  | String z (String x s') =>
      if (code z =? 48)%nat && ((code x =? 120) || (code x =? 88))%nat then
        match s' with String u s'' => if (code u =? 95)%nat then s'' else s' | EmptyString => s' end
      else s
  | _ => s
  end.

(** [int(s, 16)] of a text without [-]. *)
Definition int16 (s : string) : option Z :=
  let s := skip_int_space s in
  let s := match s with String c s' => if (code c =? 43)%nat then s' else s | EmptyString => s end in
  hex_digits (skip_hex_prefix s) 0 false.

(** ** [int(s)] *)

(** Decimal digits with single underscores between them: the value, how many
    digits there are, and the rest. *)
Fixpoint dec_digits (s : string) (acc : Z) (n : nat) (digit : bool) : option (Z * nat) :=
  match s with
  | EmptyString => if digit then Some (acc, n) else None
  | String c s' =>
      if (code c =? 95)%nat then if digit then dec_digits s' acc n false else None
      else match digit_value c with
           | Some d => dec_digits s' (10 * acc + d) (S n) true
           | None => if digit && String.eqb (skip_int_space s) "" then Some (acc, n) else None
           end
  end.

(** [int(s)] of a text; [None] when it raises [ValueError], as it does beyond
    4300 digits. *)
Definition int10 (s : string) : option Z :=
  let s := skip_int_space s in
  let '(sign, s) := match s with
                    | String c s' => if (code c =? 43)%nat then (1, s') else if (code c =? 45)%nat then (-1, s') else (1, s)
                    | EmptyString => (1, s)
                    end in
  match dec_digits s 0 0 false with
  | Some (z, n) => if (n <=? 4300)%nat then Some (sign * z) else None
  | None => None
  end.

Example int10_example :
  map int10 ["42"; " -1_0 "; "+7"; "1__0"; "_1"; "1_"; ""; "0x1"; "- 1"]%string
  = [Some 42; Some (-10); Some 7; None; None; None; None; None; None].
Proof. vm_compute. reflexivity. Qed.

(** ** UUIDs *)

(** [s.replace(needle, "")]; [skip] characters of a match are still to be
    dropped. *)
Fixpoint remove_sub (needle : string) (skip : nat) (s : string) : string :=
  match s with
  | EmptyString => EmptyString
  | String c s' =>
      match skip with
      | S k => remove_sub needle k s'
      | O => if startswith needle s then remove_sub needle (String.length needle - 1) s'
             else String c (remove_sub needle 0 s')
      end
  end.

Definition is_brace (c : ascii) : bool := ((code c =? 123) || (code c =? 125))%nat.

Fixpoint lstrip_braces (s : string) : string :=
  match s with
  | String c s' => if is_brace c then lstrip_braces s' else s
  | EmptyString => s
  end.

(** [s.strip("{}")]. *)
Definition strip_braces (s : string) : string :=
  str_rev_acc (lstrip_braces (str_rev_acc (lstrip_braces s) "")) "".

(** [uuid.UUID(s).int]; [None] when it raises. *)
Definition uuid_of (s : string) : option Z :=
  let s := remove_sub "-" 0 (strip_braces (remove_sub "uuid:" 0 (remove_sub "urn:" 0 s))) in
  if (String.length s =? 32)%nat then int16 s else None.

(** The [w] lowest hexadecimal digits of [z]. *)
Fixpoint hex_text (w : nat) (z : Z) (rest : string) : string :=
  match w with
  | O => rest
  | S w' => hex_text w' (z / 16) (String (hex_digit (Z.to_nat (z mod 16))) rest)
  end.

(** [str(u)]. *)
Definition uuid_str (z : Z) : string :=
  hex_text 8 (Z.shiftr z 96) ("-" +:+ hex_text 4 (Z.shiftr z 80) ("-" +:+ hex_text 4 (Z.shiftr z 64)
    ("-" +:+ hex_text 4 (Z.shiftr z 48) ("-" +:+ hex_text 12 z "")))).

(** [str(uuid.UUID(s))]. *)
Definition uuid_text (s : string) : option string := uuid_str <$> uuid_of s.

Example uuid_example :
  uuid_text "{12345678-9ABC-def0-1234-56789abcdef0}" = Some "12345678-9abc-def0-1234-56789abcdef0" ∧
  uuid_text "urn:uuid:12345678-9abc-def0-1234-56789abcdef0" = Some "12345678-9abc-def0-1234-56789abcdef0" ∧
  uuid_text "12345678-9abc-def0-1234-56789abcdeg0" = None ∧ uuid_text "1234" = None.
Proof. vm_compute. repeat split. Qed.

(** ** Slices *)

(** [s[:n]]. *)
Definition str_take (n : nat) (s : string) : string := String.substring 0 n s.

(** ** [json.dumps] in its default form

    How a string is encoded and how the items of a dict are ordered depend on
    the options. *)

(** [py_encode_basestring_ascii], below 256: a character outside the printable
    ASCII ones is written in hexadecimal. *)
Definition ascii_escape_char (c : ascii) : string :=
  let n := code c in
  if (126 <? n)%nat then "\u00" +:+ hex_pair n else json_escape_char c.

Fixpoint ascii_escape (s : string) : string :=
  match s with
  | EmptyString => EmptyString
  | String c s' => ascii_escape_char c +:+ ascii_escape s'
  end.

Definition ascii_string (s : string) : string := quote +:+ ascii_escape s +:+ quote.

Fixpoint json_text (encode : string → string) (order : list (string * string) → list (string * string)) (v : pyval) :
    string :=
  match v with
  | VNone => "null"
  | VBool true => "true"
  | VBool false => "false"
  | VInt z => pretty z
  | VFloat _ r => r
  | VStr s => encode s
  | VList l => "[" +:+ join ", " (map (json_text encode order) l) +:+ "]"
  | VDict l =>
      let items := map (λ kv : string * pyval, (kv.1, json_text encode order kv.2)) l in
      "{" +:+ join ", " (map (λ kv : string * string, encode kv.1 +:+ ": " +:+ kv.2) (order items)) +:+ "}"
  end.

(** [json.dumps(v, sort_keys=True)], [json.dumps(v)] and
    [json.dumps(v, ensure_ascii=False, sort_keys=True)]. *)
Definition json_dumps : pyval → string := json_text ascii_string sort_items.
Definition json_dumps_plain : pyval → string := json_text ascii_string id.
Definition json_dumps_wide : pyval → string := json_text json_string sort_items.

Example json_dumps_example :
  json_dumps (VDict [("reason", VStr "transient"); ("attempts", VInt 2)]) =
    "{" +:+ quote +:+ "attempts" +:+ quote +:+ ": 2, "
        +:+ quote +:+ "reason" +:+ quote +:+ ": " +:+ quote +:+ "transient" +:+ quote +:+ "}".
Proof. vm_compute. reflexivity. Qed.

(** ** SHA-1

    [uuid.uuid5(namespace, name)], after FIPS 180-4 and RFC 4122: what the
    identifier of a provider interaction is made of.  Words are as in
    [Sha256]. *)

#[local] Open Scope N_scope.

Definition rotl (n x : N) : N := rotr (32 - n) x.

Definition sha1_initial : list N := [0x67452301; 0xefcdab89; 0x98badcfe; 0x10325476; 0xc3d2e1f0].

(** The message schedule, newest word first. *)
Fixpoint sha1_schedule (n : nat) (w : list N) : list N :=
  match n with
  | O => w
  | S n' =>
      let next := rotl 1 (N.lxor (N.lxor (nth 2 w 0) (nth 7 w 0)) (N.lxor (nth 13 w 0) (nth 15 w 0))) in
      sha1_schedule n' (next :: w)
  end.

(** The function and the constant of a step. *)
Definition sha1_mix (t : nat) (b c d : N) : N :=
  if (t <? 20)%nat then ch b c d + 0x5a827999
  else if (t <? 40)%nat then xor3 b c d + 0x6ed9eba1
  else if (t <? 60)%nat then maj b c d + 0x8f1bbcdc
  else xor3 b c d + 0xca62c1d6.

Definition sha1_round (h : list N) (tw : nat * N) : list N :=
  match h with
  | [a; b; c; d; e] => [(rotl 5 a + sha1_mix tw.1 b c d + e + tw.2) mod W32; a; rotl 30 b; c; d]
  | _ => h
  end.

Definition sha1_compress (h block : list N) : list N :=
  let w := rev (sha1_schedule 64 (rev block)) in
  zip_with add32 h (fold_left sha1_round (zip (seq 0 80) w) h).

Definition sha1 (bytes : list N) : list N :=
  let words := be_words (pad bytes) in
  concat (map (be_bytes 4) (fold_left sha1_compress (blocks (length words) words) sha1_initial)).

Example sha1_vectors :
  hex_bytes (sha1 (bytes_of "abc")) = "a9993e364706816aba3e25717850c26c9cd0d89d" ∧
  hex_bytes (sha1 (repeat 97 100)) = "7f9000257a4918d7072655ea468540cdcbd42e0c".
Proof. vm_compute. split; reflexivity. Qed.

Definition of_bytes (l : list N) : N := fold_left (λ acc b, acc * 256 + b) l 0.

(** The first 16 bytes of the hash, with the version and the variant set. *)
Definition uuid5 (namespace : N) (name : string) : string :=
  let h := of_bytes (take 16 (sha1 (be_bytes 16 namespace ++ bytes_of (utf8_encode name)))) in
  let h := N.lor (N.ldiff h (N.shiftl 0xc000 48)) (N.shiftl 0x8000 48) in
  let h := N.lor (N.ldiff h (N.shiftl 0xf000 64)) (N.shiftl 5 76) in
  uuid_str (Z.of_N h).

Definition NAMESPACE_URL : N := 0x6ba7b8119dad11d180b400c04fd430c8.

Example uuid5_example : uuid5 NAMESPACE_URL "longhouse-pause:claude:k:1" = "6ead3fa5-6b52-51f0-be93-9d85436aa811".
Proof. vm_compute. reflexivity. Qed.
