(* ===== verification/Bytes.v ===== *)
(** * Byte strings

    [bytes] is a list of bytes.  What the storage boundary uses of Python on
    them: big-endian integers ([int.to_bytes], [int.from_bytes] and the
    formats of [struct]), UTF-8 over the whole of Unicode, base64url, and
    slices; with the law of each that an encoder's output is read back. *)

From S2P Require Import Prelude PyStr PyValue Sha256.

Open Scope list_scope.
Open Scope Z_scope.

Abbreviation bytes := (list Ascii.ascii).

Definition byte_value (c : ascii) : Z := Z.of_N (Ascii.N_of_ascii c).
Definition byte_of (z : Z) : ascii := Ascii.ascii_of_N (Z.to_N z).

Definition len (b : bytes) : Z := Z.of_nat (length b).

(** [data[start:stop]] for [0 <= start <= stop <= len(data)]. *)
Definition slice (start stop : Z) (data : bytes) : bytes :=
  take (Z.to_nat (stop - start)) (drop (Z.to_nat start) data).

Lemma byte_value_range c : 0 <= byte_value c < 256.
Proof. unfold byte_value. pose proof (Ascii.N_ascii_bounded c). lia. Qed.

Lemma byte_of_value c : byte_of (byte_value c) = c.
Proof. unfold byte_of, byte_value. by rewrite N2Z.id, Ascii.ascii_N_embedding. Qed.

Lemma byte_value_of z : 0 <= z < 256 → byte_value (byte_of z) = z.
Proof. intros Hz. unfold byte_of, byte_value. rewrite Ascii.N_ascii_embedding by lia. lia. Qed.

Lemma len_app a b : len (a ++ b) = len a + len b.
Proof. unfold len. rewrite length_app. lia. Qed.

Lemma len_nonneg b : 0 <= len b.
Proof. unfold len. lia. Qed.

Lemma slice_app p f r stop : stop = len p + len f → slice (len p) stop (p ++ f ++ r) = f.
Proof.
  intros ->. unfold slice, len. rewrite Nat2Z.id, drop_app_length.
  replace (Z.to_nat _) with (length f) by lia. by rewrite take_app_length.
Qed.

(** ** Big-endian integers *)

(** The [n] low bytes of [z], most significant first: [z.to_bytes(n, "big")]
    for [0 <= z < 256^n], and the unsigned formats of [struct]. *)
Fixpoint be (n : nat) (z : Z) : bytes :=
  match n with O => [] | S n' => be n' (z / 256) ++ [byte_of (z mod 256)] end.

(** [int.from_bytes(data, "big")]. *)
Definition be_value (data : bytes) : Z := fold_left (λ acc c, acc * 256 + byte_value c) data 0.

(** [struct]'s signed 64-bit integer, [">q"]. *)
Definition be_signed64 (z : Z) : bytes := be 8 (z mod 2 ^ 64).
Definition signed64_value (data : bytes) : Z :=
  let v := be_value data in if v <? 2 ^ 63 then v else v - 2 ^ 64.

Lemma be_length n z : length (be n z) = n.
Proof. revert z; induction n as [|n IH]; intros z; simpl; [done|]. rewrite length_app, IH. simpl. lia. Qed.

Lemma len_be n z : len (be n z) = Z.of_nat n.
Proof. unfold len. by rewrite be_length. Qed.

Lemma be_value_snoc data c : be_value (data ++ [c]) = be_value data * 256 + byte_value c.
Proof. unfold be_value. by rewrite fold_left_app. Qed.

Lemma be_value_be n z : 0 <= z < 256 ^ Z.of_nat n → be_value (be n z) = z.
Proof.
  revert z; induction n as [|n IH]; intros z Hz; simpl be.
  - cbn in *. lia.
  - rewrite Nat2Z.inj_succ, Z.pow_succ_r in Hz by lia.
    rewrite be_value_snoc, IH, byte_value_of; [pose proof (Z.div_mod z 256); lia|apply Z.mod_pos_bound; lia|].
    split; [apply Z.div_pos; lia|apply Z.div_lt_upper_bound; lia].
Qed.

Lemma be_inj n a b : 0 <= a < 256 ^ Z.of_nat n → 0 <= b < 256 ^ Z.of_nat n → be n a = be n b → a = b.
Proof. intros Ha Hb E. rewrite <- (be_value_be n a), <- (be_value_be n b) by done. by rewrite E. Qed.

Lemma signed64_value_be z : - 2 ^ 63 <= z < 2 ^ 63 → signed64_value (be_signed64 z) = z.
Proof.
  intros Hz. unfold signed64_value, be_signed64.
  rewrite be_value_be by (change (256 ^ Z.of_nat 8) with (2 ^ 64); apply Z.mod_pos_bound; lia).
  destruct (decide (z < 0)) as [Hn|Hn].
  - replace (z mod 2 ^ 64) with (z + 2 ^ 64) by (apply (Z.mod_unique _ _ (-1)); lia).
    destruct (Z.ltb_spec (z + 2 ^ 64) (2 ^ 63)); lia.
  - rewrite Z.mod_small by lia. destruct (Z.ltb_spec z (2 ^ 63)); lia.
Qed.

Lemma take_app_len {A} (a b : list A) n : n = length a → take n (a ++ b) = a.
Proof. intros ->. apply take_app_length. Qed.

Lemma app_inj_len {A} (a b c d : list A) : length a = length c → a ++ b = c ++ d → a = c ∧ b = d.
Proof. intros Hl. by apply app_inj_1. Qed.

(** ** UTF-8 *)

(** A [str] as its code points. *)
Abbreviation ustr := (list Z).

Definition is_surrogate (cp : Z) : bool := (55296 <=? cp) && (cp <=? 57343).

(** The code points that [str.encode] can encode. *)
Definition is_scalar (cp : Z) : bool := (0 <=? cp) && (cp <? 1114112) && negb (is_surrogate cp).

Definition utf8_char (cp : Z) : bytes :=
  if cp <? 128 then [byte_of cp]
  else if cp <? 2048 then [byte_of (192 + cp / 64); byte_of (128 + cp mod 64)]
  else if cp <? 65536 then
    [byte_of (224 + cp / 4096); byte_of (128 + cp / 64 mod 64); byte_of (128 + cp mod 64)]
  else
    [byte_of (240 + cp / 262144); byte_of (128 + cp / 4096 mod 64); byte_of (128 + cp / 64 mod 64);
     byte_of (128 + cp mod 64)].

(** [value.encode("utf-8", errors="strict")]. *)
Fixpoint encode_utf8 (s : ustr) : res bytes :=
  match s with
  | [] => Ok []
  | cp :: s' =>
      let! _ := guard (is_scalar cp) (ValueError "surrogates not allowed") in
      let! rest := encode_utf8 s' in
      Ok (utf8_char cp ++ rest)
  end.

Definition is_continuation (n : Z) : bool := (128 <=? n) && (n <? 192).

(** [data.decode("utf-8", errors="strict")]. *)
Fixpoint decode_utf8 (data : bytes) : option ustr :=
  match data with
  | [] => Some []
  | c0 :: r0 =>
      let n0 := byte_value c0 in
      if n0 <? 128 then cons n0 <$> decode_utf8 r0
      else
        match r0 with
        | [] => None
        | c1 :: r1 =>
            let n1 := byte_value c1 in
            if negb (is_continuation n1) then None
            else if (194 <=? n0) && (n0 <? 224) then cons ((n0 - 192) * 64 + (n1 - 128)) <$> decode_utf8 r1
            else
              match r1 with
              | [] => None
              | c2 :: r2 =>
                  let n2 := byte_value c2 in
                  if negb (is_continuation n2) then None
                  else if (224 <=? n0) && (n0 <? 240) then
                    let cp := (n0 - 224) * 4096 + (n1 - 128) * 64 + (n2 - 128) in
                    if (2048 <=? cp) && negb (is_surrogate cp) then cons cp <$> decode_utf8 r2 else None
                  else
                    match r2 with
                    | [] => None
                    | c3 :: r3 =>
                        let n3 := byte_value c3 in
                        if negb (is_continuation n3) then None
                        else if (240 <=? n0) && (n0 <? 245) then
                          let cp := (n0 - 240) * 262144 + (n1 - 128) * 4096 + (n2 - 128) * 64 + (n3 - 128) in
                          if (65536 <=? cp) && (cp <? 1114112) then cons cp <$> decode_utf8 r3 else None
                        else None
                    end
              end
        end
  end.

Ltac byte_arith := Z.to_euclidean_division_equations; lia.

(** Case analysis on the tests in the goal, refuting the branches that
    arithmetic excludes. *)
Ltac byte_case :=
  match goal with
  | |- context [if ?b then _ else _] => destruct b eqn:?; [|exfalso; byte_arith] || (destruct b eqn:?; [exfalso; byte_arith|])
  end.

Lemma decode_utf8_char cp rest : is_scalar cp = true →
  decode_utf8 (utf8_char cp ++ rest) = cons cp <$> decode_utf8 rest.
Proof.
  unfold is_scalar, is_surrogate, utf8_char. intros Hcp.
  destruct (Z.ltb_spec cp 128); [|destruct (Z.ltb_spec cp 2048); [|destruct (Z.ltb_spec cp 65536)]];
    cbn [app decode_utf8]; rewrite !byte_value_of by byte_arith; unfold is_continuation, is_surrogate, negb;
    repeat byte_case; f_equal; f_equal; byte_arith.
Qed.

Lemma utf8_roundtrip s data : encode_utf8 s = Ok data → decode_utf8 data = Some s.
Proof.
  revert data; induction s as [|cp s IH]; intros data; [by intros [= <-]|].
  cbn [encode_utf8]. intros ([] & Hcp%guard_ok & He)%bind_ok. apply bind_ok in He as (rest & Hr & [= <-]).
  rewrite decode_utf8_char by done. by rewrite (IH _ Hr).
Qed.

Lemma encode_utf8_inj s t data : encode_utf8 s = Ok data → encode_utf8 t = Ok data → s = t.
Proof. intros Hs%utf8_roundtrip Ht%utf8_roundtrip. congruence. Qed.

(** ** Base64 with the URL alphabet *)

Definition b64_char (n : Z) : ascii :=
  byte_of (if n <? 26 then 65 + n else if n <? 52 then 71 + n else if n <? 62 then n - 4
           else if n =? 62 then 45 else 95).

Definition b64_value (c : ascii) : option Z :=
  let n := byte_value c in
  if (65 <=? n) && (n <=? 90) then Some (n - 65)
  else if (97 <=? n) && (n <=? 122) then Some (n - 71)
  else if (48 <=? n) && (n <=? 57) then Some (n + 4)
  else if n =? 45 then Some 62
  else if n =? 95 then Some 63
  else None.

Definition pad_char : ascii := byte_of 61.

(** [base64.urlsafe_b64encode]. *)
Fixpoint urlsafe_b64encode (data : bytes) : bytes :=
  match data with
  | [] => []
  | [a] =>
      let x := byte_value a in [b64_char (x / 4); b64_char (x mod 4 * 16); pad_char; pad_char]
  | [a; b] =>
      let x := byte_value a in let y := byte_value b in
      [b64_char (x / 4); b64_char (x mod 4 * 16 + y / 16); b64_char (y mod 16 * 4); pad_char]
  | a :: b :: c :: data' =>
      let x := byte_value a in let y := byte_value b in let z := byte_value c in
      b64_char (x / 4) :: b64_char (x mod 4 * 16 + y / 16) :: b64_char (y mod 16 * 4 + z / 64) :: b64_char (z mod 64)
      :: urlsafe_b64encode data'
  end.

(** [data.rstrip(b"=")]. *)
Fixpoint rstrip_pad (data : bytes) : bytes :=
  match data with
  | [] => []
  | c :: data' =>
      match rstrip_pad data' with
      | [] => if Ascii.eqb c pad_char then [] else [c]
      | r => c :: r
      end
  end.

Definition b64_error : exn := ValueError "binascii.Error".

(** [base64.b64decode(data, altchars=b"-_", validate=True)]: whole groups of
    four, the last of them padded; the unused low bits of the last character
    are ignored. *)
Fixpoint b64decode (data : bytes) : res bytes :=
  match data with
  | [] => Ok []
  | c1 :: c2 :: c3 :: c4 :: data' =>
      match b64_value c1, b64_value c2 with
      | Some v1, Some v2 =>
          let x := byte_of (v1 * 4 + v2 / 16) in
          match b64_value c3, b64_value c4 with
          | Some v3, Some v4 =>
              let! rest := b64decode data' in
              Ok (x :: byte_of (v2 mod 16 * 16 + v3 / 4) :: byte_of (v3 mod 4 * 64 + v4) :: rest)
          | Some v3, None =>
              if Ascii.eqb c4 pad_char && bool_decide (data' = [])
              then Ok [x; byte_of (v2 mod 16 * 16 + v3 / 4)] else Err b64_error
          | None, _ =>
              if Ascii.eqb c3 pad_char && Ascii.eqb c4 pad_char && bool_decide (data' = [])
              then Ok [x] else Err b64_error
          end
      | _, _ => Err b64_error
      end
  | _ => Err b64_error
  end.

(** [data + b"=" * (-len(data) % 4)]. *)
Definition repad (data : bytes) : bytes := data ++ repeat pad_char (Z.to_nat (- len data mod 4)).

(** [re.compile(r"[A-Za-z0-9_-]+\Z").fullmatch(s)]. *)
Definition is_base64url (s : bytes) : bool :=
  bool_decide (s ≠ []) && forallb (λ c, bool_decide (is_Some (b64_value c))) s.

Lemma b64_value_char n : 0 <= n < 64 → b64_value (b64_char n) = Some n.
Proof.
  intros Hn. unfold b64_value, b64_char. rewrite byte_value_of by (repeat case_match; lia).
  repeat case_match; f_equal; lia.
Qed.

Lemma b64_char_not_pad n : 0 <= n < 64 → Ascii.eqb (b64_char n) pad_char = false.
Proof.
  intros Hn. destruct (Ascii.eqb_spec (b64_char n) pad_char) as [E|]; [|done].
  pose proof (b64_value_char n Hn) as V. rewrite E in V. by vm_compute in V.
Qed.

Lemma list_ind3 {A} (P : list A → Prop) :
  P [] → (∀ a, P [a]) → (∀ a b, P [a; b]) → (∀ a b c l, P l → P (a :: b :: c :: l)) → ∀ l, P l.
Proof.
  intros H0 H1 H2 H3. fix IH 1. intros [|a [|b [|c l]]]; [done|apply H1|apply H2|apply H3, IH].
Qed.

Lemma rstrip_pad_cons c l : Ascii.eqb c pad_char = false → rstrip_pad (c :: l) = c :: rstrip_pad l.
Proof. intros Hc. simpl. rewrite Hc. by destruct (rstrip_pad l). Qed.

Lemma repad_cons4 c1 c2 c3 c4 l : repad (c1 :: c2 :: c3 :: c4 :: l) = c1 :: c2 :: c3 :: c4 :: repad l.
Proof.
  unfold repad, len. cbn [app length]. do 4 f_equal. f_equal. f_equal. f_equal.
  rewrite !Nat2Z.inj_succ. replace (- _) with (- Z.of_nat (length l) + (-1) * 4) by lia. apply Z.mod_add. lia.
Qed.

(** The sextets of three bytes, within range. *)
Ltac sextets :=
  repeat match goal with
  | |- context [byte_value ?c] =>
      lazymatch goal with H : 0 <= byte_value c < 256 |- _ => fail | _ => pose proof (byte_value_range c) end
  end.

Ltac sextet_step :=
  first [rewrite rstrip_pad_cons by (apply b64_char_not_pad; byte_arith)
        |rewrite b64_value_char by byte_arith].

Lemma byte_of_is z c : z = byte_value c → byte_of z = c.
Proof. intros ->. apply byte_of_value. Qed.

Lemma base64url_roundtrip data : b64decode (repad (rstrip_pad (urlsafe_b64encode data))) = Ok data.
Proof.
  induction data as [|a|a b|a b c l IH] using list_ind3; [done|..]; cbn [urlsafe_b64encode]; sextets;
    repeat rewrite rstrip_pad_cons by (apply b64_char_not_pad; byte_arith).
  - cbn [rstrip_pad Ascii.eqb]. change (Ascii.eqb pad_char pad_char) with true. cbv iota.
    change (repad _) with [b64_char (byte_value a / 4); b64_char (byte_value a mod 4 * 16); pad_char; pad_char].
    cbn [b64decode]. rewrite !b64_value_char by byte_arith. cbn. f_equal. f_equal. apply byte_of_is. byte_arith.
  - cbn [rstrip_pad]. change (Ascii.eqb pad_char pad_char) with true. cbv iota.
    change (repad [?x; ?y; ?z]) with [x; y; z; pad_char].
    cbn [b64decode]. rewrite !b64_value_char by byte_arith. cbn. f_equal.
    f_equal; [|f_equal]; apply byte_of_is; byte_arith.
  - rewrite repad_cons4. cbn [b64decode]. rewrite !b64_value_char by byte_arith. rewrite IH. cbn. f_equal.
    f_equal; [|f_equal; [|f_equal]]; apply byte_of_is; byte_arith.
Qed.

Lemma base64url_alphabet data : data ≠ [] → is_base64url (rstrip_pad (urlsafe_b64encode data)) = true.
Proof.
  intros Hd. unfold is_base64url. rewrite andb_true_iff, bool_decide_eq_true. split.
  - destruct data as [|a [|b [|c l]]]; [done|..]; cbn [urlsafe_b64encode]; sextets;
      by rewrite rstrip_pad_cons by (apply b64_char_not_pad; byte_arith).
  - clear Hd. induction data as [|a|a b|a b c l IH] using list_ind3; [done|..]; cbn [urlsafe_b64encode]; sextets;
      repeat rewrite rstrip_pad_cons by (apply b64_char_not_pad; byte_arith);
      cbn [forallb]; rewrite !b64_value_char by byte_arith; [done|done|by rewrite IH].
Qed.
