(* ===== verification/StorageContracts.v ===== *)
(** * The storage contracts

    Models [src/server/zerg/storage_v2/contracts.py]: the identity of an
    envelope of raw records, its durable receipt, and the two paging cursors,
    each as the bytes it is written in.

    Text is a list of code points ([Bytes.ustr]).  The normal form of Unicode,
    [unicodedata.normalize("NFC", value)], is the parameter [nfc]; a [UUID] is
    its 128-bit integer. *)

From S2P Require Import Prelude PyStr PyValue PyText Sha256 Bytes.

Open Scope list_scope.
Open Scope Z_scope.

(** ** Text and hashes *)

Definition chars (s : string) : bytes := String.list_ascii_of_string s.
Definition of_chars (b : bytes) : string := String.string_of_list_ascii b.

(** The code points of a string, and of an ASCII literal. *)
Definition ustr_of (s : string) : ustr := map byte_value (chars s).

(** [value.encode("ascii", errors="strict")]. *)
Definition encode_ascii (s : ustr) : res bytes :=
  if forallb (λ cp, (0 <=? cp) && (cp <? 128)) s then Ok (map byte_of s)
  else Err (ValueError "ordinal not in range(128)").

(** [_PROVIDER_PATTERN.fullmatch(value)]. *)
Definition is_lower_alnum (cp : Z) : bool := (97 <=? cp) && (cp <=? 122) || (48 <=? cp) && (cp <=? 57).

Definition provider_pattern (s : ustr) : bool :=
  match s with
  | [] => false
  | cp :: s' =>
      is_lower_alnum cp && forallb (λ cp, is_lower_alnum cp || (cp =? 95) || (cp =? 45)) s'
      && (Z.of_nat (length s') <=? 31)
  end.

Definition hex_char_value (c : ascii) : Z := let n := byte_value c in if n <? 58 then n - 48 else n - 87.

(** [bytes.fromhex] of an even number of lowercase digits, and [data.hex()]. *)
Fixpoint fromhex (s : bytes) : bytes :=
  match s with a :: b :: s' => byte_of (hex_char_value a * 16 + hex_char_value b) :: fromhex s' | _ => [] end.

Definition hex_char (n : Z) : ascii := byte_of (if n <? 10 then 48 + n else 87 + n).

Fixpoint to_hex (data : bytes) : bytes :=
  match data with
  | [] => []
  | c :: data' => hex_char (byte_value c / 16) :: hex_char (byte_value c mod 16) :: to_hex data'
  end.

(** [hashlib.sha256(data).digest()] and [.hexdigest()]. *)
Definition sha256_hexdigest (data : bytes) : string := sha256_hex (of_chars data).
Definition sha256_digest (data : bytes) : bytes := fromhex (chars (sha256_hexdigest data)).

(** ** Fields *)

Definition ENVELOPE_DOMAIN : bytes := chars "longhouse-envelope-v2" ++ [byte_of 0].
Definition CURSOR_MAGIC : bytes := chars "LHC2".

Definition range_kind_code (range_kind : string) : option Z :=
  if String.eqb range_kind "byte_offset" then Some 1
  else if String.eqb range_kind "record_ordinal" then Some 2 else None.

(** [_length_prefixed]. *)
Definition length_prefixed (value : bytes) (width : nat) : res bytes :=
  let! _ := guard (len value <=? 2 ^ (Z.of_nat width * 8) - 1) (ValueError "field exceeds its maximum") in
  Ok (be width (len value) ++ value).

Record EnvelopeIdentity : Type := Identity {
  ei_tenant_id : ustr;
  ei_machine_id : ustr;
  ei_provider : ustr;
  ei_opaque_source_id : ustr;
  ei_source_epoch : Z;
  ei_range_kind : string;
  ei_range_start : Z;
  ei_range_end : Z;
  ei_record_hashes : list bytes;
}.

Definition hash_records (records : list bytes) : list bytes := map sha256_digest records.

Record DurableReceipt : Type := Receipt {
  dr_envelope_id : string;
  dr_object_hash : string;
  dr_commit_seq : Z;
  dr_render_state : string;
  dr_media_state : string;
  dr_missing_media_hashes : list string;
}.

Record RenderDetailCursor : Type := RenderCursor {
  rc_session_id : Z;
  rc_render_generation : Z;
  rc_order_time_us : Z;
  rc_machine_id : ustr;
  rc_provider : ustr;
  rc_opaque_source_id : ustr;
  rc_source_epoch : Z;
  rc_source_position : Z;
  rc_event_subordinal : Z;
}.

Record RawExportCursor : Type := ExportCursor {
  xc_session_id : Z;
  xc_machine_id : ustr;
  xc_provider : ustr;
  xc_opaque_source_id : ustr;
  xc_source_epoch : Z;
  xc_range_start : Z;
  xc_envelope_id : string;
}.

#[export] Instance identity_eq_dec : EqDecision EnvelopeIdentity.
Proof. solve_decision. Defined.
#[export] Instance render_cursor_eq_dec : EqDecision RenderDetailCursor.
Proof. solve_decision. Defined.
#[export] Instance export_cursor_eq_dec : EqDecision RawExportCursor.
Proof. solve_decision. Defined.

(** ** Receipts *)

Definition sorted_strings (l : list string) : list string := py_sorted str_cmp l.

(** [DurableReceipt.as_wire]. *)
Definition as_wire (r : DurableReceipt) : res (list (string * pyval)) :=
  let hashes := dr_missing_media_hashes r in
  let! _ := guard (is_sha256 (dr_envelope_id r)) (ValueError "envelope_id must be lowercase SHA-256 hex") in
  let! _ := guard (is_sha256 (dr_object_hash r)) (ValueError "object_hash must be lowercase SHA-256 hex") in
  let! _ := guard ((0 <=? dr_commit_seq r) && (dr_commit_seq r <? 2 ^ 64)) (ValueError "commit_seq exceeds u64") in
  let! _ := guard (str_in (dr_render_state r) ["ready"; "pending"; "failed"]%string)
              (ValueError "unsupported render_state") in
  let! _ := guard (str_in (dr_media_state r) ["complete"; "pending"; "missing"]%string)
              (ValueError "unsupported media_state") in
  let! _ := guard (bool_decide (hashes = sorted_strings (remove_dups hashes)) && forallb is_sha256 hashes)
              (ValueError "missing media hashes must be unique, sorted lowercase SHA-256 hex") in
  let! _ := guard (negb (String.eqb (dr_media_state r) "complete" && negb (bool_decide (hashes = []))))
              (ValueError "complete media cannot have missing hashes") in
  let! _ := guard (negb (String.eqb (dr_media_state r) "missing" && bool_decide (hashes = [])))
              (ValueError "missing media must name at least one hash") in
  Ok [("v", VInt 2); ("envelope_id", VStr (dr_envelope_id r)); ("object_hash", VStr (dr_object_hash r));
      ("commit_seq", VStr (pretty (dr_commit_seq r))); ("raw_state", VStr "durable");
      ("render_state", VStr (dr_render_state r)); ("media_state", VStr (dr_media_state r));
      ("missing_media_hashes", VList (map VStr hashes))]%string.

Section Contracts.
Context (nfc : ustr → ustr).

(** [_canonical_utf8]. *)
Definition canonical_utf8 (value : ustr) : res bytes :=
  let! _ := guard (bool_decide (nfc value = value)) (ValueError "must already be NFC-normalized") in
  encode_utf8 value.

(** A text field: its length on [width] bytes, then its UTF-8. *)
Definition text_field (value : ustr) (width : nat) : res bytes :=
  let! data := canonical_utf8 value in length_prefixed data width.

(** ** The identity of an envelope *)

(** [encode_envelope_preimage]. *)
Definition encode_envelope_preimage (i : EnvelopeIdentity) : res bytes :=
  let! provider := encode_ascii (ei_provider i) in
  let! _ := guard (provider_pattern (ei_provider i)) (ValueError "provider must be canonical lowercase ASCII") in
  match range_kind_code (ei_range_kind i) with
  | None => Err (ValueError "unsupported range_kind")
  | Some range_kind =>
      let! _ := guard ((0 <=? ei_range_start i) && (ei_range_start i <=? ei_range_end i) && (ei_range_end i <? 2 ^ 64))
                  (ValueError "range must be an unsigned [start, end) interval") in
      let! _ := guard (Z.of_nat (length (ei_record_hashes i)) <? 2 ^ 32) (ValueError "record count exceeds u32") in
      let! _ := guard (negb ((ei_range_start i =? ei_range_end i) && negb (bool_decide (ei_record_hashes i = []))))
                  (ValueError "an empty range cannot contain records") in
      let! _ := guard (negb ((ei_range_start i <? ei_range_end i) && bool_decide (ei_record_hashes i = [])))
                  (ValueError "a non-empty range must contain records") in
      let! _ := guard (forallb (λ h, len h =? 32) (ei_record_hashes i))
                  (ValueError "record hashes must be SHA-256 digests") in
      let! tenant := text_field (ei_tenant_id i) 4 in
      let! machine := text_field (ei_machine_id i) 4 in
      let! provider := length_prefixed provider 4 in
      let! source := text_field (ei_opaque_source_id i) 4 in
      Ok (ENVELOPE_DOMAIN ++ tenant ++ machine ++ provider ++ source ++ be 16 (ei_source_epoch i)
          ++ (be 1 range_kind ++ be 8 (ei_range_start i) ++ be 8 (ei_range_end i)
              ++ be 4 (Z.of_nat (length (ei_record_hashes i))))
          ++ concat (ei_record_hashes i))
  end.

(** [envelope_id]. *)
Definition envelope_id (i : EnvelopeIdentity) : res string :=
  let! preimage := encode_envelope_preimage i in Ok (sha256_hexdigest preimage).

(** ** Cursors *)

Definition cursor_header (kind : Z) : bytes := CURSOR_MAGIC ++ (be 1 kind ++ be 1 1 ++ be 2 0).

(** [encode_render_detail_cursor]. *)
Definition encode_render_detail_cursor (c : RenderDetailCursor) : res bytes :=
  let! provider := encode_ascii (rc_provider c) in
  let! _ := guard (provider_pattern (rc_provider c)) (ValueError "provider must be canonical lowercase ASCII") in
  let! _ := guard ((- 2 ^ 63 <=? rc_order_time_us c) && (rc_order_time_us c <? 2 ^ 63))
              (ValueError "order_time_us exceeds i64") in
  let! _ := guard ((0 <=? rc_source_position c) && (rc_source_position c <? 2 ^ 64))
              (ValueError "source_position exceeds u64") in
  let! _ := guard ((0 <=? rc_event_subordinal c) && (rc_event_subordinal c <? 2 ^ 32))
              (ValueError "event_subordinal exceeds u32") in
  let! machine := text_field (rc_machine_id c) 2 in
  let! provider := length_prefixed provider 2 in
  let! source := text_field (rc_opaque_source_id c) 4 in
  Ok (cursor_header 1 ++ be 16 (rc_session_id c) ++ be 16 (rc_render_generation c) ++ be_signed64 (rc_order_time_us c)
      ++ machine ++ provider ++ source ++ be 16 (rc_source_epoch c)
      ++ (be 8 (rc_source_position c) ++ be 4 (rc_event_subordinal c))).

(** [encode_raw_export_cursor]. *)
Definition encode_raw_export_cursor (c : RawExportCursor) : res bytes :=
  let! provider := encode_ascii (xc_provider c) in
  let! _ := guard (provider_pattern (xc_provider c)) (ValueError "provider must be canonical lowercase ASCII") in
  let! _ := guard ((0 <=? xc_range_start c) && (xc_range_start c <? 2 ^ 64)) (ValueError "range_start exceeds u64") in
  let! _ := guard (is_sha256 (xc_envelope_id c)) (ValueError "envelope_id must be lowercase SHA-256 hex") in
  let! machine := text_field (xc_machine_id c) 2 in
  let! provider := length_prefixed provider 2 in
  let! source := text_field (xc_opaque_source_id c) 4 in
  Ok (cursor_header 2 ++ be 16 (xc_session_id c) ++ machine ++ provider ++ source ++ be 16 (xc_source_epoch c)
      ++ be 8 (xc_range_start c) ++ fromhex (chars (xc_envelope_id c))).

(** [render_detail_cursor_token], [raw_export_cursor_token]: the cursor's bytes
    in base64url without padding. *)
Definition token_of (encoded : bytes) : string := of_chars (rstrip_pad (urlsafe_b64encode encoded)).

Definition render_detail_cursor_token (c : RenderDetailCursor) : res string :=
  token_of <$> encode_render_detail_cursor c.

Definition raw_export_cursor_token (c : RawExportCursor) : res string :=
  token_of <$> encode_raw_export_cursor c.

(** The bytes of a token, which is bounded before it is decoded. *)
Definition token_bytes (token : string) : res bytes :=
  let! _ := guard (negb (String.eqb token "") && (len (chars token) <=? 8192) && is_base64url (chars token))
              (ValueError "cursor must be a bounded base64url token") in
  match b64decode (repad (chars token)) with
  | Ok encoded => Ok encoded
  | Err _ => Err (ValueError "cursor is not valid base64url")
  end.

(** The checks of the fixed part: size, magic, and kind, version and reserved
    bytes. *)
Definition check_header (minimum kind : Z) (encoded : bytes) : res unit :=
  let! _ := guard (negb ((len encoded <? minimum) || negb (bool_decide (slice 0 4 encoded = CURSOR_MAGIC))))
              (ValueError "cursor has an invalid header") in
  guard (bool_decide ((be_value (slice 4 5 encoded), be_value (slice 5 6 encoded), be_value (slice 6 8 encoded)) = (kind, 1, 0)))
    (ValueError "cursor version is unsupported").

(** [read_text]: the field and the offset after it. *)
Definition read_text (encoded : bytes) (offset : Z) (width : Z) : res (ustr * Z) :=
  let! _ := guard (offset + width <=? len encoded) (ValueError "cursor is truncated") in
  let length := be_value (slice offset (offset + width) encoded) in
  let offset := offset + width in
  let! _ := guard (offset + length <=? len encoded) (ValueError "cursor is truncated") in
  match decode_utf8 (slice offset (offset + length) encoded) with
  | None => Err (ValueError "cursor field is not UTF-8")
  | Some value =>
      let! _ := guard (negb (bool_decide (value = []) || negb (bool_decide (nfc value = value))))
                  (ValueError "cursor field is not canonical") in
      Ok (value, offset + length)
  end.

(** The source coordinate both cursors name. *)
Definition read_source (encoded : bytes) (offset : Z) : res (ustr * ustr * ustr * Z) :=
  let! '(machine_id, offset) := read_text encoded offset 2 in
  let! '(provider, offset) := read_text encoded offset 2 in
  let! _ := guard (provider_pattern provider) (ValueError "cursor provider is not canonical") in
  let! '(opaque_source_id, offset) := read_text encoded offset 4 in
  Ok (machine_id, provider, opaque_source_id, offset).

(** [decode_render_detail_cursor_token]. *)
Definition decode_render_detail_cursor_token (token : string) : res RenderDetailCursor :=
  let! encoded := token_bytes token in
  let! _ := check_header (4 + 4 + 16 + 16 + 8 + 2 + 2 + 4 + 16 + 8 + 4) 1 encoded in
  let session_id := be_value (slice 8 24 encoded) in
  let render_generation := be_value (slice 24 40 encoded) in
  let order_time_us := signed64_value (slice 40 48 encoded) in
  let! '(machine_id, provider, opaque_source_id, offset) := read_source encoded 48 in
  let! _ := guard (offset + 28 =? len encoded) (ValueError "cursor has trailing or truncated fields") in
  let source_epoch := be_value (slice offset (offset + 16) encoded) in
  let source_position := be_value (slice (offset + 16) (offset + 24) encoded) in
  let event_subordinal := be_value (slice (offset + 24) (offset + 28) encoded) in
  let cursor := RenderCursor session_id render_generation order_time_us machine_id provider opaque_source_id
                  source_epoch source_position event_subordinal in
  let! again := encode_render_detail_cursor cursor in
  let! _ := guard (bool_decide (again = encoded)) (ValueError "cursor is not canonical") in
  Ok cursor.

(** [decode_raw_export_cursor_token]. *)
Definition decode_raw_export_cursor_token (token : string) : res RawExportCursor :=
  let! encoded := token_bytes token in
  let! _ := check_header (4 + 4 + 16 + 2 + 2 + 4 + 16 + 8 + 32) 2 encoded in
  let session_id := be_value (slice 8 24 encoded) in
  let! '(machine_id, provider, opaque_source_id, offset) := read_source encoded 24 in
  let! _ := guard (offset + 56 =? len encoded) (ValueError "cursor has trailing or truncated fields") in
  let source_epoch := be_value (slice offset (offset + 16) encoded) in
  let range_start := be_value (slice (offset + 16) (offset + 24) encoded) in
  let envelope_id := of_chars (to_hex (slice (offset + 24) (offset + 56) encoded)) in
  let cursor := ExportCursor session_id machine_id provider opaque_source_id source_epoch range_start envelope_id in
  let! again := encode_raw_export_cursor cursor in
  let! _ := guard (bool_decide (again = encoded)) (ValueError "cursor is not canonical") in
  Ok cursor.
End Contracts.
