(* ===== verification/StorageContractProps.v ===== *)
(** * Laws and properties of the storage contracts

    What is written at the storage boundary is read back as it was, and an
    envelope's bytes determine its identity. *)

From S2P Require Import Prelude PyStr PyValue Sha256 PyText Bytes StorageContracts.

Open Scope list_scope.
Open Scope Z_scope.

(** Passes the first check of the goal. *)
Tactic Notation "pass" "by" tactic3(tac) :=
  match goal with |- context [mbind _ (guard ?ok ?e)] => rewrite (proj2 (guard_ok ok e)) by tac end; cbn [mbind res_bind].

(** The lengths of concatenated fields, with the literal widths computed. *)
Ltac literal_widths :=
  repeat match goal with |- context [Z.of_nat (S ?n)] =>
    let v := eval vm_compute in (Z.of_nat (S n)) in change (Z.of_nat (S n)) with v end.

Lemma len_signed64 z : len (be_signed64 z) = 8.
Proof. apply (len_be 8). Qed.

Ltac lengths := rewrite ?len_app, ?len_signed64, ?len_be; literal_widths.

Lemma Ok_inj {A} (a b : A) : Ok a = Ok b → a = b.
Proof. by intros [= ->]. Qed.

(** ** Hexadecimal *)

Lemma hex_char_value_of n : 0 <= n < 16 → hex_char_value (hex_char n) = n.
Proof.
  intros Hn. unfold hex_char_value, hex_char. rewrite byte_value_of by (case_match; lia). repeat case_match; lia.
Qed.

Lemma fromhex_to_hex data : fromhex (to_hex data) = data.
Proof.
  induction data as [|c data IH]; [done|]. cbn [to_hex fromhex]. pose proof (byte_value_range c).
  rewrite !hex_char_value_of by byte_arith. rewrite IH. f_equal. apply byte_of_is. byte_arith.
Qed.

Lemma hex_char_of_value c : is_hex_lower c = true → 0 <= hex_char_value c < 16 ∧ hex_char (hex_char_value c) = c.
Proof.
  unfold is_hex_lower. cbv zeta. intros Hc.
  assert (byte_value c = Z.of_nat (code c)) as Ev by (unfold byte_value, Ascii.nat_of_ascii; by rewrite N_nat_Z).
  rewrite orb_true_iff, !andb_true_iff, !Nat.leb_le in Hc.
  unfold hex_char, hex_char_value. rewrite Ev. split; [case_match; lia|].
  apply byte_of_is. rewrite Ev. destruct (Z.ltb_spec (Z.of_nat (code c)) 58); case_match; lia.
Qed.

Lemma list_ind2 {A} (P : list A → Prop) :
  P [] → (∀ a, P [a]) → (∀ a b l, P l → P (a :: b :: l)) → ∀ l, P l.
Proof. intros H0 H1 H2. fix IH 1. intros [|a [|b l]]; [done|apply H1|apply H2, IH]. Qed.

Lemma to_hex_fromhex s : (length s mod 2 = 0)%nat → forallb is_hex_lower s = true →
  to_hex (fromhex s) = s ∧ len (fromhex s) * 2 = len s.
Proof.
  induction s as [|a|a b s IH] using list_ind2; intros He Hs; [done|done|].
  cbn [forallb] in Hs. apply andb_true_iff in Hs as [Ha [Hb Hs]%andb_true_iff].
  apply hex_char_of_value in Ha as [Ha Ea], Hb as [Hb Eb].
  assert ((length s mod 2)%nat = 0%nat) as He' by (revert He; cbn [length]; rewrite <- (Nat.Div0.mod_add (length s) 1 2);
    by replace (length s + 1 * 2)%nat with (S (S (length s))) by lia).
  destruct (IH He' Hs) as [IH1 IH2]. cbn [fromhex to_hex]. rewrite IH1, byte_value_of by lia. split.
  - f_equal; [|f_equal]; [rewrite <- Ea at 2|rewrite <- Eb at 2]; f_equal; byte_arith.
  - unfold len in *. cbn [length]. lia.
Qed.

Lemma sha256_chars s : is_sha256 s = true → len (chars s) = 64 ∧ forallb is_hex_lower (chars s) = true.
Proof.
  unfold is_sha256, len, chars. rewrite andb_true_iff, Nat.eqb_eq. intros [Hl Hh]. split.
  - change 64 with (Z.of_nat 64). f_equal. rewrite <- Hl. clear. by induction s; simpl; [|f_equal].
  - clear Hl. induction s as [|c s IH]; [done|]. simpl in *. apply andb_true_iff in Hh as [-> Hh]. by apply IH.
Qed.

Lemma of_chars_chars s : of_chars (chars s) = s.
Proof. apply String.string_of_list_ascii_of_string. Qed.

Lemma chars_of_chars b : chars (of_chars b) = b.
Proof. apply String.list_ascii_of_string_of_list_ascii. Qed.

(** A hash reads back from its 32 bytes. *)
Lemma hash_bytes s : is_sha256 s = true →
  of_chars (to_hex (fromhex (chars s))) = s ∧ len (fromhex (chars s)) = 32.
Proof.
  intros [Hl Hh]%sha256_chars. destruct (to_hex_fromhex (chars s)) as [E1 E2]; [|done|].
  - unfold len in Hl. assert (length (chars s) = 64%nat) as -> by lia. done.
  - rewrite E1, of_chars_chars. split; [done|lia].
Qed.

(** ** Text fields *)

Section Fields.
Context (nfc : ustr → ustr).

Lemma length_prefixed_ok data width b : length_prefixed data width = Ok b ↔
  b = be width (len data) ++ data ∧ len data < 256 ^ Z.of_nat width.
Proof.
  unfold length_prefixed. rewrite bind_ok. change 256 with (2 ^ 8). rewrite <- Z.pow_mul_r by lia.
  replace (8 * Z.of_nat width) with (Z.of_nat width * 8) by lia. split.
  - intros ([] & Hg%guard_ok & [= <-]). split; [done|lia].
  - intros [-> Hl]. exists (). split; [apply guard_ok; lia|done].
Qed.

Lemma text_field_ok value width b : text_field nfc value width = Ok b ↔
  ∃ data, encode_utf8 value = Ok data ∧ nfc value = value ∧ length_prefixed data width = Ok b.
Proof.
  unfold text_field, canonical_utf8. rewrite bind_ok. split.
  - intros (data & ([] & Hn%guard_ok & He)%bind_ok & Hl). apply bool_decide_eq_true in Hn. eauto.
  - intros (data & He & Hn & Hl). exists data. split; [|done]. apply bind_ok. exists (). by rewrite guard_ok, bool_decide_eq_true.
Qed.

Lemma prefixed_len data width b : length_prefixed data width = Ok b → Z.of_nat width <= len b.
Proof. intros [-> _]%length_prefixed_ok. rewrite len_app, len_be. pose proof (len_nonneg data). lia. Qed.

Lemma text_field_len value width b : text_field nfc value width = Ok b → Z.of_nat width <= len b.
Proof. intros (data & _ & _ & Hl)%text_field_ok. by eapply prefixed_len. Qed.

Lemma encode_ascii_utf8 s b : encode_ascii s = Ok b → encode_utf8 s = Ok b.
Proof.
  unfold encode_ascii. destruct (forallb _ _) eqn:Hs; [|done]. intros [= <-].
  induction s as [|cp s IH]; [done|]. cbn [forallb] in Hs. apply andb_true_iff in Hs as [Hcp Hs].
  cbn [encode_utf8]. unfold is_scalar, is_surrogate.
  pass by lia. rewrite IH by done. cbn.
  unfold utf8_char. by destruct (Z.ltb_spec cp 128); [|lia].
Qed.

(** What follows a prefixed field does not change how it is read. *)
Lemma prefixed_inj d1 d2 width b1 b2 r1 r2 :
  length_prefixed d1 width = Ok b1 → length_prefixed d2 width = Ok b2 → b1 ++ r1 = b2 ++ r2 → d1 = d2 ∧ r1 = r2.
Proof.
  rewrite !length_prefixed_ok. intros [-> H1] [-> H2]. rewrite <- !(assoc_L (++)). intros E.
  pose proof (len_nonneg d1). pose proof (len_nonneg d2).
  apply app_inj_len in E as [E1 E2]; [|by rewrite !be_length]. apply be_inj in E1; [|lia..].
  apply app_inj_len in E2; [done|]. unfold len in E1. lia.
Qed.

Lemma text_field_inj v1 v2 width b1 b2 r1 r2 :
  text_field nfc v1 width = Ok b1 → text_field nfc v2 width = Ok b2 → b1 ++ r1 = b2 ++ r2 → v1 = v2 ∧ r1 = r2.
Proof.
  rewrite !text_field_ok. intros (d1 & He1 & _ & Hl1) (d2 & He2 & _ & Hl2) E.
  destruct (prefixed_inj _ _ _ _ _ _ _ Hl1 Hl2 E) as [-> ->]. split; [|done]. by eapply encode_utf8_inj.
Qed.

Lemma be_app_inj n a b r1 r2 : 0 <= a < 256 ^ Z.of_nat n → 0 <= b < 256 ^ Z.of_nat n →
  be n a ++ r1 = be n b ++ r2 → a = b ∧ r1 = r2.
Proof.
  intros Ha Hb E. apply app_inj_len in E as [E ->]; [|by rewrite !be_length]. split; [|done]. by apply be_inj in E.
Qed.

Lemma concat_inj (l1 l2 : list bytes) : length l1 = length l2 →
  forallb (λ h, len h =? 32) l1 = true → forallb (λ h, len h =? 32) l2 = true → concat l1 = concat l2 → l1 = l2.
Proof.
  revert l2; induction l1 as [|h1 l1 IH]; intros [|h2 l2] Hl H1 H2 E; [done..|].
  cbn in *. apply andb_true_iff in H1 as [Hh1%Z.eqb_eq H1], H2 as [Hh2%Z.eqb_eq H2].
  apply app_inj_len in E as [-> E]; [|unfold len in *; lia]. f_equal. apply IH; [lia|done..].
Qed.
End Fields.

(** ** The properties of the storage contracts

    The bytes of an envelope determine its identity; the token of a cursor is
    read back as that cursor; and a token that is accepted holds the canonical
    bytes of the cursor it is read as. *)

(** A value of the class [UUID]. *)
Definition is_uuid (u : Z) : Prop := 0 <= u < 2 ^ 128.

(** Bounds of a field of fixed width. *)
Ltac width_lia :=
  match goal with |- context [256 ^ Z.of_nat ?n] =>
    let v := eval vm_compute in (256 ^ Z.of_nat n) in change (256 ^ Z.of_nat n) with v end; lia.

Section Props.
Context (nfc : ustr → ustr).

(** ** The identity of an envelope *)

Lemma preimage_ok i b : encode_envelope_preimage nfc i = Ok b →
  ∃ code t m pd p s,
    encode_ascii (ei_provider i) = Ok pd ∧ provider_pattern (ei_provider i) = true ∧
    range_kind_code (ei_range_kind i) = Some code ∧
    (0 <= ei_range_start i <= ei_range_end i ∧ ei_range_end i < 2 ^ 64) ∧
    Z.of_nat (length (ei_record_hashes i)) < 2 ^ 32 ∧
    (ei_range_start i = ei_range_end i ↔ ei_record_hashes i = []) ∧
    forallb (λ h, len h =? 32) (ei_record_hashes i) = true ∧
    text_field nfc (ei_tenant_id i) 4 = Ok t ∧ text_field nfc (ei_machine_id i) 4 = Ok m ∧
    length_prefixed pd 4 = Ok p ∧ text_field nfc (ei_opaque_source_id i) 4 = Ok s ∧
    b = ENVELOPE_DOMAIN ++ t ++ m ++ p ++ s ++ be 16 (ei_source_epoch i)
        ++ (be 1 code ++ be 8 (ei_range_start i) ++ be 8 (ei_range_end i)
            ++ be 4 (Z.of_nat (length (ei_record_hashes i)))) ++ concat (ei_record_hashes i).
Proof.
  unfold encode_envelope_preimage. intros (pd & Hpd & ([] & Hpat%guard_ok & H)%bind_ok)%bind_ok.
  destruct (range_kind_code _) as [code|] eqn:Hc; [|done].
  apply bind_ok in H as ([] & Hr%guard_ok & ([] & Hn%guard_ok & ([] & He1%guard_ok & ([] & He2%guard_ok & H)%bind_ok)%bind_ok)%bind_ok).
  apply bind_ok in H as ([] & Hh%guard_ok & (t & Ht & (m & Hm & (p & Hp & (s & Hs & [= <-])%bind_ok)%bind_ok)%bind_ok)%bind_ok).
  exists code, t, m, pd, p, s. split_and!; try done; [lia..|].
  destruct (decide (ei_record_hashes i = [])) as [E|E];
    [rewrite !bool_decide_true in He1, He2 by done|rewrite !bool_decide_false in He1, He2 by done];
    (split; [|intros ?]); try done; lia.
Qed.

Lemma range_kind_code_inj k1 k2 c : range_kind_code k1 = Some c → range_kind_code k2 = Some c → k1 = k2.
Proof.
  unfold range_kind_code. intros H1 H2. repeat case_match; simplify_eq;
    repeat match goal with H : String.eqb _ _ = true |- _ => apply String.eqb_eq in H end; congruence.
Qed.

Lemma range_kind_code_range k c : range_kind_code k = Some c → 0 <= c < 256 ^ Z.of_nat 1.
Proof. unfold range_kind_code. intros H. repeat case_match; simplify_eq; lia. Qed.

Lemma encode_ascii_inj s t b : encode_ascii s = Ok b → encode_ascii t = Ok b → s = t.
Proof. intros Hs%encode_ascii_utf8 Ht%encode_ascii_utf8. by eapply encode_utf8_inj. Qed.

Lemma preimage_inj i1 i2 b :
  is_uuid (ei_source_epoch i1) → is_uuid (ei_source_epoch i2) →
  encode_envelope_preimage nfc i1 = Ok b → encode_envelope_preimage nfc i2 = Ok b → i1 = i2.
Proof.
  intros Hu1 Hu2 H1%preimage_ok H2%preimage_ok.
  destruct H1 as (c1 & t1 & m1 & pd1 & p1 & s1 & Hpd1 & _ & Hc1 & Hr1 & Hn1 & _ & Hh1 & Ht1 & Hm1 & Hp1 & Hs1 & ->).
  destruct H2 as (c2 & t2 & m2 & pd2 & p2 & s2 & Hpd2 & _ & Hc2 & Hr2 & Hn2 & _ & Hh2 & Ht2 & Hm2 & Hp2 & Hs2 & E).
  apply app_inj_len in E as [_ E]; [|done].
  destruct (text_field_inj nfc _ _ _ _ _ _ _ Ht1 Ht2 E) as [Et E1]; clear E.
  destruct (text_field_inj nfc _ _ _ _ _ _ _ Hm1 Hm2 E1) as [Em E2]; clear E1.
  destruct (prefixed_inj _ _ _ _ _ _ _ Hp1 Hp2 E2) as [Ep E3]; clear E2. subst pd2.
  destruct (text_field_inj nfc _ _ _ _ _ _ _ Hs1 Hs2 E3) as [Es E4]; clear E3.
  apply be_app_inj in E4 as [Ee E5]; [|done..]. rewrite <- !(assoc_L (++)) in E5.
  apply be_app_inj in E5 as [Ek E6]; [|by eapply range_kind_code_range..]. subst c2.
  apply be_app_inj in E6 as [Ers E7]; [|width_lia..]. apply be_app_inj in E7 as [Ere E8]; [|width_lia..].
  apply be_app_inj in E8 as [El E9]; [|width_lia..]. apply concat_inj in E9; [|lia|done..].
  destruct i1, i2; simpl in *. f_equal; try done; [by eapply encode_ascii_inj|by eapply range_kind_code_inj].
Qed.

(** C36: Different envelope identities have different preimages, so two envelopes
    share an id only where SHA-256 itself collides on their preimages. *)
Theorem preimage_determines_identity i1 i2 b1 b2 :
  is_uuid (ei_source_epoch i1) → is_uuid (ei_source_epoch i2) → i1 ≠ i2 →
  encode_envelope_preimage nfc i1 = Ok b1 → encode_envelope_preimage nfc i2 = Ok b2 → b1 ≠ b2.
Proof. intros Hu1 Hu2 Hne H1 H2 ->. by apply Hne, (preimage_inj _ _ b2). Qed.

(** ** Reading a cursor back *)

Lemma read_text_field p value width b rest : text_field nfc value width = Ok b → value ≠ [] →
  read_text nfc (p ++ b ++ rest) (len p) (Z.of_nat width) = Ok (value, len p + len b).
Proof.
  intros (data & He & Hnfc & [-> Hl]%length_prefixed_ok)%text_field_ok Hv. pose proof (len_nonneg data).
  pose proof (len_nonneg rest). rewrite <- !(assoc_L (++)).
  unfold read_text. rewrite !len_app, len_be.
  pass by lia.
  rewrite slice_app by (rewrite len_be; lia). rewrite be_value_be by lia.
  pass by lia.
  assert (len p + Z.of_nat width = len (p ++ be width (len data))) as Eo by (rewrite len_app, len_be; lia).
  rewrite Eo, (assoc_L (++) p), slice_app by lia. rewrite (utf8_roundtrip _ _ He).
  pass by (by rewrite bool_decide_false, bool_decide_true). by rewrite <- Eo, Z.add_assoc.
Qed.

(** ASCII text is in normal form C. *)
Hypothesis nfc_ascii : ∀ s b, encode_ascii s = Ok b → nfc s = s.

Lemma provider_field s b width f : encode_ascii s = Ok b → length_prefixed b width = Ok f → text_field nfc s width = Ok f.
Proof. intros Hb Hf. apply text_field_ok. exists b. eauto using encode_ascii_utf8. Qed.

Lemma provider_nonempty s : provider_pattern s = true → s ≠ [].
Proof. by intros H ->. Qed.

Lemma read_source_fields data offset prefix m v s bm bv bp bs rest :
  data = prefix ++ (bm ++ bp ++ bs) ++ rest → offset = len prefix →
  text_field nfc m 2 = Ok bm → m ≠ [] →
  encode_ascii v = Ok bv → provider_pattern v = true → length_prefixed bv 2 = Ok bp →
  text_field nfc s 4 = Ok bs → s ≠ [] →
  read_source nfc data offset = Ok (m, v, s, offset + len (bm ++ bp ++ bs)).
Proof.
  intros -> -> Hm Nm Hv Pv Hp Hs Ns. unfold read_source. rewrite <- !(assoc_L (++)).
  rewrite (read_text_field prefix m 2 bm) by done. cbn [mbind res_bind].
  rewrite (assoc_L (++) prefix), <- len_app.
  rewrite (read_text_field (prefix ++ bm) v 2 bp) by eauto using provider_field, provider_nonempty.
  cbn [mbind res_bind]. rewrite Pv. cbn [guard mbind res_bind].
  rewrite (assoc_L (++) (prefix ++ bm)), <- len_app.
  rewrite (read_text_field ((prefix ++ bm) ++ bp) s 4 bs) by done. cbn [mbind res_bind].
  by rewrite !len_app, !Z.add_assoc.
Qed.

(** *** Tokens *)

Lemma token_length data : len (rstrip_pad (urlsafe_b64encode data)) = (4 * len data + 2) / 3.
Proof.
  induction data as [|a|a b|a b c l IH] using list_ind3; [done|..]; cbn [urlsafe_b64encode]; sextets;
    repeat rewrite rstrip_pad_cons by (apply b64_char_not_pad; byte_arith); [done|done|].
  unfold len in *. cbn [length]. rewrite !Nat2Z.inj_succ, IH. byte_arith.
Qed.

Lemma token_admitted data (t := rstrip_pad (urlsafe_b64encode data)) : data ≠ [] → len data <= 6144 →
  negb (String.eqb (of_chars t) "") && (len t <=? 8192) && is_base64url t = true.
Proof.
  intros Hd Hl. pose proof (base64url_alphabet data Hd) as Ha. pose proof (token_length data).
  fold t in Ha, H. rewrite Ha, andb_true_r, andb_true_iff. split; [|byte_arith].
  apply negb_true_iff, String.eqb_neq. intros E. apply (f_equal chars) in E. rewrite chars_of_chars in E.
  by rewrite E in Ha.
Qed.

Lemma token_bytes_of data : data ≠ [] → len data <= 6144 → token_bytes (token_of data) = Ok data.
Proof.
  intros Hd Hl. unfold token_bytes, token_of. rewrite chars_of_chars, base64url_roundtrip.
  by pass by (by apply token_admitted).
Qed.

Lemma long_token_refused data : 6144 < len data → is_ok (token_bytes (token_of data)) = false.
Proof.
  intros Hl. unfold token_bytes, token_of. rewrite chars_of_chars.
  destruct (guard _ _) as [[]|] eqn:Hg; [|done]. apply guard_ok in Hg.
  rewrite token_length in Hg. exfalso. byte_arith.
Qed.

(** *** The render cursor *)

(** The fields of a cursor that the code types as [UUID] are 128-bit. *)
Definition render_cursor_typed (c : RenderDetailCursor) : Prop :=
  is_uuid (rc_session_id c) ∧ is_uuid (rc_render_generation c) ∧ is_uuid (rc_source_epoch c).

Definition export_cursor_typed (c : RawExportCursor) : Prop :=
  is_uuid (xc_session_id c) ∧ is_uuid (xc_source_epoch c).

Lemma header_checked minimum kind rest : 0 <= kind < 256 → minimum <= 8 + len rest →
  check_header minimum kind (cursor_header kind ++ rest) = Ok ().
Proof.
  intros Hk Hm. unfold check_header, cursor_header.
  assert (Hs : slice 0 4 ((CURSOR_MAGIC ++ be 1 kind ++ be 1 1 ++ be 2 0) ++ rest) = CURSOR_MAGIC) by done.
  rewrite Hs, (bool_decide_true (CURSOR_MAGIC = _)) by done. lengths.
  pass by (change (len CURSOR_MAGIC) with 4; lia).
  apply guard_ok, bool_decide_eq_true. f_equal. f_equal.
  change (slice 4 5 _) with (be 1 kind). by apply be_value_be.
Qed.


Lemma slice_is data p f r start stop :
  data = p ++ f ++ r → start = len p → stop = start + len f → slice start stop data = f.
Proof. intros -> -> ->. by apply slice_app. Qed.

(** The field [f] of [data] after [p]. *)
Ltac field_at p f r := apply (slice_is _ p f r); rewrite ?app_nil_r, ?len_app, <- ?(assoc_L (++)); first [reflexivity|lia].

(** The offsets at which a cursor's fields lie. *)
Lemma render_offsets hd sid gen ot src ep pos sub (b := hd ++ sid ++ gen ++ ot ++ src ++ ep ++ pos ++ sub)
    (o := 48 + len src) :
  len hd = 8 → len sid = 16 → len gen = 16 → len ot = 8 → len ep = 16 → len pos = 8 → len sub = 4 →
  slice 8 24 b = sid ∧ slice 24 40 b = gen ∧ slice 40 48 b = ot ∧ o + 28 = len b ∧
  slice o (o + 16) b = ep ∧ slice (o + 16) (o + 24) b = pos ∧ slice (o + 24) (o + 28) b = sub.
Proof.
  intros. subst b o. split_and!; [field_at hd sid (gen ++ ot ++ src ++ ep ++ pos ++ sub)
    |field_at (hd ++ sid) gen (ot ++ src ++ ep ++ pos ++ sub)
    |field_at (hd ++ sid ++ gen) ot (src ++ ep ++ pos ++ sub)
    |rewrite !len_app; lia
    |field_at (hd ++ sid ++ gen ++ ot ++ src) ep (pos ++ sub)
    |field_at (hd ++ sid ++ gen ++ ot ++ src ++ ep) pos sub
    |field_at (hd ++ sid ++ gen ++ ot ++ src ++ ep ++ pos) sub ([] : bytes)].
Qed.

Lemma export_offsets hd sid src ep st id (b := hd ++ sid ++ src ++ ep ++ st ++ id) (o := 24 + len src) :
  len hd = 8 → len sid = 16 → len ep = 16 → len st = 8 → len id = 32 →
  slice 8 24 b = sid ∧ o + 56 = len b ∧
  slice o (o + 16) b = ep ∧ slice (o + 16) (o + 24) b = st ∧ slice (o + 24) (o + 56) b = id.
Proof.
  intros. subst b o. split_and!; [field_at hd sid (src ++ ep ++ st ++ id)
    |rewrite !len_app; lia
    |field_at (hd ++ sid ++ src) ep (st ++ id)
    |field_at (hd ++ sid ++ src ++ ep) st id
    |field_at (hd ++ sid ++ src ++ ep ++ st) id ([] : bytes)].
Qed.

Lemma render_cursor_ok c b : encode_render_detail_cursor nfc c = Ok b →
  ∃ bv bm bp bs,
    encode_ascii (rc_provider c) = Ok bv ∧ provider_pattern (rc_provider c) = true ∧
    - 2 ^ 63 <= rc_order_time_us c < 2 ^ 63 ∧ 0 <= rc_source_position c < 2 ^ 64 ∧
    0 <= rc_event_subordinal c < 2 ^ 32 ∧
    text_field nfc (rc_machine_id c) 2 = Ok bm ∧ length_prefixed bv 2 = Ok bp ∧
    text_field nfc (rc_opaque_source_id c) 4 = Ok bs ∧
    b = cursor_header 1 ++ be 16 (rc_session_id c) ++ be 16 (rc_render_generation c) ++ be_signed64 (rc_order_time_us c)
        ++ bm ++ bp ++ bs ++ be 16 (rc_source_epoch c) ++ (be 8 (rc_source_position c) ++ be 4 (rc_event_subordinal c)).
Proof.
  unfold encode_render_detail_cursor.
  intros (bv & Hv & ([] & Pv%guard_ok & ([] & Ho%guard_ok & ([] & Hp%guard_ok & ([] & Hsub%guard_ok & H)%bind_ok)%bind_ok)%bind_ok)%bind_ok)%bind_ok.
  apply bind_ok in H as (bm & Hm & (bp & Hpf & (bs & Hs & E%Ok_inj)%bind_ok)%bind_ok).
  exists bv, bm, bp, bs. split_and!; done || lia.
Qed.

(** C37: The token of a cursor that names its machine and its source and whose
    bytes number at most 6144 is read back as that cursor.  The encoder does
    not ask for either name; see [unnamed_machine_refused] for a cursor
    without one. *)
Theorem render_cursor_roundtrip c b : render_cursor_typed c → rc_machine_id c ≠ [] → rc_opaque_source_id c ≠ [] →
  encode_render_detail_cursor nfc c = Ok b →
  len b <= 6144 → decode_render_detail_cursor_token nfc (token_of b) = Ok c.
Proof.
  intros (Us & Ug & Ue) Nm Ns Henc Hlen.
  destruct (render_cursor_ok c b Henc) as (bv & bm & bp & bs & Hv & Pv & Ho & Hp & Hsub & Hm & Hpf & Hs & E).
  unfold decode_render_detail_cursor_token. rewrite token_bytes_of by (done || by subst b). cbn [mbind res_bind].
  destruct (render_offsets (cursor_header 1) (be 16 (rc_session_id c)) (be 16 (rc_render_generation c))
    (be_signed64 (rc_order_time_us c)) (bm ++ bp ++ bs) (be 16 (rc_source_epoch c)) (be 8 (rc_source_position c))
    (be 4 (rc_event_subordinal c))) as (E1 & E2 & E3 & E4 & E5 & E6 & E7); [by lengths..|].
  rewrite <- (assoc_L (++) bm), <- (assoc_L (++) bp), <- E in E1, E2, E3, E4, E5, E6, E7.
  pose proof (text_field_len _ _ _ _ Hm) as L1. pose proof (prefixed_len _ _ _ Hpf) as L2.
  pose proof (text_field_len _ _ _ _ Hs) as L3. change (Z.of_nat 2) with 2 in L1, L2. change (Z.of_nat 4) with 4 in L3.
  rewrite E at 1. rewrite (header_checked _ 1) by (lengths; lia). cbn [mbind res_bind].
  rewrite (read_source_fields b 48 (cursor_header 1 ++ be 16 (rc_session_id c) ++ be 16 (rc_render_generation c)
    ++ be_signed64 (rc_order_time_us c)) (rc_machine_id c) (rc_provider c) (rc_opaque_source_id c) bm bv bp bs
    (be 16 (rc_source_epoch c) ++ be 8 (rc_source_position c) ++ be 4 (rc_event_subordinal c)))
    by (done || by rewrite E, <- !(assoc_L (++))). cbn [mbind res_bind].
  pass by lia. rewrite E1, E2, E3, E5, E6, E7, !be_value_be, signed64_value_be by (done || width_lia).
  destruct c; simpl in *. rewrite Henc. cbn [mbind res_bind]. by pass by (by apply bool_decide_eq_true).
Qed.

(** *** The export cursor *)

Lemma export_cursor_ok c b : encode_raw_export_cursor nfc c = Ok b →
  ∃ bv bm bp bs,
    encode_ascii (xc_provider c) = Ok bv ∧ provider_pattern (xc_provider c) = true ∧
    0 <= xc_range_start c < 2 ^ 64 ∧ is_sha256 (xc_envelope_id c) = true ∧
    text_field nfc (xc_machine_id c) 2 = Ok bm ∧ length_prefixed bv 2 = Ok bp ∧
    text_field nfc (xc_opaque_source_id c) 4 = Ok bs ∧
    b = cursor_header 2 ++ be 16 (xc_session_id c) ++ bm ++ bp ++ bs ++ be 16 (xc_source_epoch c)
        ++ be 8 (xc_range_start c) ++ fromhex (chars (xc_envelope_id c)).
Proof.
  unfold encode_raw_export_cursor.
  intros (bv & Hv & ([] & Pv%guard_ok & ([] & Hr%guard_ok & ([] & Hh%guard_ok & H)%bind_ok)%bind_ok)%bind_ok)%bind_ok.
  apply bind_ok in H as (bm & Hm & (bp & Hpf & (bs & Hs & E%Ok_inj)%bind_ok)%bind_ok).
  exists bv, bm, bp, bs. split_and!; done || lia.
Qed.

(** So is the token of an export cursor. *)
Theorem export_cursor_roundtrip c b : export_cursor_typed c → xc_machine_id c ≠ [] → xc_opaque_source_id c ≠ [] →
  encode_raw_export_cursor nfc c = Ok b →
  len b <= 6144 → decode_raw_export_cursor_token nfc (token_of b) = Ok c.
Proof.
  intros (Us & Ue) Nm Ns Henc Hlen.
  destruct (export_cursor_ok c b Henc) as (bv & bm & bp & bs & Hv & Pv & Hr & Hh & Hm & Hpf & Hs & E).
  destruct (hash_bytes _ Hh) as [Eh Lh].
  unfold decode_raw_export_cursor_token. rewrite token_bytes_of by (done || by subst b). cbn [mbind res_bind].
  destruct (export_offsets (cursor_header 2) (be 16 (xc_session_id c)) (bm ++ bp ++ bs) (be 16 (xc_source_epoch c))
    (be 8 (xc_range_start c)) (fromhex (chars (xc_envelope_id c)))) as (E1 & E2 & E3 & E4 & E5); [by lengths..|done|].
  rewrite <- (assoc_L (++) bm), <- (assoc_L (++) bp), <- E in E1, E2, E3, E4, E5.
  pose proof (text_field_len _ _ _ _ Hm) as L1. pose proof (prefixed_len _ _ _ Hpf) as L2.
  pose proof (text_field_len _ _ _ _ Hs) as L3. change (Z.of_nat 2) with 2 in L1, L2. change (Z.of_nat 4) with 4 in L3.
  rewrite E at 1. rewrite (header_checked _ 2) by (lengths; lia). cbn [mbind res_bind].
  rewrite (read_source_fields b 24 (cursor_header 2 ++ be 16 (xc_session_id c))
    (xc_machine_id c) (xc_provider c) (xc_opaque_source_id c) bm bv bp bs
    (be 16 (xc_source_epoch c) ++ be 8 (xc_range_start c) ++ fromhex (chars (xc_envelope_id c))))
    by (done || by rewrite E, <- !(assoc_L (++))). cbn [mbind res_bind].
  pass by lia. rewrite E1, E3, E4, E5, Eh, !be_value_be by (done || width_lia).
  destruct c; simpl in *. rewrite Henc. cbn [mbind res_bind]. by pass by (by apply bool_decide_eq_true).
Qed.
End Props.

(** *** What is accepted *)

Section Accepted.
Context (nfc : ustr → ustr).

(** The last step of both decoders. *)
Lemma canonical_ok {A} (encode : A → res bytes) (encoded : bytes) (c c' : A) :
  (let! again := encode c in
   let! _ := guard (bool_decide (again = encoded)) (ValueError "cursor is not canonical") in Ok c) = Ok c' →
  c' = c ∧ encode c = Ok encoded.
Proof. intros (again & -> & ([] & Hg%guard_ok%bool_decide_eq_true & [= <-])%bind_ok)%bind_ok. by subst. Qed.

(** An accepted token holds the bytes its cursor is encoded in. *)
Theorem accepted_render_cursor_is_canonical token c : decode_render_detail_cursor_token nfc token = Ok c →
  ∃ encoded, token_bytes token = Ok encoded ∧ encode_render_detail_cursor nfc c = Ok encoded.
Proof.
  unfold decode_render_detail_cursor_token. intros (encoded & Ht & ([] & _ & H)%bind_ok)%bind_ok.
  apply bind_ok in H as ([[[m v] s] o] & _ & ([] & _ & [-> Henc]%(canonical_ok _ encoded))%bind_ok). eauto.
Qed.

(** So does an accepted export token. *)
Theorem accepted_export_cursor_is_canonical token c : decode_raw_export_cursor_token nfc token = Ok c →
  ∃ encoded, token_bytes token = Ok encoded ∧ encode_raw_export_cursor nfc c = Ok encoded.
Proof.
  unfold decode_raw_export_cursor_token. intros (encoded & Ht & ([] & _ & H)%bind_ok)%bind_ok.
  apply bind_ok in H as ([[[m v] s] o] & _ & ([] & _ & [-> Henc]%(canonical_ok _ encoded))%bind_ok). eauto.
Qed.
End Accepted.
