(* ===== verification/ContractSamples.v ===== *)
(** * The storage contracts at concrete inputs

    The vectors of [src/schemas/storage-v2-contract-vectors.json], which fix
    the wire format for every implementation, and the witnesses of
    [StorageContractProps]. *)

From S2P Require Import Prelude PyStr PyValue PyText Sha256 Bytes StorageContracts StorageContractProps.

Open Scope list_scope.
Open Scope Z_scope.

Definition uuid_value (s : string) : Z := default 0 (uuid_of s).

Definition one_jsonl_record : EnvelopeIdentity :=
  Identity (ustr_of "42") (ustr_of "cinder") (ustr_of "codex") (ustr_of "/Users/david/.codex/sessions/a.jsonl")
    (uuid_value "018f0c3a-7b2d-7f10-8a11-123456789abc") "byte_offset" 0 6
    [fromhex (chars "5891b5b522d5df086d0ff0b110fbd9d21bb4fc7163af34d08286a2e846f6be03")].

Definition empty_byte_range : EnvelopeIdentity :=
  Identity (ustr_of "tenant-a") (ustr_of "mac-01") (ustr_of "claude") (ustr_of "history.jsonl")
    (uuid_value "550e8400-e29b-41d4-a716-446655440000") "byte_offset" 0 0
    [].

Definition record_ordinal_range : EnvelopeIdentity :=
  Identity (ustr_of "tenant-a") (ustr_of "mac-01") (ustr_of "claude") (ustr_of "history.jsonl")
    (uuid_value "550e8400-e29b-41d4-a716-446655440000") "record_ordinal" 5 7
    [fromhex (chars "e346432021b04179518d9614f3560ccd71354a4ee101ddcb893d6959a9d6301c"); fromhex (chars "651b5768de252a9f4d2083046d83f81c31369beb73d14411492b20ea8fd1fcf5")].

Example one_jsonl_record_id : envelope_id id one_jsonl_record =
  Ok "801d193966fb353837857774d7d7040491b0efa694a43e123fcd5c1a5f709a5c"%string.
Proof. vm_compute. reflexivity. Qed.

Example empty_byte_range_id : envelope_id id empty_byte_range =
  Ok "a0c42fe0fe6fac9777eddaca0ccc606c8f1200c9b0adfa9bf4bf5c93e1e5b5a4"%string.
Proof. vm_compute. reflexivity. Qed.

Example record_ordinal_range_id : envelope_id id record_ordinal_range =
  Ok "1e87f841296cae4482b3749c41285c4656331c7012f68e420eef18865a85ed81"%string.
Proof. vm_compute. reflexivity. Qed.

Example one_jsonl_record_hashes :
  hash_records [fromhex (chars "68656c6c6f0a")] = ei_record_hashes one_jsonl_record.
Proof. vm_compute. reflexivity. Qed.

Definition frozen_cursor : RenderDetailCursor :=
  RenderCursor (uuid_value "729be19a-17e3-47e7-a483-7ac48196f063") (uuid_value "019f51d0-861d-77b2-860d-1478077f723b") 1783824000123456
    (ustr_of "cinder") (ustr_of "codex") (ustr_of "/Users/david/.codex/sessions/a.jsonl")
    (uuid_value "018f0c3a-7b2d-7f10-8a11-123456789abc") 42 3.

Definition frozen_bytes : bytes :=
  Eval vm_compute in fromhex (chars "4c48433201010000729be19a17e347e7a4837ac48196f063019f51d0861d77b2860d1478077f723b00065660e3de8240000663696e6465720005636f646578000000242f55736572732f64617669642f2e636f6465782f73657373696f6e732f612e6a736f6e6c018f0c3a7b2d7f108a11123456789abc000000000000002a00000003").

Definition frozen_token : string :=
  "TEhDMgEBAABym-GaF-NH56SDesSBlvBjAZ9R0IYdd7KGDRR4B39yOwAGVmDj3oJAAAZjaW5kZXIABWNvZGV4AAAAJC9Vc2Vycy9kYXZpZC8uY29kZXgvc2Vzc2lvbnMvYS5qc29ubAGPDDp7LX8QihESNFZ4mrwAAAAAAAAAKgAAAAM".

Example frozen_cursor_bytes : encode_render_detail_cursor id frozen_cursor = Ok frozen_bytes.
Proof. vm_compute. reflexivity. Qed.

Example frozen_cursor_token : render_detail_cursor_token id frozen_cursor = Ok frozen_token.
Proof. vm_compute. reflexivity. Qed.

Example padded_token_refused : is_ok (decode_render_detail_cursor_token id (frozen_token +:+ "=")) = false.
Proof. vm_compute. reflexivity. Qed.

(** The unused bits of the last character are not checked: another token is
    read as the same cursor. *)
Example another_token_for_the_cursor :
  decode_render_detail_cursor_token id "TEhDMgEBAABym-GaF-NH56SDesSBlvBjAZ9R0IYdd7KGDRR4B39yOwAGVmDj3oJAAAZjaW5kZXIABWNvZGV4AAAAJC9Vc2Vycy9kYXZpZC8uY29kZXgvc2Vzc2lvbnMvYS5qc29ubAGPDDp7LX8QihESNFZ4mrwAAAAAAAAAKgAAAAN" = Ok frozen_cursor.
Proof. vm_compute. reflexivity. Qed.

(** A cursor of an unnamed machine is encoded, and its token is refused. *)
Example unnamed_machine_refused :
  let c := RenderCursor 0 0 0 [] (ustr_of "codex") (ustr_of "a") 0 0 0 in
  is_ok (render_detail_cursor_token id c) = true ∧
  is_ok (let! t := render_detail_cursor_token id c in decode_render_detail_cursor_token id t) = false.
Proof. vm_compute. done. Qed.

Definition frozen_export : RawExportCursor :=
  ExportCursor (rc_session_id frozen_cursor) (rc_machine_id frozen_cursor) (rc_provider frozen_cursor)
    (rc_opaque_source_id frozen_cursor) (rc_source_epoch frozen_cursor) 6
    "801d193966fb353837857774d7d7040491b0efa694a43e123fcd5c1a5f709a5c".

Definition frozen_export_bytes : bytes := Eval vm_compute in ok_or [] (encode_raw_export_cursor id frozen_export).

(** The same characters, split otherwise between machine and source. *)
Definition split_identity (machine source : string) : EnvelopeIdentity :=
  Identity (ustr_of "42") (ustr_of machine) (ustr_of "codex") (ustr_of source)
    (ei_source_epoch one_jsonl_record) "byte_offset" 0 6 (ei_record_hashes one_jsonl_record).

Lemma preimage_determines_identity_witness :
  ok_or [] (encode_envelope_preimage id (split_identity "mac1" "a")) ≠
  ok_or [] (encode_envelope_preimage id (split_identity "mac" "1a")).
Proof.
  apply (preimage_determines_identity id (split_identity "mac1" "a") (split_identity "mac" "1a"));
    [vm_compute; split; (reflexivity || discriminate)..|vm_compute; congruence|vm_compute; reflexivity|vm_compute; reflexivity].
Defined.

Lemma render_cursor_roundtrip_witness :
  decode_render_detail_cursor_token id (token_of frozen_bytes) = Ok frozen_cursor.
Proof.
  apply (render_cursor_roundtrip id); [done|..].
  - unfold render_cursor_typed, is_uuid. vm_compute. split_and!; done.
  - vm_compute. discriminate.
  - vm_compute. discriminate.
  - vm_compute. reflexivity.
  - vm_compute. discriminate.
Defined.

Lemma export_cursor_roundtrip_witness :
  decode_raw_export_cursor_token id (token_of frozen_export_bytes) = Ok frozen_export.
Proof.
  apply (export_cursor_roundtrip id); [done|..].
  - unfold export_cursor_typed, is_uuid. vm_compute. split_and!; done.
  - vm_compute. discriminate.
  - vm_compute. discriminate.
  - vm_compute. reflexivity.
  - vm_compute. discriminate.
Defined.

Lemma accepted_render_cursor_is_canonical_witness :
  decode_render_detail_cursor_token id frozen_token = Ok frozen_cursor ∧
  ∃ encoded, token_bytes frozen_token = Ok encoded ∧ encode_render_detail_cursor id frozen_cursor = Ok encoded.
Proof. split; [vm_compute; reflexivity|]. apply accepted_render_cursor_is_canonical. vm_compute. reflexivity. Defined.
