(* ===== verification/RuntimeEvents.v ===== *)
(** * Runtime events

    The event that a machine, a bridge or the interaction API reports about a
    session ([RuntimeEventIngest] of
    [src/server/zerg/services/session_runtime.py]), and the helpers that read
    its payload and its times.  A UUID is its canonical text, the payload is a
    JSON object, and a stored time is a UTC wall clock in microseconds. *)

From S2P Require Import Prelude PyStr PyTime PyValue MachineEvidence PyText FactReducer ProviderContracts RuntimeView.

Open Scope list_scope.
Open Scope Z_scope.

Inductive RuntimeEventKind : Type :=
  | phase_signal | progress_signal | terminal_signal | binding_signal | pause_request | pause_resolution.

#[export] Instance kind_eq_dec : EqDecision RuntimeEventKind.
Proof. solve_decision. Defined.

Record RuntimeEventIngest : Type := RuntimeEvent {
  re_runtime_key : string;
  re_session_id : option string;
  re_thread_id : option string;
  re_run_id : option string;
  re_provider : string;
  re_device_id : option string;
  re_source : string;
  re_kind : RuntimeEventKind;
  re_phase : option string;
  re_tool_name : option string;
  re_occurred_at : datetime;
  re_freshness_ms : option Z;
  re_dedupe_key : string;
  re_payload : list (string * pyval);
}.

Definition length_between (low high : nat) (s : string) : bool :=
  ((low <=? String.length s) && (String.length s <=? high))%nat.

Definition at_most (high : nat) (s : option string) : bool :=
  match s with Some s => length_between 0 high s | None => true end.

Definition MAX_FRESHNESS_MS : Z := 7 * 24 * 60 * 60 * 1000.

(** The bounds that the fields of the model declare. *)
Definition event_bounded (e : RuntimeEventIngest) : bool :=
  length_between 1 255 (re_runtime_key e) && length_between 1 64 (re_provider e) && at_most 255 (re_device_id e)
  && length_between 1 64 (re_source e) && at_most 32 (re_phase e) && at_most 128 (re_tool_name e)
  && match re_freshness_ms e with Some n => (0 <=? n) && (n <=? MAX_FRESHNESS_MS) | None => true end
  && length_between 1 255 (re_dedupe_key e).

(** Building an event checks its fields: [ValidationError] is a [ValueError]. *)
Definition ingest (e : RuntimeEventIngest) : res RuntimeEventIngest :=
  let! _ := guard (event_bounded e) (ValueError "validation error for RuntimeEventIngest") in Ok e.

(** ** Times *)

(** The wall clock of [normalize_utc(value)]. *)
Definition utc_wall (d : datetime) : res Z :=
  match dt_off d with
  | None => Ok (dt_wall d)
  | Some _ => let! u := to_utc d in Ok (dt_wall u)
  end.

(** [t + timedelta(milliseconds=n)]. *)
Definition plus_ms (t n : Z) : res Z :=
  let! _ := guard (in_years (t + ms n)) OverflowError in Ok (t + ms n).

(** [_latest_timestamp] of stored times. *)
Definition latest (values : list (option Z)) : option Z :=
  match omap id values with
  | [] => None
  | t :: ts => Some (fold_left Z.max ts t)
  end.

Section Payload.
(** [datetime.fromisoformat] off the RFC 3339 forms: see [MachineEvidence]. *)
Context (other_form : string → option datetime).

(** [_payload_timestamp]. *)
Definition payload_timestamp (payload : list (string * pyval)) (key : string) : res (option Z) :=
  match as_str (assoc key payload) ≫= (λ s, parse_iso other_form (replace_z s)) with
  | Some d => let! w := utc_wall d in Ok (Some w)
  | None => Ok None
  end.

(** [_payload_timestamp(...) or _payload_timestamp(...)]: the second is read
    only when the first is missing. *)
Definition either_timestamp (payload : list (string * pyval)) (first second : string) : res (option Z) :=
  let! at_ := payload_timestamp payload first in
  match at_ with Some _ => Ok at_ | None => payload_timestamp payload second end.

Definition MANAGED_SESSION_LEASE_SOURCE : string := "engine_attached_lease".

Definition MANAGED_CODEX_RUNTIME_SOURCES : list string :=
  [MANAGED_SESSION_LEASE_SOURCE; "codex_bridge"; "codex_bridge_live"; "codex_exec"]%string.

Definition from_managed_lease (e : RuntimeEventIngest) : bool :=
  String.eqb (strip (re_source e)) MANAGED_SESSION_LEASE_SOURCE.

(** [_stale_managed_lease_observed_at]. *)
Definition stale_managed_lease_observed_at (e : RuntimeEventIngest) (latest_phase_signal_at : option Z) :
    res (option Z) :=
  match latest_phase_signal_at with
  | None => Ok None
  | Some latest_at =>
      if negb (from_managed_lease e) then Ok None
      else
        let! observed := either_timestamp (re_payload e) "lease_observed_at" "observed_at" in
        Ok (match observed with Some at_ => if latest_at <=? at_ then None else Some at_ | None => None end)
  end.

(** [_managed_lease_refresh_at]. *)
Definition managed_lease_refresh_at (e : RuntimeEventIngest) (fallback : Z) : res Z :=
  if negb (from_managed_lease e) then Ok fallback
  else let! at_ := payload_timestamp (re_payload e) "lease_refresh_at" in Ok (default fallback at_).

(** [_phase_signal_freshness_ms]; the metrics it counts are left out. *)
Definition phase_signal_freshness_ms (e : RuntimeEventIngest) (phase : string) : option Z :=
  match re_freshness_ms e with
  | Some n => Some n
  | None =>
      if String.eqb (lower (strip (re_provider e))) "codex" && String.eqb (lower (strip (re_source e))) "codex_bridge"
      then Some (MANAGED_CODEX_FRESHNESS / 1000)
      else phase_freshness_ms (Some phase)
  end.
End Payload.

(** ** Values *)

(** [str(payload.get(key) or "").strip()]. *)
Definition payload_text (payload : list (string * pyval)) (key : string) : string := or_empty (text (assoc key payload)).

(** The [terminal_state] that a terminal event names. *)
Definition named_terminal_state (payload : list (string * pyval)) : string :=
  default "finished"%string (text (assoc "terminal_state" payload)).

(** [int(value)] of a float, from its [repr]: a float that is not an integer is
    below 2 ** 53, so it is written without an exponent unless it rounds to
    zero. *)
Fixpoint before_dot (s : string) : string :=
  match s with
  | String c s' => if (code c =? 46)%nat then EmptyString else String c (before_dot s')
  | EmptyString => EmptyString
  end.

Definition float_int (integral : option Z) (r : string) : res (option Z) :=
  match integral with
  | Some z => Ok (Some z)
  | None =>
      if String.eqb r "nan" then Ok None
      else if str_in r ["inf"; "-inf"]%string then Err OverflowError
      else if has_char (Ascii.ascii_of_nat 101) r then Ok (Some 0)
      else Ok (int10 (before_dot r))
  end.

(** [_optional_payload_int]. *)
Definition optional_payload_int (value : pyval) : res (option Z) :=
  match value with
  | VInt z => Ok (Some z)
  | VFloat i r => float_int i r
  | VStr s => Ok (int10 s)
  | VNone | VBool _ | VList _ | VDict _ => Ok None
  end.

(** [_exit_status_for_terminal]. *)
Definition exit_status_for_terminal (terminal_state : string) (payload : list (string * pyval)) : res string :=
  let explicit := match assoc "exit_status" payload with VNone => None | v => or_none (py_str v) end in
  match explicit with
  | Some s => Ok (str_take 64 s)
  | None =>
      let! exit_code := optional_payload_int (assoc "exit_code" payload) in
      Ok (match exit_code with
          | Some n => str_take 64 ("exit_" +:+ pretty n)
          | None => str_take 64 terminal_state
          end)
  end.
