(* ===== verification/PauseRequests.v ===== *)
(** * Pause requests

    The part of [src/server/zerg/services/session_pause_requests.py] that the
    live lane uses: the key of a provider's question, and the projection of it
    that clients show. *)

From S2P Require Import Prelude PyStr PyTime PyValue MachineEvidence PyText FactReducer RuntimeEvents.

Open Scope list_scope.
Open Scope Z_scope.

Definition PAUSE_KIND_STRUCTURED_QUESTION : string := "structured_question".
Definition PAUSE_KIND_PERMISSION_PROMPT : string := "permission_prompt".
Definition PAUSE_KIND_PLAN_APPROVAL : string := "plan_approval".
Definition PENDING_STATUS : string := "pending".
Definition TERMINAL_STATUSES : list string := ["resolved"; "rejected"; "failed"; "expired"]%string.

Definition QUESTION_PAYLOAD_KEYS : list string :=
  ["questions"; "question"; "prompt"; "input"; "schema"; "plan"; "steps"; "proposal"]%string.

Abbreviation json_object := (list (string * pyval)).

(** [a or b] and [key in d]. *)
Definition val_or (a b : pyval) : pyval := if truthy a then a else b.
Definition has_key (key : string) (d : json_object) : bool := bool_decide (key ∈ map fst d).

(** [d.get(k1) or d.get(k2) or ...]; the last one when all are falsy. *)
Fixpoint first_of (d : json_object) (key : string) (keys : list string) : pyval :=
  match keys with
  | [] => assoc key d
  | key' :: keys' => val_or (assoc key d) (first_of d key' keys')
  end.

(** [_clean_str]. *)
Definition clean_str (value : pyval) : option string :=
  match value with VNone => None | _ => or_none (strip (py_str value)) end.

(** [_bool]. *)
Definition bool_of (value : pyval) : bool :=
  match value with
  | VBool b => b
  | VStr s => str_in (lower (strip s)) ["1"; "true"; "yes"; "y"; "on"]%string
  | _ => truthy value
  end.

(** ** Keys *)

(** [make_pause_request_key]. *)
Definition make_pause_request_key (provider runtime_key : string) (provider_request_id fallback : option string) : string :=
  let provider_key := default "unknown" (or_none (strip provider)) in
  let runtime := default "unknown" (or_none (strip runtime_key)) in
  let suffix := default (default "unknown" (clean fallback)) (clean provider_request_id) in
  (provider_key +:+ ":" +:+ runtime +:+ ":" +:+ suffix)%string.

Definition event_provider (e : RuntimeEventIngest) : string := default "unknown"%string (or_none (strip (re_provider e))).

(** [pause_runtime_request_key]. *)
Definition pause_runtime_request_key (e : RuntimeEventIngest) : string :=
  match clean_str (assoc "request_key" (re_payload e)) with
  | Some key => key
  | None =>
      make_pause_request_key (event_provider e) (strip (re_runtime_key e))
        (clean_str (first_of (re_payload e) "provider_request_id" ["request_id"%string])) (clean (Some (re_dedupe_key e)))
  end.

(** ** Questions *)

Definition option_choice (label value : string) : pyval := VDict [("label", VStr label); ("value", VStr value)]%string.

(** [_request_payload]. *)
Definition request_payload (payload : json_object) : json_object :=
  match mapping (first_of payload "request_payload" ["request_payload_json"%string]) with
  | _ :: _ as explicit => explicit
  | [] =>
      if opt_is (clean_str (assoc "kind" payload)) PAUSE_KIND_PLAN_APPROVAL then
        let plan := first_of payload "plan" ["proposal"; "summary"; "message"]%string in
        let question := clean_str (val_or (first_of payload "question" ["prompt"%string]) plan) in
        [("questions", VList [VDict [("id", VStr "approval"); ("question", VStr (default "Approve this plan?"%string question));
                                     ("options", VList [option_choice "Approve" "approve"; option_choice "Reject" "reject"])]]);
         ("plan", plan); ("steps", assoc "steps" payload)]%string
      else map (λ key, (key, assoc key payload)) (List.filter (λ key, has_key key payload) QUESTION_PAYLOAD_KEYS)
  end.

(** One option of a question; [None] when it has no label. *)
Definition question_option (choice : pyval) : option pyval :=
  let '(label, description, value) :=
    match choice with
    | VDict o =>
        let label := clean_str (first_of o "label" ["value"; "text"]%string) in
        (label, clean_str (first_of o "description" ["detail"%string]), clean_str (val_or (assoc "value" o) (opt_str label)))
    | _ => (clean_str choice, None, clean_str choice)
    end in
  text ← label;
  Some (VDict [("label", VStr text); ("description", opt_str description); ("value", opt_str value)]%string).

Definition question_options (item : json_object) : list pyval :=
  match assoc "options" item with
  | VList options => omap question_option options
  | _ => match assoc "choices" item with VList options => omap question_option options | _ => [] end
  end.

Definition question_of (index : nat) (item : json_object) : pyval :=
  VDict [("id", VStr (default ("question_" +:+ pretty (Z.of_nat index + 1)) (clean_str (first_of item "id" ["name"; "key"]))));
         ("header", opt_str (clean_str (first_of item "header" ["title"])));
         ("question", VStr (default "Answer required" (clean_str (first_of item "question" ["prompt"; "label"]))));
         ("multi_select", VBool (bool_of (if has_key "multi_select" item then assoc "multi_select" item
                                          else assoc "multiSelect" item)));
         ("options", VList (question_options item))]%string.

(** [_normalize_questions]. *)
Fixpoint questions_from (index : nat) (items : list pyval) : list pyval :=
  match items with
  | [] => []
  | VDict item :: items' => question_of index item :: questions_from (S index) items'
  | _ :: items' => questions_from (S index) items'
  end.

Definition normalize_questions (payload : json_object) : list pyval :=
  let raw := assoc "questions" payload in
  let raw := if is_none raw && existsb (λ key, has_key key payload) ["question"; "prompt"; "options"]%string
             then VList [VDict payload] else raw in
  questions_from 0 (default [] (as_list raw)).

(** ** The projection *)

Section Projection.
Context (other_form : string → option datetime).

(** [_datetime_payload]. *)
Definition datetime_payload (value : pyval) : res (option Z) :=
  match as_str value with
  | Some s =>
      if negb (str_truthy (strip s)) then Ok None
      else match parse_iso other_form (replace_z s) with
           | Some d => let! w := utc_wall d in Ok (Some w)
           | None => Ok None
           end
  | None => Ok None
  end.

Definition iso_or_none (at_ : option Z) : pyval := opt_str ((λ w, isoformat (utc w)) <$> at_).

(** [build_pause_runtime_projection]. *)
Definition build_pause_runtime_projection (e : RuntimeEventIngest) : res json_object :=
  let payload := re_payload e in
  let request_key := pause_runtime_request_key e in
  let! occurred_at := utc_wall (re_occurred_at e) in
  let! expires_at := datetime_payload (assoc "expires_at" payload) in
  let tool_name := val_or (assoc "tool_name" payload) (opt_str (re_tool_name e)) in
  Ok [("id", VStr (uuid5 NAMESPACE_URL ("longhouse-pause:" +:+ request_key)));
      ("request_key", VStr request_key);
      ("session_id", VStr (default "None" (re_session_id e)));
      ("runtime_key", VStr (strip (re_runtime_key e)));
      ("kind", VStr (default PAUSE_KIND_STRUCTURED_QUESTION (clean_str (assoc "kind" payload))));
      ("status", VStr PENDING_STATUS);
      ("provider", VStr (event_provider e));
      ("can_respond", VBool (bool_of (assoc "can_respond" payload)));
      ("title", opt_str (clean_str (assoc "title" payload)));
      ("summary", opt_str (clean_str (assoc "summary" payload)));
      ("tool_name", opt_str (clean_str tool_name));
      ("questions", VList (normalize_questions (request_payload payload)));
      ("occurred_at", VStr (isoformat (utc occurred_at)));
      ("last_seen_at", VStr (isoformat (utc occurred_at)));
      ("resolved_at", VNone);
      ("expires_at", iso_or_none expires_at)]%string.
End Projection.
