(* ===== verification/LivePreviews.v ===== *)
(** * Live previews of a transcript

    Models [src/server/zerg/services/session_live_previews.py]: the preview that
    a progress event of a running turn carries, and the row per session that
    keeps the latest one.

    The write clock [preview_updated_at] is left out: nothing modelled reads it. *)

From S2P Require Import Prelude PyStr PyTime PyValue MachineEvidence FactReducer PyText RuntimeEvents.

Open Scope list_scope.
Open Scope Z_scope.

(** The columns of a preview that describe a tool call. *)
Record preview_tool : Type := PreviewTool {
  pt_name : option string;
  pt_input : option pyval;
  pt_output : option string;
  pt_call_id : option string;
  pt_call_state : option string;
}.

Definition no_tool : preview_tool := PreviewTool None None None None None.

(** [LivePreviewCandidate]; every candidate has the role [assistant]. *)
Record LivePreviewCandidate : Type := PreviewCandidate {
  pc_session_id : string;
  pc_thread_id : option string;
  pc_turn_key : string;
  pc_seq : option Z;
  pc_preview_text : string;
  pc_provisional_cursor : string;
  pc_provisional_complete : bool;
  pc_preview_observed_at : Z;
  pc_source : string;
  pc_last_observation_id : string;
  pc_tool : preview_tool;
}.

(** ** Identities of a provisional turn *)

(** [_clean_identity_part]. *)
Definition clean_identity_part (value : option string) (fallback : string) : string := default fallback (clean value).

(** [build_provisional_key]. *)
Definition build_provisional_key (source session_id : string) (thread_id turn_id : option string) : string :=
  join ":" [source; session_id; clean_identity_part thread_id "unknown-thread"; clean_identity_part turn_id "unknown-turn"].

(** [build_provisional_cursor]. *)
Definition build_provisional_cursor (key : string) (seq : option Z) : string :=
  match seq with Some n => key +:+ ":" +:+ pretty n | None => key +:+ ":unknown-seq" end.

(** [_item_scoped_turn_id]. *)
Definition item_scoped_turn_id (turn_id item_id : option string) : option string :=
  match item_id ≫= or_none with
  | None => turn_id
  | Some item => Some (default "unknown-turn" (turn_id ≫= or_none) +:+ "#" +:+ item)
  end.

(** [_coerce_seq]. *)
Definition coerce_seq (value : pyval) : option Z :=
  match value with VBool _ => None | VInt z => Some z | _ => int10 (py_str value) end.

(** [_tool_call_state]. *)
Definition tool_call_state (value : pyval) (completed : bool) : string :=
  if completed || str_in (lower (strip (or_empty (str_or value)))) ["completed"; "failed"; "cancelled"]%string
  then "completed" else "running".

(** ** Candidates *)

Section Candidate.
Context (e : RuntimeEventIngest) (session_id observation_id : string) (observed_at : Z).

Abbreviation payload := (re_payload e).

(** [_optional_str(payload.get("thread_id") or event.thread_id)]. *)
Definition preview_thread : option string :=
  let named := assoc "thread_id" payload in clean (if truthy named then Some (py_str named) else re_thread_id e).

Definition preview_seq : option Z := coerce_seq (assoc "seq" payload).

(** The candidate of one turn, from what its branch decides. *)
Definition candidate (source : string) (turn_id : option string) (preview_text : string) (complete : bool)
    (tool : preview_tool) : LivePreviewCandidate :=
  let turn_key := build_provisional_key source session_id preview_thread turn_id in
  PreviewCandidate session_id preview_thread turn_key preview_seq preview_text
    (build_provisional_cursor turn_key preview_seq) complete observed_at source observation_id tool.

Definition turn_named : option string := text (assoc "turn_id" payload).

(** The branch of Codex. *)
Definition codex_output : string := or_empty (str_or (assoc "output" payload)).

Definition codex_text (is_tool : bool) : string :=
  if is_tool then default (payload_text payload "command") (or_none (strip codex_output))
  else payload_text payload "live_text".

Definition codex_candidate (source : string) (is_tool : bool) : LivePreviewCandidate :=
  let item_id := text (assoc "item_id" payload) in
  let completed := truthy (assoc "completed" payload) in
  let tool := if is_tool
              then PreviewTool (Some "exec"%string) (Some (VDict [("command"%string, VStr (payload_text payload "command"))]))
                     (or_none codex_output) item_id (Some (tool_call_state (assoc "status" payload) completed))
              else no_tool in
  candidate source (item_scoped_turn_id turn_named item_id) (codex_text is_tool)
    (truthy (assoc "turn_completed" payload) || completed) tool.

(** [_cursor_tool_detail]. *)
Fixpoint first_dict (call : list (string * pyval)) (keys : list (string * string)) : string * option (list (string * pyval)) :=
  match keys with
  | [] => ("Tool"%string, None)
  | (key, label) :: keys' =>
      match assoc key call with VDict d => (label, Some d) | _ => first_dict call keys' end
  end.

Definition cursor_tool_detail (call : list (string * pyval)) : string * option (list (string * pyval)) :=
  first_dict call [("shellToolCall", "Shell"); ("mcpToolCall", "MCP"); ("readToolCall", "Read"); ("writeToolCall", "Write")]%string.

(** [_cursor_tool_output]. *)
Definition nonempty_str (value : pyval) : option string := as_str value ≫= or_none.

Definition cursor_tool_output (success rejected : list (string * pyval)) : string :=
  let texts := omap (λ key, nonempty_str (assoc key success))
                 ["stdout"; "interleavedOutput"; "content"; "output"; "text"]%string in
  match head texts with
  | Some s => s
  | None =>
      match nonempty_str (assoc "reason" rejected) with
      | Some s => s
      | None => match success with [] => EmptyString | _ => json_dumps_wide (VDict success) end
      end
  end.

(** The text of the blocks of an assistant message. *)
Definition block_text (block : pyval) : string :=
  match block with
  | VDict b => if eq_str (assoc "type" b) "text" then or_empty (str_or (assoc "text" b)) else EmptyString
  | _ => EmptyString
  end.

Definition assistant_text (message : pyval) : string :=
  join "" (map block_text (default [] (as_list (assoc "content" (mapping message))))).

Definition dict_or_none (d : list (string * pyval)) : option pyval := match d with [] => None | _ => Some (VDict d) end.

(** The tool call of [_cursor_print_preview_candidate]. *)
Definition cursor_tool_candidate (raw : list (string * pyval)) : option LivePreviewCandidate :=
  match assoc "tool_call" raw with
  | VDict call =>
      let call_id := text (assoc "call_id" raw) in
      match cursor_tool_detail call with
      | (_, None) => None
      | (tool_name, Some detail) =>
          let args := mapping (assoc "args" detail) in
          let result := mapping (assoc "result" detail) in
          let command := payload_text args "command" in
          let output := cursor_tool_output (mapping (assoc "success" result)) (mapping (assoc "rejected" result)) in
          let completed := String.eqb (payload_text raw "subtype") "completed" in
          let described := default tool_name (str_or (assoc "description" detail)) in
          Some (candidate "cursor_print" (item_scoped_turn_id turn_named call_id)
                  (default (default described (or_none command)) (or_none (strip output))) completed
                  (PreviewTool (Some tool_name) (dict_or_none args) (or_none output) call_id
                     (Some (if completed then "completed" else "running")%string)))
      end
  | _ => None
  end.

(** [_cursor_print_preview_candidate]. *)
Definition cursor_print_preview_candidate : option LivePreviewCandidate :=
  match assoc "event" payload with
  | VDict raw =>
      let raw_type := payload_text raw "type" in
      if String.eqb raw_type "result" && eq_str (assoc "subtype" raw) "success" then
        s ← text (assoc "result" raw); Some (candidate "cursor_print" turn_named s true no_tool)
      else if String.eqb raw_type "assistant" then
        s ← or_none (assistant_text (assoc "message" raw)); Some (candidate "cursor_print" turn_named s false no_tool)
      else if String.eqb raw_type "tool_call" then cursor_tool_candidate raw
      else None
  | _ => None
  end.

(** The tool of [_opencode_run_preview_candidate]. *)
Definition opencode_tool_candidate (part : list (string * pyval)) : LivePreviewCandidate :=
  let state := mapping (assoc "state" part) in
  let tool_name := default "Tool"%string (str_or (assoc "tool" part)) in
  let call_id := text (assoc "callID" part) in
  let status := default "pending"%string (str_or (assoc "status" state)) in
  let tool_input := mapping (assoc "input" state) in
  let output := or_empty (str_or (assoc "output" state)) in
  candidate "opencode_run" (item_scoped_turn_id turn_named call_id)
    (default (json_dumps_wide (VDict tool_input)) (or_none (strip output)))
    (str_in status ["completed"; "error"]%string)
    (PreviewTool (Some tool_name) (dict_or_none tool_input) (or_none output) call_id
       (Some (if String.eqb status "error" then "failed" else if String.eqb status "completed" then "completed"
              else "running")%string)).

(** [_opencode_run_preview_candidate]. *)
Definition opencode_run_preview_candidate : option LivePreviewCandidate :=
  match assoc "event" payload with
  | VDict raw =>
      let part := mapping (assoc "part" raw) in
      let raw_type := payload_text raw "type" in
      let part_type := or_empty (str_or (assoc "type" part)) in
      if String.eqb raw_type "text" && String.eqb part_type "text" then
        s ← text (assoc "text" part); Some (candidate "opencode_run" turn_named s false no_tool)
      else if String.eqb raw_type "tool_use" && String.eqb part_type "tool" then Some (opencode_tool_candidate part)
      else None
  | _ => None
  end.
End Candidate.

Definition LIVE_PREVIEW_SOURCES : list string :=
  ["codex_bridge_live"; "codex_console_live"; "cursor_print"; "opencode_run"]%string.

Definition CODEX_PROGRESS_KINDS : list string := ["bridge_live_transcript_delta"; "console_live_tool_item"]%string.

Definition is_dict (value : pyval) : bool := match value with VDict _ => true | _ => false end.

(** A candidate is dated when its branch has something to show. *)
Definition dated (e : RuntimeEventIngest) (shown : bool) (mk : Z → option LivePreviewCandidate) :
    res (option LivePreviewCandidate) :=
  if shown then let! at_ := utc_wall (re_occurred_at e) in Ok (mk at_) else Ok None.

(** [live_preview_candidate_from_runtime_event]. *)
Definition live_preview_candidate_from_runtime_event (e : RuntimeEventIngest) (observation_id : string) :
    res (option LivePreviewCandidate) :=
  let provider := lower (strip (re_provider e)) in
  let source := strip (re_source e) in
  let progress_kind := assoc "progress_kind" (re_payload e) in
  let reports name stream := String.eqb (lower source) name && eq_str progress_kind stream in
  match re_session_id e with
  | None => Ok None
  | Some session_id =>
      if negb (str_in provider ["codex"; "cursor"; "opencode"]%string && str_in (lower source) LIVE_PREVIEW_SOURCES
               && bool_decide (re_kind e = progress_signal)) then Ok None
      else if String.eqb provider "cursor" && reports "cursor_print"%string "cursor_print_stream"%string then
        dated e (is_dict (assoc "event" (re_payload e))) (cursor_print_preview_candidate e session_id observation_id)
      else if String.eqb provider "opencode" && reports "opencode_run"%string "opencode_run_stream"%string then
        dated e (is_dict (assoc "event" (re_payload e))) (opencode_run_preview_candidate e session_id observation_id)
      else
        let! _ := check_hashable progress_kind in
        let is_tool := eq_str progress_kind "console_live_tool_item" in
        if negb (opt_in (as_str progress_kind) CODEX_PROGRESS_KINDS) then Ok None
        else dated e (str_truthy (codex_text e is_tool))
               (λ at_, Some (codex_candidate e session_id observation_id at_ source is_tool))
  end.

(** ** The row of a session *)

(** [LiveSessionLivePreview]. *)
Record LiveSessionLivePreview : Type := LivePreview {
  lp_thread_id : option string;
  lp_turn_key : string;
  lp_seq : option Z;
  lp_preview_text : string;
  lp_tool_name : option string;
  lp_tool_input_json : option string;
  lp_tool_output_text : option string;
  lp_tool_call_id : option string;
  lp_tool_call_state : option string;
  lp_provisional_cursor : string;
  lp_provisional_complete : Z;
  lp_preview_observed_at : Z;
  lp_source : string;
  lp_last_observation_id : string;
  lp_superseded_at : option Z;
  lp_superseded_by_event_id : option Z;
  lp_superseded_reason : option string;
}.

Abbreviation preview_table := (gmap string LiveSessionLivePreview).

(** [_candidate_should_replace]. *)
Definition candidate_should_replace (c : LivePreviewCandidate) (existing : LiveSessionLivePreview) : bool :=
  let as_recent := lp_preview_observed_at existing <=? pc_preview_observed_at c in
  if negb (String.eqb (pc_turn_key c) (lp_turn_key existing)) then as_recent
  else
    match pc_seq c, lp_seq existing with
    | Some n, Some m => if negb (n =? m) then m <? n else as_recent
    | Some _, None => true
    | None, Some _ => false
    | None, None => as_recent
    end.

(** The row that a candidate writes. *)
Definition preview_row (c : LivePreviewCandidate) : LiveSessionLivePreview :=
  let t := pc_tool c in
  LivePreview (pc_thread_id c) (pc_turn_key c) (pc_seq c) (pc_preview_text c) (pt_name t)
    (json_dumps_plain <$> pt_input t) (pt_output t) (pt_call_id t) (pt_call_state t) (pc_provisional_cursor c)
    (if pc_provisional_complete c then 1 else 0) (pc_preview_observed_at c) (pc_source c) (pc_last_observation_id c)
    None None None.

Definition superseded_since (c : LivePreviewCandidate) (existing : LiveSessionLivePreview) : bool :=
  match lp_superseded_at existing with Some at_ => pc_preview_observed_at c <=? at_ | None => false end.

Definition preview_taken (c : LivePreviewCandidate) (existing : option LiveSessionLivePreview) : bool :=
  match existing with
  | None => true
  | Some row =>
      negb (String.eqb (lp_last_observation_id row) (pc_last_observation_id c)) && negb (superseded_since c row)
      && candidate_should_replace c row
  end.

(** [upsert_live_session_live_preview]. *)
Definition upsert_live_session_live_preview (c : LivePreviewCandidate) (previews : preview_table) : res preview_table :=
  if preview_taken c (previews !! pc_session_id c) then
    let! _ := guard (match pc_seq c with Some n => int64 n | None => true end) OverflowError in
    Ok (<[pc_session_id c := preview_row c]> previews)
  else Ok previews.

(** ** The laws of candidates

    The preview of a turn is its furthest candidate, in whatever order the
    candidates arrive and however often. *)

(** The order of the candidates of one turn: the sequence first, then the time. *)
Definition no_further (c d : LivePreviewCandidate) : Prop :=
  match pc_seq c, pc_seq d with
  | Some n, Some m => n < m ∨ (n = m ∧ pc_preview_observed_at c <= pc_preview_observed_at d)
  | None, Some _ => True
  | Some _, None => False
  | None, None => pc_preview_observed_at c <= pc_preview_observed_at d
  end.

#[export] Instance no_further_preorder : PreOrder no_further.
Proof.
  split.
  - intros c. unfold no_further. destruct (pc_seq c); lia.
  - intros c d e. unfold no_further. destruct (pc_seq c), (pc_seq d), (pc_seq e); try done; lia.
Qed.

(** On the row of a candidate of the same turn, the rule is that order. *)
Lemma replaces_spec c d :
  pc_turn_key c = pc_turn_key d → candidate_should_replace c (preview_row d) = true ↔ no_further d c.
Proof.
  intros Hk. unfold candidate_should_replace, no_further. simpl. rewrite Hk, String.eqb_refl. simpl.
  destruct (pc_seq c) as [n|], (pc_seq d) as [m|]; simpl; [|done|done|by rewrite Z.leb_le].
  destruct (Z.eqb_spec n m) as [->|Hne]; simpl; rewrite ?Z.leb_le, ?Z.ltb_lt; lia.
Qed.

Lemma replaces_total c d : pc_turn_key c = pc_turn_key d → candidate_should_replace c (preview_row d) = false → no_further c d.
Proof.
  intros Hk H. assert (¬ no_further d c) as Hn by (rewrite <- replaces_spec by done; by rewrite H).
  unfold no_further in *. destruct (pc_seq c), (pc_seq d); try done; lia.
Qed.

Definition upsert_previews (cs : list LivePreviewCandidate) (previews : preview_table) : res preview_table :=
  fold_res (λ previews c, upsert_live_session_live_preview c previews) previews cs.

(** Of the candidates of one turn the furthest is shown: the row is that of
    a candidate, and no candidate is further, whatever their order. *)
Theorem furthest_candidate_is_shown session_id turn_key cs previews previews' :
  previews !! session_id = None → cs ≠ [] →
  Forall (λ c, pc_session_id c = session_id ∧ pc_turn_key c = turn_key) cs →
  (∀ c d, c ∈ cs → d ∈ cs → pc_last_observation_id c = pc_last_observation_id d → c = d) →
  upsert_previews cs previews = Ok previews' →
  ∃ c, c ∈ cs ∧ previews' !! session_id = Some (preview_row c) ∧ Forall (λ d, no_further d c) cs.
Proof.
  intros Hnone Hne Hall Hids. revert previews'. induction cs as [|d cs IH] using rev_ind; [done|]. intros previews' H.
  unfold upsert_previews in H. rewrite fold_res_app in H. apply bind_ok in H as (previews1 & H1 & H).
  simpl in H. apply bind_ok in H as (previews2 & H2 & H). injection H as <-.
  apply Forall_app in Hall as [Hall [[Hs Hk] _]%Forall_cons]. unfold upsert_live_session_live_preview in H2. rewrite Hs in H2.
  destruct (decide (cs = [])) as [->|Hcs].
  { injection H1 as <-. rewrite Hnone in H2. simpl in H2. apply bind_ok in H2 as ([] & _ & H2). injection H2 as <-.
    exists d. split; [by left|]. rewrite lookup_insert_eq. split; [done|]. by constructor. }
  destruct (IH Hcs Hall) with previews1 as (c & Hc & Hrow & Hmax); [|done|].
  { intros c e Hc He. apply Hids; apply elem_of_app; by left. }
  rewrite Hrow in H2. simpl in H2. rewrite andb_true_r in H2.
  assert (pc_turn_key d = pc_turn_key c) as Ek by (rewrite Forall_forall in Hall; by destruct (Hall c Hc) as [_ ->]).
  destruct (String.eqb_spec (pc_last_observation_id c) (pc_last_observation_id d)) as [Ei|Hn]; simpl in H2.
  - injection H2 as <-. exists c. split; [apply elem_of_app; by left|]. split; [done|].
    apply Forall_app. split; [done|]. constructor; [|done]. assert (c = d) as ->; [|done].
    apply Hids; [apply elem_of_app; by left|apply elem_of_app; right; by left|done].
  - destruct (candidate_should_replace d (preview_row c)) eqn:Er.
    + apply bind_ok in H2 as ([] & _ & H2). injection H2 as <-. exists d. split; [apply elem_of_app; right; by left|].
      rewrite lookup_insert_eq. split; [done|]. apply replaces_spec in Er; [|done].
      apply Forall_app. split; [|by constructor]. eapply Forall_impl; [exact Hmax|]. intros e He. exact (transitivity He Er).
    + injection H2 as <-. exists c. split; [apply elem_of_app; by left|]. split; [done|].
      apply Forall_app. split; [done|]. constructor; [|done]. by apply replaces_total.
Qed.
