(* ===== verification/InputQueue.v ===== *)
(** * Hot-lane input receipts

    Models [src/server/zerg/services/live_session_inputs.py]: the table of
    receipts of user text ([LiveSessionInputReceipt] of models/live_store.py)
    and the operations on it.

    The table is a finite map on its primary key.  A time column is compared as
    text.  [created_at] is either the column's server default,
    CURRENT_TIMESTAMP, whose text has no fraction of a second, or a bound
    parameter, whose text has six digits of fraction ([stored_time]).  The
    other times are always bound parameters, which compare as their walls.  A
    clock reading is an argument, in microseconds of UTC. *)

From S2P Require Import Prelude PyStr PyTime PyValue MachineEvidence PyJson PyText.

Open Scope list_scope.
Open Scope Z_scope.

(** The statuses of session_inputs.py. *)
Definition INPUT_STATUS_QUEUED : string := "queued".
Definition INPUT_STATUS_DELIVERING : string := "delivering".
Definition INPUT_STATUS_DELIVERED : string := "delivered".
Definition INPUT_STATUS_CANCELLED : string := "cancelled".
Definition INPUT_STATUS_FAILED : string := "failed".

Definition RECENT_FAILED_WINDOW_SECS : Z := 15 * 60.

(** [timedelta(minutes=30)], in microseconds. *)
Definition MAX_DELIVERY_AGE : Z := 30 * 60 * US_PER_SECOND.
Definition MAX_DELIVERY_ATTEMPTS : Z := 200.

(** ** Times as SQLite keeps them *)

(** A text [YYYY-MM-DD HH:MM:SS], with a fraction or without. *)
Record stored_time : Type := Stored { ts_second : Z; ts_fraction : option Z }.

#[export] Instance stored_time_eq_dec : EqDecision stored_time.
Proof. solve_decision. Defined.

(** The text of a bound parameter. *)
Definition bind_time (wall : Z) : stored_time := Stored (wall / US_PER_SECOND) (Some (wall mod US_PER_SECOND)).

Definition stored_wall (t : stored_time) : Z := ts_second t * US_PER_SECOND + default 0 (ts_fraction t).

(** The order of the texts: of two texts of one second, the one without
    fraction is a proper prefix of the other. *)
Definition fraction_cmp (a b : option Z) : comparison :=
  match a, b with
  | None, None => Eq
  | None, Some _ => Lt
  | Some _, None => Gt
  | Some x, Some y => Z.compare x y
  end.

#[export] Instance fraction_comparison : Comparison fraction_cmp.
Proof.
  split.
  - intros [x|] [y|]; simpl; [apply (cmp_flip Z.compare)|done..].
  - intros [x|] [y|] [z|]; simpl; try done. apply (cmp_chain Z.compare).
  - intros [x|] [y|]; simpl; try done. rewrite (cmp_same Z.compare). naive_solver.
Qed.

Definition time_cmp (a b : stored_time) : comparison :=
  pair_cmp Z.compare fraction_cmp (ts_second a, ts_fraction a) (ts_second b, ts_fraction b).

#[export] Instance time_comparison : Comparison time_cmp.
Proof.
  pose proof (pair_comparison Z.compare fraction_cmp) as H. unfold time_cmp. split.
  - intros [] []; apply (cmp_flip (pair_cmp Z.compare fraction_cmp)).
  - intros [] [] []; apply (cmp_chain (pair_cmp Z.compare fraction_cmp)).
  - intros [] []. rewrite (cmp_same (pair_cmp Z.compare fraction_cmp)). simpl. naive_solver.
Qed.

Definition time_before (a b : stored_time) : bool := match time_cmp a b with Lt => true | _ => false end.

(** ** Receipts *)

Record LiveSessionInputReceipt : Type := InputReceipt {
  ir_owner_id : Z;
  ir_session_id : string;
  ir_thread_id : option string;
  ir_provider : string;
  ir_device_id : option string;
  ir_client_request_id : option string;
  ir_intent : string;
  ir_status : string;
  ir_text : string;
  ir_archive_session_input_id : option Z;
  ir_control_command_id : option string;
  ir_delivery_request_id : option string;
  ir_delivery_attempts : option Z;
  ir_error_json : option string;
  ir_created_at : stored_time;
  ir_updated_at : Z;
  ir_expires_at : option Z;
}.

#[export] Instance input_receipt_eq_dec : EqDecision LiveSessionInputReceipt.
Proof. solve_decision. Defined.

Abbreviation receipt_table := (gmap string LiveSessionInputReceipt).

(** [row.status = ...; row.error_json = ...; row.updated_at = ...]. *)
Definition with_status (status : string) (error_json : option string) (updated_at : Z) (r : LiveSessionInputReceipt) :
    LiveSessionInputReceipt :=
  InputReceipt (ir_owner_id r) (ir_session_id r) (ir_thread_id r) (ir_provider r) (ir_device_id r)
    (ir_client_request_id r) (ir_intent r) status (ir_text r) (ir_archive_session_input_id r)
    (ir_control_command_id r) (ir_delivery_request_id r) (ir_delivery_attempts r) error_json
    (ir_created_at r) updated_at (ir_expires_at r).

(** [row.delivery_request_id = ...]. *)
Definition with_request (delivery_request_id : option string) (r : LiveSessionInputReceipt) : LiveSessionInputReceipt :=
  InputReceipt (ir_owner_id r) (ir_session_id r) (ir_thread_id r) (ir_provider r) (ir_device_id r)
    (ir_client_request_id r) (ir_intent r) (ir_status r) (ir_text r) (ir_archive_session_input_id r)
    (ir_control_command_id r) delivery_request_id (ir_delivery_attempts r) (ir_error_json r)
    (ir_created_at r) (ir_updated_at r) (ir_expires_at r).

(** [row.delivery_attempts = ...]. *)
Definition with_attempts (attempts : Z) (r : LiveSessionInputReceipt) : LiveSessionInputReceipt :=
  InputReceipt (ir_owner_id r) (ir_session_id r) (ir_thread_id r) (ir_provider r) (ir_device_id r)
    (ir_client_request_id r) (ir_intent r) (ir_status r) (ir_text r) (ir_archive_session_input_id r)
    (ir_control_command_id r) (ir_delivery_request_id r) (Some attempts) (ir_error_json r)
    (ir_created_at r) (ir_updated_at r) (ir_expires_at r).

(** ** Snapshots *)

Record LiveInputReceiptSnapshot : Type := InputSnapshot {
  is_id : string;
  is_owner_id : Z;
  is_session_id : string;
  is_provider : string;
  is_text : string;
  is_intent : string;
  is_status : string;
  is_client_request_id : option string;
  is_archive_session_input_id : option Z;
  is_delivery_request_id : option string;
  is_error_json : option string;
  is_created_at : option datetime;
  is_updated_at : option datetime;
}.

(** [_snapshot]. *)
Definition snapshot (kr : string * LiveSessionInputReceipt) : LiveInputReceiptSnapshot :=
  let '(id, row) := kr in
  InputSnapshot id (ir_owner_id row) (ir_session_id row) (ir_provider row) (ir_text row)
    (default "auto" (or_none (ir_intent row))) (default "created" (or_none (ir_status row)))
    (ir_client_request_id row) (ir_archive_session_input_id row) (ir_delivery_request_id row) (ir_error_json row)
    (normalize_utc (Some (sqlite_load (stored_wall (ir_created_at row)))))
    (normalize_utc (Some (sqlite_load (ir_updated_at row)))).

Definition int_or_none (v : pyval) : option Z := as_int v.

(** [_snapshot_from_rpc], on the fields of [_input_receipt_dto]. *)
Definition snapshot_from_rpc (other_form : string → option datetime) (value : list (string * pyval)) :
    res LiveInputReceiptSnapshot :=
  let str_field name := py_str (assoc name value) in
  let time_field name :=
    if truthy (assoc name value) then
      match assoc name value with
      | VStr s => match parse_iso other_form s with
                  | Some d => Ok (normalize_utc (Some d))
                  | None => Err (ValueError "Invalid isoformat string")
                  end
      | _ => Err (TypeError "fromisoformat: argument must be str")
      end
    else Ok None in
  match assoc "owner_id" value with
  | VInt owner_id =>
      let! created_at := time_field "created_at"%string in
      let! updated_at := time_field "updated_at"%string in
      Ok (InputSnapshot (str_field "id"%string) owner_id (str_field "session_id"%string) (str_field "provider"%string)
            (or_empty (str_or (assoc "text" value))) (default "auto" (str_or (assoc "intent" value)))
            (default "created" (str_or (assoc "status" value)))
            (as_str (assoc "client_request_id" value)) (int_or_none (assoc "archive_session_input_id" value))
            (as_str (assoc "delivery_request_id" value)) (as_str (assoc "error_json" value)) created_at updated_at)
  | _ => Err (TypeError "owner_id is not an integer")
  end.

(** ** Reading *)

(** [_clean_str] and [_json_or_none]. *)
Definition clean_str (value : option string) : option string := clean value.

Definition json_or_none (value : option (list (string * pyval))) : option string :=
  (λ d, json_dumps (VDict d)) <$> value.

(** The rows that a predicate selects. *)
Definition select_receipts (P : string * LiveSessionInputReceipt → bool) (t : receipt_table) :
    list (string * LiveSessionInputReceipt) :=
  filter (λ kr, P kr = true) (map_to_list t).

(** [created_at, id], the order of the queue. *)
Definition queue_key (kr : string * LiveSessionInputReceipt) : stored_time * string := (ir_created_at kr.2, kr.1).

Definition queue_cmp : stored_time * string → stored_time * string → comparison := pair_cmp time_cmp str_cmp.

#[export] Instance queue_comparison : Comparison queue_cmp := pair_comparison time_cmp str_cmp.

(** [query.filter(...).order_by(created_at.asc(), id.asc())]. *)
Definition in_queue_order (P : string * LiveSessionInputReceipt → bool) (t : receipt_table) :
    list (string * LiveSessionInputReceipt) :=
  omap (λ k : stored_time * string, pair k.2 <$> t !! k.2) (py_sorted queue_cmp (map queue_key (select_receipts P t))).

Definition has_status (status : string) (r : LiveSessionInputReceipt) : bool := String.eqb (ir_status r) status.

Definition of_input_session (session_id : string) (r : LiveSessionInputReceipt) : bool :=
  String.eqb (ir_session_id r) session_id.

(** [created_at < bound]. *)
Definition created_before (r : LiveSessionInputReceipt) (bound : Z) : bool :=
  time_before (ir_created_at r) (bind_time bound).

(** [load_live_input_receipt_by_id]. *)
Definition load_live_input_receipt_by_id (t : receipt_table) (receipt_id : string) : option LiveInputReceiptSnapshot :=
  (λ row, snapshot (receipt_id, row)) <$> t !! receipt_id.

(** The row of one public idempotency key; the table's unique index admits
    one. *)
Definition by_client_request (owner_id : Z) (session_id client_key : string)
    (kr : string * LiveSessionInputReceipt) : bool :=
  (ir_owner_id kr.2 =? owner_id) && of_input_session session_id kr.2 && opt_is (ir_client_request_id kr.2) client_key.

(** [get_live_input_receipt_by_client_request]. *)
Definition get_live_input_receipt_by_client_request (t : receipt_table) (owner_id : Z) (session_id : string)
    (client_request_id : option string) : option LiveInputReceiptSnapshot :=
  client_key ← clean_str client_request_id;
  snapshot <$> head (select_receipts (by_client_request owner_id session_id client_key) t).

(** [list_recent_live_input_receipts]. *)
Definition is_recent (session_id : string) (cutoff : Z) (kr : string * LiveSessionInputReceipt) : bool :=
  of_input_session session_id kr.2
  && (has_status INPUT_STATUS_QUEUED kr.2 || has_status INPUT_STATUS_DELIVERING kr.2
      || has_status INPUT_STATUS_FAILED kr.2 && (cutoff <=? ir_updated_at kr.2)).

Definition list_recent_live_input_receipts (t : receipt_table) (session_id : string) (now : Z) :
    list LiveInputReceiptSnapshot :=
  let cutoff := now - RECENT_FAILED_WINDOW_SECS * US_PER_SECOND in
  map snapshot (in_queue_order (is_recent session_id cutoff) t).

Definition is_queued (session_id : string) (kr : string * LiveSessionInputReceipt) : bool :=
  of_input_session session_id kr.2 && has_status INPUT_STATUS_QUEUED kr.2.

(** [count_live_queued_receipts]. *)
Definition count_live_queued_receipts (t : receipt_table) (session_id : string) : nat :=
  length (select_receipts (is_queued session_id) t).

(** [list_session_ids_with_queued_live_receipts]: the statement has no order,
    so it may answer any [limit] of the sessions; an identifier that is not a
    UUID is dropped afterwards. *)
Definition queued_sessions (t : receipt_table) : gset string :=
  list_to_set (map (λ kr, ir_session_id kr.2) (select_receipts (λ kr, has_status INPUT_STATUS_QUEUED kr.2) t)).

Definition list_session_ids_with_queued_live_receipts (t : receipt_table) (limit : Z) (answer : list string) : Prop :=
  ∃ rows, NoDup rows ∧ list_to_set rows ⊆ queued_sessions t ∧
    length rows = Nat.min (Z.to_nat (Z.max 1 limit)) (size (queued_sessions t)) ∧ answer = omap uuid_text rows.

(** ** Writing *)

(** [cancel_live_queued_receipt]. *)
Definition cancel_live_queued_receipt (t : receipt_table) (session_id receipt_id : string) (now : Z) :
    option LiveInputReceiptSnapshot * receipt_table :=
  match t !! receipt_id with
  | Some row =>
      if is_queued session_id (receipt_id, row) then
        let t' := <[receipt_id := with_status INPUT_STATUS_CANCELLED (ir_error_json row) now row]> t in
        (load_live_input_receipt_by_id t' receipt_id, t')
      else (None, t)
  | None => (None, t)
  end.

(** [expire_stale_live_receipts]. *)
Definition delivery_attempts (r : LiveSessionInputReceipt) : Z := default 0 (ir_delivery_attempts r).

Definition failure_json (message : string) (attempts : Z) (reason : string) : option string :=
  json_or_none (Some [("message", VStr message); ("attempts", VInt attempts); ("reason", VStr reason)]%string).

Definition is_stale (session_id : string) (cutoff : Z) (kr : string * LiveSessionInputReceipt) : bool :=
  is_queued session_id kr && created_before kr.2 cutoff.

Definition expire_row (observed_at : Z) (row : LiveSessionInputReceipt) : LiveSessionInputReceipt :=
  with_status INPUT_STATUS_FAILED
    (failure_json "session input expired before delivery" (delivery_attempts row) "delivery_expired") observed_at row.

Definition expire_stale_live_receipts (t : receipt_table) (session_id : string) (now : Z) : nat * receipt_table :=
  let cutoff := now - MAX_DELIVERY_AGE in
  (length (select_receipts (is_stale session_id cutoff) t),
   map_imap (λ id row, Some (if is_stale session_id cutoff (id, row) then expire_row now row else row)) t).

(** [claim_next_live_queued_receipt]; the clock is read three times, by the
    expiry, for the cutoff and for the update.  The answer is read through the
    session that loaded the candidate: the update runs with
    [synchronize_session=False] and the session with [expire_on_commit=False],
    so what is read back is the loaded object, as it was before the update. *)
Record claim_clock : Type := ClaimClock { at_expiry : Z; at_cutoff : Z; at_update : Z }.

Definition is_claimable (session_id : string) (cutoff : Z) (kr : string * LiveSessionInputReceipt) : bool :=
  is_queued session_id kr && negb (created_before kr.2 cutoff).

Definition claim_row (delivery_request_id : string) (now : Z) (row : LiveSessionInputReceipt) : LiveSessionInputReceipt :=
  with_request (Some delivery_request_id) (with_status INPUT_STATUS_DELIVERING (ir_error_json row) now row).

Definition claim_next_live_queued_receipt (t : receipt_table) (session_id delivery_request_id : string)
    (clock : claim_clock) : option LiveInputReceiptSnapshot * receipt_table :=
  let t := (expire_stale_live_receipts t session_id (at_expiry clock)).2 in
  match head (in_queue_order (is_claimable session_id (at_cutoff clock - MAX_DELIVERY_AGE)) t) with
  | None => (None, t)
  | Some (id, row) =>
      (Some (snapshot (id, row)), <[id := claim_row delivery_request_id (at_update clock) row]> t)
  end.

(** [mark_live_receipt_delivered_with_projection]. *)
Definition mark_live_receipt_delivered_with_projection (t : receipt_table) (receipt_id delivery_request_id : string)
    (now : Z) : option LiveInputReceiptSnapshot * receipt_table :=
  match t !! receipt_id with
  | None => (None, t)
  | Some row =>
      let row' := with_request (Some delivery_request_id) (with_status INPUT_STATUS_DELIVERED (ir_error_json row) now row) in
      (Some (snapshot (receipt_id, row')), <[receipt_id := row']> t)
  end.

(** [str(error or "session input delivery failed")[:500]]. *)
Definition error_message (error : string) : string :=
  str_take 500 (default "session input delivery failed" (or_none error)).

(** [mark_live_receipt_failed]. *)
Definition mark_live_receipt_failed (t : receipt_table) (receipt_id error : string) (now : Z) :
    option LiveInputReceiptSnapshot * receipt_table :=
  match t !! receipt_id with
  | None => (None, t)
  | Some row =>
      let row' := with_status INPUT_STATUS_FAILED
                    (json_or_none (Some [("message"%string, VStr (error_message error))])) now row in
      (Some (snapshot (receipt_id, row')), <[receipt_id := row']> t)
  end.

(** [requeue_live_receipt]. *)
Definition requeue_row (error : string) (observed_at : Z) (row : LiveSessionInputReceipt) :
    LiveSessionInputReceipt * bool :=
  let attempts := delivery_attempts row + 1 in
  let message := error_message error in
  let aged_out := MAX_DELIVERY_AGE <? observed_at - stored_wall (ir_created_at row) in
  let exhausted := MAX_DELIVERY_ATTEMPTS <=? attempts in
  if aged_out || exhausted then
    (with_attempts attempts
       (with_status INPUT_STATUS_FAILED
          (failure_json message attempts (if aged_out then "delivery_expired" else "max_delivery_attempts")) observed_at row),
     false)
  else
    (with_attempts attempts
       (with_request None (with_status INPUT_STATUS_QUEUED (failure_json message attempts "transient") observed_at row)),
     true).

Definition requeue_live_receipt (t : receipt_table) (receipt_id error : string) (now : Z) :
    option LiveInputReceiptSnapshot * bool * receipt_table :=
  match t !! receipt_id with
  | None => (None, false, t)
  | Some row =>
      let '(row', requeued) := requeue_row error now row in
      (Some (snapshot (receipt_id, row')), requeued, <[receipt_id := row']> t)
  end.

(** The keyword arguments of [upsert_live_input_receipt]. *)
Record input_request : Type := InputRequest {
  iq_owner_id : Z;
  iq_session_id : string;
  iq_provider : string;
  iq_text : string;
  iq_intent : string;
  iq_status : string;
  iq_client_request_id : option string;
  iq_device_id : option string;
  iq_thread_id : option string;
  iq_archive_session_input_id : option Z;
  iq_control_command_id : option string;
  iq_delivery_request_id : option string;
  iq_enqueue_archive_projection : bool;
  iq_error : option (list (string * pyval));
  iq_expires_at : option datetime;
}.

(** The row an upsert writes: over [row] when the key is known, over the
    defaults of a new row otherwise. *)
Definition new_receipt (stamp : Z) : LiveSessionInputReceipt :=
  InputReceipt 0 "" None "" None None "" "" "" None None None None None (Stored stamp None) 0 None.

Definition upserted (q : input_request) (now : Z) (row : LiveSessionInputReceipt) : LiveSessionInputReceipt :=
  InputReceipt (iq_owner_id q) (iq_session_id q) (clean_str (iq_thread_id q))
    (default "unknown" (clean_str (Some (iq_provider q)))) (clean_str (iq_device_id q))
    (clean_str (iq_client_request_id q)) (default "auto" (clean_str (Some (iq_intent q))))
    (default "created" (clean_str (Some (iq_status q)))) (iq_text q)
    (match iq_archive_session_input_id q with Some i => Some i | None => ir_archive_session_input_id row end)
    (match iq_control_command_id q with Some c => clean_str (Some c) | None => ir_control_command_id row end)
    (match iq_delivery_request_id q with Some d => clean_str (Some d) | None => ir_delivery_request_id row end)
    (ir_delivery_attempts row) (json_or_none (iq_error q)) (ir_created_at row) now
    (sqlite_store <$> normalize_utc (iq_expires_at q)).

(** [upsert_live_input_receipt]: [uuid] is the fresh identifier of a new row
    and [stamp] the second of its CURRENT_TIMESTAMP. *)
Definition upsert_live_input_receipt (t : receipt_table) (q : input_request) (uuid : string) (now stamp : Z) :
    res (string * receipt_table) :=
  let existing :=
    client_key ← clean_str (iq_client_request_id q);
    head (select_receipts (by_client_request (iq_owner_id q) (iq_session_id q) client_key) t) in
  match existing with
  | Some (id, row) => Ok (id, <[id := upserted q now row]> t)
  | None =>
      let! _ := guard (bool_decide (t !! uuid = None)) IntegrityError in
      Ok (uuid, <[uuid := upserted q now (new_receipt stamp)]> t)
  end.
