(* ===== verification/InputStore.v ===== *)
(** * The catalog's input queue

    Models the input-queue operations of
    [src/server/zerg/catalogd/store.py] and their handlers in
    [src/server/zerg/catalogd/server.py].

    The state is the fact catalog, the receipts and the session catalog.  A
    write runs in one transaction: an operation that raises leaves the state
    as it was.  A rollback inside an operation undoes what was written since
    the last commit inside it, so an expiry that was committed stays when the
    claim after it is refused.

    Two things are parameters: [assemble], the session's catalog facts, which
    [_assemble_session_facts] gathers from tables that are not modelled, and
    [other_form] (see [MachineEvidence.parse_iso]). *)

From S2P Require Import Prelude PyStr PyTime PyValue MachineEvidence PyJson PyText InputQueue FactStore FactReducer.
From S2P Require Import FactReads.
From S2P Require Import ConsoleControl ProviderContracts Capabilities RuntimeView Liveness StateContract SessionState.
From S2P Require Import StateProjector.

Open Scope list_scope.
Open Scope Z_scope.

(** The columns of [LiveSessionCatalog] that machine control and the Console
    read or write. *)
Record LiveSessionCatalog : Type := SessionCatalog {
  lc_provider : string;
  lc_device_id : option string;
  lc_device_name : option string;
  lc_cwd : option string;
  lc_project : option string;
  lc_git_repo : option string;
  lc_git_branch : option string;
  lc_ended_at : option Z;
  lc_closed_at : option Z;
  lc_close_reason : option string;
  lc_origin_kind : option string;
  lc_loop_mode : string;
  lc_permission_mode : string;
  lc_primary_thread_id : option string;
  lc_last_console_result_at : option Z;
  lc_last_console_result_outcome : option string;
  lc_user_state : string;
  lc_user_state_at : option Z;
  lc_updated_at : Z;
}.

(** [LiveControlSession] of live_control_catalog.py. *)
Record LiveControlSession : Type := ControlSession {
  ls_id : string;
  ls_provider : string;
  ls_device_id : option string;
  ls_device_name : option string;
  ls_cwd : option string;
  ls_project : option string;
  ls_git_repo : option string;
  ls_git_branch : option string;
  ls_ended_at : option datetime;
  ls_closed_at : option datetime;
  ls_close_reason : option string;
  ls_loop_mode : string;
  ls_permission_mode : string;
  ls_primary_thread_id : option string;
  ls_command_family : string;
}.

Record input_store : Type := InputStore {
  st_facts : catalog;
  st_receipts : receipt_table;
  st_sessions : gmap string LiveSessionCatalog;
}.

Definition set_input_receipts (t : receipt_table) (st : input_store) : input_store :=
  InputStore (st_facts st) t (st_sessions st).

(** [load_live_control_session]. *)
Definition truthy_strip (v : option string) : option string := strip <$> (v ≫= or_none).

Definition load_live_control_session (st : input_store) (session_id : string) : option LiveControlSession :=
  row ← st_sessions st !! session_id;
  id ← uuid_text session_id;
  Some (ControlSession id (default "unknown" (or_none (lc_provider row))) (truthy_strip (lc_device_id row))
          (truthy_strip (lc_device_name row)) (lc_cwd row) (lc_project row) (lc_git_repo row) (lc_git_branch row)
          (sqlite_load <$> lc_ended_at row) (sqlite_load <$> lc_closed_at row) (truthy_strip (lc_close_reason row))
          (default "assist" (or_none (lc_loop_mode row))) (default "bypass" (or_none (lc_permission_mode row)))
          (v ← lc_primary_thread_id row; v ← or_none v; uuid_text v)
          (if String.eqb (strip (or_empty (lc_origin_kind row))) "console" then "console_turn" else "live_control")).

(** ** The catalog's counter *)

(** [_current_commit_seq]. *)
Definition current_commit_seq (st : input_store) : string := pretty (commit_seq (st_facts st)).

(** [_advance_commit_seq]. *)
Definition advance_catalog_seq (now : Z) (st : input_store) : input_store :=
  let db := st_facts st in
  InputStore (Catalog (heads db) (receipts db) (conflicts db) (commit_seq db + 1) (isoformat (utc now)))
    (st_receipts st) (st_sessions st).

(** ** Wire forms *)

Definition opt_int (v : option Z) : pyval := match v with Some z => VInt z | None => VNone end.

(** [_encode_datetime] of an optional datetime; [_as_aware_utc] is
    [normalize_utc]. *)
Definition encode_datetime (v : option datetime) : pyval := opt_str (isoformat <$> normalize_utc v).

(** [_live_control_session_dto]. *)
Definition live_control_session_dto (s : LiveControlSession) : list (string * pyval) :=
  [("id", VStr (ls_id s)); ("provider", VStr (ls_provider s)); ("device_id", opt_str (ls_device_id s));
   ("device_name", opt_str (ls_device_name s)); ("cwd", opt_str (ls_cwd s)); ("project", opt_str (ls_project s));
   ("git_repo", opt_str (ls_git_repo s)); ("git_branch", opt_str (ls_git_branch s));
   ("ended_at", encode_datetime (ls_ended_at s)); ("closed_at", encode_datetime (ls_closed_at s));
   ("close_reason", opt_str (ls_close_reason s)); ("loop_mode", VStr (ls_loop_mode s));
   ("permission_mode", VStr (ls_permission_mode s)); ("primary_thread_id", opt_str (ls_primary_thread_id s))]%string.

(** [_input_receipt_dto]. *)
Definition input_receipt_dto (r : LiveInputReceiptSnapshot) : list (string * pyval) :=
  [("id", VStr (is_id r)); ("owner_id", VInt (is_owner_id r)); ("session_id", VStr (is_session_id r));
   ("provider", VStr (is_provider r)); ("text", VStr (is_text r)); ("intent", VStr (is_intent r));
   ("status", VStr (is_status r)); ("client_request_id", opt_str (is_client_request_id r));
   ("archive_session_input_id", opt_int (is_archive_session_input_id r));
   ("delivery_request_id", opt_str (is_delivery_request_id r)); ("error_json", opt_str (is_error_json r));
   ("created_at", encode_datetime (is_created_at r)); ("updated_at", encode_datetime (is_updated_at r))]%string.

(** ** Answers *)

Inductive claim_answer : Type :=
  | ClaimRefused (reason : string) (seq : string)
  | ClaimGranted (exact_replay : bool) (session : LiveControlSession) (receipt : LiveInputReceiptSnapshot) (seq : string).

Inductive finish_answer : Type :=
  | ReceiptNotFound (seq : string)
  | ReceiptUnchanged (receipt : LiveInputReceiptSnapshot) (seq : string)
  | ReceiptNotDelivering (seq : string)
  | ReceiptFinished (receipt : LiveInputReceiptSnapshot) (seq : string).

(** ** Claiming *)

Section Claim.
Context (float : string → pyval) (other_form : string → option datetime) (reg : registry).
Context (assemble : string → Z → option (list (string * pyval))).

(** The operations of the provider's contract. *)
Definition claim_operations (contract : option ManagedProviderContract) : list string :=
  match contract with
  | None => []
  | Some c =>
      map fst (List.filter (λ ob : string * bool, ob.2)
        [("send_input", mc_send_input c); ("interrupt", mc_interrupt c); ("terminate", mc_terminate c);
         ("tail_output", mc_tail_output c); ("resume", mc_can_resume c)]%string)
  end.

Definition unknown_transcript : SessionTranscriptFacts := TranscriptFacts ConvUnknown None None None None false false.

(** The projection the claim is gated by. *)
Definition claim_projection (st : input_store) (session : LiveControlSession) (session_id : string) (observed_at : Z) :
    res (option SessionStateFacts) :=
  let! '(fact_commit_seq, head_map) := read_session_fact_heads (st_facts st) session_id in
  match assemble session_id observed_at with
  | None => Ok None
  | Some facts =>
      let! sf := project_served_session_state_facts float other_form table_row session_id fact_commit_seq facts
                   (map_to_list head_map) (claim_operations (contract_for_provider reg (Some (ls_provider session))))
                   None unknown_transcript (HostFacts HUnknown None) (utc observed_at) in
      Ok (Some sf)
  end.

(** Why a claim is refused, when it is. *)
Definition claim_gate (projection : option SessionStateFacts) : option string :=
  match projection with
  | None => Some "activity_not_drainable"%string
  | Some sf =>
      if negb (bool_decide (ac_state (sf_activity sf) = AQuiescent) || bool_decide (ac_state (sf_activity sf) = ABlocked))
      then Some "activity_not_drainable"%string
      else if negb (bool_decide (aa_state (ca_send_input (ct_actions (sf_control sf))) = Available))
      then Some "control_unavailable"%string
      else None
  end.

Definition holds_request (session_id delivery_request_id : string) (kr : string * LiveSessionInputReceipt) : bool :=
  of_input_session session_id kr.2 && opt_is (ir_delivery_request_id kr.2) delivery_request_id
  && has_status INPUT_STATUS_DELIVERING kr.2.

(** [claim_queued_input]: [observed_at] is the first clock reading, [clock]
    those of the claim itself. *)
Definition claim_queued_input (st : input_store) (session_id delivery_request_id : string) (observed_at : Z)
    (clock : claim_clock) : res (claim_answer * input_store) :=
  let st := set_input_receipts (expire_stale_live_receipts (st_receipts st) session_id observed_at).2 st in
  let t := st_receipts st in
  let refused reason := Ok (ClaimRefused reason (current_commit_seq st), st) in
  let replay := head (select_receipts (holds_request session_id delivery_request_id) t) in
  let fresh := head (select_receipts (is_claimable session_id (observed_at - MAX_DELIVERY_AGE)) t) in
  if bool_decide (replay = None) && bool_decide (fresh = None) then refused "queue_empty"%string
  else
    match load_live_control_session st session_id with
    | None => refused "session_not_found"%string
    | Some session =>
        let! projection := claim_projection st session session_id observed_at in
        match claim_gate projection with
        | Some reason => refused reason
        | None =>
            match replay with
            | Some row => Ok (ClaimGranted true session (snapshot row) (current_commit_seq st), st)
            | None =>
                let '(receipt, t') := claim_next_live_queued_receipt t session_id delivery_request_id clock in
                let st' := set_input_receipts t' st in
                match receipt with
                | None => Ok (ClaimRefused "queue_empty"%string (current_commit_seq st'), st')
                | Some r =>
                    let st'' := advance_catalog_seq observed_at st' in
                    Ok (ClaimGranted false session r (current_commit_seq st''), st'')
                end
            end
        end
    end.
End Claim.

(** ** Finishing, cancelling, recording *)

(** [finish_queued_input]: [observed_at] is the first clock reading and [now]
    that of the update. *)
Definition finish_queued_input (st : input_store) (receipt_id delivery_request_id status : string)
    (error : option string) (observed_at now : Z) : res (finish_answer * input_store) :=
  let t := st_receipts st in
  let seq := current_commit_seq st in
  match t !! receipt_id with
  | None => Ok (ReceiptNotFound seq, st)
  | Some row =>
      if negb (String.eqb (or_empty (ir_delivery_request_id row)) delivery_request_id) then Ok (ReceiptNotFound seq, st)
      else if has_status status row then Ok (ReceiptUnchanged (snapshot (receipt_id, row)) seq, st)
      else if negb (has_status INPUT_STATUS_DELIVERING row) then Ok (ReceiptNotDelivering seq, st)
      else
        let '(snap, t') :=
          if String.eqb status "delivered" then
            mark_live_receipt_delivered_with_projection t receipt_id delivery_request_id now
          else if String.eqb status "queued" then
            let '(snap, _, t') :=
              requeue_live_receipt t receipt_id
                (default "session input delivery deferred" (error ≫= or_none)) now in (snap, t')
          else
            mark_live_receipt_failed t receipt_id (default "session input delivery failed" (error ≫= or_none)) now in
        match snap with
        | None => Err (RuntimeError "claimed input receipt disappeared during finish")
        | Some r =>
            let st' := advance_catalog_seq observed_at (set_input_receipts t' st) in
            Ok (ReceiptFinished r (current_commit_seq st'), st')
        end
  end.

(** [upsert_input_receipt], through [_record_live_input_receipt]. *)
Definition upsert_input_receipt (st : input_store) (q : input_request) (uuid : string) (observed_at now stamp : Z) :
    res (LiveInputReceiptSnapshot * string * input_store) :=
  let! '(id, t) := upsert_live_input_receipt (st_receipts st) q uuid now stamp in
  match load_live_input_receipt_by_id t id with
  | None => Err (RuntimeError "input receipt disappeared after upsert")
  | Some r =>
      let st' := advance_catalog_seq observed_at (set_input_receipts t st) in
      Ok (r, current_commit_seq st', st')
  end.

(** [read_input_receipt]. *)
Definition read_input_receipt (st : input_store) (owner_id : Z) (session_id client_request_id : string) :
    option LiveInputReceiptSnapshot * string :=
  (get_live_input_receipt_by_client_request (st_receipts st) owner_id session_id (Some client_request_id),
   current_commit_seq st).

(** [list_recent_input_receipts]. *)
Definition list_recent_input_receipts (st : input_store) (session_id : string) (now : Z) :
    list LiveInputReceiptSnapshot * nat * string :=
  (list_recent_live_input_receipts (st_receipts st) session_id now,
   count_live_queued_receipts (st_receipts st) session_id, current_commit_seq st).

(** [cancel_input_receipt]; the answer is the cancelled receipt, if any. *)
Definition cancel_input_receipt (st : input_store) (session_id receipt_id : string) (observed_at now : Z) :
    option LiveInputReceiptSnapshot * string * input_store :=
  match cancel_live_queued_receipt (st_receipts st) session_id receipt_id now with
  | (None, _) => (None, current_commit_seq st, st)
  | (Some r, t) =>
      let st' := advance_catalog_seq observed_at (set_input_receipts t st) in
      (Some r, current_commit_seq st', st')
  end.

(** The part of [resume_local_launch] that settles the receipts the ended run
    had claimed. *)
Definition recovery_json : option string :=
  json_or_none (Some
    [("code", VStr "delivery_unknown");
     ("message", VStr "Input was not carried across the managed-session recovery boundary; retry explicitly.")]%string).

Definition recover_row (session_id : string) (observed_at : Z) (row : LiveSessionInputReceipt) : LiveSessionInputReceipt :=
  if of_input_session session_id row && has_status INPUT_STATUS_DELIVERING row
  then with_status INPUT_STATUS_FAILED recovery_json observed_at row else row.

Definition settle_claimed_receipts (st : input_store) (session_id : string) (observed_at : Z) : input_store :=
  set_input_receipts (recover_row session_id observed_at <$> st_receipts st) st.

(** ** Deletion of a session *)

(** The rows of this part that [_delete_bounded_live_session_state] deletes. *)
Definition delete_session_inputs (session_id : string) (st : input_store) : input_store :=
  InputStore (st_facts st) (filter (λ kr, of_input_session session_id kr.2 = false) (st_receipts st))
    (delete session_id (st_sessions st)).
