(* ===== verification/InputServer.v ===== *)
(** * The input queue's RPC handlers

    Models the handlers of the input queue in
    [src/server/zerg/catalogd/server.py]: the validation of the parameters of
    a request, which are a decoded JSON object, and the call of the store. *)

From S2P Require Import Prelude PyStr PyTime PyValue MachineEvidence PyJson FactStore FactReducer FactReads.
From S2P Require Import ConsoleControl ProviderContracts Capabilities RuntimeView Liveness StateContract SessionState.
From S2P Require Import StateProjector PyText InputQueue InputStore.

Open Scope list_scope.
Open Scope Z_scope.

(** A response: a result, or an [invalid_request] error with its message. *)
Inductive rpc (A : Type) : Type :=
  | Invalid (message : string)
  | Result_of (result : A).

Arguments Invalid {A} message.
Arguments Result_of {A} result.

(** [set(params) == {...}]. *)
Definition has_fields (names : list string) (params : list (string * pyval)) : bool :=
  bool_decide ((list_to_set (map fst params) : gset string) = list_to_set names).

(** [_is_canonical_uuid] and [_is_string]. *)
Definition is_canonical_uuid (value : pyval) : bool :=
  match value with VStr s => opt_is (uuid_text s) s | _ => false end.

Definition is_string (maximum : nat) (value : pyval) : bool :=
  match value with VStr s => str_truthy s && len_le s maximum | _ => false end.

Definition null_or_string (maximum : nat) (value : pyval) : bool := is_none value || is_string maximum value.

(** The text of a value that is known to be one. *)
Definition the_str (value : pyval) : string := or_empty (as_str value).

(** ** [_validate_input_receipt] *)

Definition INPUT_RECEIPT_FIELDS : list string :=
  ["owner_id"; "session_id"; "provider"; "text"; "intent"; "status"; "client_request_id"; "device_id"; "thread_id";
   "archive_session_input_id"; "control_command_id"; "delivery_request_id"; "enqueue_archive_projection"; "error";
   "expires_at"]%string.

Definition positive_int (value : pyval) : bool := match value with VInt z => 0 <? z | _ => false end.

(** [_parse_datetime]. *)
Definition parse_datetime (other_form : string → option datetime) (value : pyval) (field : string) : res datetime :=
  match value with
  | VStr s =>
      match parse_iso other_form s with
      | None => Err (ValueError (field +:+ " must be an ISO-8601 UTC datetime string"))
      | Some d => if aware d then to_utc d else Err (ValueError (field +:+ " must include a UTC offset"))
      end
  | _ => Err (ValueError (field +:+ " must be an ISO-8601 UTC datetime string"))
  end.

Definition MAX_TEXT_BYTES : Z := 512 * 1024.

(** [for field, maximum in (...): if ...: raise ValueError(...)]. *)
Fixpoint check_fields (ok : nat → pyval → bool) (subject verb : string) (d : list (string * pyval))
    (fields : list (string * nat)) : res unit :=
  match fields with
  | [] => Ok tt
  | (field, maximum) :: fields' =>
      let! _ := guard (ok maximum (assoc field d))
                  (ValueError (subject +:+ "." +:+ field +:+ " must " +:+ verb +:+ " 1 to " +:+ pretty maximum +:+ " characters")) in
      check_fields ok subject verb d fields'
  end.

(** [_validate_input_receipt]. *)
Definition validate_input_receipt (other_form : string → option datetime) (value : pyval) : res input_request :=
  match value with
  | VDict d =>
      let get name := assoc name d in
      let! _ := guard (has_fields INPUT_RECEIPT_FIELDS d) (ValueError "receipt has invalid fields") in
      let! _ := guard (positive_int (get "owner_id"%string)) (ValueError "receipt.owner_id must be a positive integer") in
      let! _ := guard (is_canonical_uuid (get "session_id"%string))
                  (ValueError "receipt.session_id must be a canonical UUID") in
      let! _ := guard (is_string 64 (get "provider"%string))
                  (ValueError "receipt.provider must contain 1 to 64 characters") in
      let! _ := guard (match get "text"%string with
                       | VStr t => Z.of_nat (utf8_length t) <=? MAX_TEXT_BYTES
                       | _ => false
                       end) (ValueError "receipt.text must be at most 512 KiB") in
      let! _ := check_fields is_string "receipt" "contain" d [("intent", 32); ("status", 32)]%nat%string in
      let! _ := check_fields null_or_string "receipt" "be null or contain" d
                  [("client_request_id", 255); ("device_id", 255); ("control_command_id", 96);
                   ("delivery_request_id", 64)]%nat%string in
      let! _ := guard (is_none (get "thread_id"%string) || is_canonical_uuid (get "thread_id"%string))
                  (ValueError "receipt.thread_id must be a canonical UUID or null") in
      let! _ := guard (is_none (get "archive_session_input_id"%string)
                       || positive_int (get "archive_session_input_id"%string))
                  (ValueError "receipt.archive_session_input_id must be a positive integer or null") in
      let! enqueue := match get "enqueue_archive_projection"%string with
                      | VBool b => Ok b
                      | _ => Err (ValueError "receipt.enqueue_archive_projection must be a boolean")
                      end in
      let! error := match get "error"%string with
                    | VNone => Ok None
                    | VDict e => Ok (Some e)
                    | _ => Err (ValueError "receipt.error must be an object or null")
                    end in
      let! expires_at := if is_none (get "expires_at"%string) then Ok None
                         else let! d := parse_datetime other_form (get "expires_at"%string) "receipt.expires_at" in
                              Ok (Some d) in
      Ok (InputRequest (default 0 (as_int (get "owner_id"%string))) (the_str (get "session_id"%string))
            (the_str (get "provider"%string)) (the_str (get "text"%string)) (the_str (get "intent"%string))
            (the_str (get "status"%string)) (as_str (get "client_request_id"%string)) (as_str (get "device_id"%string))
            (as_str (get "thread_id"%string)) (as_int (get "archive_session_input_id"%string))
            (as_str (get "control_command_id"%string)) (as_str (get "delivery_request_id"%string)) enqueue error expires_at)
  | _ => Err (ValueError "receipt has invalid fields")
  end.

(** ** Handlers *)

Abbreviation answer A := (res (rpc A * input_store)).

Definition invalid {A} (st : input_store) (message : string) : answer A := Ok (Invalid message, st).

Definition accepted_result {A} (r : res (A * input_store)) : answer A := (λ as_, (Result_of as_.1, as_.2)) <$> r.

Section Handlers.
Context (float : string → pyval) (other_form : string → option datetime) (reg : registry).
Context (assemble : string → Z → option (list (string * pyval))).

(** [_claim_queued_input]. *)
Definition handle_claim (st : input_store) (params : list (string * pyval)) (observed_at : Z) (clock : claim_clock) :
    answer claim_answer :=
  if negb (has_fields ["session_id"; "delivery_request_id"]%string params) then
    invalid st "session.input.claim.v2 has invalid parameters"
  else if negb (is_canonical_uuid (assoc "session_id" params)) then invalid st "session_id must be a canonical UUID"
  else if negb (is_string 64 (assoc "delivery_request_id" params)) then
    invalid st "delivery_request_id must contain 1 to 64 characters"
  else
    accepted_result (claim_queued_input float other_form reg assemble st (the_str (assoc "session_id" params))
                       (the_str (assoc "delivery_request_id" params)) observed_at clock).

Definition FINISH_STATUSES : list string := ["delivered"; "failed"; "queued"]%string.

(** [_finish_queued_input]. *)
Definition handle_finish (st : input_store) (params : list (string * pyval)) (observed_at now : Z) :
    answer finish_answer :=
  let status := assoc "status" params in
  let error := assoc "error" params in
  if negb (has_fields ["receipt_id"; "delivery_request_id"; "status"; "error"]%string params) then
    invalid st "session.input.finish.v2 has invalid parameters"
  else if negb (is_canonical_uuid (assoc "receipt_id" params)) then invalid st "receipt_id must be a canonical UUID"
  else if negb (is_string 64 (assoc "delivery_request_id" params)) then
    invalid st "delivery_request_id must contain 1 to 64 characters"
  else
    let! _ := check_hashable status in
    if negb (opt_in (as_str status) FINISH_STATUSES) then invalid st "status must be delivered, failed, or queued"
    else if negb (null_or_string 500 error) then invalid st "error must be null or contain 1 to 500 characters"
    else
      accepted_result (finish_queued_input st (the_str (assoc "receipt_id" params))
                         (the_str (assoc "delivery_request_id" params)) (the_str status) (as_str error) observed_at now).

(** [_upsert_input_receipt]: a [ValueError] of the validation is the error's
    message, any other exception leaves the handler. *)
Definition handle_upsert (st : input_store) (params : list (string * pyval)) (uuid : string)
    (observed_at now stamp : Z) : answer LiveInputReceiptSnapshot :=
  if negb (has_fields ["receipt"%string] params) then invalid st "session.input.receipt.upsert.v2 requires receipt"
  else
    match validate_input_receipt other_form (assoc "receipt" params) with
    | Err (ValueError message) => invalid st message
    | Err e => Err e
    | Ok q => accepted_result ((λ r, (r.1.1, r.2)) <$> upsert_input_receipt st q uuid observed_at now stamp)
    end.

(** [_read_input_receipt]. *)
Definition handle_read (st : input_store) (params : list (string * pyval)) : answer (option LiveInputReceiptSnapshot) :=
  if negb (has_fields ["owner_id"; "session_id"; "client_request_id"]%string params) then
    invalid st "session.input.receipt.read.v2 has invalid parameters"
  else if negb (positive_int (assoc "owner_id" params)) then invalid st "owner_id must be a positive integer"
  else if negb (is_canonical_uuid (assoc "session_id" params)) then invalid st "session_id must be a canonical UUID"
  else if negb (is_string 255 (assoc "client_request_id" params)) then
    invalid st "client_request_id must contain 1 to 255 characters"
  else
    Ok (Result_of (read_input_receipt st (default 0 (as_int (assoc "owner_id" params)))
                     (the_str (assoc "session_id" params)) (the_str (assoc "client_request_id" params))).1, st).

(** [_list_recent_input_receipts]. *)
Definition handle_list_recent (st : input_store) (params : list (string * pyval)) (now : Z) :
    answer (list LiveInputReceiptSnapshot * nat) :=
  if negb (has_fields ["session_id"%string] params && is_canonical_uuid (assoc "session_id" params)) then
    invalid st "session.input.recent.list.v2 requires a canonical session_id"
  else Ok (Result_of (list_recent_input_receipts st (the_str (assoc "session_id" params)) now).1, st).

(** [_cancel_input_receipt]. *)
Definition handle_cancel (st : input_store) (params : list (string * pyval)) (observed_at now : Z) :
    answer (option LiveInputReceiptSnapshot) :=
  if negb (has_fields ["session_id"; "receipt_id"]%string params) then
    invalid st "session.input.cancel.v2 has invalid parameters"
  else if negb (is_canonical_uuid (assoc "session_id" params)) then invalid st "session_id must be a canonical UUID"
  else if negb (is_canonical_uuid (assoc "receipt_id" params)) then invalid st "receipt_id must be a canonical UUID"
  else
    let '(r, _, st') := cancel_input_receipt st (the_str (assoc "session_id" params)) (the_str (assoc "receipt_id" params))
                          observed_at now in
    Ok (Result_of r, st').
End Handlers.

(** ** Reporting a dispatch

    [wake_next_live_catalog_input] of live_control_catalog.py claims one
    receipt, dispatches its text and finishes the receipt by what the
    dispatcher answered. *)

(** [ManagedControlDispatchResult], with the fields of [data] that are read. *)
Record dispatch_result : Type := DispatchResult {
  dr_ok : bool;
  dr_error : option string;
  dr_exit_code : option Z;
  dr_stderr : option string;
  dr_failure_kind : option string;
  dr_failure_reason : option string;
}.

Definition DISPATCH_FAILURE_PRECONDITION : string := "precondition".

Definition RETRYABLE_PRECONDITIONS : list string :=
  ["control_unavailable"; "connection_unavailable"; "control_head_missing"; "lease_expired"; "identity_unbound"]%string.

(** [_is_transient_delivery_failure]. *)
Definition is_transient_delivery_failure (r : dispatch_result) : bool :=
  opt_is (dr_failure_kind r) DISPATCH_FAILURE_PRECONDITION
  && str_in (or_empty (dr_failure_reason r)) RETRYABLE_PRECONDITIONS.

(** The parameters of the finish that follows the dispatch of a claimed
    receipt. *)
Definition finish_params (receipt_id request : string) (r : dispatch_result) : list (string * pyval) :=
  let report status error :=
    [("receipt_id", VStr receipt_id); ("delivery_request_id", VStr request); ("status", VStr status);
     ("error", error)]%string in
  if negb (dr_ok r) || negb (default 1 (dr_exit_code r) =? 0) then
    let delivery_error := str_take 500 (default "queued send failed" (opt_or (dr_error r) (dr_stderr r) ≫= or_none)) in
    report (if is_transient_delivery_failure r then "queued" else "failed")%string (VStr delivery_error)
  else report "delivered"%string VNone.

(** ** The reports of dispatches

    The waker of [live_control_catalog.py] and the handler of
    [catalogd/server.py] agree: every report the waker sends is one the handler
    takes, and it says what the dispatcher answered. *)

#[local] Open Scope string_scope.
Open Scope list_scope.
Open Scope Z_scope.

Lemma str_take_bounded n s : s ≠ "" → (0 < n)%nat → str_truthy (str_take n s) && len_le (str_take n s) n = true.
Proof.
  intros Hs Hn. apply andb_true_iff. split.
  - destruct s, n; [done..|lia|done].
  - unfold len_le, str_take. apply Nat.leb_le. clear. revert n.
    induction s as [|c s IH]; intros [|n]; simpl; try lia. specialize (IH n). lia.
Qed.

Lemma null_or_report v : null_or_string 500 (VStr (str_take 500 (default "queued send failed" (v ≫= or_none)))) = true.
Proof.
  unfold null_or_string, is_string. cbn [is_none]. apply str_take_bounded; [|lia].
  destruct v as [s|]; [|discriminate]. unfold or_none, str_truthy. simpl. destruct (String.eqb_spec s ""); [discriminate|done].
Qed.

(** C30: the report of a dispatch is well formed and honest.  For a receipt and
    a request the claim could have handed out, the handler takes every report;
    the receipt is reported delivered exactly when the dispatch succeeded with
    exit code zero, and returned to the queue exactly when it failed before
    anything was sent, on a precondition that a later attempt may meet; every
    other failure is final. *)
Theorem dispatch_report_is_taken st receipt_id request r observed_at now :
  is_canonical_uuid (VStr receipt_id) = true → is_string 64 (VStr request) = true →
  ∃ status error,
    handle_finish st (finish_params receipt_id request r) observed_at now
    = accepted_result (finish_queued_input st receipt_id request status error observed_at now) ∧
    (status = "delivered" ↔ dr_ok r = true ∧ dr_exit_code r = Some 0) ∧
    (status = "queued" ↔ (dr_ok r = true → dr_exit_code r ≠ Some 0) ∧
       dr_failure_kind r = Some DISPATCH_FAILURE_PRECONDITION ∧
       or_empty (dr_failure_reason r) ∈ RETRYABLE_PRECONDITIONS) ∧
    status ∈ FINISH_STATUSES.
Proof.
  intros Hid Hreq.
  assert (negb (dr_ok r) || negb (default 1 (dr_exit_code r) =? 0) = true ↔ (dr_ok r = true → dr_exit_code r ≠ Some 0)) as Hfail.
  { destruct (dr_ok r), (dr_exit_code r) as [z|]; simpl; try (by split); rewrite negb_true_iff, Z.eqb_neq; naive_solver. }
  set (good := is_transient_delivery_failure r).
  assert (good = true ↔ dr_failure_kind r = Some DISPATCH_FAILURE_PRECONDITION ∧
                        or_empty (dr_failure_reason r) ∈ RETRYABLE_PRECONDITIONS) as Hgood.
  { unfold good, is_transient_delivery_failure. by rewrite andb_true_iff, opt_is_spec, str_in_spec. }
  assert (∀ status error, opt_in (as_str (VStr status)) FINISH_STATUSES = true → null_or_string 500 error = true →
    handle_finish st [("receipt_id", VStr receipt_id); ("delivery_request_id", VStr request); ("status", VStr status);
                      ("error", error)] observed_at now
    = accepted_result (finish_queued_input st receipt_id request status (as_str error) observed_at now)) as Hh.
  { intros status error Hs He. unfold handle_finish. cbn [assoc String.eqb Ascii.eqb Bool.eqb].
    by rewrite Hid, Hreq, Hs, He. }
  unfold finish_params. destruct (negb (dr_ok r) || _) eqn:Ef.
  - pose proof (proj1 Hfail eq_refl) as Hf. eexists (if good then "queued" else "failed"), _. split.
    { apply Hh; [by destruct good|]. unfold opt_or. destruct (opt_truthy (dr_error r)); apply null_or_report. }
    clear Hh Hfail. split_and!; [destruct good; naive_solver| |destruct good; set_solver].
    rewrite <- Hgood. destruct good; naive_solver.
  - apply orb_false_iff in Ef as [Eok%negb_false_iff Ex%negb_false_iff].
    assert (dr_exit_code r = Some 0) as Ecode by (destruct (dr_exit_code r) as [z|]; simpl in Ex; [f_equal; lia|done]).
    eexists "delivered", _. split; [by apply Hh|]. split_and!; [done| |left].
    split; [done|]. intros [H _]. by destruct (H Eok).
Qed.

Definition offline_dispatch : dispatch_result :=
  DispatchResult false (Some "Machine Agent control channel is offline") None None (Some "precondition")
    (Some "connection_unavailable").

Definition empty_store : input_store := InputStore (Catalog ∅ [] [] 0 "") ∅ ∅.

Lemma dispatch_report_is_taken_witness :
  ∃ status error,
    handle_finish empty_store (finish_params "12345678-9abc-def0-1234-56789abcdef0" "d1" offline_dispatch) 5 6
    = accepted_result (finish_queued_input empty_store "12345678-9abc-def0-1234-56789abcdef0" "d1" status error 5 6) ∧
    (status = "delivered" ↔ dr_ok offline_dispatch = true ∧ dr_exit_code offline_dispatch = Some 0) ∧
    (status = "queued" ↔ (dr_ok offline_dispatch = true → dr_exit_code offline_dispatch ≠ Some 0) ∧
       dr_failure_kind offline_dispatch = Some DISPATCH_FAILURE_PRECONDITION ∧
       or_empty (dr_failure_reason offline_dispatch) ∈ RETRYABLE_PRECONDITIONS) ∧
    status ∈ FINISH_STATUSES.
Proof.
  apply (dispatch_report_is_taken empty_store "12345678-9abc-def0-1234-56789abcdef0" "d1" offline_dispatch 5 6);
    vm_compute; reflexivity.
Defined.
