(* ===== verification/InputLaws.v ===== *)
(** * Laws of the input queue

    Reads in queue order, what each operation does to every row, and the life
    of a receipt as an abstract machine that the operations implement. *)

From S2P Require Import Prelude PyStr PyTime PyValue MachineEvidence PyJson PyText InputQueue FactStore FactReducer.
From S2P Require Import FactReads.
From S2P Require Import ConsoleControl ProviderContracts Capabilities RuntimeView Liveness StateContract SessionState.
From S2P Require Import StateProjector InputStore.

Open Scope list_scope.
Open Scope Z_scope.

(** ** Reads *)

Lemma elem_of_select_receipts P t id row :
  (id, row) ∈ select_receipts P t ↔ t !! id = Some row ∧ P (id, row) = true.
Proof. unfold select_receipts. rewrite list_elem_of_filter, elem_of_map_to_list. tauto. Qed.

Lemma head_select P t id row :
  head (select_receipts P t) = Some (id, row) → t !! id = Some row ∧ P (id, row) = true.
Proof.
  intros H. apply elem_of_select_receipts. destruct (select_receipts P t) as [|x l]; [done|].
  injection H as ->. left.
Qed.

Lemma select_nil P t id row : head (select_receipts P t) = None → t !! id = Some row → P (id, row) = false.
Proof.
  intros H Ht. destruct (P (id, row)) eqn:E; [|done].
  assert ((id, row) ∈ select_receipts P t) as Hin by by apply elem_of_select_receipts.
  destruct (select_receipts P t); [set_solver|done].
Qed.

Lemma elem_of_queue_keys P t k :
  k ∈ py_sorted queue_cmp (map queue_key (select_receipts P t)) ↔
  ∃ row, t !! k.2 = Some row ∧ P (k.2, row) = true ∧ ir_created_at row = k.1.
Proof.
  rewrite (elem_of_py_sorted queue_cmp). rewrite list_elem_of_fmap. split.
  - intros ([id row] & -> & [Ht HP]%elem_of_select_receipts). by exists row.
  - intros (row & Ht & HP & E). exists (k.2, row). split; [|by apply elem_of_select_receipts].
    destruct k as [c id]; unfold queue_key; simpl in *. by subst.
Qed.

(** The first row in queue order is the least of the selected ones. *)
Lemma head_in_queue_order P t id row :
  head (in_queue_order P t) = Some (id, row) →
  t !! id = Some row ∧ P (id, row) = true ∧
  ∀ id' row', t !! id' = Some row' → P (id', row') = true →
    cmp_le queue_cmp (queue_key (id, row)) (queue_key (id', row')).
Proof.
  unfold in_queue_order. pose proof (py_sorted_sorted queue_cmp (map queue_key (select_receipts P t))) as Hs.
  pose proof (elem_of_queue_keys P t) as Hk. destruct (py_sorted _ _) as [|k ks]; [done|].
  destruct (proj1 (Hk k) ltac:(left)) as (row0 & Ht & HP & Ec). cbn. rewrite Ht. cbn.
  intros [= <- <-]. split; [done|]. split; [done|]. intros id' row' Ht' HP'.
  assert (queue_key (k.2, row0) = k) as -> by (destruct k; unfold queue_key; simpl in *; by subst).
  assert (queue_key (id', row') ∈ k :: ks) as [E|Hin]%elem_of_cons by (apply Hk; by exists row').
  - rewrite E. unfold cmp_le. by rewrite (cmp_self queue_cmp).
  - apply StronglySorted_inv in Hs as [_ Hall]. rewrite Forall_forall in Hall. by apply Hall.
Qed.

Lemma queue_order_nil P t id row :
  head (in_queue_order P t) = None → t !! id = Some row → P (id, row) = false.
Proof.
  unfold in_queue_order. pose proof (elem_of_queue_keys P t) as Hk. intros H Ht.
  destruct (P (id, row)) eqn:E; [|done].
  assert (queue_key (id, row) ∈ py_sorted queue_cmp (map queue_key (select_receipts P t))) as Hin by (apply Hk; by exists row).
  destruct (py_sorted _ _) as [|k ks]; [set_solver|]. destruct (proj1 (Hk k) ltac:(left)) as (row0 & Ht0 & _).
  cbn in H. by rewrite Ht0 in H.
Qed.

(** ** Statuses *)

Lemma has_status_spec s r : has_status s r = true ↔ ir_status r = s.
Proof. apply String.eqb_eq. Qed.

Lemma is_queued_spec session id row :
  is_queued session (id, row) = true ↔ ir_session_id row = session ∧ ir_status row = INPUT_STATUS_QUEUED.
Proof. unfold is_queued, of_input_session. simpl. by rewrite andb_true_iff, has_status_spec, String.eqb_eq. Qed.

(** ** The life of a receipt *)

Inductive life : Type :=
  | Waiting (attempts : Z)
  | Held (request : string) (attempts : Z)
  | Settled (attempts : Z).

#[export] Instance life_eq_dec : EqDecision life.
Proof. solve_decision. Defined.

Definition life_of (r : LiveSessionInputReceipt) : life :=
  if has_status INPUT_STATUS_QUEUED r then Waiting (delivery_attempts r)
  else if has_status INPUT_STATUS_DELIVERING r then Held (or_empty (ir_delivery_request_id r)) (delivery_attempts r)
  else Settled (delivery_attempts r).

Definition attempts_of (l : life) : Z := match l with Waiting n | Held _ n | Settled n => n end.

Lemma life_attempts r : attempts_of (life_of r) = delivery_attempts r.
Proof. unfold life_of. by repeat destruct (has_status _ _). Qed.

(** Who acts: a claimant and then bearer of a delivery request, the sender of
    the input, or the recovery of its session. *)
Inductive actor : Type := Claimant (request : string) | Bearer (request : string) | Sender | Recovery.

(** The abstract machine: a waiting receipt is claimed, expired by a claim or
    cancelled by its sender; a held one is settled or returned by its bearer,
    or settled by a recovery.  A return counts an attempt, and the
    two-hundredth settles it. *)
Inductive life_step : actor → life → life → Prop :=
  | step_claim r n : life_step (Claimant r) (Waiting n) (Held r n)
  | step_expire r n : life_step (Claimant r) (Waiting n) (Settled n)
  | step_cancel n : life_step Sender (Waiting n) (Settled n)
  | step_settle r n : life_step (Bearer r) (Held r n) (Settled n)
  | step_give_up r n : life_step (Bearer r) (Held r n) (Settled (n + 1))
  | step_return r n : n + 1 < MAX_DELIVERY_ATTEMPTS → life_step (Bearer r) (Held r n) (Waiting (n + 1))
  | step_recover r n : life_step Recovery (Held r n) (Settled n).

(** What no operation of the queue rewrites. *)
Record same_input (r r' : LiveSessionInputReceipt) : Prop := {
  same_owner : ir_owner_id r' = ir_owner_id r;
  same_session : ir_session_id r' = ir_session_id r;
  same_provider : ir_provider r' = ir_provider r;
  same_text : ir_text r' = ir_text r;
  same_intent : ir_intent r' = ir_intent r;
  same_client_request : ir_client_request_id r' = ir_client_request_id r;
  same_created : ir_created_at r' = ir_created_at r;
}.

(** A row stays as it is, or takes one step of its life. *)
Definition moves (a : actor) (r r' : LiveSessionInputReceipt) : Prop :=
  r' = r ∨ same_input r r' ∧ life_step a (life_of r) (life_of r').

(** A table keeps its keys and each of its rows moves. *)
Definition table_moves (a : actor) (t t' : receipt_table) : Prop :=
  ∀ id, option_relation (moves a) (λ _, False) (λ _, False) (t !! id) (t' !! id).

Lemma table_moves_refl a t : table_moves a t t.
Proof. intros id. destruct (t !! id); simpl; [by left|done]. Qed.

Lemma table_moves_insert a t id r r' :
  t !! id = Some r → moves a r r' → table_moves a t (<[id := r']> t).
Proof.
  intros Ht Hm id'. destruct (decide (id' = id)) as [->|Hne].
  - by rewrite Ht, lookup_insert_eq.
  - rewrite lookup_insert_ne by done. apply table_moves_refl.
Qed.

(** ** Expiry *)

Definition expired (session_id : string) (now : Z) (id : string) (row : LiveSessionInputReceipt) : LiveSessionInputReceipt :=
  if is_stale session_id (now - MAX_DELIVERY_AGE) (id, row) then expire_row now row else row.

Lemma lookup_expire t session_id now id :
  (expire_stale_live_receipts t session_id now).2 !! id = expired session_id now id <$> t !! id.
Proof.
  unfold expire_stale_live_receipts. cbn [snd]. rewrite map_lookup_imap. by destruct (t !! id).
Qed.

Lemma expire_row_settles now row : life_of (expire_row now row) = Settled (delivery_attempts row).
Proof. done. Qed.

Lemma expire_row_same now row : same_input row (expire_row now row).
Proof. by split. Qed.

Lemma queued_waits session id row :
  is_queued session (id, row) = true → life_of row = Waiting (delivery_attempts row).
Proof. intros [_ E]%is_queued_spec. unfold life_of. by rewrite (proj2 (has_status_spec _ _) E). Qed.

Lemma expired_moves r session_id now id row : moves (Claimant r) row (expired session_id now id row).
Proof.
  unfold expired. destruct (is_stale _ _ _) eqn:E; [|by left]. right. split; [by split|].
  unfold is_stale in E. apply andb_true_iff in E as [E _].
  rewrite (queued_waits _ _ _ E), expire_row_settles. constructor.
Qed.

Lemma expire_moves r t session_id now : table_moves (Claimant r) t (expire_stale_live_receipts t session_id now).2.
Proof.
  intros id. rewrite lookup_expire. destruct (t !! id) as [row|]; simpl; [apply expired_moves|done].
Qed.

(** A receipt that an expiry settled is not touched by the steps of waiting
    receipts that follow. *)
Lemma expired_cases session_id now id row :
  expired session_id now id row = row ∨
  is_queued session_id (id, row) = true ∧ created_before row (now - MAX_DELIVERY_AGE) = true ∧
  expired session_id now id row = expire_row now row.
Proof.
  unfold expired, is_stale. destruct (is_queued _ _) eqn:Eq; simpl; [|by left].
  destruct (created_before _ _) eqn:Ec; [|by left]. by right.
Qed.

Lemma expire_row_not_queued session_id now id row : is_queued session_id (id, expire_row now row) = false.
Proof. unfold is_queued. simpl. by rewrite andb_false_r. Qed.

Lemma expired_again session_id now now' id row :
  expired session_id now' id (expire_row now row) = expire_row now row.
Proof. unfold expired, is_stale. by rewrite expire_row_not_queued. Qed.

(** Two expiries in a row settle a receipt at most once. *)
Lemma expire_twice_moves r t session_id now now' :
  table_moves (Claimant r) t (expire_stale_live_receipts (expire_stale_live_receipts t session_id now).2 session_id now').2.
Proof.
  intros id. rewrite !lookup_expire. destruct (t !! id) as [row|]; simpl; [|done].
  destruct (expired_cases session_id now id row) as [->|(Hq & Hc & E)]; [apply expired_moves|].
  rewrite E, expired_again, <- E. apply expired_moves.
Qed.

Lemma expire_twice_queued t session_id now now' id row :
  (expire_stale_live_receipts (expire_stale_live_receipts t session_id now).2 session_id now').2 !! id = Some row →
  is_queued session_id (id, row) = true → t !! id = Some row.
Proof.
  rewrite !lookup_expire. destruct (t !! id) as [row0|]; simpl; [|done]. intros [= <-] Hq.
  destruct (expired_cases session_id now id row0) as [E|(_ & _ & E)]; rewrite E in Hq |- *.
  - destruct (expired_cases session_id now' id row0) as [E'|(_ & _ & E')]; rewrite E' in Hq |- *; [done|].
    by rewrite expire_row_not_queued in Hq.
  - rewrite expired_again in Hq. by rewrite expire_row_not_queued in Hq.
Qed.

(** A receipt that neither expiry settles. *)
Lemma expired_keeps session_id now id row :
  is_stale session_id (now - MAX_DELIVERY_AGE) (id, row) = false → expired session_id now id row = row.
Proof. unfold expired. by intros ->. Qed.

Lemma expire_twice_keeps t session_id now now' id row :
  t !! id = Some row →
  is_stale session_id (now - MAX_DELIVERY_AGE) (id, row) = false →
  is_stale session_id (now' - MAX_DELIVERY_AGE) (id, row) = false →
  (expire_stale_live_receipts (expire_stale_live_receipts t session_id now).2 session_id now').2 !! id = Some row.
Proof.
  intros Ht H H'. rewrite !lookup_expire, Ht. cbn [fmap option_fmap option_map].
  by rewrite (expired_keeps _ now), (expired_keeps _ now').
Qed.

(** ** Claims *)

Lemma claimable_queued session_id cutoff kr : is_claimable session_id cutoff kr = true → is_queued session_id kr = true.
Proof. intros [H _]%andb_true_iff. done. Qed.

(** What a claim of the queue does, from the table the first expiry left. *)
Lemma claim_next_cases t session_id request clock answer t' :
  claim_next_live_queued_receipt t session_id request clock = (answer, t') →
  let t2 := (expire_stale_live_receipts t session_id (at_expiry clock)).2 in
  let P := is_claimable session_id (at_cutoff clock - MAX_DELIVERY_AGE) in
  answer = None ∧ t' = t2 ∧ (∀ id row, t2 !! id = Some row → P (id, row) = false) ∨
  ∃ id row, answer = Some (snapshot (id, row)) ∧ t2 !! id = Some row ∧ P (id, row) = true ∧
    t' = <[id := claim_row request (at_update clock) row]> t2 ∧
    ∀ id' row', t2 !! id' = Some row' → P (id', row') = true →
      cmp_le queue_cmp (queue_key (id, row)) (queue_key (id', row')).
Proof.
  unfold claim_next_live_queued_receipt. destruct (head _) as [[id row]|] eqn:E; intros [= <- <-].
  - right. apply head_in_queue_order in E as (Ht & HP & Hmin). by exists id, row.
  - left. split; [done|]. split; [done|]. intros id row. by apply queue_order_nil.
Qed.

Lemma claim_row_same request now row : same_input row (claim_row request now row).
Proof. by split. Qed.

Lemma claim_row_life request now row : life_of (claim_row request now row) = Held request (delivery_attempts row).
Proof. done. Qed.

Lemma claim_next_moves t session_id request clock now answer t' :
  claim_next_live_queued_receipt (expire_stale_live_receipts t session_id now).2 session_id request clock = (answer, t') →
  table_moves (Claimant request) t t'.
Proof.
  intros H. apply claim_next_cases in H as [(_ & -> & _)|(id & row & _ & Ht & HP & -> & _)]; [apply expire_twice_moves|].
  intros id'. destruct (decide (id' = id)) as [->|Hne].
  - apply claimable_queued in HP. rewrite (expire_twice_queued _ _ _ _ _ _ Ht HP), lookup_insert_eq. right.
    split; [apply claim_row_same|]. rewrite claim_row_life, (queued_waits _ _ _ HP). constructor.
  - rewrite lookup_insert_ne by done. apply expire_twice_moves.
Qed.

(** ** The other writes *)

Lemma held_by row request :
  or_empty (ir_delivery_request_id row) = request → has_status INPUT_STATUS_DELIVERING row = true →
  life_of row = Held request (delivery_attempts row).
Proof.
  intros <- H. unfold life_of. rewrite H. apply has_status_spec in H. unfold has_status. by rewrite H.
Qed.

Lemma cancel_moves t session_id receipt_id now answer t' :
  cancel_live_queued_receipt t session_id receipt_id now = (answer, t') → table_moves Sender t t'.
Proof.
  unfold cancel_live_queued_receipt. destruct (t !! receipt_id) as [row|] eqn:Ht; [|intros [= <- <-]; apply table_moves_refl].
  destruct (is_queued _ _) eqn:Eq; intros [= <- <-]; [|apply table_moves_refl].
  eapply table_moves_insert; [done|]. right. split; [by split|]. rewrite (queued_waits _ _ _ Eq). apply step_cancel.
Qed.

Lemma requeue_row_moves request error now row row' requeued :
  life_of row = Held request (delivery_attempts row) → requeue_row error now row = (row', requeued) →
  moves (Bearer request) row row'.
Proof.
  intros Hl. unfold requeue_row. destruct (_ || _) eqn:E; intros [= <- <-]; right; (split; [by split|]); rewrite Hl.
  - apply step_give_up.
  - unfold life_of. simpl. apply orb_false_iff in E as [_ E]. apply step_return. lia.
Qed.

(** ** What a finish did, by its answer *)

Definition settled_row (status receipt_id request : string) (error : option string) (now : Z)
    (row : LiveSessionInputReceipt) : LiveSessionInputReceipt :=
  if String.eqb status "delivered" then
    with_request (Some request) (with_status INPUT_STATUS_DELIVERED (ir_error_json row) now row)
  else if String.eqb status "queued" then
    (requeue_row (default "session input delivery deferred" (error ≫= or_none)) now row).1
  else
    with_status INPUT_STATUS_FAILED
      (json_or_none (Some [("message"%string,
         VStr (error_message (default "session input delivery failed" (error ≫= or_none))))])) now row.

Lemma finish_cases st receipt_id request status error observed_at now answer st' :
  finish_queued_input st receipt_id request status error observed_at now = Ok (answer, st') →
  (st' = st ∧ (∀ r s, answer ≠ ReceiptFinished r s)) ∨
  ∃ row, st_receipts st !! receipt_id = Some row ∧
    or_empty (ir_delivery_request_id row) = request ∧ has_status INPUT_STATUS_DELIVERING row = true ∧
    has_status status row = false ∧
    st' = advance_catalog_seq observed_at
            (set_input_receipts (<[receipt_id := settled_row status receipt_id request error now row]> (st_receipts st)) st) ∧
    answer = ReceiptFinished (snapshot (receipt_id, settled_row status receipt_id request error now row))
               (current_commit_seq st').
Proof.
  unfold finish_queued_input. destruct (st_receipts st !! receipt_id) as [row|] eqn:Ht; [|intros [= <- <-]; by left].
  destruct (String.eqb_spec (or_empty (ir_delivery_request_id row)) request) as [Er|_]; simpl; [|intros [= <- <-]; by left].
  destruct (has_status status row) eqn:Es; [intros [= <- <-]; by left|].
  destruct (has_status INPUT_STATUS_DELIVERING row) eqn:Ed; simpl; [|intros [= <- <-]; by left].
  intros H. right. exists row. do 4 (split; [done|]). unfold settled_row.
  unfold mark_live_receipt_delivered_with_projection, requeue_live_receipt, mark_live_receipt_failed in H.
  rewrite Ht in H. destruct (String.eqb status "delivered"); [by simplify_eq|].
  destruct (String.eqb status "queued"); [|by simplify_eq].
  destruct (requeue_row _ _ _) as [row' b]. by simplify_eq.
Qed.

Lemma settled_row_moves status receipt_id request error now row :
  or_empty (ir_delivery_request_id row) = request → has_status INPUT_STATUS_DELIVERING row = true →
  moves (Bearer request) row (settled_row status receipt_id request error now row).
Proof.
  intros Er Ed. pose proof (held_by _ _ Er Ed) as Hl. unfold settled_row.
  destruct (String.eqb status "delivered"); [right; split; [by split|rewrite Hl; apply step_settle]|].
  destruct (String.eqb status "queued"); [|right; split; [by split|rewrite Hl; apply step_settle]].
  destruct (requeue_row _ _ _) as [row' b] eqn:E. by eapply requeue_row_moves.
Qed.
