(* ===== verification/InputProps.v ===== *)
(** * Properties of the input queue

    The operations of the catalog's queue as steps, their runs, and the
    properties: what a claim hands out, the life of a receipt, exclusive
    delivery, and how often a receipt can change. *)

From S2P Require Import Prelude PyStr PyTime PyValue MachineEvidence PyJson PyText InputQueue FactStore FactReducer.
From S2P Require Import FactReads.
From S2P Require Import ConsoleControl ProviderContracts Capabilities RuntimeView Liveness StateContract SessionState.
From S2P Require Import StateProjector StateProjectorLaws ProjectorProps InputStore InputLaws.

Open Scope list_scope.
Open Scope Z_scope.

(** One call that reaches the receipts: those of the queue (a claim carries the
    catalog facts of its moment), the transactions of Console turns, which may
    write any rows of receipts, and the deletion of a session.  [ConsoleTurns]
    models the second kind in full; here it counts which rows it wrote. *)
Inductive input_op : Type :=
  | Claim (session_id request : string) (assemble : string → Z → option (list (string * pyval)))
      (observed_at : Z) (clock : claim_clock)
  | Finish (receipt_id request status : string) (error : option string) (observed_at now : Z)
  | Cancel (session_id receipt_id : string) (observed_at now : Z)
  | Recover (session_id : string) (observed_at : Z)
  | Upsert (q : input_request) (uuid : string) (observed_at now stamp : Z)
  | ConsoleWrite (rows : receipt_table)
  | DeleteSession (session_id : string).

(** ** The key of a receipt *)

(** The call is an upsert under the key of the receipt: the sender sends the
    input again. *)
Definition resends (r : LiveSessionInputReceipt) (op : input_op) : bool :=
  match op with
  | Upsert q _ _ _ _ =>
      match clean_str (iq_client_request_id q) with
      | Some key => by_client_request (iq_owner_id q) (iq_session_id q) key (""%string, r)
      | None => false
      end
  | _ => false
  end.

(** The call neither writes the receipt for a Console turn nor deletes its
    session. *)
Definition leaves_alone (id : string) (r : LiveSessionInputReceipt) (op : input_op) : Prop :=
  match op with
  | ConsoleWrite rows => rows !! id = None
  | DeleteSession session_id => session_id ≠ ir_session_id r
  | _ => True
  end.

(** What an upsert writes over a receipt: the text and the status are the
    sender's; the key, the age and the attempts stay. *)
Record resent (q : input_request) (r r' : LiveSessionInputReceipt) : Prop := {
  resent_owner : ir_owner_id r' = ir_owner_id r;
  resent_session : ir_session_id r' = ir_session_id r;
  resent_client_request : ir_client_request_id r' = ir_client_request_id r;
  resent_created : ir_created_at r' = ir_created_at r;
  resent_attempts : delivery_attempts r' = delivery_attempts r;
  resent_text : ir_text r' = iq_text q;
  resent_status : ir_status r' = default "created"%string (clean_str (Some (iq_status q)));
}.

Definition same_key (r r' : LiveSessionInputReceipt) : Prop :=
  ir_owner_id r' = ir_owner_id r ∧ ir_session_id r' = ir_session_id r ∧ ir_client_request_id r' = ir_client_request_id r.

Lemma same_key_calls r r' op id : same_key r r' → resends r' op = resends r op ∧ (leaves_alone id r op → leaves_alone id r' op).
Proof.
  intros (Eo & Es & Ec). split.
  - destruct op; try done. simpl. destruct (clean_str _); [|done]. unfold by_client_request, of_input_session. simpl.
    by rewrite Eo, Es, Ec.
  - destruct op; try done. simpl. by rewrite Es.
Qed.

Section Queue.
Context (float : string → pyval) (other_form : string → option datetime) (reg : registry).

Abbreviation claim := (claim_queued_input float other_form reg).

(** The state a call leaves; one that raises is rolled back. *)
Definition exec (op : input_op) (st : input_store) : input_store :=
  match op with
  | Claim session_id request assemble observed_at clock =>
      match claim assemble st session_id request observed_at clock with Ok (_, st') => st' | Err _ => st end
  | Finish receipt_id request status error observed_at now =>
      match finish_queued_input st receipt_id request status error observed_at now with Ok (_, st') => st' | Err _ => st end
  | Cancel session_id receipt_id observed_at now => (cancel_input_receipt st session_id receipt_id observed_at now).2
  | Recover session_id observed_at => settle_claimed_receipts st session_id observed_at
  | Upsert q uuid observed_at now stamp =>
      match upsert_input_receipt st q uuid observed_at now stamp with Ok (_, _, st') => st' | Err _ => st end
  | ConsoleWrite rows => set_input_receipts (rows ∪ st_receipts st) st
  | DeleteSession session_id => delete_session_inputs session_id st
  end.

Definition run (ops : list input_op) (st : input_store) : input_store := fold_left (λ st op, exec op st) ops st.

(** ** One call *)

(** A claim, by its answer. *)
Lemma claim_cases assemble st session_id request observed_at clock answer st' :
  claim assemble st session_id request observed_at clock = Ok (answer, st') →
  let t1 := (expire_stale_live_receipts (st_receipts st) session_id observed_at).2 in
  let st1 := set_input_receipts t1 st in
  st' = st1 ∧ (∀ s r q, answer ≠ ClaimGranted false s r q) ∨
  ∃ found t', claim_next_live_queued_receipt t1 session_id request clock = (found, t') ∧
    (found = None ∧ st' = set_input_receipts t' st ∧ (∀ s r q, answer ≠ ClaimGranted false s r q) ∨
     ∃ session projection r, found = Some r ∧ load_live_control_session st session_id = Some session ∧
       claim_projection float other_form reg assemble st session session_id observed_at = Ok projection ∧
       claim_gate projection = None ∧
       st' = advance_catalog_seq observed_at (set_input_receipts t' st) ∧
       answer = ClaimGranted false session r (current_commit_seq st')).
Proof.
  unfold claim_queued_input. set (t1 := (expire_stale_live_receipts _ _ _).2). set (st1 := set_input_receipts t1 st).
  change (st_receipts st1) with t1. cbn zeta. intros H.
  destruct (_ && _); [simplify_eq; left; done|].
  change (load_live_control_session st1 session_id) with (load_live_control_session st session_id) in H.
  destruct (load_live_control_session st session_id) as [session|] eqn:Es; [|simplify_eq; by left].
  apply bind_ok in H as (projection & Hp & H).
  destruct (claim_gate projection) as [reason|] eqn:Eg; [simplify_eq; by left|].
  destruct (head _) as [row|]; [simplify_eq; by left|].
  destruct (claim_next_live_queued_receipt t1 session_id request clock) as [found t'] eqn:En.
  right. exists found, t'. split; [done|]. destruct found as [r|]; simplify_eq; [right|by left].
  by exists session, projection, r.
Qed.

Lemma claim_moves assemble st session_id request observed_at clock answer st' :
  claim assemble st session_id request observed_at clock = Ok (answer, st') →
  table_moves (Claimant request) (st_receipts st) (st_receipts st').
Proof.
  intros H. apply claim_cases in H as [[-> _]|(found & t' & Hn & [(_ & -> & _)|(session & p & r & _ & _ & _ & _ & -> & _)])].
  - apply expire_moves.
  - by eapply claim_next_moves.
  - by eapply claim_next_moves.
Qed.

Lemma recover_moves st session_id observed_at :
  table_moves Recovery (st_receipts st) (st_receipts (settle_claimed_receipts st session_id observed_at)).
Proof.
  intros id. simpl. rewrite lookup_fmap. destruct (st_receipts st !! id) as [row|]; simpl; [|done].
  unfold recover_row. destruct (_ && _) eqn:E; [|by left]. apply andb_true_iff in E as [_ Ed].
  right. split; [by split|]. rewrite (held_by row _ eq_refl Ed). apply step_recover.
Qed.

(** What an upsert does: it writes over the receipt of its key, or adds one. *)
Lemma upsert_cases st q uuid observed_at now stamp r seq st' :
  upsert_input_receipt st q uuid observed_at now stamp = Ok (r, seq, st') →
  ∃ id row', st' = advance_catalog_seq observed_at (set_input_receipts (<[id := row']> (st_receipts st)) st) ∧
    ((∃ row, st_receipts st !! id = Some row ∧ resends row (Upsert q uuid observed_at now stamp) = true ∧ row' = upserted q now row) ∨
     (st_receipts st !! id = None ∧ id = uuid ∧ row' = upserted q now (new_receipt stamp))).
Proof.
  unfold upsert_input_receipt. intros H. apply bind_ok in H as ([id t] & Hu & H).
  assert (∃ row', t = <[id := row']> (st_receipts st) ∧
    ((∃ row, st_receipts st !! id = Some row ∧ resends row (Upsert q uuid observed_at now stamp) = true ∧ row' = upserted q now row) ∨
     (st_receipts st !! id = None ∧ id = uuid ∧ row' = upserted q now (new_receipt stamp)))) as (row' & -> & Hrow).
  { unfold upsert_live_input_receipt in Hu.
    destruct (client_key ← clean_str (iq_client_request_id q); head _) as [[id0 row]|] eqn:E.
    - injection Hu as <- <-. eexists. split; [done|]. left. exists row. apply bind_Some in E as (key & Ek & E).
      apply head_select in E as [Ht HP]. split; [done|]. split; [|done]. simpl. by rewrite Ek.
    - apply bind_ok in Hu as ([] & Hg%guard_ok%bool_decide_eq_true & [= <- <-]). eexists. split; [done|]. by right. }
  exists id, row'. split; [|done]. unfold load_live_input_receipt_by_id in H. rewrite lookup_insert_eq in H. by injection H as _ _ <-.
Qed.

Lemma upserted_resent q uuid observed_at now stamp row :
  resends row (Upsert q uuid observed_at now stamp) = true → resent q row (upserted q now row).
Proof.
  simpl. destruct (clean_str (iq_client_request_id q)) as [key|] eqn:Ek; [|done].
  unfold by_client_request, of_input_session. cbn [snd]. rewrite !andb_true_iff, String.eqb_eq, opt_is_spec.
  intros [[Ho Hs] Hc]. split; simpl; [lia|done|by rewrite Ek|done..].
Qed.

(** The life of one receipt in one call. *)
Definition lives (a : actor) (x x' : option LiveSessionInputReceipt) : Prop :=
  ∃ r r', x = Some r ∧ x' = Some r' ∧ same_input r r' ∧ life_step a (life_of r) (life_of r').

Definition receipt_step (op : input_op) (id : string) (x x' : option LiveSessionInputReceipt) : Prop :=
  x' = x ∨
  match op with
  | Claim _ request _ _ _ => lives (Claimant request) x x'
  | Finish _ request _ _ _ _ => lives (Bearer request) x x'
  | Cancel _ _ _ _ => lives Sender x x'
  | Recover _ _ => lives Recovery x x'
  | Upsert q uuid _ now stamp =>
      match x with
      | Some r => resends r op = true ∧ ∃ r', x' = Some r' ∧ resent q r r'
      | None => id = uuid ∧ x' = Some (upserted q now (new_receipt stamp))
      end
  | ConsoleWrite rows => is_Some (rows !! id) ∧ x' = rows !! id
  | DeleteSession session_id => x' = None ∧ ∃ r, x = Some r ∧ ir_session_id r = session_id
  end.

Lemma moves_lives a t t' id : table_moves a t t' → t' !! id = t !! id ∨ lives a (t !! id) (t' !! id).
Proof.
  intros H. specialize (H id). destruct (t !! id) as [r|], (t' !! id) as [r'|]; try done; [|by left].
  destruct H as [->|[Hs Hl]]; [by left|right]. by exists r, r'.
Qed.

Lemma exec_step op st id : receipt_step op id (st_receipts st !! id) (st_receipts (exec op st) !! id).
Proof.
  destruct op as [session_id request assemble o clock|receipt_id request status error o now|session_id receipt_id o now|
                  session_id o|q uuid o now stamp|rows|session_id]; unfold receipt_step; cbn [exec].
  - destruct (claim_queued_input _ _ _ _ _ _ _ _ _) as [[answer st']|] eqn:E; [|by left].
    by eapply moves_lives, claim_moves.
  - destruct (finish_queued_input _ _ _ _ _ _ _) as [[answer st']|] eqn:E; [|by left].
    apply finish_cases in E as [[-> _]|(row & Ht & Er & Ed & _ & -> & _)]; [by left|].
    apply moves_lives. eapply table_moves_insert; [done|]. by apply settled_row_moves.
  - unfold cancel_input_receipt. destruct (cancel_live_queued_receipt _ _ _ _) as [[r|] t'] eqn:E; simpl; [|by left].
    by eapply moves_lives, cancel_moves.
  - apply moves_lives, recover_moves.
  - destruct (upsert_input_receipt _ _ _ _ _ _) as [[[r seq] st']|] eqn:E; [|by left].
    apply upsert_cases in E as (id0 & row' & -> & Hrow). simpl.
    destruct (decide (id = id0)) as [->|Hne]; [|left; by rewrite lookup_insert_ne]. rewrite lookup_insert_eq. right.
    destruct Hrow as [(row & -> & Hre & ->)|(-> & -> & ->)]; [|done]. split; [done|]. eexists. split; [done|].
    by eapply upserted_resent.
  - simpl. rewrite lookup_union. destruct (rows !! id) as [r|]; [right|left]; simpl; [split; [by eexists|]|]; by destruct (st_receipts st !! id).
  - simpl. destruct (st_receipts st !! id) as [r|] eqn:Hr.
    + destruct (of_input_session session_id r) eqn:Es.
      * right. split; [|exists r; split; [done|by apply String.eqb_eq]].
        apply map_lookup_filter_None. right. intros x Hx. simpl. congruence.
      * left. by apply map_lookup_filter_Some.
    + left. apply map_lookup_filter_None. by left.
Qed.

(** A receipt that is left alone stays, and its key with it. *)
Lemma exec_row op st id r :
  st_receipts st !! id = Some r → leaves_alone id r op →
  ∃ r', st_receipts (exec op st) !! id = Some r' ∧ same_key r r' ∧
    (r' = r ∨ (∃ a, same_input r r' ∧ life_step a (life_of r) (life_of r')) ∨
     resends r op = true ∧ delivery_attempts r' = delivery_attempts r).
Proof.
  intros Hr Hal. pose proof (exec_step op st id) as [E|H]; rewrite Hr in *; [exists r; split; [done|]; split; [done|by left]|].
  assert (∀ a, lives a (Some r) (st_receipts (exec op st) !! id) → ∃ r', st_receipts (exec op st) !! id = Some r' ∧ same_key r r' ∧
    (r' = r ∨ (∃ a, same_input r r' ∧ life_step a (life_of r) (life_of r')) ∨
     resends r op = true ∧ delivery_attempts r' = delivery_attempts r)) as Hl.
  { intros a (r0 & r' & [= <-] & -> & Hs & Hl). exists r'. split; [done|]. split; [by destruct Hs|]. right; left. by exists a. }
  destruct op; try by eapply Hl.
  - destruct H as (Hre & r' & -> & [? ? ? ? ? _ _]). exists r'. split; [done|]. split; [done|]. right; by right.
  - destruct H as [[r' H] _]. simpl in Hal. congruence.
  - destruct H as (_ & r' & [= <-] & <-). by destruct Hal.
Qed.

(** A call leaves the heads alone, the sessions but one that is deleted, and
    takes at most one commit. *)
Definition catalog_kept (op : input_op) (st st' : input_store) : Prop :=
  heads (st_facts st') = heads (st_facts st) ∧ receipts (st_facts st') = receipts (st_facts st) ∧
  conflicts (st_facts st') = conflicts (st_facts st) ∧
  st_sessions st' = match op with DeleteSession session_id => delete session_id (st_sessions st) | _ => st_sessions st end ∧
  commit_seq (st_facts st) ≤ commit_seq (st_facts st') ≤ commit_seq (st_facts st) + 1.

Lemma exec_catalog op st : catalog_kept op st (exec op st).
Proof.
  unfold catalog_kept.
  destruct op as [session_id request assemble o clock|receipt_id request status error o now|session_id receipt_id o now|
                  session_id o|q uuid o now stamp|rows|session_id]; simpl.
  - destruct (claim_queued_input _ _ _ _ _ _ _ _ _) as [[answer st']|] eqn:E; [|split_and!; try done; lia].
    apply claim_cases in E as [[-> _]|(found & t' & Hn & [(_ & -> & _)|(session & p & r & _ & _ & _ & _ & -> & _)])];
      split_and!; simpl; try done; lia.
  - destruct (finish_queued_input _ _ _ _ _ _ _) as [[answer st']|] eqn:E; [|split_and!; try done; lia].
    apply finish_cases in E as [[-> _]|(row & _ & _ & _ & _ & -> & _)]; split_and!; simpl; try done; lia.
  - unfold cancel_input_receipt. destruct (cancel_live_queued_receipt _ _ _ _) as [[r|] t'];
      split_and!; simpl; try done; lia.
  - split_and!; simpl; try done; lia.
  - destruct (upsert_input_receipt _ _ _ _ _ _) as [[[r seq] st']|] eqn:E; [|split_and!; try done; lia].
    apply upsert_cases in E as (id0 & row' & -> & _); split_and!; simpl; try done; lia.
  - split_and!; simpl; try done; lia.
  - split_and!; simpl; try done; lia.
Qed.


(** ** Runs *)

(** How many calls of a run rewrite a receipt. *)
Fixpoint rewrites (id : string) (ops : list input_op) (st : input_store) : nat :=
  match ops with
  | [] => 0
  | op :: ops' =>
      (if decide (st_receipts (exec op st) !! id = st_receipts st !! id) then 0 else 1)
      + rewrites id ops' (exec op st)
  end.

(** The steps left in a life, which a sender may lengthen by two. *)
Definition steps_left (l : life) : nat :=
  2 * Z.to_nat (MAX_DELIVERY_ATTEMPTS - attempts_of l) + match l with Waiting _ => 2 | Held _ _ => 1 | Settled _ => 0 end.

Lemma life_step_decreases a l l' : life_step a l l' → (steps_left l' < steps_left l)%nat.
Proof. unfold steps_left, MAX_DELIVERY_ATTEMPTS. destruct 1; simpl; unfold MAX_DELIVERY_ATTEMPTS in *; lia. Qed.

Definition resent_times (r : LiveSessionInputReceipt) (ops : list input_op) : nat := length (List.filter (resends r) ops).

Lemma rewrites_bounded id ops st r :
  st_receipts st !! id = Some r → Forall (leaves_alone id r) ops →
  (rewrites id ops st ≤ steps_left (life_of r) + 3 * resent_times r ops)%nat.
Proof.
  revert st r; induction ops as [|op ops IH]; intros st r Hr Hal; cbn [rewrites]; [lia|].
  apply Forall_cons in Hal as [Hop Hal]. destruct (exec_row op st id r Hr Hop) as (r' & Hr' & Hk & Hm).
  assert (resent_times r' ops = resent_times r ops) as Et.
  { unfold resent_times. f_equal. apply filter_ext. intros op'. by apply (same_key_calls _ _ _ id). }
  assert (Forall (leaves_alone id r') ops) as Hal' by (eapply Forall_impl; [exact Hal|]; intros op'; by apply same_key_calls).
  pose proof (IH _ _ Hr' Hal') as Hle. rewrite Et in Hle.
  assert (resent_times r (op :: ops) = (if resends r op then 1 else 0) + resent_times r ops)%nat as ->
    by (unfold resent_times; simpl; by destruct (resends r op)).
  case_decide as E.
  - rewrite Hr, Hr' in E. injection E as ->. destruct (resends r op); lia.
  - destruct Hm as [->|[(a & _ & Hs%life_step_decreases)|[-> Ha]]]; [congruence|destruct (resends r op); lia|].
    assert (steps_left (life_of r') ≤ steps_left (life_of r) + 2)%nat; [|lia].
    unfold steps_left. rewrite !life_attempts, Ha. repeat case_match; lia.
Qed.

(** C10: every receipt settles.  Whatever the calls, their clocks and their
    answers, while no Console turn writes it and its session is not deleted, a
    receipt is rewritten at most 402 times and three times more for each time
    its sender sends the input again under its key: each return to the queue
    uses one of its 200 attempts, which a resend does not renew.  Once it is
    settled, no call but a resend rewrites it. *)
Theorem receipts_settle id ops st r :
  st_receipts st !! id = Some r → 0 ≤ delivery_attempts r → Forall (leaves_alone id r) ops →
  (rewrites id ops st ≤ 402 + 3 * resent_times r ops)%nat ∧
  (∀ n, life_of r = Settled n → resent_times r ops = 0%nat → st_receipts (run ops st) !! id = Some r).
Proof.
  intros Hr Hn Hal. split.
  - pose proof (rewrites_bounded id ops st r Hr Hal) as Hle.
    unfold steps_left in Hle. rewrite life_attempts in Hle. unfold MAX_DELIVERY_ATTEMPTS in Hle.
    destruct (life_of r); lia.
  - intros n Hl Ht. revert st Hr. induction ops as [|op ops IH]; intros st Hr; [done|].
    apply Forall_cons in Hal as [Hop Hal]. unfold resent_times in Ht. simpl in Ht. destruct (resends r op) eqn:Hre; [done|].
    simpl. apply IH; [done|done|].
    destruct (exec_row op st id r Hr Hop) as (r' & Hr' & _ & [->|[(a & _ & Hs)|[? _]]]); [done| |congruence].
    rewrite Hl in Hs. inversion Hs.
Qed.

(** ** Exclusive delivery *)

(** The receipt is with [request], or settled. *)
Definition with_or_settled (request : string) (r : LiveSessionInputReceipt) : Prop :=
  ∃ n, life_of r = Held request n ∨ life_of r = Settled n.

Definition returns (id request : string) (op : input_op) : Prop :=
  ∃ error observed_at now, op = Finish id request "queued" error observed_at now.

(** What frees a receipt from its bearer: the bearer's return, the sender's
    resend, a Console turn and the deletion of the session. *)
Definition frees (id request : string) (r : LiveSessionInputReceipt) (op : input_op) : Prop :=
  returns id request op ∨ resends r op = true ∨ ¬ leaves_alone id r op.

#[local] Instance leaves_alone_dec id r op : Decision (leaves_alone id r op).
Proof. destruct op; apply _. Defined.

#[local] Instance returns_dec id request op : Decision (returns id request op).
Proof.
  destruct op as [| id0 rq0 s0 e0 o0 n0 | | | | |]; try (right; intros (? & ? & ? & ?); done).
  destruct (decide (id0 = id ∧ rq0 = request ∧ s0 = "queued"%string)) as [(-> & -> & ->)|Hne]; [left; by exists e0, o0, n0|].
  right. intros (? & ? & ? & [= -> -> -> _ _ _]). naive_solver.
Defined.

#[local] Instance frees_dec id request r op : Decision (frees id request r op).
Proof. unfold frees. apply _. Defined.

Lemma frees_same_key id request r r' op : same_key r r' → frees id request r' op → frees id request r op.
Proof.
  intros Hk. destruct (same_key_calls r r' op id Hk) as [Hre Hal]. unfold frees. rewrite Hre. naive_solver.
Qed.

Lemma settled_row_settles status receipt_id request error now row :
  status ≠ "queued"%string → ∃ n, life_of (settled_row status receipt_id request error now row) = Settled n.
Proof.
  intros Hs. unfold settled_row. destruct (String.eqb status "delivered"); [by eexists|].
  destruct (String.eqb_spec status "queued"); [done|]. by eexists.
Qed.

Lemma exec_held op st id request r :
  st_receipts st !! id = Some r → with_or_settled request r → ¬ frees id request r op →
  ∃ r', st_receipts (exec op st) !! id = Some r' ∧ same_key r r' ∧ with_or_settled request r'.
Proof.
  intros Hr (n & Hw) Hf.
  destruct (decide (leaves_alone id r op)) as [Hal|Hal]; [|by destruct Hf; right; right].
  destruct (exec_row op st id r Hr Hal) as (r' & Hr' & Hk & Hm). exists r'. split; [done|]. split; [done|].
  destruct (exec_step op st id) as [E|H]; rewrite Hr, Hr' in *; [injection E as ->; by exists n|].
  assert (∀ a, lives a (Some r) (Some r') → life_step a (life_of r) (life_of r')) as Hl.
  { by intros a (? & ? & [= <-] & [= <-] & _ & Hs). }
  destruct op as [|receipt_id request' status error o now| | |q uuid o now stamp|rows|session_id].
  7: by destruct H. 6: by destruct H as [[? H] _]; simpl in Hal; congruence.
  5: by destruct Hf; right; left; destruct H.
  all: apply Hl in H; destruct Hw as [Hw|Hw]; rewrite Hw in H; inversion H; subst; try by (eexists; right; symmetry; eassumption).
  destruct Hf; left. simpl in Hr'. destruct (finish_queued_input _ _ _ _ _ _ _) as [[answer st']|] eqn:E; [|congruence].
  apply finish_cases in E as [[-> _]|(row & Ht & Er & _ & _ & -> & _)]; [congruence|].
  simpl in Hr'. destruct (decide (id = receipt_id)) as [->|Hne]; [|rewrite lookup_insert_ne in Hr' by done; congruence].
  rewrite lookup_insert_eq in Hr'. injection Hr' as <-.
  destruct (decide (status = "queued"%string)) as [->|Hq]; [by exists error, o, now|].
  destruct (settled_row_settles status receipt_id (or_empty (ir_delivery_request_id row)) error now row Hq); congruence.
Qed.

Lemma run_held ops st id request r :
  st_receipts st !! id = Some r → with_or_settled request r → Forall (λ op, ¬ frees id request r op) ops →
  ∃ r', st_receipts (run ops st) !! id = Some r' ∧ with_or_settled request r'.
Proof.
  revert st r. induction ops as [|op ops IH]; intros st r Hr Hw Hops; [by exists r|]. apply Forall_cons in Hops as [Hop Hops].
  destruct (exec_held op st id request r Hr Hw Hop) as (r' & Hr' & Hk & Hw'). eapply IH; [done..|].
  eapply Forall_impl; [exact Hops|]. intros op'. pose proof (frees_same_key id request r r' op' Hk). naive_solver.
Qed.

(** What a fresh claim found. *)
Lemma claim_granted assemble st session_id request observed_at clock session receipt q st' :
  claim assemble st session_id request observed_at clock = Ok (ClaimGranted false session receipt q, st') →
  ∃ id row projection,
    receipt = snapshot (id, row) ∧ st_receipts st !! id = Some row ∧
    is_claimable session_id (at_cutoff clock - MAX_DELIVERY_AGE) (id, row) = true ∧
    st_receipts st' !! id = Some (claim_row request (at_update clock) row) ∧
    (∀ id' row', st_receipts st !! id' = Some row' → is_queued session_id (id', row') = true →
       created_before row' (observed_at - MAX_DELIVERY_AGE) = false →
       created_before row' (at_expiry clock - MAX_DELIVERY_AGE) = false →
       created_before row' (at_cutoff clock - MAX_DELIVERY_AGE) = false →
       cmp_le queue_cmp (queue_key (id, row)) (queue_key (id', row'))) ∧
    commit_seq (st_facts st') = commit_seq (st_facts st) + 1 ∧
    load_live_control_session st session_id = Some session ∧
    claim_projection float other_form reg assemble st session session_id observed_at = Ok projection ∧
    claim_gate projection = None.
Proof.
  intros H. apply claim_cases in H as [[_ Hno]|(found & t' & Hn & [(_ & _ & Hno)|(se & p & r & Hf & Hs & Hp & Hg & -> & Ha)])];
    [by edestruct Hno|by edestruct Hno|].
  injection Ha as <- <- _. apply claim_next_cases in Hn as [(E & _)|(id & row & E & Ht & HP & -> & Hmin)]; [congruence|].
  rewrite Hf in E. injection E as ->. pose proof (claimable_queued _ _ _ HP) as Hq.
  exists id, row, p. split; [done|]. split; [by eapply expire_twice_queued|]. split; [done|].
  split; [simpl; by rewrite lookup_insert_eq|]. split; [|done].
  intros id' row' Ht' Hq' H1 H2 H3. apply Hmin.
  - apply expire_twice_keeps; [done|..]; unfold is_stale; rewrite Hq'; simpl; done.
  - unfold is_claimable. rewrite Hq'. cbn [andb]. cbn [snd]. by rewrite H3.
Qed.


(** ** What a claim hands out *)

Lemma claim_operations_send contract :
  "send_input"%string ∈ claim_operations contract ↔ ∃ c, contract = Some c ∧ mc_send_input c = true.
Proof.
  destruct contract as [c|]; cbn [claim_operations]; [|rewrite elem_of_nil; naive_solver].
  assert ((∃ c0, Some c = Some c0 ∧ mc_send_input c0 = true) ↔ mc_send_input c = true) as -> by naive_solver.
  split.
  - intros (ob & E & Hin)%list_elem_of_fmap. apply list_elem_of_In, filter_In in Hin as [Hin Hb].
    apply list_elem_of_In in Hin. rewrite !elem_of_cons, elem_of_nil in Hin.
    destruct Hin as [->|[->|[->|[->|[->|[]]]]]]; simpl in *; done.
  - intros Hs. apply list_elem_of_fmap. exists ("send_input"%string, mc_send_input c). split; [done|].
    apply list_elem_of_In, filter_In. split; [by left|done].
Qed.

(** An open gate rests on an activity that can take input and on bound
    evidence of control. *)
Lemma gate_open assemble st session session_id observed_at projection :
  claim_projection float other_form reg assemble st session session_id observed_at = Ok projection →
  claim_gate projection = None →
  ∃ facts sf c,
    assemble session_id observed_at = Some facts ∧ projection = Some sf ∧
    (ac_state (sf_activity sf) = AQuiescent ∨ ac_state (sf_activity sf) = ABlocked) ∧
    contract_for_provider reg (Some (ls_provider session)) = Some c ∧ mc_send_input c = true ∧
    bound_evidence float other_form session_id facts
      (map_to_list (filter (λ kh : head_entry, h_session_id kh.2 = Some session_id) (heads (st_facts st))))
      (utc observed_at) "send_input".
Proof.
  intros H Hg. unfold claim_projection in H. apply bind_ok in H as ([seq head_map] & Hh & H).
  unfold read_session_fact_heads in Hh. apply bind_ok in Hh as (_ & _ & [= <- <-]).
  destruct (assemble session_id observed_at) as [facts|]; [|injection H as <-; done].
  apply bind_ok in H as (sf & Hsf & [= <-]). simpl in Hg.
  destruct (bool_decide (ac_state _ = _) || _) eqn:Ea; [|done]. simpl in Hg.
  destruct (bool_decide (aa_state _ = _)) eqn:Es; [|done]. apply bool_decide_eq_true in Es.
  apply orb_true_iff in Ea. rewrite !bool_decide_eq_true in Ea.
  pose proof (console_takes_no_input _ _ _ _ _ _ _ _ _ _ _ _ _ Hsf Es) as Hm.
  destruct (served_operation_bound _ _ _ _ _ _ _ _ _ _ _ _ _ "send_input" Hsf Hm ltac:(left) Es) as [Hops Hev].
  apply claim_operations_send in Hops as (c & Hc & Hsend). by exists facts, sf, c.
Qed.

(** C24: a claim hands out the oldest input that is still worth delivering,
    and only on evidence.  The receipt was waiting in the claimed session and
    was at most thirty minutes old; every other such receipt comes after it in
    the order of creation; the receipt is now held by the request, under one
    new commit; and at that moment the session's activity could take input,
    its provider's contract sends input, and a bound connection of the open
    run had an attached, unexpired head that grants it.  The receipt in the
    answer is the row as it was before the claim. *)
Theorem claimed_input_is_due assemble st session_id request observed_at clock session receipt q st' :
  claim assemble st session_id request observed_at clock = Ok (ClaimGranted false session receipt q, st') →
  ∃ id row,
    receipt = snapshot (id, row) ∧ st_receipts st !! id = Some row ∧
    ir_session_id row = session_id ∧ life_of row = Waiting (delivery_attempts row) ∧
    time_cmp (ir_created_at row) (bind_time (at_cutoff clock - MAX_DELIVERY_AGE)) ≠ Lt ∧
    (∀ id' row', st_receipts st !! id' = Some row' → is_queued session_id (id', row') = true →
       (∀ now, now ∈ [observed_at; at_expiry clock; at_cutoff clock] →
          created_before row' (now - MAX_DELIVERY_AGE) = false) →
       cmp_le queue_cmp (queue_key (id, row)) (queue_key (id', row'))) ∧
    (∃ row', st_receipts st' !! id = Some row' ∧ same_input row row' ∧
       life_of row' = Held request (delivery_attempts row)) ∧
    commit_seq (st_facts st') = commit_seq (st_facts st) + 1 ∧
    ∃ facts sf c,
      assemble session_id observed_at = Some facts ∧
      claim_projection float other_form reg assemble st session session_id observed_at = Ok (Some sf) ∧
      (ac_state (sf_activity sf) = AQuiescent ∨ ac_state (sf_activity sf) = ABlocked) ∧
      contract_for_provider reg (Some (ls_provider session)) = Some c ∧ mc_send_input c = true ∧
      bound_evidence float other_form session_id facts
        (map_to_list (filter (λ kh : head_entry, h_session_id kh.2 = Some session_id) (heads (st_facts st))))
        (utc observed_at) "send_input".
Proof.
  intros H. apply claim_granted in H as (id & row & p & -> & Ht & HP & Ht' & Hmin & Hseq & _ & Hp & Hg).
  destruct (gate_open _ _ _ _ _ _ Hp Hg) as (facts & sf & c & Hf & -> & Hact & Hc & Hs & Hev).
  pose proof (claimable_queued _ _ _ HP) as Hq. apply andb_true_iff in HP as [_ Hage].
  exists id, row. split; [done|]. split; [done|]. split; [by apply is_queued_spec in Hq as [? _]|].
  split; [by eapply queued_waits|]. split.
  { intros E. unfold created_before, time_before in Hage. cbn [snd] in Hage. by rewrite E in Hage. }
  split; [|split; [|split; [done|by exists facts, sf, c]]].
  - intros id' row' Hr' Hq' Hyoung. apply (Hmin id' row' Hr' Hq'); apply Hyoung; set_solver.
  - exists (claim_row request (at_update clock) row). by split_and!.
Qed.

(** ** Sending an input again *)

(** The receipt that an upsert refreshes. *)
Definition known_receipt (st : input_store) (q : input_request) : option (string * LiveSessionInputReceipt) :=
  client_key ← clean_str (iq_client_request_id q);
  head (select_receipts (by_client_request (iq_owner_id q) (iq_session_id q) client_key) (st_receipts st)).

Lemma upsert_known st q uuid o now stamp r seq st' id row :
  upsert_input_receipt st q uuid o now stamp = Ok (r, seq, st') → known_receipt st q = Some (id, row) →
  st_receipts st !! id = Some row ∧ ir_session_id row = iq_session_id q ∧
  r = snapshot (id, upserted q now row) ∧ st_receipts st' = <[id := upserted q now row]> (st_receipts st).
Proof.
  unfold upsert_input_receipt, upsert_live_input_receipt. intros H Hk. unfold known_receipt in Hk. rewrite Hk in H.
  apply bind_ok in H as ([id' t'] & [= <- <-] & H).
  unfold load_live_input_receipt_by_id in H. rewrite lookup_insert_eq in H. cbn [fmap option_fmap option_map] in H.
  injection H as <- _ <-. destruct (clean_str (iq_client_request_id q)) as [key|] eqn:Ekey; [|done]. simpl in Hk.
  apply head_select in Hk as [Ht HP]. unfold by_client_request, of_input_session in HP.
  rewrite !andb_true_iff, String.eqb_eq in HP. destruct HP as [[_ Hse] _]. simpl in Hse. split_and!; try done.
  simpl. by rewrite Ekey.
Qed.

(** A receipt that the first expiry of a claim settles stays settled. *)
Lemma claim_expires assemble st session_id request observed_at clock answer st' id row :
  claim assemble st session_id request observed_at clock = Ok (answer, st') →
  st_receipts st !! id = Some row → is_stale session_id (observed_at - MAX_DELIVERY_AGE) (id, row) = true →
  st_receipts st' !! id = Some (expire_row observed_at row).
Proof.
  intros H Ht Hst.
  assert ((expire_stale_live_receipts (st_receipts st) session_id observed_at).2 !! id = Some (expire_row observed_at row)) as H1.
  { rewrite lookup_expire, Ht. cbn [fmap option_fmap option_map]. unfold expired. by rewrite Hst. }
  assert (∀ found t', claim_next_live_queued_receipt (expire_stale_live_receipts (st_receipts st) session_id observed_at).2
                        session_id request clock = (found, t') → t' !! id = Some (expire_row observed_at row)) as Hn.
  { intros found t' Hc. assert (∀ now, (expire_stale_live_receipts
      (expire_stale_live_receipts (st_receipts st) session_id observed_at).2 session_id now).2 !! id
      = Some (expire_row observed_at row)) as H2.
    { intros now. rewrite lookup_expire, H1. cbn [fmap option_fmap option_map]. by rewrite expired_again. }
    apply claim_next_cases in Hc as [(_ & -> & _)|(id' & row' & _ & Ht' & HP & -> & _)]; [apply H2|].
    rewrite lookup_insert_ne; [apply H2|]. intros ->. rewrite H2 in Ht'. injection Ht' as <-.
    apply claimable_queued in HP. by rewrite expire_row_not_queued in HP. }
  apply claim_cases in H as [[-> _]|(found & t' & Hc & [(_ & -> & _)|(se & p & r & _ & _ & _ & _ & -> & _)])];
    [done|by eapply Hn..].
Qed.

(** Sending an input again under its key does not renew it.  The upsert
    rewrites the one receipt of the key and keeps its age and its attempts; so
    when the input was first sent more than thirty minutes ago, the sender is
    told it is queued and the next claim of the session fails it instead of
    handing it out. *)
Theorem resent_input_keeps_its_age st q uuid o now stamp r seq st1 id row :
  upsert_input_receipt st q uuid o now stamp = Ok (r, seq, st1) →
  known_receipt st q = Some (id, row) → clean_str (Some (iq_status q)) = Some INPUT_STATUS_QUEUED →
  is_id r = id ∧ is_status r = INPUT_STATUS_QUEUED ∧
  (∀ id', id' ≠ id → st_receipts st1 !! id' = st_receipts st !! id') ∧
  (∃ row1, st_receipts st1 !! id = Some row1 ∧ life_of row1 = Waiting (delivery_attempts row) ∧
     ir_created_at row1 = ir_created_at row) ∧
  ∀ assemble request observed_at clock answer st2,
    time_before (ir_created_at row) (bind_time (observed_at - MAX_DELIVERY_AGE)) = true →
    claim assemble st1 (iq_session_id q) request observed_at clock = Ok (answer, st2) →
    ∃ row2, st_receipts st2 !! id = Some row2 ∧ ir_status row2 = INPUT_STATUS_FAILED ∧
      ir_error_json row2 = failure_json "session input expired before delivery" (delivery_attempts row) "delivery_expired" ∧
      ∀ session receipt s, answer = ClaimGranted false session receipt s → is_id receipt ≠ id.
Proof.
  intros H Hk Hs. destruct (upsert_known _ _ _ _ _ _ _ _ _ _ _ H Hk) as (Ht & Hse & -> & Et).
  assert (ir_status (upserted q now row) = INPUT_STATUS_QUEUED) as Hq by (simpl; by rewrite Hs).
  split; [done|]. split; [cbn [snapshot is_status]; by rewrite Hq|]. rewrite Et. split; [intros id' Hne; by rewrite lookup_insert_ne by congruence|].
  assert (∀ id', is_queued (iq_session_id q) (id', upserted q now row) = true) as Hiq by (intros; by apply is_queued_spec).
  split.
  - exists (upserted q now row). rewrite lookup_insert_eq. split; [done|]. split; [|done].
    by rewrite (queued_waits _ id _ (Hiq id)).
  - intros assemble request observed_at clock answer st2 Hage Hc.
    exists (expire_row observed_at (upserted q now row)).
    assert (st_receipts st1 !! id = Some (upserted q now row)) as H1 by (by rewrite Et, lookup_insert_eq).
    pose proof (claim_expires _ _ _ _ _ _ _ _ _ _ Hc H1) as H2.
    rewrite H2 by (unfold is_stale, created_before; rewrite Hiq; exact Hage). split_and!; [done..|].
    intros session receipt s -> Hid. apply claim_granted in Hc as (id' & row' & p & -> & _ & _ & Hrow & _).
    simpl in Hid. subst id'. rewrite H2 in Hrow by (unfold is_stale, created_before; rewrite Hiq; exact Hage).
    by apply (f_equal (option_map ir_status)) in Hrow.
Qed.
End Queue.
