(* ===== verification/InputSamples.v ===== *)
(** * A concrete input queue

    A Helm session that can take input, with three receipts, and the theorems
    of [InputProps] on it. *)

From S2P Require Import Prelude PyStr PyTime PyValue Sha256 MachineEvidence PyJson PyText InputQueue FactStore.
From S2P Require Import FactReducer FactReads.
From S2P Require Import ConsoleControl ProviderContracts Capabilities RuntimeView Liveness StateContract SessionState.
From S2P Require Import StateProjector StateProjectorLaws ProjectorProps InputStore InputLaws InputProps.
From S2P Require Import FactSamples ProjectorSamples SessionSamples.

Open Scope string_scope.
Open Scope list_scope.
Open Scope Z_scope.

Definition sid : string := "12345678-9abc-def0-1234-56789abcdef0".

Definition session_control : list (string * pyval) :=
  [("authority_class", VStr "provider_control"); ("provider", VStr "codex"); ("session_id", VStr sid);
   ("connection_id", VStr "c1"); ("lease_generation", VStr "g1"); ("run_id", VStr "r1");
   ("granted_operations", VList [VStr "send_input"]); ("state", VStr "attached");
   ("lease_ttl_ms", VInt 60000); ("source", VStr "scan"); ("observed_at", VStr "2026-08-01T12:00:00.000000Z")].

Definition session_activity : list (string * pyval) :=
  [("authority_class", VStr "provider_runtime"); ("session_id", VStr sid); ("run_id", VStr "r1"); ("kind", VStr "idle");
   ("source", VStr "scan"); ("observed_at", VStr "2026-08-01T12:00:00.000000Z");
   ("valid_until", VStr "2026-08-01T12:05:00.000000Z")].

Definition fact_of (family subject : string) (value : list (string * pyval)) : ReducerFact :=
  Fact family subject "scan" "boot1" (Some 1) (hash_of [("seq", VStr family)]) (hash_of value) value (Some noon)
       (Some sid) None None.

Definition drainable : catalog :=
  after_reducing [fact_of "control" "connection:c1:g1" session_control; fact_of "activity" "run:r1" session_activity].

Definition now_us : Z := dt_wall half_past.

Definition codex_session : LiveSessionCatalog :=
  SessionCatalog "codex" (Some "cinder") None (Some "/work") None None None None None None None "assist" "bypass" None
    None None "active" None now_us.

(** A receipt sent [seconds] before half past. *)
Definition receipt_at (seconds : Z) (status : string) (request : option string) (key : string) : LiveSessionInputReceipt :=
  InputReceipt 7 sid None "codex" None (Some key) "queue" status "hello" None None request None None
    (Stored (now_us / US_PER_SECOND - seconds) None) now_us None.

Definition queue : receipt_table :=
  list_to_map [("i1", receipt_at 120 "delivering" (Some "d1") "k1"); ("i2", receipt_at 60 "queued" None "k2");
               ("i3", receipt_at 7200 "queued" None "k3")].

Definition queue_store : input_store := InputStore drainable queue {[ sid := codex_session ]}.

Definition assemble_helm (_ : string) (_ : Z) : option (list (string * pyval)) := Some helm_facts.

Definition at_once : claim_clock := ClaimClock now_us now_us now_us.

(** ** A returned receipt is claimed again *)

Definition given_back : list input_op := [Finish "i1" "d1" "queued" (Some "offline") now_us now_us].
Definition after_return : input_store := run float_text no_other_form sample_registry given_back queue_store.

Definition second_claim : res (claim_answer * input_store) :=
  claim_queued_input float_text no_other_form sample_registry assemble_helm after_return sid "d2" now_us at_once.

Definition grants (id : string) (r : res (claim_answer * input_store)) : bool :=
  match r with Ok (ClaimGranted false _ receipt _, _) => String.eqb (is_id receipt) id | _ => false end.

Lemma grants_ok id r :
  grants id r = true → ∃ session receipt seq st, r = Ok (ClaimGranted false session receipt seq, st) ∧ is_id receipt = id.
Proof.
  unfold grants. destruct r as [[[|[] session receipt seq] st]|]; try done. intros H%String.eqb_eq. by eexists _, _, _, _.
Qed.

Lemma second_claim_grants : grants "i1" second_claim = true.
Proof. vm_compute. reflexivity. Qed.

Definition first_receipt : LiveSessionInputReceipt := receipt_at 120 "delivering" (Some "d1") "k1".

Lemma first_receipt_held : st_receipts queue_store !! "i1" = Some first_receipt ∧ life_of first_receipt = Held "d1" 0.
Proof. vm_compute. split; reflexivity. Qed.


Lemma claimed_input_is_due_witness :
  ∃ session receipt seq st',
    second_claim = Ok (ClaimGranted false session receipt seq, st') ∧
    ∃ id row,
    receipt = snapshot (id, row) ∧ st_receipts after_return !! id = Some row ∧
    ir_session_id row = sid ∧ life_of row = Waiting (delivery_attempts row) ∧
    time_cmp (ir_created_at row) (bind_time (at_cutoff at_once - MAX_DELIVERY_AGE)) ≠ Lt ∧
    (∀ id' row', st_receipts after_return !! id' = Some row' → is_queued sid (id', row') = true →
       (∀ now, now ∈ [now_us; at_expiry at_once; at_cutoff at_once] →
          created_before row' (now - MAX_DELIVERY_AGE) = false) →
       cmp_le queue_cmp (queue_key (id, row)) (queue_key (id', row'))) ∧
    (∃ row', st_receipts st' !! id = Some row' ∧ same_input row row' ∧
       life_of row' = Held "d2" (delivery_attempts row)) ∧
    commit_seq (st_facts st') = commit_seq (st_facts after_return) + 1 ∧
    ∃ facts sf c,
      assemble_helm sid now_us = Some facts ∧
      claim_projection float_text no_other_form sample_registry assemble_helm after_return session sid now_us = Ok (Some sf) ∧
      (ac_state (sf_activity sf) = AQuiescent ∨ ac_state (sf_activity sf) = ABlocked) ∧
      contract_for_provider sample_registry (Some (ls_provider session)) = Some c ∧ mc_send_input c = true ∧
      bound_evidence float_text no_other_form sid facts
        (map_to_list (filter (λ kh : head_entry, h_session_id kh.2 = Some sid) (heads (st_facts after_return))))
        (utc now_us) "send_input".
Proof.
  destruct (grants_ok _ _ second_claim_grants) as (session & receipt & seq & st & H & Hid).
  exists session, receipt, seq, st. split; [exact H|].
  exact (claimed_input_is_due float_text no_other_form sample_registry assemble_helm after_return sid "d2" now_us at_once
           session receipt seq st H).
Defined.

(** The first receipt returned, sent again under its key, and a third one sent
    again, written by a Console turn and cancelled. *)
Definition send_again (key : string) : input_op :=
  Upsert (InputRequest 7 sid "codex" "hello" "queue" "queued" (Some key) None None None None None false None None)
    "i9" now_us now_us 0.

Definition mixed_calls : list input_op :=
  given_back ++ [send_again "k1"; send_again "k3"; ConsoleWrite {["i3" := receipt_at 7200 "queued" None "k3"]};
                 DeleteSession "another session"; Cancel sid "i3" now_us now_us].

Lemma receipts_settle_witness :
  (rewrites float_text no_other_form sample_registry "i1" mixed_calls queue_store ≤ 402 + 3 * 1)%nat ∧
  (∀ n, life_of first_receipt = Settled n → resent_times first_receipt mixed_calls = 0%nat →
   st_receipts (run float_text no_other_form sample_registry mixed_calls queue_store) !! "i1" = Some first_receipt).
Proof.
  refine (receipts_settle float_text no_other_form sample_registry "i1" mixed_calls queue_store first_receipt
            (proj1 first_receipt_held) _ _); [discriminate|].
  repeat constructor; discriminate.
Defined.

(** ** An input sent again two hours later *)

Definition sent_again : input_request :=
  InputRequest 7 sid "codex" "hello" "queue" "queued" (Some "k3") None None None None None false None None.

Definition third_receipt : LiveSessionInputReceipt := receipt_at 7200 "queued" None "k3".

Definition resent : res (LiveInputReceiptSnapshot * string * input_store) :=
  upsert_input_receipt queue_store sent_again "i9" now_us now_us 0.

Lemma third_known : known_receipt queue_store sent_again = Some ("i3", third_receipt).
Proof. vm_compute. reflexivity. Qed.

Lemma resent_ok : ∃ r seq st, resent = Ok (r, seq, st).
Proof.
  assert (is_ok resent = true) as H by (vm_compute; reflexivity).
  destruct resent as [[[r seq] st]|]; [by exists r, seq, st|discriminate].
Qed.

Lemma resent_input_keeps_its_age_witness :
  ∃ r seq st1, resent = Ok (r, seq, st1) ∧
  is_id r = "i3" ∧ is_status r = INPUT_STATUS_QUEUED ∧
  (∀ id', id' ≠ "i3" → st_receipts st1 !! id' = st_receipts queue_store !! id') ∧
  (∃ row1, st_receipts st1 !! "i3" = Some row1 ∧ life_of row1 = Waiting (delivery_attempts third_receipt) ∧
     ir_created_at row1 = ir_created_at third_receipt) ∧
  ∀ assemble request observed_at clock answer st2,
    time_before (ir_created_at third_receipt) (bind_time (observed_at - MAX_DELIVERY_AGE)) = true →
    claim_queued_input float_text no_other_form sample_registry assemble st1 (iq_session_id sent_again) request
      observed_at clock = Ok (answer, st2) →
    ∃ row2, st_receipts st2 !! "i3" = Some row2 ∧ ir_status row2 = INPUT_STATUS_FAILED ∧
      ir_error_json row2
      = failure_json "session input expired before delivery" (delivery_attempts third_receipt) "delivery_expired" ∧
      ∀ session receipt s, answer = ClaimGranted false session receipt s → is_id receipt ≠ "i3".
Proof.
  destruct resent_ok as (r & seq & st1 & H). exists r, seq, st1. split; [exact H|].
  exact (resent_input_keeps_its_age float_text no_other_form sample_registry queue_store sent_again "i9" now_us now_us 0
           r seq st1 "i3" third_receipt H third_known eq_refl).
Defined.

(** The third receipt is in fact stale when it is sent again. *)
Example third_receipt_is_stale :
  time_before (ir_created_at third_receipt) (bind_time (now_us - MAX_DELIVERY_AGE)) = true.
Proof. vm_compute. reflexivity. Qed.
