(* ===== verification/ConsoleTurns.v ===== *)
(** * Console turns

    Models the Console turns of [src/server/zerg/catalogd/store.py]: a message
    to a Console session is a receipt and a turn; a thread runs one turn at a
    time, and the end of a turn starts the oldest waiting one.

    The identifiers that the code draws with [uuid4] are arguments; a primary
    key or a unique index that is violated raises [IntegrityError].  A
    transaction that raises leaves the state as it was. *)

From S2P Require Import Prelude PyStr PyTime PyValue MachineEvidence PyJson PyText InputQueue FactStore FactReducer.
From S2P Require Import InputStore.

Open Scope list_scope.
Open Scope Z_scope.

(** [LiveConsoleTurn]. *)
Record LiveConsoleTurn : Type := ConsoleTurn {
  tn_session_id : string;
  tn_thread_id : string;
  tn_receipt_id : string;
  tn_run_id : option string;
  tn_state : string;
  tn_provider : string;
  tn_device_id : string;
  tn_cwd : string;
  tn_resume_provider_thread_id : option string;
  tn_error : option string;
  tn_created_at : Z;
  tn_updated_at : Z;
  tn_terminal_at : option Z;
}.

(** [LiveSessionThread], [LiveSessionThreadAlias], [LiveSessionRun]: the
    columns that turns use. *)
Record LiveSessionThread : Type := SessionThread {
  th_session_id : string;
  th_device_id : option string;
  th_cwd : option string;
  th_provider_config_json : option string;
}.

Record LiveSessionThreadAlias : Type := ThreadAlias {
  al_id : Z;
  al_thread_id : string;
  al_provider : string;
  al_alias_kind : string;
  al_alias_value : string;
  al_first_seen_at : Z;
  al_last_seen_at : Z;
}.

Record LiveSessionRun : Type := SessionRun {
  rn_thread_id : string;
  rn_provider : string;
  rn_host_id : option string;
  rn_cwd : option string;
  rn_launch_origin : string;
  rn_started_at : Z;
  rn_ended_at : option Z;
  rn_exit_status : option string;
}.

Abbreviation turn_table := (gmap string LiveConsoleTurn).

Record console_store : Type := ConsoleStore {
  cs_inputs : input_store;
  cs_threads : gmap string LiveSessionThread;
  cs_aliases : list LiveSessionThreadAlias;
  cs_runs : gmap string LiveSessionRun;
  cs_turns : turn_table;
  cs_active_users : gset Z;
  cs_live_owner : gmap string (option Z);
  cs_storage_owner : gmap string (option Z);
  cs_outbox_owner : gmap string string;
}.

Definition set_inputs (inputs : input_store) (st : console_store) : console_store :=
  ConsoleStore inputs (cs_threads st) (cs_aliases st) (cs_runs st) (cs_turns st) (cs_active_users st)
    (cs_live_owner st) (cs_storage_owner st) (cs_outbox_owner st).

Definition set_turns (runs : gmap string LiveSessionRun) (turns : turn_table) (st : console_store) : console_store :=
  ConsoleStore (cs_inputs st) (cs_threads st) (cs_aliases st) runs turns (cs_active_users st)
    (cs_live_owner st) (cs_storage_owner st) (cs_outbox_owner st).

Definition cs_receipts (st : console_store) : receipt_table := st_receipts (cs_inputs st).

(** [_session_belongs_to_owner]. *)
Definition session_belongs_to_owner (st : console_store) (session_id : string) (owner_id : Z) : bool :=
  if negb (bool_decide (owner_id ∈ cs_active_users st)) then false
  else
    match cs_live_owner st !! session_id ≫= id with
    | Some live_owner => live_owner =? owner_id
    | None =>
        match cs_storage_owner st !! session_id ≫= id with
        | Some storage_owner => storage_owner =? owner_id
        | None =>
            match st_sessions (cs_inputs st) !! session_id with
            | None => false
            | Some row =>
                if opt_is (lc_origin_kind row) "console"
                then opt_is (cs_outbox_owner st !! session_id) (pretty owner_id)
                else true
            end
        end
    end.

(** ** Turns of a thread *)

Definition OWNER_STATES : list string := ["starting"; "active"; "draining"]%string.
Definition TERMINAL_STATES : list string := ["completed"; "failed"; "cancelled"]%string.

Definition owns_thread (thread_id : string) (t : LiveConsoleTurn) : bool :=
  String.eqb (tn_thread_id t) thread_id && str_in (tn_state t) OWNER_STATES.

Definition waits_in (thread_id : string) (t : LiveConsoleTurn) : bool :=
  String.eqb (tn_thread_id t) thread_id && String.eqb (tn_state t) "queued".

Definition select_turns (P : LiveConsoleTurn → bool) (turns : turn_table) : list (string * LiveConsoleTurn) :=
  filter (λ kt, P kt.2 = true) (map_to_list turns).

Definition turn_key (kt : string * LiveConsoleTurn) : Z * string := (tn_created_at kt.2, kt.1).

Definition turn_cmp : Z * string → Z * string → comparison := pair_cmp Z.compare str_cmp.

#[export] Instance turn_comparison : Comparison turn_cmp := pair_comparison Z.compare str_cmp.

(** [.order_by(created_at.asc(), id.asc()).first()]. *)
Definition first_turn (P : LiveConsoleTurn → bool) (turns : turn_table) : option (string * LiveConsoleTurn) :=
  k ← head (py_sorted turn_cmp (map turn_key (select_turns P turns)));
  pair k.2 <$> turns !! k.2.

(** The partial unique index on the owner of a thread, and the unique index on
    [run_id]. *)
Definition one_owner (thread_id : string) (turns : turn_table) : bool :=
  (length (select_turns (owns_thread thread_id) turns) <=? 1)%nat.

Definition run_unused (run_id : string) (st : console_store) : bool :=
  bool_decide (cs_runs st !! run_id = None)
  && bool_decide (select_turns (λ t, opt_is (tn_run_id t) run_id) (cs_turns st) = []).

(** The latest provider session of a thread. *)
Definition alias_key (a : LiveSessionThreadAlias) : Z * Z * Z := (al_last_seen_at a, al_first_seen_at a, al_id a).

Definition resume_alias (st : console_store) (thread_id provider : string) : option string :=
  let named a := String.eqb (al_thread_id a) thread_id && String.eqb (al_provider a) provider
                 && String.eqb (al_alias_kind a) "provider_session_id" in
  al_alias_value <$> last (sort_on (pair_cmp (pair_cmp Z.compare Z.compare) Z.compare) alias_key
                             (List.filter named (cs_aliases st))).

(** [_live_console_turn_dto]. *)
Definition console_turn_dto (float : string → pyval) (kt : string * LiveConsoleTurn)
    (message client_request_id provider_config : option string) : res (list (string * pyval)) :=
  let '(id, t) := kt in
  let! config := loads float (default "{}" (provider_config ≫= or_none)) in
  Ok [("turn_id", VStr id); ("session_id", VStr (tn_session_id t)); ("thread_id", VStr (tn_thread_id t));
      ("run_id", opt_str (tn_run_id t)); ("state", VStr (tn_state t)); ("provider", VStr (tn_provider t));
      ("device_id", VStr (tn_device_id t)); ("cwd", VStr (tn_cwd t)); ("message", opt_str message);
      ("client_request_id", opt_str client_request_id); ("provider_config", config);
      ("resume_provider_thread_id", opt_str (tn_resume_provider_thread_id t)); ("error", opt_str (tn_error t))]%string.

(** ** Rewriting rows *)

(** [next_turn.run_id = ...; .state = "starting"; ...]. *)
Definition started (run_id : string) (alias : option string) (now : Z) (t : LiveConsoleTurn) : LiveConsoleTurn :=
  ConsoleTurn (tn_session_id t) (tn_thread_id t) (tn_receipt_id t) (Some run_id) "starting" (tn_provider t)
    (tn_device_id t) (tn_cwd t) alias (tn_error t) (tn_created_at t) now (tn_terminal_at t).

(** [turn.state = ...; turn.updated_at = now; turn.error = ...], and
    [terminal_at] of a turn that ends. *)
Definition moved_to (state : string) (error : option string) (now : Z) (t : LiveConsoleTurn) : LiveConsoleTurn :=
  ConsoleTurn (tn_session_id t) (tn_thread_id t) (tn_receipt_id t) (tn_run_id t) state (tn_provider t)
    (tn_device_id t) (tn_cwd t) (tn_resume_provider_thread_id t) error (tn_created_at t) now
    (if str_in state TERMINAL_STATES then Some now else tn_terminal_at t).

Definition started_run (t : LiveConsoleTurn) (now : Z) : LiveSessionRun :=
  SessionRun (tn_thread_id t) (tn_provider t) (Some (tn_device_id t)) (Some (tn_cwd t)) "longhouse_spawned" now None None.

Definition ended_run (exit_status : string) (now : Z) (r : LiveSessionRun) : LiveSessionRun :=
  SessionRun (rn_thread_id r) (rn_provider r) (rn_host_id r) (rn_cwd r) (rn_launch_origin r) (rn_started_at r)
    (Some now) (Some exit_status).

(** The receipt of a turn that starts. *)
Definition dispatched (run_id : string) (now : Z) (r : LiveSessionInputReceipt) : LiveSessionInputReceipt :=
  with_request (Some run_id) (with_status "delivering" (ir_error_json r) now r).

(** The Console result on the catalog row of the session. *)
Definition with_console_result (outcome : string) (now : Z) (r : LiveSessionCatalog) : LiveSessionCatalog :=
  SessionCatalog (lc_provider r) (lc_device_id r) (lc_device_name r) (lc_cwd r) (lc_project r) (lc_git_repo r)
    (lc_git_branch r) (lc_ended_at r) (lc_closed_at r) (lc_close_reason r) (lc_origin_kind r) (lc_loop_mode r)
    (lc_permission_mode r) (lc_primary_thread_id r) (Some now) (Some outcome) (lc_user_state r) (lc_user_state_at r) now.

(** ** Rewriting the store *)

Definition set_receipts (f : receipt_table → receipt_table) (st : console_store) : console_store :=
  set_inputs (set_input_receipts (f (cs_receipts st)) (cs_inputs st)) st.

Definition set_session (session_id : string) (f : LiveSessionCatalog → LiveSessionCatalog) (st : console_store) :
    console_store :=
  set_inputs (InputStore (st_facts (cs_inputs st)) (cs_receipts st) (alter f session_id (st_sessions (cs_inputs st)))) st.

Definition put_turn (id : string) (t : LiveConsoleTurn) (st : console_store) : console_store :=
  set_turns (cs_runs st) (<[id := t]> (cs_turns st)) st.

Definition set_runs (f : gmap string LiveSessionRun → gmap string LiveSessionRun) (st : console_store) : console_store :=
  set_turns (f (cs_runs st)) (cs_turns st) st.

Definition advance_console_seq (now : Z) (st : console_store) : console_store :=
  set_inputs (advance_catalog_seq now (cs_inputs st)) st.

Definition console_seq (st : console_store) : string := current_commit_seq (cs_inputs st).

(** A turn takes a fresh run, and its receipt, if any, is dispatched: the part
    that [enqueue_console_turn] and [update_console_turn] share. *)
Definition start_turn (id run_id : string) (alias : option string) (now : Z) (t : LiveConsoleTurn) (st : console_store) :
    res console_store :=
  let st' := set_runs (<[run_id := started_run t now]>)
               (set_receipts (alter (dispatched run_id now) (tn_receipt_id t))
                  (put_turn id (started run_id alias now t) st)) in
  let! _ := guard (run_unused run_id st && one_owner (tn_thread_id t) (cs_turns st')) IntegrityError in
  Ok st'.

(** ** Enqueueing *)

(** The turn of [session.console.turn.enqueue.v2]. *)
Record console_message : Type := ConsoleMessage {
  cm_session_id : string;
  cm_owner_id : Z;
  cm_message : string;
  cm_client_request_id : string;
  cm_created_at : Z;
}.

Abbreviation turn_dto := (list (string * pyval)).

Inductive enqueue_answer : Type :=
  | SessionNotFound
  | TargetMissing
  | TurnKnown (idempotency_conflict : bool) (turn : option turn_dto)
  | TurnAccepted (turn : turn_dto) (seq : string).

(** The identifiers a call draws. *)
Record turn_ids : Type := TurnIds { fresh_receipt : string; fresh_turn : string; fresh_run : string }.

Definition new_console_receipt (m : console_message) (thread_id provider device_id : string) : LiveSessionInputReceipt :=
  InputReceipt (cm_owner_id m) (cm_session_id m) (Some thread_id) provider (Some device_id)
    (Some (cm_client_request_id m)) "auto" "queued" (cm_message m) None None None None None
    (bind_time (cm_created_at m)) (cm_created_at m) None.

Definition new_console_turn (m : console_message) (thread_id receipt_id provider device_id cwd : string)
    (alias : option string) : LiveConsoleTurn :=
  ConsoleTurn (cm_session_id m) thread_id receipt_id None "queued" provider device_id cwd alias None
    (cm_created_at m) (cm_created_at m) None.

Definition turn_of_receipt (receipt_id : string) (st : console_store) : option (string * LiveConsoleTurn) :=
  head (select_turns (λ t, String.eqb (tn_receipt_id t) receipt_id) (cs_turns st)).

(** [thread.device_id] and [thread.cwd], when neither is missing or empty. *)
Definition execution_target (thread : option LiveSessionThread) : option (LiveSessionThread * string * string) :=
  th ← thread; device_id ← th_device_id th ≫= or_none; cwd ← th_cwd th ≫= or_none; Some (th, device_id, cwd).

Section Console.
Context (float : string → pyval).

Abbreviation dto := (console_turn_dto float).

(** [enqueue_console_turn]. *)
Definition enqueue_console_turn (st : console_store) (m : console_message) (ids : turn_ids) :
    res (enqueue_answer * console_store) :=
  let now := cm_created_at m in
  match st_sessions (cs_inputs st) !! cm_session_id m with
  | None => Ok (SessionNotFound, st)
  | Some session =>
      match lc_primary_thread_id session ≫= or_none with
      | None => Ok (SessionNotFound, st)
      | Some thread_id =>
          if negb (session_belongs_to_owner st (cm_session_id m) (cm_owner_id m)) then Ok (SessionNotFound, st)
          else
            match execution_target (cs_threads st !! thread_id) with
            | None => Ok (TargetMissing, st)
            | Some (thread, device_id, cwd) =>
                let known := by_client_request (cm_owner_id m) (cm_session_id m) (cm_client_request_id m) in
                match head (select_receipts known (cs_receipts st)) with
                | Some (receipt_id, receipt) =>
                    match turn_of_receipt receipt_id st with
                    | None => Err NoResultFound
                    | Some turn =>
                        let exact := String.eqb (ir_text receipt) (cm_message m) in
                        let! replay_turn := dto turn (Some (ir_text receipt)) (ir_client_request_id receipt)
                                              (th_provider_config_json thread) in
                        Ok (TurnKnown (negb exact) (if exact then Some replay_turn else None), st)
                    end
                | None =>
                    let alias := resume_alias st thread_id (lc_provider session) in
                    let receipt := new_console_receipt m thread_id (lc_provider session) device_id in
                    let turn := new_console_turn m thread_id (fresh_receipt ids) (lc_provider session) device_id cwd alias in
                    let! _ := guard (bool_decide (cs_receipts st !! fresh_receipt ids = None)
                                     && bool_decide (cs_turns st !! fresh_turn ids = None)
                                     && bool_decide (turn_of_receipt (fresh_receipt ids) st = None)) IntegrityError in
                    let st1 := put_turn (fresh_turn ids) turn (set_receipts (<[fresh_receipt ids := receipt]>) st) in
                    let idle := bool_decide (select_turns (owns_thread thread_id) (cs_turns st1) = []) in
                    let! st2 := if idle then start_turn (fresh_turn ids) (fresh_run ids) alias now turn st1 else Ok st1 in
                    let! result := dto (fresh_turn ids, default turn (cs_turns st2 !! fresh_turn ids)) (Some (cm_message m))
                                     (Some (cm_client_request_id m)) (th_provider_config_json thread) in
                    let st3 := advance_console_seq now st2 in
                    Ok (TurnAccepted result (console_seq st3), st3)
                end
            end
      end
  end.

(** ** Updating *)

(** The turn of [session.console.turn.update.v2]. *)
Record turn_update : Type := TurnUpdate {
  up_run_id : string;
  up_state : string;
  up_updated_at : Z;
  up_owner_id : Z;
  up_session_id : string;
  up_thread_id : string;
  up_provider : string;
  up_device_id : string;
  up_turn_id : option string;
  up_expected_state : option string;
  up_error : option string;
  up_error_code : option string;
}.

Inductive update_answer : Type :=
  | TurnNotFound
  | TurnStale (turn : turn_dto) (seq : string)
  | TurnReplayed (turn : turn_dto) (next_turn : option turn_dto) (seq : string)
  | TurnApplied (turn : turn_dto) (next_turn : option turn_dto) (seq : string).

Definition names_run (u : turn_update) (t : LiveConsoleTurn) : bool :=
  opt_is (tn_run_id t) (up_run_id u) && String.eqb (tn_session_id t) (up_session_id u)
  && String.eqb (tn_thread_id t) (up_thread_id u) && String.eqb (tn_provider t) (up_provider u)
  && String.eqb (tn_device_id t) (up_device_id u).

(** The turn of the update joined with its receipt. *)
Definition updated_turn (st : console_store) (u : turn_update) : option (string * LiveConsoleTurn * LiveSessionInputReceipt) :=
  turn ← head (select_turns (names_run u) (cs_turns st));
  receipt ← cs_receipts st !! tn_receipt_id turn.2;
  if (ir_owner_id receipt =? up_owner_id u)
     && match up_turn_id u ≫= or_none with Some id => String.eqb turn.1 id | None => true end
  then Some (turn, receipt) else None.

(** [json.dumps({...}, sort_keys=True, separators=(",", ":"))]. *)
Definition turn_error_json (error_code : option string) (error : string) : string :=
  "{" +:+ quote +:+ "code" +:+ quote +:+ ":" +:+ json_dumps (opt_str error_code) +:+ ","
  +:+ quote +:+ "message" +:+ quote +:+ ":" +:+ json_dumps (VStr error) +:+ "}".

Definition reported_receipt (u : turn_update) (r : LiveSessionInputReceipt) : LiveSessionInputReceipt :=
  let status :=
    if str_in (up_state u) ["active"; "completed"]%string then "delivered"%string
    else if str_in (up_state u) ["failed"; "cancelled"]%string then "failed"%string
    else ir_status r in
  with_status status (turn_error_json (up_error_code u) <$> (up_error u ≫= or_none)) (up_updated_at u) r.

(** What is answered about a turn with its message. *)
Definition full_dto (st : console_store) (turn : string * LiveConsoleTurn) : res turn_dto :=
  let receipt := cs_receipts st !! tn_receipt_id turn.2 in
  let thread := cs_threads st !! tn_thread_id turn.2 in
  dto turn (ir_text <$> receipt) (receipt ≫= ir_client_request_id) (thread ≫= th_provider_config_json).

Definition brief_dto (turn : string * LiveConsoleTurn) (receipt : LiveSessionInputReceipt) : res turn_dto :=
  dto turn None (ir_client_request_id receipt) None.

(** The oldest waiting turn of a thread starts; [None] when none waits. *)
Definition start_next (st : console_store) (thread_id run_id : string) (now : Z) : res (option turn_dto * console_store) :=
  match first_turn (waits_in thread_id) (cs_turns st) with
  | None => Ok (None, st)
  | Some (id, t) =>
      let! st' := start_turn id run_id (resume_alias st (tn_thread_id t) (tn_provider t)) now t st in
      let! d := full_dto st' (id, default t (cs_turns st' !! id)) in
      Ok (Some d, st')
  end.

(** The end of a turn: its Console result, its run, and the next turn. *)
Definition end_turn (st : console_store) (u : turn_update) (t : LiveConsoleTurn) (run_id : string) :
    res (option turn_dto * console_store) :=
  let now := up_updated_at u in
  let exit_status := default (up_state u) (up_error_code u ≫= or_none) in
  let st1 := set_session (tn_session_id t) (with_console_result (up_state u) now) st in
  let st2 := set_runs (alter (ended_run exit_status now) (up_run_id u)) st1 in
  start_next st2 (tn_thread_id t) run_id now.

(** [update_console_turn]; [run_id] is drawn for the turn that starts next. *)
Definition update_console_turn (st : console_store) (u : turn_update) (run_id : string) :
    res (update_answer * console_store) :=
  match updated_turn st u with
  | None => Ok (TurnNotFound, st)
  | Some (id, t, receipt) =>
      if match up_expected_state u with Some s => negb (String.eqb (tn_state t) s) | None => false end then
        let! d := full_dto st (id, t) in Ok (TurnStale d (console_seq st), st)
      else if str_in (tn_state t) TERMINAL_STATES then
        if negb (String.eqb (up_state u) (tn_state t)) then
          let! d := brief_dto (id, t) receipt in Ok (TurnStale d (console_seq st), st)
        else
          let starting := first_turn (λ t', String.eqb (tn_thread_id t') (tn_thread_id t)
                                            && String.eqb (tn_state t') "starting") (cs_turns st) in
          let! next := match starting with
                       | None => Ok None
                       | Some turn => let! d := full_dto st turn in Ok (Some d)
                       end in
          let! d := brief_dto (id, t) receipt in
          Ok (TurnReplayed d next (console_seq st), st)
      else
        let t' := moved_to (up_state u) (up_error u) (up_updated_at u) t in
        let receipt' := reported_receipt u receipt in
        let st1 := set_receipts (<[tn_receipt_id t := receipt']>) (put_turn id t' st) in
        let! _ := guard (one_owner (tn_thread_id t) (cs_turns st1)) IntegrityError in
        let! '(next, st2) := if str_in (up_state u) TERMINAL_STATES then end_turn st1 u t run_id else Ok (None, st1) in
        let! d := brief_dto (id, t') receipt' in
        let st3 := advance_console_seq (up_updated_at u) st2 in
        Ok (TurnApplied d next (console_seq st3), st3)
  end.

(** ** Reading *)

(** [read_current_console_turn]; [None] when the session is not the owner's. *)
Definition read_current_console_turn (st : console_store) (session_id : string) (owner_id : Z) :
    res (option (option turn_dto)) :=
  if negb (session_belongs_to_owner st session_id owner_id) then Ok None
  else
    let current t := String.eqb (tn_session_id t) session_id && str_in (tn_state t) OWNER_STATES in
    match first_turn current (cs_turns st) with
    | None => Ok (Some None)
    | Some turn => let! d := dto turn None None None in Ok (Some (Some d))
    end.

(** [list_starting_console_turns_for_device]. *)
Definition starting_on (st : console_store) (owner_id : Z) (device_id : string) (kt : string * LiveConsoleTurn) : bool :=
  String.eqb (tn_state kt.2) "starting" && String.eqb (tn_device_id kt.2) device_id
  && match cs_receipts st !! tn_receipt_id kt.2 with Some r => ir_owner_id r =? owner_id | None => false end
  && bool_decide (is_Some (cs_threads st !! tn_thread_id kt.2)).

Definition list_starting_console_turns_for_device (st : console_store) (owner_id : Z) (device_id : string) :
    res (list turn_dto * string) :=
  let rows := filter (λ kt, starting_on st owner_id device_id kt = true) (map_to_list (cs_turns st)) in
  let! turns := map_res (full_dto st) (take 100 (sort_on turn_cmp turn_key rows)) in
  Ok (turns, console_seq st).
End Console.

(** ** Deletion of a session *)

(** Whether a thread is one of the session's. *)
Definition thread_of_session (session_id : string) (st : console_store) (thread_id : string) : bool :=
  match cs_threads st !! thread_id with Some th => String.eqb (th_session_id th) session_id | None => false end.

(** The rows of this part that [_delete_bounded_live_session_state] deletes:
    threads, their runs and aliases, the catalog row and the receipts.  The
    turns stay. *)
Definition delete_session_console (session_id : string) (st : console_store) : console_store :=
  ConsoleStore (delete_session_inputs session_id (cs_inputs st))
    (filter (λ kt, String.eqb (th_session_id kt.2) session_id = false) (cs_threads st))
    (List.filter (λ a, negb (thread_of_session session_id st (al_thread_id a))) (cs_aliases st))
    (filter (λ kr, thread_of_session session_id st (rn_thread_id kr.2) = false) (cs_runs st))
    (cs_turns st) (cs_active_users st) (delete session_id (cs_live_owner st)) (cs_storage_owner st) (cs_outbox_owner st).
