(* ===== verification/Interactions.v ===== *)
(** * Provider interactions

    The table of provider questions and permission prompts
    ([LiveInteractionRequest]) and the event that opens or settles one, of
    [src/server/zerg/catalogd/store.py]. *)

From S2P Require Import Prelude PyStr PyTime PyValue MachineEvidence PyText FactReducer RuntimeEvents PauseRequests.

Open Scope list_scope.
Open Scope Z_scope.

(** [LiveInteractionRequest]; the table is keyed by [id]. *)
Record LiveInteractionRequest : Type := InteractionRequest {
  ix_session_id : string;
  ix_runtime_key : string;
  ix_provider : string;
  ix_request_key : string;
  ix_provider_request_id : option string;
  ix_source : option string;
  ix_reply_transport : option string;
  ix_kind : string;
  ix_status : string;
  ix_can_respond : Z;
  ix_request_payload_json : json_object;
  ix_projection_json : json_object;
  ix_response_payload_json : option json_object;
  ix_response_text : option string;
  ix_occurred_at : Z;
  ix_last_seen_at : Z;
  ix_resolved_at : option Z;
  ix_expires_at : option Z;
  ix_created_at : Z;
  ix_updated_at : Z;
}.

Abbreviation interaction_table := (gmap string LiveInteractionRequest).

Definition is_pending (r : LiveInteractionRequest) : bool := String.eqb (ix_status r) "pending".

(** The row of a request key, which is unique. *)
Definition by_request_key (request_key : string) (table : interaction_table) : option (string * LiveInteractionRequest) :=
  head (filter (λ kr, ix_request_key kr.2 = request_key) (map_to_list table)).

(** ** Wire forms *)

(** [_truncate_utf8]: the longest prefix that fits. *)
Fixpoint truncate_utf8 (s : string) (maximum : nat) : string :=
  match s with
  | EmptyString => EmptyString
  | String c s' =>
      let w := if (code c <? 128)%nat then 1%nat else 2%nat in
      if (w <=? maximum)%nat then String c (truncate_utf8 s' (maximum - w)) else EmptyString
  end.

Definition STRING_LIMITS (compact : bool) : list (string * nat) :=
  [("id", 128); ("request_key", 255); ("session_id", 64); ("runtime_key", 255); ("kind", 64); ("status", 32);
   ("provider", 64); ("title", if compact then 96 else 160); ("summary", if compact then 128 else 256);
   ("tool_name", 128); ("occurred_at", 64); ("last_seen_at", 64); ("resolved_at", 64); ("expires_at", 64)]%string%nat.

Definition cut (value : pyval) (maximum : nat) : pyval := VStr (truncate_utf8 (py_str value) maximum).
Definition cut_or_none (present : bool) (value : pyval) (maximum : nat) : pyval := if present then cut value maximum else VNone.

Definition bounded_option (compact : bool) (choice : pyval) : option pyval :=
  match choice with
  | VDict o =>
      let label := VStr (or_empty (str_or (assoc "label" o))) in
      let description := assoc "description" o in
      let value := assoc "value" o in
      Some (VDict [("label", cut label (if compact then 32 else 48));
                   ("description", cut_or_none (truthy description) description (if compact then 32 else 64));
                   ("value", cut_or_none (negb (is_none value)) value (if compact then 32 else 48))])%string
  | _ => None
  end.

Definition list_items (value : pyval) : list pyval := default [] (as_list value).

Definition bounded_question (compact : bool) (question : pyval) : option pyval :=
  match question with
  | VDict q =>
      let header := assoc "header" q in
      Some (VDict [("id", cut (VStr (or_empty (str_or (assoc "id" q)))) 128);
                   ("header", cut_or_none (truthy header) header (if compact then 48 else 64));
                   ("question", cut (VStr (default "Answer required" (str_or (assoc "question" q)))) (if compact then 128 else 192));
                   ("multi_select", VBool (truthy (assoc "multi_select" q)));
                   ("options", VList (omap (bounded_option compact) (take 4 (list_items (assoc "options" q)))))])%string
  | _ => None
  end.

(** [_bounded_pause_projection]. *)
Definition bounded_pause_projection (value : option json_object) (compact : bool) : option json_object :=
  d ← value;
  Some (map (λ kn : string * nat, (kn.1, cut_or_none (negb (is_none (assoc kn.1 d))) (assoc kn.1 d) kn.2)) (STRING_LIMITS compact)
        ++ [("can_respond"%string, VBool (truthy (assoc "can_respond" d)));
            ("questions"%string, VList (omap (bounded_question compact) (take 3 (list_items (assoc "questions" d)))))]).

Definition opt_dict (d : option json_object) : pyval := match d with Some d => VDict d | None => VNone end.

(** [_interaction_dto]. *)
Definition interaction_dto (id : string) (r : LiveInteractionRequest) : json_object :=
  [("id", VStr id); ("session_id", VStr (ix_session_id r)); ("runtime_key", VStr (ix_runtime_key r));
   ("provider", VStr (ix_provider r)); ("request_key", VStr (ix_request_key r));
   ("provider_request_id", opt_str (ix_provider_request_id r)); ("source", opt_str (ix_source r));
   ("reply_transport", opt_str (ix_reply_transport r)); ("kind", VStr (ix_kind r)); ("status", VStr (ix_status r));
   ("can_respond", VBool (negb (ix_can_respond r =? 0)%Z));
   ("projection", opt_dict (bounded_pause_projection (Some (ix_projection_json r)) false));
   ("response_payload", opt_dict (ix_response_payload_json r)); ("response_text", opt_str (ix_response_text r));
   ("occurred_at", iso_or_none (Some (ix_occurred_at r))); ("last_seen_at", iso_or_none (Some (ix_last_seen_at r)));
   ("resolved_at", iso_or_none (ix_resolved_at r)); ("expires_at", iso_or_none (ix_expires_at r))]%string.

(** ** [dict(value)] *)

(** The key that a scalar becomes in a JSON column. *)
Definition key_text (key : pyval) : res string :=
  match key with
  | VStr s => Ok s
  | VNone | VBool _ | VInt _ | VFloat _ _ => Ok (json_dumps key)
  | VList _ | VDict _ => Err (TypeError "unhashable type")
  end.

(** An item of a sequence of pairs. *)
Definition dict_item (item : pyval) : res (string * pyval) :=
  let wrong_length := ValueError "dictionary update sequence element has the wrong length; 2 is required" in
  match item with
  | VList [k; v] => let! k := key_text k in Ok (k, v)
  | VStr (String a (String b EmptyString)) => Ok (String a "", VStr (String b ""))
  | VDict [(k, _); (v, _)] => Ok (k, VStr v)
  | VList _ | VStr _ | VDict _ => Err wrong_length
  | _ => Err (TypeError "cannot convert dictionary update sequence element to a sequence")
  end.

(** [dict(value or {})]; keys of different types that are equal numbers stay
    apart, as their texts do. *)
Definition dict_of (value : pyval) : res json_object :=
  if negb (truthy value) then Ok []
  else
    match value with
    | VDict d => Ok d
    | VList l => let! items := map_res dict_item l in Ok (fold_left (λ d kv, dict_set kv.1 kv.2 d) items [])
    | VStr _ => Err (ValueError "dictionary update sequence element has the wrong length; 2 is required")
    | _ => Err (TypeError "object is not iterable")
    end.

(** [dict(...) or None]. *)
Definition null_if_empty (d : json_object) : option json_object := match d with [] => None | _ => Some d end.

(** ** Rewriting rows *)

(** What settles a row: its status, answer and times. *)
Definition settled_interaction (status : string) (payload : option json_object) (response_text : option string) (at_ : Z)
    (r : LiveInteractionRequest) : LiveInteractionRequest :=
  InteractionRequest (ix_session_id r) (ix_runtime_key r) (ix_provider r) (ix_request_key r) (ix_provider_request_id r)
    (ix_source r) (ix_reply_transport r) (ix_kind r) status 0 (ix_request_payload_json r) (ix_projection_json r)
    payload response_text (ix_occurred_at r) at_ (Some at_) (ix_expires_at r) (ix_created_at r) at_.

(** A newer request of the same runtime takes the place of a pending one. *)
Definition superseded_request (at_ : Z) (r : LiveInteractionRequest) : LiveInteractionRequest :=
  settled_interaction "expired" (ix_response_payload_json r) (ix_response_text r) at_ r.

Definition supersede (runtime_key request_key : string) (at_ : Z) (table : interaction_table) : interaction_table :=
  (λ r, if String.eqb (ix_runtime_key r) runtime_key && negb (String.eqb (ix_request_key r) request_key) && is_pending r
        then superseded_request at_ r else r) <$> table.

(** [_interaction_id]. *)
Definition interaction_id (request_key : string) : string := uuid5 NAMESPACE_URL ("longhouse-pause:" +:+ request_key).

(** ** One event *)

Section Events.
Context (other_form : string → option datetime).

(** The time of a text that [isoformat] wrote. *)
Definition read_expiry (projection : json_object) : res (option Z) :=
  match assoc "expires_at" projection with
  | VStr s =>
      match parse_iso other_form s with
      | Some d => let! w := utc_wall d in Ok (Some w)
      | None => Err (ValueError "Invalid isoformat string")
      end
  | _ => Ok None
  end.

(** The row that a request writes; [created_at] of a row that exists stays. *)
Definition requested_row (e : RuntimeEventIngest) (session_id : string) (projection : json_object) (expires_at : option Z)
    (now created_at : Z) : LiveInteractionRequest :=
  let payload := re_payload e in
  let provider_ref := mapping (first_of payload "provider_ref" ["provider_ref_json"%string]) in
  InteractionRequest session_id (re_runtime_key e) (default "unknown"%string (or_none (re_provider e)))
    (pause_runtime_request_key e) (text (first_of payload "provider_request_id" ["request_id"%string]))
    (text (assoc "source" provider_ref)) (text (assoc "reply_transport" provider_ref))
    (default PAUSE_KIND_STRUCTURED_QUESTION (str_or (assoc "kind" payload))) "pending"
    (if truthy (assoc "can_respond" payload) then 1 else 0)
    (mapping (first_of payload "request_payload" ["request_payload_json"; "payload"]%string))
    projection None None now now None expires_at created_at now.

(** A request that an existing row answers: it is older, or the row already
    shows it, or it was settled since. *)
Definition request_known (now : Z) (r : LiveInteractionRequest) : bool :=
  (now <? ix_last_seen_at r) || (is_pending r && (ix_last_seen_at r =? now))
  || (negb (is_pending r) && match ix_resolved_at r with Some at_ => now <=? at_ | None => false end).

(** The status and the answer of a resolution. *)
Definition resolution_status (payload : json_object) : string :=
  let named := default "resolved"%string (str_or (assoc "status" payload)) in
  if str_in named TERMINAL_STATUSES then named else "resolved"%string.

(** A [pause_resolution] of a pending row. *)
Definition resolve_row (e : RuntimeEventIngest) (now : Z) (r : LiveInteractionRequest) : res LiveInteractionRequest :=
  if negb (is_pending r) then Ok r
  else if now <? ix_last_seen_at r then Ok r
  else
    let! answer := dict_of (first_of (re_payload e) "response_payload" ["response_payload_json"%string]) in
    Ok (settled_interaction (resolution_status (re_payload e)) (null_if_empty answer)
          (text (first_of (re_payload e) "response_text" ["message"%string])) now r).

(** [_apply_live_interaction_event]: the row it returns with its id, and the
    table. *)
Definition apply_live_interaction_event (table : interaction_table) (e : RuntimeEventIngest) :
    res (option (string * LiveInteractionRequest) * interaction_table) :=
  let request_key := pause_runtime_request_key e in
  let! now := utc_wall (re_occurred_at e) in
  let existing := by_request_key request_key table in
  match re_kind e, re_session_id e with
  | pause_resolution, _ =>
      match existing with
      | None => Ok (None, table)
      | Some (id, r) => let! r' := resolve_row e now r in Ok (Some (id, r'), <[id := r']> table)
      end
  | pause_request, Some session_id =>
      if match existing with Some (_, r) => request_known now r | None => false end then Ok (existing, table)
      else
        let single_active := if has_key "single_active" (re_payload e) then truthy (assoc "single_active" (re_payload e)) else true in
        let table := if single_active then supersede (re_runtime_key e) request_key now table else table in
        let! projection := build_pause_runtime_projection other_form e in
        let! expires_at := read_expiry projection in
        let row created_at := requested_row e session_id projection expires_at now created_at in
        match existing with
        | Some (id, r) => Ok (Some (id, row (ix_created_at r)), <[id := row (ix_created_at r)]> table)
        | None =>
            let id := interaction_id request_key in
            let! _ := guard (bool_decide (table !! id = None)) IntegrityError in
            Ok (Some (id, row now), <[id := row now]> table)
        end
  | _, _ => Ok (None, table)
  end.
End Events.
