(* ===== verification/LiveRuntime.v ===== *)
(** * The live runtime lane

    Models the reducer of runtime events of
    [src/server/zerg/services/session_runtime.py] as the catalog runs it
    ([LiveRuntimeState] rows, [archive_side_effects] off), the runs and the
    connections that it ends, and the index of live sessions of
    [src/server/zerg/services/live_session_state.py].

    The columns of a runtime row are grouped in records; the first four groups
    are what [_state_snapshot] compares.  The write clock [updated_at] is left
    out, here and on the live sessions. *)

From S2P Require Import Prelude PyStr PyTime PyValue MachineEvidence PyText FactStore FactReducer RuntimeView.
From S2P Require Import RuntimeEvents PauseRequests.
From S2P Require Import LivePreviews Interactions InputQueue InputStore ConsoleTurns.

Open Scope list_scope.
Open Scope Z_scope.

(** ** Rows *)

Record runtime_binding : Type := Binding {
  rb_session_id : option string;
  rb_thread_id : option string;
  rb_run_id : option string;
  rb_provider : string;
  rb_device_id : option string;
}.

Record runtime_phase : Type := Phase {
  rp_phase : string;
  rp_phase_source : string;
  rp_active_tool : option string;
  rp_phase_started_at : option Z;
  rp_execution_started_at : option Z;
}.

Record runtime_clock : Type := Clock {
  rc_last_runtime_signal_at : option Z;
  rc_last_progress_at : option Z;
  rc_last_live_at : option Z;
  rc_timeline_anchor_at : Z;
  rc_freshness_expires_at : option Z;
}.

Record runtime_end : Type := Terminal {
  rt_terminal_state : option string;
  rt_terminal_reason : option string;
  rt_terminal_source : option string;
  rt_terminal_at : option Z;
}.

(** The columns [pending_interaction_*]. *)
Record runtime_interaction : Type := Pending {
  ri_id : option string;
  ri_kind : option string;
  ri_opened_at : option Z;
  ri_updated_at : option Z;
  ri_projection_json : option json_object;
  ri_can_respond : Z;
}.

(** [LiveRuntimeState]. *)
Record LiveRuntimeState : Type := RuntimeRow {
  lr_binding : runtime_binding;
  lr_phase : runtime_phase;
  lr_clock : runtime_clock;
  lr_terminal : runtime_end;
  lr_interaction : runtime_interaction;
  lr_runtime_version : Z;
}.

(** [_state_snapshot]. *)
Definition state_snapshot (row : LiveRuntimeState) : runtime_binding * runtime_phase * runtime_clock * runtime_end :=
  (lr_binding row, lr_phase row, lr_clock row, lr_terminal row).

#[export] Instance binding_eq_dec : EqDecision runtime_binding.
Proof. solve_decision. Defined.
#[export] Instance phase_eq_dec : EqDecision runtime_phase.
Proof. solve_decision. Defined.
#[export] Instance clock_eq_dec : EqDecision runtime_clock.
Proof. solve_decision. Defined.
#[export] Instance terminal_eq_dec : EqDecision runtime_end.
Proof. solve_decision. Defined.

Definition no_terminal : runtime_end := Terminal None None None None.
Definition no_interaction : runtime_interaction := Pending None None None None None 0.

(** The columns of [LiveSessionConnection] that the reducer reads or writes. *)
Record LiveSessionConnection : Type := SessionConnection {
  cn_run_id : string;
  cn_control_plane : string;
  cn_state : string;
  cn_can_send_input : Z;
  cn_can_interrupt : Z;
  cn_can_terminate : Z;
  cn_can_tail_output : Z;
  cn_can_resume : Z;
  cn_released_at : option Z;
  cn_last_health_at : option Z;
}.

(** [LiveSession]. *)
Record LiveSession : Type := ObservedSession {
  lv_owner_id : option string;
  lv_provider : string;
  lv_device_id : option string;
  lv_machine_id : option string;
  lv_state : string;
  lv_started_at : option Z;
  lv_last_seen_at : Z;
}.

Abbreviation runtime_table := (gmap string LiveRuntimeState).

Record runtime_store : Type := RuntimeStore {
  rs_console : console_store;
  rs_rows : runtime_table;
  rs_connections : gmap Z LiveSessionConnection;
  rs_interactions : interaction_table;
  rs_previews : preview_table;
  rs_live : gmap string LiveSession;
}.

Definition set_console (f : console_store → console_store) (st : runtime_store) : runtime_store :=
  RuntimeStore (f (rs_console st)) (rs_rows st) (rs_connections st) (rs_interactions st) (rs_previews st) (rs_live st).

Definition put_row (key : string) (row : LiveRuntimeState) (st : runtime_store) : runtime_store :=
  RuntimeStore (rs_console st) (<[key := row]> (rs_rows st)) (rs_connections st) (rs_interactions st) (rs_previews st)
    (rs_live st).

Definition set_connections (f : gmap Z LiveSessionConnection → gmap Z LiveSessionConnection) (st : runtime_store) :
    runtime_store :=
  RuntimeStore (rs_console st) (rs_rows st) (f (rs_connections st)) (rs_interactions st) (rs_previews st) (rs_live st).

Definition set_previews (previews : preview_table) (st : runtime_store) : runtime_store :=
  RuntimeStore (rs_console st) (rs_rows st) (rs_connections st) (rs_interactions st) previews (rs_live st).

Definition set_live (live : gmap string LiveSession) (st : runtime_store) : runtime_store :=
  RuntimeStore (rs_console st) (rs_rows st) (rs_connections st) (rs_interactions st) (rs_previews st) live.

Definition set_interactions (table : interaction_table) (st : runtime_store) : runtime_store :=
  RuntimeStore (rs_console st) (rs_rows st) (rs_connections st) table (rs_previews st) (rs_live st).

(** [value or existing]: a field that an event may set. *)
Definition given {A} (value existing : option A) : option A := match value with Some _ => value | None => existing end.

(** ** The end of a run *)

Definition OPEN_CONNECTION_STATES : list string := ["attached"; "degraded"; "detached"]%string.

Definition ends_connection (run_id : string) (c : LiveSessionConnection) : bool :=
  String.eqb (cn_run_id c) run_id && str_in (cn_state c) OPEN_CONNECTION_STATES.

Definition released (at_ : Z) (c : LiveSessionConnection) : LiveSessionConnection :=
  SessionConnection (cn_run_id c) (cn_control_plane c) "ended" 0 0 0 0 0 (Some at_) (Some at_).

Definition release_connections (run_id : string) (at_ : Z) (connections : gmap Z LiveSessionConnection) :
    gmap Z LiveSessionConnection :=
  (λ c, if ends_connection run_id c then released at_ c else c) <$> connections.

Definition any_open_connection (run_id : string) (connections : gmap Z LiveSessionConnection) : bool :=
  existsb (λ kc, ends_connection run_id kc.2) (map_to_list connections).

(** The run's thread belongs to the session of the event. *)
Definition run_owned (st : runtime_store) (session_id : option string) (run : LiveSessionRun) : bool :=
  match session_id with
  | None => true
  | Some s =>
      match cs_threads (rs_console st) !! rn_thread_id run with
      | Some thread => String.eqb (th_session_id thread) s
      | None => false
      end
  end.

(** [_apply_run_terminal_event]; [current] is the run of the runtime row. *)
Definition apply_run_terminal_event (st : runtime_store) (e : RuntimeEventIngest) (current : option string)
    (occurred_at : Z) : res (bool * runtime_store) :=
  match given (re_run_id e) current with
  | None => Ok (false, st)
  | Some run_id =>
      match cs_runs (rs_console st) !! run_id with
      | None => Ok (false, st)
      | Some run =>
          if negb (run_owned st (re_session_id e) run) then Ok (false, st)
          else
            let release at_ := set_connections (release_connections run_id at_) in
            let open := any_open_connection run_id (rs_connections st) in
            match rn_ended_at run with
            | Some ended_at => Ok (open, release ended_at st)
            | None =>
                let! exit_status := exit_status_for_terminal (named_terminal_state (re_payload e)) (re_payload e) in
                let st := set_console (set_runs (<[run_id := ended_run exit_status occurred_at run]>)) st in
                Ok (true, release occurred_at st)
            end
      end
  end.

(** ** The row of an event *)

(** A new row of [_ensure_state]. *)
Definition new_row (e : RuntimeEventIngest) (occurred_at : Z) : LiveRuntimeState :=
  let live := str_in (strip (or_empty (re_phase e))) LIVE_EXECUTION_PHASES in
  RuntimeRow
    (Binding (re_session_id e) (re_thread_id e) (re_run_id e) (re_provider e) (re_device_id e))
    (Phase (strip_or (re_phase e) "idle") "fallback" None (Some occurred_at) (if live then Some occurred_at else None))
    (Clock None None None occurred_at None) no_terminal no_interaction 0.

(** [_ensure_state]. *)
Definition ensure_state (st : runtime_store) (e : RuntimeEventIngest) (occurred_at : Z) : LiveRuntimeState :=
  default (new_row e occurred_at) (rs_rows st !! re_runtime_key e).

(** The identities that an event sets. *)
Definition rebound (e : RuntimeEventIngest) (b : runtime_binding) : runtime_binding :=
  Binding (given (re_session_id e) (rb_session_id b)) (given (re_thread_id e) (rb_thread_id b))
    (given (re_run_id e) (rb_run_id b)) (if str_truthy (re_provider e) then re_provider e else rb_provider b)
    (given (re_device_id e) (rb_device_id b)).

Definition with_snapshot (b : runtime_binding) (p : runtime_phase) (c : runtime_clock) (t : runtime_end)
    (row : LiveRuntimeState) : LiveRuntimeState :=
  RuntimeRow b p c t (lr_interaction row) (lr_runtime_version row).

Definition rebind (e : RuntimeEventIngest) (row : LiveRuntimeState) : LiveRuntimeState :=
  with_snapshot (rebound e (lr_binding row)) (lr_phase row) (lr_clock row) (lr_terminal row) row.

Definition bumped (row : LiveRuntimeState) : LiveRuntimeState :=
  RuntimeRow (lr_binding row) (lr_phase row) (lr_clock row) (lr_terminal row) (lr_interaction row)
    (lr_runtime_version row + 1).

(** The latest of the three signal clocks of a row. *)
Definition signal_clock (row : LiveRuntimeState) : option Z :=
  latest [rc_last_runtime_signal_at (lr_clock row); rc_last_progress_at (lr_clock row); rt_terminal_at (lr_terminal row)].

(** [latest is not None and occurred_at < latest]. *)
Definition outdated (occurred_at : Z) (latest_at : option Z) : bool :=
  match latest_at with Some at_ => occurred_at <? at_ | None => false end.

(** [_phase_reanchors]; the row of the reducer always has a phase. *)
Definition phase_reanchors (prev_phase next_phase : string) : bool :=
  if str_in next_phase ATTENTION_PHASES then negb (String.eqb prev_phase next_phase)
  else negb (str_in prev_phase LIVE_EXECUTION_PHASES) && str_in next_phase LIVE_EXECUTION_PHASES.

Definition TOOL_PHASES : list string := ["running"; "blocked"]%string.

(** [value or None] of a tool name. *)
Definition named (tool : option string) : option string := tool ≫= or_none.

Inductive RuntimeEventApplyOutcome : Type := applied | ignored | protected_session_ended | protected_terminal.

#[export] Instance outcome_eq_dec : EqDecision RuntimeEventApplyOutcome.
Proof. solve_decision. Defined.

(** ** One event *)

Section Reducer.
Context (other_form : string → option datetime).

(** The end of the freshness window of a phase. *)
Definition freshness_end (e : RuntimeEventIngest) (phase : string) (base : Z) : res (option Z) :=
  match phase_signal_freshness_ms e phase with
  | None => Ok None
  | Some n => let! end_ := plus_ms base n in Ok (Some end_)
  end.

Definition phase_named (e : RuntimeEventIngest) (row : LiveRuntimeState) : string :=
  strip_or (opt_or (re_phase e) (Some (rp_phase (lr_phase row)))) "idle".

(** The tool of the phase; a blocked phase without a tool keeps the previous one. *)
Definition tool_of_phase (e : RuntimeEventIngest) (next_phase : string) (row : LiveRuntimeState) : option string :=
  if str_in next_phase TOOL_PHASES then
    opt_or (re_tool_name e) (if String.eqb next_phase "blocked" then rp_active_tool (lr_phase row) else None)
  else None.

(** An outdated phase signal of a managed lease only extends the window of the
    phase and tool that the row already shows. *)
Definition refresh_step (e : RuntimeEventIngest) (now : Z) (row : LiveRuntimeState) : res (option LiveRuntimeState) :=
  let p := lr_phase row in
  let c := lr_clock row in
  let next_phase := phase_named e row in
  let current_tool := if str_in next_phase TOOL_PHASES then rp_active_tool p else None in
  if negb (String.eqb next_phase (strip_or (Some (rp_phase p)) "idle")) then Ok None
  else if negb (bool_decide (named (tool_of_phase e next_phase row) = named current_tool)) then Ok None
  else
    let! refresh_at := managed_lease_refresh_at other_form e now in
    let! expires_at := freshness_end e next_phase refresh_at in
    let source := strip (re_source e) in
    Ok (Some (with_snapshot (lr_binding row)
      (Phase (rp_phase p) (if str_in source MANAGED_CODEX_RUNTIME_SOURCES then source else rp_phase_source p)
         (rp_active_tool p) (rp_phase_started_at p) (rp_execution_started_at p))
      (Clock (rc_last_runtime_signal_at c) (rc_last_progress_at c) (latest [rc_last_live_at c; Some refresh_at])
         (rc_timeline_anchor_at c) expires_at)
      no_terminal row)).

Definition execution_start (previous_phase next_phase : string) (now : Z) (started_at : option Z) : option Z :=
  if str_in next_phase LIVE_EXECUTION_PHASES then
    if negb (str_in previous_phase LIVE_EXECUTION_PHASES) || bool_decide (started_at = None) then Some now else started_at
  else if str_in next_phase ["idle"; "needs_user"]%string then started_at else None.

(** [kind == "phase_signal"]; [None] when the event is ignored. *)
Definition phase_step (e : RuntimeEventIngest) (now : Z) (row : LiveRuntimeState) : res (option LiveRuntimeState) :=
  let p := lr_phase row in
  let c := lr_clock row in
  let latest_at := signal_clock row in
  let next_phase := phase_named e row in
  let next_tool := tool_of_phase e next_phase row in
  let! stale_lease := stale_managed_lease_observed_at other_form e latest_at in
  if outdated now latest_at then match stale_lease with None => Ok None | Some _ => refresh_step e now row end
  else
    let phase_changed := negb (String.eqb (rp_phase p) next_phase) in
    let tool_changed := str_in next_phase TOOL_PHASES && negb (bool_decide (named (rp_active_tool p) = named next_tool)) in
    let anchor := if phase_changed && phase_reanchors (rp_phase p) next_phase then now else rc_timeline_anchor_at c in
    let source := strip (re_source e) in
    let! base := managed_lease_refresh_at other_form e now in
    let! expires_at := freshness_end e next_phase base in
    Ok (Some (with_snapshot (lr_binding row)
      (Phase next_phase (if str_in source MANAGED_CODEX_RUNTIME_SOURCES then source else "semantic")
         (if str_in next_phase TOOL_PHASES then next_tool else None)
         (if phase_changed || tool_changed then Some now else rp_phase_started_at p)
         (execution_start (strip_or (Some (rp_phase p)) "idle") next_phase now (rp_execution_started_at p)))
      (Clock (Some now) (rc_last_progress_at c) (latest [Some now; Some base]) anchor expires_at)
      no_terminal row)).

(** [kind == "progress_signal"]. *)
Definition progress_step (e : RuntimeEventIngest) (now : Z) (row : LiveRuntimeState) : option LiveRuntimeState :=
  let p := lr_phase row in
  let c := lr_clock row in
  let t := lr_terminal row in
  if outdated now (signal_clock row) then None
  else
    let unblocks := bool_decide (rt_terminal_state t = None) && str_in (rp_phase p) ATTENTION_PHASES
                    && String.eqb (payload_text (re_payload e) "progress_kind") "transcript_append" in
    let reopens := bool_decide (is_Some (rt_terminal_state t)) && negb (outdated now (rt_terminal_at t)) in
    let idles := unblocks || reopens in
    let phase := if idles then Phase "idle" "progress" None (Some now) None
                 else Phase (rp_phase p) (if str_in (rp_phase_source p) ["fallback"; "progress"]%string then "progress"
                                          else rp_phase_source p)
                        (rp_active_tool p) (rp_phase_started_at p) (rp_execution_started_at p) in
    Some (with_snapshot (lr_binding row) phase
      (Clock (rc_last_runtime_signal_at c) (Some now) (rc_last_live_at c) now
         (if idles then None else rc_freshness_expires_at c))
      (if reopens then no_terminal else t) row).

(** [session.closed_at = ...; session.close_reason = ...]. *)
Definition with_closure (reason : string) (now : Z) (r : LiveSessionCatalog) : LiveSessionCatalog :=
  SessionCatalog (lc_provider r) (lc_device_id r) (lc_device_name r) (lc_cwd r) (lc_project r) (lc_git_repo r)
    (lc_git_branch r) (lc_ended_at r) (Some now) (Some reason) (lc_origin_kind r) (lc_loop_mode r)
    (lc_permission_mode r) (lc_primary_thread_id r) (lc_last_console_result_at r) (lc_last_console_result_outcome r)
    (lc_user_state r) (lc_user_state_at r) (lc_updated_at r).

(** The session of a closing event is closed, unless it is already. *)
Definition close_session (session_id : option string) (reason : string) (now : Z) (st : runtime_store) : runtime_store :=
  match session_id with
  | Some s => set_console (set_session s (λ r, match lc_closed_at r with Some _ => r | None => with_closure reason now r end)) st
  | None => st
  end.

Definition SELF_EXPLAINED : list string := ["process_gone"; "host_expired"; "user_closed"]%string.

Definition terminal_columns (e : RuntimeEventIngest) (now : Z) : runtime_end :=
  let state := named_terminal_state (re_payload e) in
  let reason := text (assoc "terminal_reason" (re_payload e)) in
  Terminal (Some state)
    (match reason with Some _ => reason | None => if str_in state SELF_EXPLAINED then Some state else None end)
    (clean (Some (default (re_source e) (str_or (assoc "terminal_source" (re_payload e)))))) (Some now).

(** [kind == "terminal_signal"]. *)
Definition terminal_step (st : runtime_store) (e : RuntimeEventIngest) (now : Z) (row : LiveRuntimeState) :
    res (option LiveRuntimeState * runtime_store) :=
  let p := lr_phase row in
  let c := lr_clock row in
  let state := named_terminal_state (re_payload e) in
  let existing := strip (or_empty (rt_terminal_state (lr_terminal row))) in
  let run_id := rb_run_id (lr_binding row) in
  let same_run_terminal_replay :=
    str_in state RUN_TERMINAL_STATES && str_in existing RUN_TERMINAL_STATES && bool_decide (is_Some run_id)
    && (bool_decide (re_run_id e = None) || bool_decide (re_run_id e = run_id)) in
  if same_run_terminal_replay then Ok (None, st)
  else if outdated now (signal_clock row) && negb (String.eqb state "session_ended") then Ok (None, st)
  else
    let! anchor := payload_timestamp other_form (re_payload e) "timeline_anchor_at" in
    let started_at := if match rp_phase_started_at p with Some at_ => at_ <? now | None => true end
                      then Some now else rp_phase_started_at p in
    let row' := with_snapshot (lr_binding row) (Phase "finished" "semantic" None started_at None)
                  (Clock (Some now) (rc_last_progress_at c) (Some now) (default now anchor) (Some now))
                  (terminal_columns e now) row in
    let st := if str_in state EXPLICIT_CLOSED_TERMINAL_STATES then close_session (re_session_id e) state now st else st in
    if str_in state (RUN_END_TERMINAL_STATES ++ RUN_TERMINAL_STATES) then
      let! '(_, st) := apply_run_terminal_event st e run_id now in Ok (Some row', st)
    else Ok (Some row', st).

(** ** Pauses *)

(** [kind in {"pause_request", "pause_resolution"}] of the live lane. *)
Definition with_interaction (i : runtime_interaction) (row : LiveRuntimeState) : LiveRuntimeState :=
  RuntimeRow (lr_binding row) (lr_phase row) (lr_clock row) (lr_terminal row) i (lr_runtime_version row).

Definition is_pause (kind : RuntimeEventKind) : bool :=
  match kind with pause_request | pause_resolution => true | _ => false end.

(** An event that is older than the pending interaction, or as old and a
    request, is dropped. *)
Definition pause_outdated (kind : RuntimeEventKind) (now : Z) (i : runtime_interaction) : bool :=
  match ri_updated_at i with
  | Some at_ => (now <? at_) || ((now =? at_) && bool_decide (kind = pause_request))
  | None => false
  end.

Definition pause_step (e : RuntimeEventIngest) (now : Z) (row : LiveRuntimeState) : res (option LiveRuntimeState) :=
  let i := lr_interaction row in
  if pause_outdated (re_kind e) now i then Ok None
  else
    match re_kind e with
    | pause_request =>
        let! projection := build_pause_runtime_projection other_form e in
        let kind := strip (default PAUSE_KIND_STRUCTURED_QUESTION (str_or (assoc "kind" (re_payload e)))) in
        Ok (Some (with_interaction
          (Pending (Some (pause_runtime_request_key e)) (Some kind) (Some now) (Some now) (Some projection)
             (if truthy (assoc "can_respond" (re_payload e)) then 1 else 0)) row))
    | _ =>
        if match ri_id i with Some id => negb (String.eqb (pause_runtime_request_key e) id) | None => false end
        then Ok None
        else Ok (Some (with_interaction (Pending None None None (Some now) None 0) row))
    end.

(** ** Applying an event *)

(** What a terminal row lets through. *)
Inductive protection : Type := lets_through | refuses (outcome : RuntimeEventApplyOutcome) | repeats_run_end.

Definition protects (e : RuntimeEventIngest) (row : LiveRuntimeState) : protection :=
  let existing := strip (or_empty (rt_terminal_state (lr_terminal row))) in
  let incoming := payload_text (re_payload e) "terminal_state" in
  let opens_new_run := bool_decide (is_Some (re_run_id e)) && negb (bool_decide (re_run_id e = rb_run_id (lr_binding row))) in
  let ends state := bool_decide (re_kind e = terminal_signal) && str_in incoming state in
  if str_in existing EXPLICIT_CLOSED_TERMINAL_STATES then refuses protected_session_ended
  else if str_in existing (RUN_END_TERMINAL_STATES ++ RUN_TERMINAL_STATES) && negb opens_new_run then
    if ends RUN_TERMINAL_STATES then repeats_run_end
    else if ends EXPLICIT_CLOSED_TERMINAL_STATES then lets_through
    else refuses protected_terminal
  else lets_through.

(** The row that the branch of the event's kind leaves; [None] when the event
    is ignored. *)
Definition kind_step (st : runtime_store) (e : RuntimeEventIngest) (now : Z) (row : LiveRuntimeState) :
    res (option LiveRuntimeState * runtime_store) :=
  match re_kind e with
  | phase_signal => let! row' := phase_step e now row in Ok (row', st)
  | progress_signal => Ok (progress_step e now row, st)
  | terminal_signal => terminal_step st e now row
  | _ => Ok (Some row, st)
  end.

(** The end of [_apply_runtime_event]: the version counts the snapshots. *)
Definition settle_row (key : string) (before row : LiveRuntimeState) (st : runtime_store) :
    RuntimeEventApplyOutcome * runtime_store :=
  if bool_decide (state_snapshot row = state_snapshot before) then (ignored, put_row key row st)
  else (applied, put_row key (bumped row) st).

(** [_apply_runtime_event]. *)
Definition apply_runtime_event (st : runtime_store) (e : RuntimeEventIngest) :
    res (RuntimeEventApplyOutcome * runtime_store) :=
  let key := re_runtime_key e in
  let! now := utc_wall (re_occurred_at e) in
  let row := ensure_state st e now in
  let st := put_row key row st in
  if is_pause (re_kind e) then
    let! paused := pause_step e now row in
    Ok (match paused with Some row' => (applied, put_row key (bumped row') st) | None => (ignored, st) end)
  else
    match protects e row with
    | refuses outcome => Ok (outcome, st)
    | repeats_run_end =>
        let! '(changed, st) := apply_run_terminal_event st e (rb_run_id (lr_binding row)) now in
        Ok (if changed : bool then applied else protected_terminal, st)
    | lets_through =>
        let bound := rebind e row in
        let! '(stepped, st) := kind_step st e now bound in
        Ok (match stepped with
            | None => (ignored, put_row key bound st)
            | Some row' => settle_row key row row' st
            end)
    end.

(** ** A batch *)

(** [touch_live_sessions_from_runtime_events], for one event. *)
Definition touched_session (e : RuntimeEventIngest) (at_ : Z) (existing : option LiveSession) : LiveSession :=
  let device_id := clean (re_device_id e) in
  match existing with
  | None =>
      ObservedSession None (default "unknown" (or_none (lower (strip (re_provider e))))) device_id None "observed"
        (Some at_) at_
  | Some row =>
      ObservedSession (lv_owner_id row) (lv_provider row)
        (if opt_truthy (lv_device_id row) then lv_device_id row else given device_id (lv_device_id row))
        (lv_machine_id row) (if str_in (lv_state row) ["missing"; "ended"; "unknown"] then "observed" else lv_state row)
        (lv_started_at row) (Z.max (lv_last_seen_at row) at_)
  end%string.

Definition touch_live_session (live : gmap string LiveSession) (e : RuntimeEventIngest) : res (gmap string LiveSession) :=
  match re_session_id e with
  | None => Ok live
  | Some s => let! at_ := utc_wall (re_occurred_at e) in Ok (<[s := touched_session e at_ (live !! s)]> live)
  end.

(** One iteration of [ingest_live_runtime_events]: the preview of the event,
    then the event. *)
Definition ingest_one (acc : list string * runtime_store) (e : RuntimeEventIngest) : res (list string * runtime_store) :=
  let '(updated_runtime_keys, st) := acc in
  let! preview := live_preview_candidate_from_runtime_event e ("live:" +:+ re_source e +:+ ":" +:+ re_dedupe_key e) in
  let! st := match preview with
             | Some c => let! previews := upsert_live_session_live_preview c (rs_previews st) in Ok (set_previews previews st)
             | None => Ok st
             end in
  let! '(outcome, st) := apply_runtime_event st e in
  let seen := str_in (re_runtime_key e) updated_runtime_keys in
  Ok (if bool_decide (outcome = applied) && negb seen then updated_runtime_keys ++ [re_runtime_key e]
      else updated_runtime_keys, st).

(** [RuntimeEventBatchResult]. *)
Record RuntimeEventBatchResult : Type := BatchResult {
  br_accepted : nat;
  br_duplicates : nat;
  br_updated_runtime_keys : list string;
}.

(** [ingest_live_runtime_events]. *)
Definition ingest_live_runtime_events (st : runtime_store) (events : list RuntimeEventIngest) :
    res (RuntimeEventBatchResult * runtime_store) :=
  let! '(keys, st) := fold_res ingest_one ([], st) events in
  let! live := fold_res touch_live_session (rs_live st) events in
  Ok (BatchResult (length events) 0 keys, set_live live st).
End Reducer.
