(* ===== verification/RuntimeStore.v ===== *)
(** * The catalog's runtime transactions

    Models the operations of [src/server/zerg/catalogd/store.py] on runtime
    events and provider interactions.  An operation runs in one transaction:
    one that raises leaves the state as it was.

    Which runtime row of a session was written last is decided by the write
    clock of the database; [latest] names that row and its [updated_at]. *)

From S2P Require Import Prelude PyStr PyTime PyValue Sha256 MachineEvidence PyText FactStore FactReducer.
From S2P Require Import FactReducerSetwise.
From S2P Require Import RuntimeView RuntimeEvents PauseRequests LivePreviews InputQueue InputStore ConsoleTurns.
From S2P Require Import Interactions LiveRuntime.

Open Scope list_scope.
Open Scope Z_scope.

Definition runtime_seq (st : runtime_store) : string := console_seq (rs_console st).
Definition advance_runtime_seq (now : Z) : runtime_store → runtime_store := set_console (advance_console_seq now).
Definition fact_tables (st : runtime_store) : catalog := st_facts (cs_inputs (rs_console st)).

Definition set_facts (db : catalog) (st : runtime_store) : runtime_store :=
  set_console (λ cs, set_inputs (InputStore db (cs_receipts cs) (st_sessions (cs_inputs cs))) cs) st.

(** ** Facts of accepted phases *)

Definition ACTIVITY_PHASES : list string := ["thinking"; "running"; "blocked"; "stalled"; "needs_user"; "idle"]%string.

(** The run of the event is a run of its session. *)
Definition run_bound (st : runtime_store) (session_id run_id : string) : bool :=
  match cs_runs (rs_console st) !! run_id with
  | Some run => run_owned st (Some session_id) run
  | None => false
  end.

Definition activity_value (e : RuntimeEventIngest) (session_id run_id phase source : string) (at_ until : Z) : json_object :=
  [("authority_class", VStr "provider_runtime"); ("provider", VStr (re_provider e)); ("session_id", VStr session_id);
   ("run_id", VStr run_id); ("kind", VStr phase); ("raw_kind", VStr phase); ("tool_name", opt_str (named (re_tool_name e)));
   ("source", VStr source); ("observed_at", VStr (isoformat (utc at_))); ("valid_until", VStr (isoformat (utc until)))]%string.

Definition activity_fact (e : RuntimeEventIngest) (session_id run_id phase : string) (freshness_ms : Z) : res ReducerFact :=
  let! at_ := utc_wall (re_occurred_at e) in
  let source := default "runtime_event"%string (or_none (strip (re_source e))) in
  let! until := plus_ms at_ freshness_ms in
  let value := activity_value e session_id run_id phase source at_ until in
  let locator := ("runtime:" +:+ source +:+ ":" +:+ re_dedupe_key e)%string in
  let! hash := canonical_evidence_hash (VDict value) in
  Ok (Fact "activity" ("run:" +:+ run_id) source run_id None
        (sha256_hex (utf8_encode ("runtime-activity:" +:+ source +:+ ":" +:+ re_dedupe_key e +:+ ":" +:+ run_id)))
        hash value (Some (utc at_)) (Some session_id) (Some (utc until)) (Some (str_take 1024 locator))).

(** One iteration of [_runtime_activity_facts]. *)
Definition runtime_activity_fact (st : runtime_store) (updated : list string) (e : RuntimeEventIngest) : res (option ReducerFact) :=
  if negb (str_in (re_runtime_key e) updated && bool_decide (re_kind e = phase_signal)) then Ok None
  else
    match re_session_id e, re_run_id e with
    | Some session_id, Some run_id =>
        let phase := lower (strip (or_empty (re_phase e))) in
        match given (re_freshness_ms e) (phase_freshness_ms (Some phase)) with
        | Some freshness_ms =>
            if str_in phase ACTIVITY_PHASES && run_bound st session_id run_id then
              let! fact := activity_fact e session_id run_id phase freshness_ms in Ok (Some fact)
            else Ok None
        | None => Ok None
        end
    | _, _ => Ok None
    end.

(** [_runtime_activity_facts]. *)
Definition runtime_activity_facts (st : runtime_store) (events : list RuntimeEventIngest) (updated : list string) :
    res (list ReducerFact) :=
  let! facts := map_res (runtime_activity_fact st updated) events in
  Ok (omap (M:=list) id facts).

(** ** Side effects of a batch *)

(** A snoozed session wakes up when it works again. *)
Definition resumes (updated : list string) (e : RuntimeEventIngest) : option string :=
  if str_in (re_runtime_key e) updated && bool_decide (re_kind e = phase_signal)
     && opt_in (re_phase e) ["thinking"; "running"]%string then re_session_id e else None.

Definition with_user_state (state : string) (at_ : Z) (r : LiveSessionCatalog) : LiveSessionCatalog :=
  SessionCatalog (lc_provider r) (lc_device_id r) (lc_device_name r) (lc_cwd r) (lc_project r) (lc_git_repo r)
    (lc_git_branch r) (lc_ended_at r) (lc_closed_at r) (lc_close_reason r) (lc_origin_kind r) (lc_loop_mode r)
    (lc_permission_mode r) (lc_primary_thread_id r) (lc_last_console_result_at r) (lc_last_console_result_outcome r)
    state (Some at_) (lc_updated_at r).

Definition woken (at_ : Z) (r : LiveSessionCatalog) : LiveSessionCatalog :=
  if String.eqb (lc_user_state r) "snoozed" then with_user_state "active" at_ r else r.

Definition wake_sessions (session_ids : list string) (at_ : Z) (st : runtime_store) : runtime_store :=
  set_console (λ cs, fold_left (λ cs s, set_session s (woken at_) cs) session_ids cs) st.

(** The provider session that a binding names becomes an alias of its thread.
    The time is stored as its wall clock, whatever its offset. *)
Definition binds_native (provider value : string) (a : LiveSessionThreadAlias) : bool :=
  String.eqb (al_provider a) provider && String.eqb (al_alias_kind a) "provider_session_id" && String.eqb (al_alias_value a) value.

Definition next_alias_id (aliases : list LiveSessionThreadAlias) : Z := 1 + foldr (λ a m, Z.max (al_id a) m) 0 aliases.

Definition seen_again (id at_ : Z) (a : LiveSessionThreadAlias) : LiveSessionThreadAlias :=
  if al_id a =? id then ThreadAlias (al_id a) (al_thread_id a) (al_provider a) (al_alias_kind a) (al_alias_value a)
                          (al_first_seen_at a) at_ else a.

Definition set_aliases (aliases : list LiveSessionThreadAlias) (cs : console_store) : console_store :=
  ConsoleStore (cs_inputs cs) (cs_threads cs) aliases (cs_runs cs) (cs_turns cs) (cs_active_users cs) (cs_live_owner cs)
    (cs_storage_owner cs) (cs_outbox_owner cs).

Definition bound_thread (e : RuntimeEventIngest) (session : option LiveSessionCatalog) : string :=
  match re_thread_id e, session with
  | Some thread_id, _ => thread_id
  | None, Some row => default "None"%string (lc_primary_thread_id row)
  | None, None => ""%string
  end.

Definition bind_alias (e : RuntimeEventIngest) (cs : console_store) : console_store :=
  match re_kind e, or_none (payload_text (re_payload e) "provider_session_id"), re_session_id e with
  | binding_signal, Some native, Some session_id =>
      let thread_id := bound_thread e (st_sessions (cs_inputs cs) !! session_id) in
      let at_ := sqlite_store (re_occurred_at e) in
      match head (sort_on Z.compare al_id (List.filter (binds_native (re_provider e) native) (cs_aliases cs))) with
      | None => set_aliases (cs_aliases cs ++ [ThreadAlias (next_alias_id (cs_aliases cs)) thread_id (re_provider e)
                                                "provider_session_id" native at_ at_]) cs
      | Some a => if String.eqb (al_thread_id a) thread_id
                  then set_aliases (map (seen_again (al_id a) at_) (cs_aliases cs)) cs else cs
      end
  | _, _, _ => cs
  end.

Section Store.
Context (other_form : string → option datetime).

Definition event_effects (updated : list string) (st : runtime_store) (e : RuntimeEventIngest) : res runtime_store :=
  let! st := if str_in (re_runtime_key e) updated && is_pause (re_kind e) then
               let! '(_, table) := apply_live_interaction_event other_form (rs_interactions st) e in
               Ok (set_interactions table st)
             else Ok st in
  Ok (set_console (bind_alias e) st).

(** [apply_session_runtime]; [observed_at] is its clock. *)
Definition apply_session_runtime (st : runtime_store) (events : list RuntimeEventIngest) (observed_at : Z) :
    res (RuntimeEventBatchResult * ReducerResult * runtime_store) :=
  let! '(result, st) := ingest_live_runtime_events other_form st events in
  let updated := br_updated_runtime_keys result in
  let st := wake_sessions (omap (resumes updated) events) observed_at st in
  let! st := fold_res (event_effects updated) st events in
  let st := advance_runtime_seq observed_at st in
  let! facts := runtime_activity_facts st events updated in
  let! '(db, reduced) := reduce_fact_batch_setwise (fact_tables st) facts (utc observed_at) (Some (commit_seq (fact_tables st))) in
  Ok (result, reduced, set_facts db st).
End Store.

(** ** Deletion of a session *)

(** Whether a run is one of the session's. *)
Definition run_of_session (session_id : string) (cs : console_store) (run_id : string) : bool :=
  match cs_runs cs !! run_id with Some run => thread_of_session session_id cs (rn_thread_id run) | None => false end.

(** [_delete_bounded_live_session_state], on the tables of the model. *)
Definition delete_bounded_live_session_state (session_id : string) (st : runtime_store) : runtime_store :=
  RuntimeStore (delete_session_console session_id (rs_console st))
    (filter (λ kr, opt_is (rb_session_id (lr_binding kr.2)) session_id = false) (rs_rows st))
    (filter (λ kc, run_of_session session_id (rs_console st) (cn_run_id kc.2) = false) (rs_connections st))
    (filter (λ ki, String.eqb (ix_session_id ki.2) session_id = false) (rs_interactions st))
    (delete session_id (rs_previews st)) (delete session_id (rs_live st)).
