(* ===== verification/InteractionStore.v ===== *)
(** * The catalog's interaction transactions

    Models the operations on provider interactions of
    [src/server/zerg/catalogd/store.py]: registering a question, listing,
    expiring and answering, and the read of a permission decision. *)

From S2P Require Import Prelude PyStr PyTime PyValue MachineEvidence PyText FactStore FactReducer.
From S2P Require Import RuntimeEvents PauseRequests Interactions InputQueue InputStore ConsoleTurns LiveRuntime.
From S2P Require Import RuntimeStore.

Open Scope list_scope.
Open Scope Z_scope.

Definition known_session (st : runtime_store) (session_id : string) : bool :=
  bool_decide (is_Some (st_sessions (cs_inputs (rs_console st)) !! session_id)).

(** ** The interaction that a runtime row carries *)

(** [_runtime_interaction_dto], before it is written out. *)
Record runtime_fallback : Type := Fallback {
  fb_id : string;
  fb_runtime_key : string;
  fb_provider : string;
  fb_request_key : string;
  fb_provider_request_id : option string;
  fb_source : option string;
  fb_reply_transport : option string;
  fb_kind : string;
  fb_can_respond : bool;
  fb_projection : json_object;
}.

(** Who asks, and how the answer goes back, when only the row is known. *)
Definition reply_route (kind provider : string) : option string * option string :=
  if negb (String.eqb kind "permission_prompt") then (None, None)
  else if String.eqb provider "claude" then (Some "claude_permission_gate", Some "claude_pretooluse_pull")
  else if String.eqb provider "cursor" then (Some "cursor_permission_gate", Some "cursor_permission_poll")
  else if String.eqb provider "opencode" then (Some "opencode_bridge", Some "managed_push")
  else (None, None).

Definition carried_interaction (runtime_key : string) (row : LiveRuntimeState) : option runtime_fallback :=
  projection ← bounded_pause_projection (ri_projection_json (lr_interaction row)) false;
  request_key ← clean (ri_id (lr_interaction row));
  let provider := rb_provider (lr_binding row) in
  let kind := default (default PAUSE_KIND_STRUCTURED_QUESTION (str_or (assoc "kind" projection)))
                (named (ri_kind (lr_interaction row))) in
  let prefix := (provider +:+ ":" +:+ runtime_key +:+ ":")%string in
  let suffix := String.substring (String.length prefix) (String.length request_key) request_key in
  Some (Fallback (default (interaction_id request_key) (str_or (assoc "id" projection))) runtime_key provider request_key
          (if startswith prefix request_key then Some suffix else None)
          (reply_route kind provider).1 (reply_route kind provider).2 kind
          (negb (ri_can_respond (lr_interaction row) =? 0)) projection).

Definition fallback_dto (session_id : string) (row : LiveRuntimeState) (updated_at : Z) (f : runtime_fallback) : json_object :=
  [("id", VStr (fb_id f)); ("session_id", VStr session_id); ("runtime_key", VStr (fb_runtime_key f));
   ("provider", VStr (fb_provider f)); ("request_key", VStr (fb_request_key f));
   ("provider_request_id", opt_str (fb_provider_request_id f)); ("source", opt_str (fb_source f));
   ("reply_transport", opt_str (fb_reply_transport f)); ("kind", VStr (fb_kind f)); ("status", VStr "pending");
   ("can_respond", VBool (fb_can_respond f)); ("projection", VDict (fb_projection f)); ("response_payload", VNone);
   ("response_text", VNone); ("occurred_at", iso_or_none (ri_opened_at (lr_interaction row)));
   ("last_seen_at", iso_or_none (Some (default updated_at (ri_updated_at (lr_interaction row)))));
   ("resolved_at", VNone); ("expires_at", assoc "expires_at" (fb_projection f))]%string.

(** The runtime row of a session that was written last. *)
Definition latest_row (st : runtime_store) (session_id : string) (latest : option (string * Z)) :
    option (string * LiveRuntimeState * Z) :=
  named ← latest; row ← rs_rows st !! named.1;
  if opt_is (rb_session_id (lr_binding row)) session_id then Some (named.1, row, named.2) else None.

(** ** Registering *)

(** A validated [interaction] of [interaction.register.v2]. *)
Record registration : Type := Registration {
  rg_runtime_key : string;
  rg_session_id : string;
  rg_provider : string;
  rg_device_id : option string;
  rg_source : option string;
  rg_reply_transport : option string;
  rg_provider_request_id : option string;
  rg_request_key : string;
  rg_kind : string;
  rg_tool_name : option string;
  rg_title : option string;
  rg_summary : option string;
  rg_request_payload : json_object;
  rg_can_respond : bool;
  rg_occurred_at : Z;
  rg_expires_at : option Z;
  rg_single_active : bool;
}.

Definition registration_payload (g : registration) : json_object :=
  [("request_key", VStr (rg_request_key g)); ("provider_request_id", opt_str (rg_provider_request_id g));
   ("provider_ref", VDict [("source", opt_str (rg_source g)); ("reply_transport", opt_str (rg_reply_transport g))]);
   ("kind", VStr (rg_kind g)); ("tool_name", opt_str (rg_tool_name g)); ("title", opt_str (rg_title g));
   ("summary", opt_str (rg_summary g)); ("request_payload", VDict (rg_request_payload g));
   ("can_respond", VBool (rg_can_respond g)); ("expires_at", iso_or_none (rg_expires_at g));
   ("single_active", VBool (rg_single_active g))]%string.

Definition registration_event (g : registration) : RuntimeEventIngest :=
  RuntimeEvent (rg_runtime_key g) (Some (rg_session_id g)) None None (rg_provider g) (rg_device_id g)
    (default "interaction_api"%string (named (rg_source g))) pause_request None (rg_tool_name g) (utc (rg_occurred_at g)) None
    ("interaction:" +:+ rg_request_key g) (registration_payload g).

Inductive register_answer : Type :=
  | NoSuchSession (seq : string)
  | Registered (interaction : json_object) (accepted : nat) (seq : string).

(** [_interaction_dto(row)] of a row that may be missing. *)
Definition dto_of (row : option (string * LiveInteractionRequest)) : res json_object :=
  match row with Some (id, r) => Ok (interaction_dto id r) | None => Err AttributeError end.

Section Store.
Context (other_form : string → option datetime).

(** The event is ingested, then mirrored into the table: the part that
    registering and resolving share. *)
Definition ingest_interaction (st : runtime_store) (e : RuntimeEventIngest) :
    res (RuntimeEventBatchResult * option (string * LiveInteractionRequest) * runtime_store) :=
  let! '(result, st) := ingest_live_runtime_events other_form st [e] in
  let! '(row, table) := apply_live_interaction_event other_form (rs_interactions st) e in
  Ok (result, row, set_interactions table st).

(** [register_interaction]. *)
Definition register_interaction (st : runtime_store) (g : registration) : res (register_answer * runtime_store) :=
  let! e := ingest (registration_event g) in
  if negb (known_session st (rg_session_id g)) then Ok (NoSuchSession (runtime_seq st), st)
  else
    let! '(result, row, st) := ingest_interaction st e in
    let st := advance_runtime_seq (rg_occurred_at g) st in
    let! dto := dto_of row in
    Ok (Registered dto (br_accepted result) (runtime_seq st), st).

(** ** Expiring *)

Definition DEADLINE_REASON : string := "Approval deadline expired".

Definition denial (reason : string) : json_object :=
  [("permissionDecision", VStr "deny"); ("permissionDecisionReason", VStr reason)]%string.

Definition denied_request (reason : string) (now : Z) : LiveInteractionRequest → LiveInteractionRequest :=
  settled_interaction "expired" (Some (denial reason)) (Some reason) now.

(** The runtime row no longer carries the interaction. *)
Definition clear_interaction (request_key : string) (row : LiveRuntimeState) : LiveRuntimeState :=
  if opt_is (ri_id (lr_interaction row)) request_key then bumped (with_interaction no_interaction row) else row.

Definition set_rows (f : runtime_table → runtime_table) (st : runtime_store) : runtime_store :=
  RuntimeStore (rs_console st) (f (rs_rows st)) (rs_connections st) (rs_interactions st) (rs_previews st) (rs_live st).

(** An interaction is denied for a reason, in the table and on its row. *)
Definition deny_interaction (reason : string) (now : Z) (st : runtime_store) (item : string * LiveInteractionRequest) :
    runtime_store :=
  let '(id, r) := item in
  set_rows (alter (clear_interaction (ix_request_key r)) (ix_runtime_key r))
    (set_interactions (<[id := denied_request reason now r]> (rs_interactions st)) st).

Definition past_deadline (now : Z) (r : LiveInteractionRequest) : bool :=
  match ix_expires_at r with Some at_ => at_ <=? now | None => false end.

Definition is_due (now : Z) (session_id : option string) (r : LiveInteractionRequest) : bool :=
  is_pending r && String.eqb (ix_kind r) "permission_prompt" && past_deadline now r
  && match session_id with Some s => String.eqb (ix_session_id r) s | None => true end.

(** [expire_due_interactions]: how many expired, and the commit. *)
Definition expire_due_interactions (st : runtime_store) (now : Z) (session_id : option string) : nat * string * runtime_store :=
  match filter (λ kr, is_due now session_id kr.2 = true) (map_to_list (rs_interactions st)) with
  | [] => (0%nat, runtime_seq st, st)
  | due =>
      let st := advance_runtime_seq now (fold_left (deny_interaction DEADLINE_REASON now) due st) in
      (length due, runtime_seq st, st)
  end.

Inductive repair_answer : Type :=
  | CompareFailed (seq : string)
  | WouldRepair (interaction : json_object) (seq : string)
  | Repaired (interaction : json_object) (seq : string).

(** [repair_expire_interaction]. *)
Definition repair_expire_interaction (st : runtime_store) (session_id id : string) (expected_updated_at : Z)
    (expected_source expected_reply_transport : string) (now : Z) (dry_run : bool) : repair_answer * runtime_store :=
  let matches r := String.eqb (ix_session_id r) session_id && is_pending r && (ix_updated_at r =? expected_updated_at)
                   && opt_is (ix_source r) expected_source && opt_is (ix_reply_transport r) expected_reply_transport in
  match rs_interactions st !! id with
  | Some r =>
      if negb (matches r) then (CompareFailed (runtime_seq st), st)
      else if dry_run then (WouldRepair (interaction_dto id r) (runtime_seq st), st)
      else
        let reason := "legacy_provider_gate_contract_invalid"%string in
        let st := advance_runtime_seq now (deny_interaction reason now st (id, r)) in
        (Repaired (interaction_dto id (denied_request reason now r)) (runtime_seq st), st)
  | None => (CompareFailed (runtime_seq st), st)
  end.

(** ** Answering *)

Record resolution : Type := Resolution {
  rl_session_id : string;
  rl_interaction_id : string;
  rl_status : string;
  rl_response_payload : json_object;
  rl_response_text : option string;
  rl_resolved_at : Z;
}.

Inductive resolve_answer : Type :=
  | ResolveNotFound (seq : string)
  | ResolveRefused (reason : string) (interaction : json_object) (seq : string)
  | Resolved (resolved : bool) (reason : option string) (interaction : json_object) (seq : string).

(** The row of an interaction that only the runtime row carries. *)
Definition fallback_request (session_id : string) (row : LiveRuntimeState) (resolved_at : Z) (f : runtime_fallback) :
    LiveInteractionRequest :=
  let opened := default resolved_at (ri_opened_at (lr_interaction row)) in
  let updated := default resolved_at (ri_updated_at (lr_interaction row)) in
  InteractionRequest session_id (fb_runtime_key f) (fb_provider f) (fb_request_key f) (fb_provider_request_id f)
    (fb_source f) (fb_reply_transport f) (fb_kind f) "pending" (if fb_can_respond f then 1 else 0) [] (fb_projection f)
    None None opened updated None None opened updated.

(** The row that is answered, and the store with it. *)
Definition answered_row (st : runtime_store) (l : resolution) (latest : option (string * Z)) :
    res (option (LiveInteractionRequest * runtime_store)) :=
  let own := r ← rs_interactions st !! rl_interaction_id l;
             if String.eqb (ix_session_id r) (rl_session_id l) then Some r else None in
  let adopted := named ← latest_row st (rl_session_id l) latest;
                 f ← carried_interaction named.1.1 named.1.2;
                 if String.eqb (fb_id f) (rl_interaction_id l)
                 then Some (fallback_request (rl_session_id l) named.1.2 (rl_resolved_at l) f) else None in
  match own with
  | Some r => Ok (Some (r, st))
  | None =>
      match adopted with
      | None => Ok None
      | Some r =>
          let! _ := guard (bool_decide (rs_interactions st !! rl_interaction_id l = None)
                           && bool_decide (by_request_key (ix_request_key r) (rs_interactions st) = None)) IntegrityError in
          Ok (Some (r, set_interactions (<[rl_interaction_id l := r]> (rs_interactions st)) st))
      end
  end.

(** The event of an answer; one that comes after the deadline is a denial. *)
Definition too_late (l : resolution) (r : LiveInteractionRequest) : bool :=
  past_deadline (rl_resolved_at l) r && negb (String.eqb (rl_status l) "expired").

Definition resolution_event (l : resolution) (r : LiveInteractionRequest) : RuntimeEventIngest :=
  let late := too_late l r in
  let status := if late then "expired"%string else rl_status l in
  RuntimeEvent (ix_runtime_key r) (Some (rl_session_id l)) None None (ix_provider r) None "interaction_response"
    pause_resolution None None (utc (rl_resolved_at l)) None
    ("interaction-resolution:" +:+ rl_interaction_id l +:+ ":" +:+ status)
    [("request_key", VStr (ix_request_key r)); ("provider_request_id", opt_str (ix_provider_request_id r));
     ("status", VStr status);
     ("response_payload", VDict (if late then denial DEADLINE_REASON else rl_response_payload l));
     ("response_text", opt_str (if late then Some DEADLINE_REASON else rl_response_text l))]%string.

(** [resolve_interaction]. *)
Definition resolve_interaction (st : runtime_store) (l : resolution) (latest : option (string * Z)) :
    res (resolve_answer * runtime_store) :=
  let! found := answered_row st l latest in
  match found with
  | None => Ok (ResolveNotFound (runtime_seq st), st)
  | Some (r, st') =>
      let dto := interaction_dto (rl_interaction_id l) r in
      if negb (is_pending r) then Ok (ResolveRefused "not_pending" dto (runtime_seq st), st)
      else if ix_can_respond r =? 0 then Ok (ResolveRefused "not_answerable" dto (runtime_seq st), st)
      else
        let! e := ingest (resolution_event l r) in
        let! '(_, row, st') := ingest_interaction st' e in
        let st' := advance_runtime_seq (rl_resolved_at l) st' in
        let! dto := dto_of row in
        let late := too_late l r in
        Ok (Resolved (negb late) (if late then Some "not_pending"%string else None) dto (runtime_seq st'), st')
  end.
End Store.

(** ** Reading *)

Record permission_decision : Type := PermissionDecision {
  pd_found : bool;
  pd_resolved : bool;
  pd_decision : option string;
  pd_reason : pyval;
}.

Definition PERMISSION_GATES : list string := ["claude_permission_gate"; "cursor_permission_gate"]%string.

(** The decision that a row holds at [now]. *)
Definition decision_of (now : Z) (row : option LiveInteractionRequest) : permission_decision :=
  match row with
  | None => PermissionDecision false false None VNone
  | Some r =>
      if is_pending r then
        if past_deadline now r then PermissionDecision true true (Some "deny"%string) (VStr DEADLINE_REASON)
        else PermissionDecision true false None VNone
      else
        let response := default [] (ix_response_payload_json r) in
        let raw := lower (payload_text response "permissionDecision") in
        PermissionDecision true true (Some (if String.eqb raw "allow" then "allow" else "deny")%string)
          (val_or (assoc "permissionDecisionReason" response) (opt_str (ix_response_text r)))
  end.

(** [read_interaction_decision]; exactly one of [id] and [request_key] is
    given. *)
Definition asks_permission (session_id : string) (r : LiveInteractionRequest) : bool :=
  String.eqb (ix_session_id r) session_id && String.eqb (ix_kind r) "permission_prompt" && opt_in (ix_source r) PERMISSION_GATES.

Definition read_interaction_decision (st : runtime_store) (session_id : string) (id request_key : option string) (now : Z) :
    permission_decision * string :=
  let row := match id with
             | Some id => rs_interactions st !! id
             | None => snd <$> (request_key ≫= λ key, by_request_key key (rs_interactions st))
             end in
  (decision_of now (r ← row; if asks_permission session_id r then Some r else None), runtime_seq st).

(** [list_interactions]. *)
Definition listed (session_id : string) (status : option string) (now : Z) (r : LiveInteractionRequest) : bool :=
  String.eqb (ix_session_id r) session_id
  && match status with
     | None => true
     | Some s => String.eqb (ix_status r) s && (negb (String.eqb s "pending") || negb (past_deadline now r))
     end.

Definition interaction_recency (kr : string * LiveInteractionRequest) : Z * Z * string :=
  (ix_last_seen_at kr.2, ix_occurred_at kr.2, kr.1).

Definition list_interactions (st : runtime_store) (session_id : string) (status : option string) (limit : nat) (now : Z)
    (latest : option (string * Z)) : list json_object * string :=
  let rows := filter (λ kr, listed session_id status now kr.2 = true) (map_to_list (rs_interactions st)) in
  let ordered := rev (sort_on (pair_cmp (pair_cmp Z.compare Z.compare) str_cmp) interaction_recency rows) in
  let result := map (λ kr, interaction_dto kr.1 kr.2) (take limit ordered) in
  let carried := named ← latest_row st session_id latest;
                 fallback_dto session_id named.1.2 named.2 <$> carried_interaction named.1.1 named.1.2 in
  (match result with
   | [] => if match status with None => true | Some s => String.eqb s "pending" end
           then match carried with Some dto => [dto] | None => [] end else []
   | _ => result
   end, runtime_seq st).
