(* ===== verification/ConsoleServer.v ===== *)
(** * The RPC handlers of Console turns

    Models the handlers of Console turns in
    [src/server/zerg/catalogd/server.py]: the validation of the parameters of
    a request, which are a decoded JSON object, and the call of the store.

    Some fields reach the store unchecked: [message] and [client_request_id]
    of an enqueue, [error] of an update, and the owner of an enqueue.  A request
    in which such a field has another type than its column has no answer here
    ([None]): what the database driver makes of it is not modelled. *)

From S2P Require Import Prelude PyStr PyTime PyValue MachineEvidence PyJson PyText InputQueue FactStore FactReducer.
From S2P Require Import InputStore InputServer ConsoleTurns.

Open Scope list_scope.
Open Scope Z_scope.

(** ** Conversions *)

(** [uuid.UUID(str(value))]; the error's message is the one for a wrong
    length. *)
Definition uuid_parses (value : pyval) : bool := bool_decide (is_Some (uuid_of (py_str value))).

Definition check_uuid (value : pyval) : res unit :=
  guard (uuid_parses value) (ValueError "badly formed hexadecimal UUID string").

Definition type_name (value : pyval) : string :=
  match value with
  | VNone => "NoneType" | VBool _ => "bool" | VInt _ => "int" | VFloat _ _ => "float" | VStr _ => "str"
  | VList _ => "list" | VDict _ => "dict"
  end%string.

(** [int(value)]; [None] for a text or a float, which are not modelled. *)
Definition int_of (value : pyval) : option (res Z) :=
  match value with
  | VInt z => Some (Ok z)
  | VBool b => Some (Ok (Z.b2z b))
  | VStr _ | VFloat _ _ => None
  | VNone | VList _ | VDict _ =>
      Some (Err (TypeError ("int() argument must be a string, a bytes-like object or a real number, not '"
                            +:+ type_name value +:+ "'")))
  end.

(** The message of an exception that the handler turns into an answer. *)
Definition error_text (e : exn) : option string :=
  match e with ValueError m | TypeError m => Some m | _ => None end.

Definition requires (names : list string) (d : list (string * pyval)) : bool :=
  forallb (λ name, bool_decide (name ∈ map fst d)) names.

Definition null_or_str (value : pyval) : bool :=
  match value with VNone | VStr _ => true | _ => false end.

Definition is_str (value : pyval) : bool := match value with VStr _ => true | _ => false end.

(** ** Handlers *)

Abbreviation console_result A := (res (rpc A * console_store)).

Definition refuse {A} (st : console_store) (message : string) : option (console_result A) :=
  Some (Ok (Invalid message, st)).

Definition console_answer {A} (r : res (A * console_store)) : option (console_result A) :=
  Some ((λ as_, (Result_of as_.1, as_.2)) <$> r).

(** [except (TypeError, ValueError) as exc], and the others leave the
    handler. *)
Definition caught {A} (st : console_store) (e : exn) : option (console_result A) :=
  match error_text e with Some m => refuse st m | None => Some (Err e) end.

Section Handlers.
Context (float : string → pyval) (other_form : string → option datetime).

Definition ENQUEUE_FIELDS : list string :=
  ["session_id"; "owner_id"; "message"; "client_request_id"; "created_at"]%string.

(** [_enqueue_console_turn]. *)
Definition handle_enqueue_turn (st : console_store) (params : list (string * pyval)) (ids : turn_ids) :
    option (console_result enqueue_answer) :=
  match has_fields ["turn"%string] params, assoc "turn" params with
  | true, VDict data =>
      if negb (requires ENQUEUE_FIELDS data) then refuse st "console turn is missing required fields"
      else
        match (let! _ := check_uuid (assoc "session_id" data) in
               parse_datetime other_form (assoc "created_at" data) "console turn.created_at") with
        | Err e => caught st e
        | Ok created_at =>
            match assoc "session_id" data, assoc "owner_id" data, assoc "message" data, assoc "client_request_id" data with
            | VStr session_id, VInt owner_id, VStr message, VStr client_request_id =>
                console_answer (enqueue_console_turn float st
                  (ConsoleMessage session_id owner_id message client_request_id (sqlite_store created_at)) ids)
            | _, _, _, _ => None
            end
        end
  | _, _ => refuse st "session.console.turn.enqueue.v2 requires turn"
  end.

Definition UPDATE_FIELDS : list string :=
  ["run_id"; "state"; "updated_at"; "owner_id"; "session_id"; "thread_id"; "provider"; "device_id"]%string.

Definition UPDATE_STATES : list string := ["starting"; "active"; "completed"; "failed"; "cancelled"]%string.

(** The identities and the time of an update. *)
Definition check_update_identity (data : list (string * pyval)) : res datetime :=
  let turn_id := assoc "turn_id" data in
  let! _ := if is_none turn_id then Ok tt else check_uuid turn_id in
  let! _ := check_uuid (assoc "session_id" data) in
  let! _ := check_uuid (assoc "thread_id" data) in
  let! _ := check_uuid (assoc "run_id" data) in
  parse_datetime other_form (assoc "updated_at" data) "console turn.updated_at".

(** [value not in {...}] of a JSON value raises on a list or a dict. *)
Definition check_state (value : pyval) (states : list string) (message : string) : res (option string) :=
  let! _ := check_hashable value in
  Ok (if opt_in (as_str value) states then None else Some message).

(** [not isinstance(v, str) or not v.strip() or len(v) > 64]. *)
Definition error_code_ok (value : pyval) : bool :=
  match value with
  | VNone => true
  | VStr s => str_truthy (strip s) && len_le s 64
  | _ => false
  end.

(** The checks after the owner's. *)
Definition check_update_fields (data : list (string * pyval)) : res (option string) :=
  if negb (is_string 64 (assoc "provider" data)) then Ok (Some "console turn provider is invalid"%string)
  else if negb (is_string 255 (assoc "device_id" data)) then Ok (Some "console turn device_id is invalid"%string)
  else
    let! bad_state := check_state (assoc "state" data) UPDATE_STATES "console turn state is invalid" in
    match bad_state with
    | Some m => Ok (Some m)
    | None =>
        let expected := assoc "expected_state" data in
        let! bad_expected := if is_none expected then Ok None
                             else check_state expected OWNER_STATES "console turn expected_state is invalid" in
        match bad_expected with
        | Some m => Ok (Some m)
        | None => Ok (if error_code_ok (assoc "error_code" data) then None
                      else Some "console turn error_code is invalid"%string)
        end
    end.

(** [_update_console_turn]. *)
Definition handle_update_turn (st : console_store) (params : list (string * pyval)) (run_id : string) :
    option (console_result update_answer) :=
  match has_fields ["turn"%string] params, assoc "turn" params with
  | true, VDict data =>
      if negb (requires UPDATE_FIELDS data) then refuse st "console turn update is missing required fields"
      else
        owner ← int_of (assoc "owner_id" data);
        match (let! owner_id := owner in let! updated_at := check_update_identity data in Ok (owner_id, updated_at)) with
        | Err e => caught st e
        | Ok (owner_id, updated_at) =>
            if owner_id <=? 0 then refuse st "console turn owner_id must be positive"
            else
              match check_update_fields data with
              | Err e => Some (Err e)
              | Ok (Some message) => refuse st message
              | Ok None =>
                  match assoc "session_id" data, assoc "thread_id" data, assoc "run_id" data with
                  | VStr session_id, VStr thread_id, VStr run =>
                      if null_or_str (assoc "turn_id" data) && null_or_str (assoc "error" data) then
                        console_answer (update_console_turn float st
                          (TurnUpdate run (the_str (assoc "state" data)) (sqlite_store updated_at) owner_id session_id
                             thread_id (the_str (assoc "provider" data)) (the_str (assoc "device_id" data))
                             (as_str (assoc "turn_id" data)) (as_str (assoc "expected_state" data))
                             (as_str (assoc "error" data)) (as_str (assoc "error_code" data))) run_id)
                      else None
                  | _, _, _ => None
                  end
              end
        end
  | _, _ => refuse st "session.console.turn.update.v2 requires turn"
  end.

(** [_read_current_console_turn]: the parameters may hold more fields, and
    the owner's identifier is read twice, by [int] and by the store. *)
Definition handle_current_turn (st : console_store) (params : list (string * pyval)) :
    option (console_result (option (option (list (string * pyval))))) :=
  let session_id := assoc "session_id" params in
  if negb (truthy session_id) || is_none (assoc "owner_id" params) then
    refuse st "session.console.turn.current.v2 requires session_id and owner_id"
  else if negb (uuid_parses session_id) then refuse st "console turn current identity is invalid"
  else
    owner ← int_of (assoc "owner_id" params);
    match owner with
    | Err _ => refuse st "console turn current identity is invalid"
    | Ok owner_id =>
        if owner_id <=? 0 then refuse st "console turn current owner_id must be positive"
        else
          console_answer ((λ r, (r, st)) <$> read_current_console_turn float st (py_str session_id) owner_id)
    end.

(** [_list_starting_console_turns_for_device]. *)
Definition handle_starting_turns (st : console_store) (params : list (string * pyval)) :
    option (console_result (list (list (string * pyval)))) :=
  if negb (has_fields ["owner_id"; "device_id"]%string params) then
    refuse st "session.console.turn.starting_for_device.v2 requires owner_id and device_id"
  else
    owner ← int_of (assoc "owner_id" params);
    match owner with
    | Err _ => refuse st "console turn owner_id is invalid"
    | Ok owner_id =>
        let device_id := assoc "device_id" params in
        if (owner_id <=? 0) || negb (is_string 255 device_id) then refuse st "console turn device identity is invalid"
        else console_answer ((λ r, (r.1, st)) <$> list_starting_console_turns_for_device float st owner_id (the_str device_id))
    end.
End Handlers.
