(* ===== verification/RuntimeServer.v ===== *)
(** * The RPC handlers of runtime events and interactions

    Models the handlers of [src/server/zerg/catalogd/server.py] that reach
    [RuntimeStore] and [InteractionStore].  [model_validate] is the library's
    [BaseModel.model_validate] on the declared model of an event; [None] when
    it raises [ValidationError]. *)

From S2P Require Import Prelude PyStr PyTime PyValue MachineEvidence PyText FactStore FactReducer RuntimeEvents.
From S2P Require Import PauseRequests.
From S2P Require Import Interactions InputQueue InputStore InputServer ConsoleTurns LiveRuntime RuntimeStore.
From S2P Require Import InteractionStore.

Open Scope list_scope.
Open Scope Z_scope.

(** ** [_validate_interaction_registration] *)

Definition INTERACTION_REGISTRATION_FIELDS : list string :=
  ["session_id"; "runtime_key"; "provider"; "device_id"; "source"; "reply_transport"; "provider_request_id";
   "request_key"; "kind"; "tool_name"; "title"; "summary"; "request_payload"; "can_respond"; "occurred_at";
   "expires_at"; "single_active"]%string.

(** What a permission prompt of a provider must name. *)
Definition PERMISSION_CONTRACTS : list (string * (string * string)) :=
  [("claude", ("claude_permission_gate", "claude_pretooluse_pull"));
   ("cursor", ("cursor_permission_gate", "cursor_permission_poll"))]%string.

Definition MAX_PAYLOAD_BYTES : Z := 512 * 1024.

Definition payload_fits (value : pyval) : bool := Z.of_nat (utf8_length (py_str value)) <=? MAX_PAYLOAD_BYTES.

Definition check_bool (value : pyval) (field : string) : res bool :=
  match value with
  | VBool b => Ok b
  | _ => Err (ValueError ("interaction." +:+ field +:+ " must be a boolean"))
  end.

Definition check_permission (g : registration) : res unit :=
  if negb (String.eqb (rg_kind g) "permission_prompt") then Ok tt
  else
    match table_get (rg_provider g) PERMISSION_CONTRACTS with
    | None => Err (ValueError "permission_prompt provider is unsupported")
    | Some (source, transport) =>
        let! _ := guard (opt_is (rg_source g) source && opt_is (rg_reply_transport g) transport)
                    (ValueError "permission_prompt source/transport does not match provider") in
        guard (bool_decide (is_Some (rg_expires_at g))) (ValueError "permission_prompt expires_at is required")
    end.

(** What a handler answers: [invalid_request], [conflict], or a result. *)
Inductive runtime_rpc (A : Type) : Type :=
  | Refused (message : string)
  | Conflicting (message : string)
  | Answered (result : A).

Arguments Refused {A} message.
Arguments Conflicting {A} message.
Arguments Answered {A} result.

Section Handlers.
Context (other_form : string → option datetime) (model_validate : pyval → option RuntimeEventIngest).

Definition validate_interaction_registration (value : pyval) : res registration :=
  match value with
  | VDict d =>
      let get name := assoc name d in
      let! _ := guard (has_fields INTERACTION_REGISTRATION_FIELDS d) (ValueError "interaction has invalid fields") in
      let! _ := guard (is_canonical_uuid (get "session_id"%string))
                  (ValueError "interaction.session_id must be a canonical UUID") in
      let! _ := check_fields is_string "interaction" "contain" d
                  [("runtime_key", 255); ("provider", 64); ("request_key", 255); ("kind", 64)]%nat%string in
      let! _ := check_fields null_or_string "interaction" "be null or contain" d
                  [("device_id", 255); ("source", 64); ("reply_transport", 64); ("provider_request_id", 255);
                   ("tool_name", 128); ("title", 160); ("summary", 256)]%nat%string in
      let! request_payload := match get "request_payload"%string with
                              | VDict p => Ok p
                              | _ => Err (ValueError "interaction.request_payload must be an object")
                              end in
      let! _ := guard (payload_fits (VDict request_payload)) (ValueError "interaction.request_payload is too large") in
      let! can_respond := check_bool (get "can_respond"%string) "can_respond" in
      let! single_active := check_bool (get "single_active"%string) "single_active" in
      let! occurred_at := parse_datetime other_form (get "occurred_at"%string) "interaction.occurred_at" in
      let! expires_at := if is_none (get "expires_at"%string) then Ok None
                         else let! d := parse_datetime other_form (get "expires_at"%string) "interaction.expires_at" in
                              Ok (Some (dt_wall d)) in
      let str name := the_str (get name) in
      let opt name := as_str (get name) in
      let g := Registration (str "runtime_key"%string) (str "session_id"%string) (str "provider"%string)
                 (opt "device_id"%string) (opt "source"%string) (opt "reply_transport"%string)
                 (opt "provider_request_id"%string) (str "request_key"%string) (str "kind"%string) (opt "tool_name"%string)
                 (opt "title"%string) (opt "summary"%string) request_payload can_respond (dt_wall occurred_at) expires_at
                 single_active in
      let! _ := check_permission g in
      Ok g
  | _ => Err (ValueError "interaction has invalid fields")
  end.

(** ** Handlers *)

Abbreviation runtime_answer A := (res (runtime_rpc A * runtime_store)).

Definition refused {A} (st : runtime_store) (message : string) : runtime_answer A := Ok (Refused message, st).

(** [except ValueError as exc] around the checks of a request. *)
Definition or_refused {A B} (st : runtime_store) (checked : res A) (k : A → runtime_answer B) : runtime_answer B :=
  match checked with
  | Ok a => k a
  | Err (ValueError message) => refused st message
  | Err e => Err e
  end.

(** [_apply_session_runtime]. *)
Definition handle_apply_runtime (st : runtime_store) (params : json_object) (observed_at : Z) :
    runtime_answer (RuntimeEventBatchResult * ReducerResult) :=
  if negb (has_fields ["events"%string] params) then refused st "session.runtime.apply.v2 has invalid parameters"
  else
    match assoc "events" params with
    | VList raw =>
        if negb ((1 <=? length raw) && (length raw <=? 128))%nat then refused st "events must contain 1 through 128 rows"
        else
          match mapM model_validate raw with
          | None => refused st "runtime event validation failed"
          | Some events =>
              let! '(result, reduced, st) := apply_session_runtime other_form st events observed_at in
              Ok (Answered (result, reduced), st)
          end
    | _ => refused st "events must contain 1 through 128 rows"
    end.

(** [_register_interaction]. *)
Definition handle_register (st : runtime_store) (params : json_object) : runtime_answer register_answer :=
  if negb (has_fields ["interaction"%string] params) then refused st "interaction.register.v2 requires interaction"
  else
    or_refused st (validate_interaction_registration (assoc "interaction" params)) (λ g,
      let! '(answer, st) := register_interaction other_form st g in
      Ok (match answer with
          | NoSuchSession _ => Conflicting "interaction session was not found"
          | Registered _ _ _ => Answered answer
          end, st)).

(** [_list_interactions]; [observed_at] and [now] are its two clocks. *)
Definition handle_list (st : runtime_store) (params : json_object) (observed_at now : Z) (latest : option (string * Z)) :
    runtime_answer (list json_object) :=
  let status := assoc "status" params in
  if negb (has_fields ["session_id"; "status"; "limit"]%string params) then
    refused st "interaction.list.v2 has invalid parameters"
  else if negb (is_canonical_uuid (assoc "session_id" params)) then refused st "session_id must be a canonical UUID"
  else
    let! _ := if is_none status then Ok tt else check_hashable status in
    if negb (is_none status || opt_in (as_str status) ("pending" :: TERMINAL_STATUSES)%string) then
      refused st "status is not recognized"
    else
      match assoc "limit" params with
      | VInt limit =>
          if (1 <=? limit) && (limit <=? 20) then
            let session_id := the_str (assoc "session_id" params) in
            let '(_, _, st) := expire_due_interactions st observed_at (Some session_id) in
            Ok (Answered (list_interactions st session_id (as_str status) (Z.to_nat limit) now latest).1, st)
          else refused st "limit must be an integer from 1 through 20"
      | _ => refused st "limit must be an integer from 1 through 20"
      end.

Definition MAX_RESPONSE_TEXT_BYTES : Z := 64 * 1024.

Definition response_text_fits (value : pyval) : bool :=
  match value with
  | VNone => true
  | VStr s => Z.of_nat (utf8_length s) <=? MAX_RESPONSE_TEXT_BYTES
  | _ => false
  end.

(** [_resolve_interaction]. *)
Definition handle_resolve (st : runtime_store) (params : json_object) (latest : option (string * Z)) :
    runtime_answer resolve_answer :=
  let get name := assoc name params in
  if negb (has_fields ["session_id"; "interaction_id"; "status"; "response_payload"; "response_text"; "resolved_at"]%string params)
  then refused st "interaction.resolve.v2 has invalid parameters"
  else if negb (is_canonical_uuid (get "session_id"%string) && is_canonical_uuid (get "interaction_id"%string))
  then refused st "session_id and interaction_id must be canonical UUIDs"
  else
    let! _ := check_hashable (get "status"%string) in
    if negb (opt_in (as_str (get "status"%string)) TERMINAL_STATUSES) then refused st "status must be terminal"
    else
      match get "response_payload"%string with
      | VDict response =>
          if negb (payload_fits (VDict response)) then refused st "response_payload is too large"
          else if negb (response_text_fits (get "response_text"%string))
          then refused st "response_text must be null or at most 64 KiB"
          else
            or_refused st (parse_datetime other_form (get "resolved_at"%string) "resolved_at") (λ resolved_at,
              let! '(answer, st) := resolve_interaction other_form st
                (Resolution (the_str (get "session_id"%string)) (the_str (get "interaction_id"%string))
                   (the_str (get "status"%string)) response (as_str (get "response_text"%string)) (dt_wall resolved_at)) latest in
              Ok (Answered answer, st))
      | _ => refused st "response_payload must be an object"
      end.

(** [_expire_due_interactions]. *)
Definition handle_expire_due (st : runtime_store) (params : json_object) : runtime_answer nat :=
  if negb (has_fields ["now"%string] params) then refused st "interaction.expire_due.v2 requires now"
  else
    or_refused st (parse_datetime other_form (assoc "now" params) "now") (λ now,
      let '(n, _, st) := expire_due_interactions st (dt_wall now) None in Ok (Answered n, st)).

(** [_repair_expire_interaction]. *)
Definition handle_repair (st : runtime_store) (params : json_object) : runtime_answer repair_answer :=
  let get name := assoc name params in
  if negb (has_fields ["session_id"; "interaction_id"; "expected_updated_at"; "expected_source"; "expected_reply_transport";
                       "now"; "dry_run"]%string params)
  then refused st "interaction.repair.expire.v2 has invalid parameters"
  else if negb (is_canonical_uuid (get "session_id"%string) && is_canonical_uuid (get "interaction_id"%string))
  then refused st "session_id and interaction_id must be canonical UUIDs"
  else if negb (is_string 64 (get "expected_source"%string)) then refused st "expected_source must be a non-empty string"
  else if negb (is_string 64 (get "expected_reply_transport"%string))
  then refused st "expected_reply_transport must be a non-empty string"
  else
    match get "dry_run"%string with
    | VBool dry_run =>
        or_refused st (let! at_ := parse_datetime other_form (get "expected_updated_at"%string) "expected_updated_at" in
                       let! now := parse_datetime other_form (get "now"%string) "now" in Ok (at_, now)) (λ times,
          let '(answer, st) := repair_expire_interaction st (the_str (get "session_id"%string))
            (the_str (get "interaction_id"%string)) (dt_wall times.1) (the_str (get "expected_source"%string))
            (the_str (get "expected_reply_transport"%string)) (dt_wall times.2) dry_run in
          Ok (Answered answer, st))
    | _ => refused st "dry_run must be a boolean"
    end.

(** [_read_interaction_decision]; [observed_at] and [now] are its two clocks. *)
Definition handle_decision (st : runtime_store) (params : json_object) (observed_at now : Z) :
    runtime_answer permission_decision :=
  let get name := assoc name params in
  let id := get "interaction_id"%string in
  let key := get "request_key"%string in
  if negb (has_fields ["session_id"; "interaction_id"; "request_key"]%string params) then
    refused st "interaction.decision.read.v2 has invalid parameters"
  else if negb (is_canonical_uuid (get "session_id"%string)) then refused st "session_id must be a canonical UUID"
  else if Bool.eqb (is_none id) (is_none key) then refused st "provide exactly one interaction_id or request_key"
  else if negb (is_none id || is_canonical_uuid id) then refused st "interaction_id must be a canonical UUID"
  else if negb (is_none key || is_string 255 key) then refused st "request_key must contain 1 to 255 characters"
  else
    let session_id := the_str (get "session_id"%string) in
    let '(_, _, st) := expire_due_interactions st observed_at (Some session_id) in
    Ok (Answered (read_interaction_decision st session_id (as_str id) (as_str key) now).1, st).
End Handlers.
