(* ===== verification/RefreshSessions.v ===== *)
(** * Browser refresh tokens

    Models the refresh sessions of [src/server/zerg/catalogd/store.py]
    (creation, rotation, revocation of a family), their RPC handlers in
    [src/server/zerg/catalogd/server.py], and what the browser routes of
    [src/server/zerg/routers/auth_browser.py] do with them: a login issues the
    first token of a new family, a refresh rotates the presented token, a
    logout revokes its family.

    Rows hold hashes of tokens.  Times are UTC microseconds; a row id is one
    more than the greatest id of the table, as SQLite assigns it. *)

From S2P Require Import Prelude PyStr PyTime PyValue MachineEvidence PyText InputServer RuntimeServer.

Open Scope list_scope.
Open Scope Z_scope.

(** [LiveRefreshSession]. *)
Record LiveRefreshSession : Type := RefreshSession {
  rf_token_hash : string;
  rf_user_id : Z;
  rf_family_id : string;
  rf_parent_id : option Z;
  rf_created_at : Z;
  rf_absolute_expires_at : Z;
  rf_idle_expires_at : Z;
  rf_used_at : option Z;
  rf_revoked_at : option Z;
}.

#[export] Instance refresh_session_eq_dec : EqDecision LiveRefreshSession.
Proof. solve_decision. Defined.

Abbreviation refresh_table := (gmap Z LiveRefreshSession).

(** The refresh sessions, whether each account is active, and the commit
    counter. *)
Record auth_store : Type := AuthStore {
  au_seq : Z;
  au_rows : refresh_table;
  au_users : gmap Z bool;
}.

Definition set_refresh (rows : refresh_table) (st : auth_store) : auth_store := AuthStore (au_seq st) rows (au_users st).

(** [_advance_commit_seq]. *)
Definition advance_auth_seq (st : auth_store) : auth_store := AuthStore (au_seq st + 1) (au_rows st) (au_users st).

(** ** Queries and statements on the table *)

Definition row_ids (P : LiveRefreshSession → bool) (rows : refresh_table) : list Z :=
  py_sorted Z.compare (map fst (filter (λ kr, P kr.2 = true) (map_to_list rows))).

(** [.first()]: the row of the least id. *)
Definition first_row (P : LiveRefreshSession → bool) (rows : refresh_table) : option (Z * LiveRefreshSession) :=
  k ← head (row_ids P rows); pair k <$> rows !! k.

Definition has_token (token_hash : string) (r : LiveRefreshSession) : bool := String.eqb (rf_token_hash r) token_hash.

Definition is_unrevoked (r : LiveRefreshSession) : bool := bool_decide (rf_revoked_at r = None).

Definition live_in_family (family_id : string) (r : LiveRefreshSession) : bool :=
  String.eqb (rf_family_id r) family_id && is_unrevoked r.

Definition live_child_of (id : Z) (r : LiveRefreshSession) : bool :=
  bool_decide (rf_parent_id r = Some id) && is_unrevoked r.

Definition next_row_id (rows : refresh_table) : Z := 1 + foldr Z.max 0 (map fst (map_to_list rows)).

Definition revoked_row (now : Z) (r : LiveRefreshSession) : LiveRefreshSession :=
  RefreshSession (rf_token_hash r) (rf_user_id r) (rf_family_id r) (rf_parent_id r) (rf_created_at r)
    (rf_absolute_expires_at r) (rf_idle_expires_at r) (rf_used_at r) (Some now).

Definition used_row (now : Z) (r : LiveRefreshSession) : LiveRefreshSession :=
  RefreshSession (rf_token_hash r) (rf_user_id r) (rf_family_id r) (rf_parent_id r) (rf_created_at r)
    (rf_absolute_expires_at r) (rf_idle_expires_at r) (Some now) (rf_revoked_at r).

(** [update(table).where(family_id == ..., revoked_at.is_(None)).values(revoked_at=now)]
    and its row count. *)
Definition revoke_rows (family_id : string) (now : Z) (rows : refresh_table) : refresh_table :=
  (λ r, if live_in_family family_id r then revoked_row now r else r) <$> rows.

Definition live_count (family_id : string) (rows : refresh_table) : Z :=
  Z.of_nat (length (row_ids (live_in_family family_id) rows)).

(** The revocation of a family as both operations perform it: the commit
    counter moves when a row changed. *)
Definition revoke_family (family_id : string) (now : Z) (st : auth_store) : Z * auth_store :=
  let count := live_count family_id (au_rows st) in
  let st := set_refresh (revoke_rows family_id now (au_rows st)) st in
  (count, if count =? 0 then st else advance_auth_seq st).

(** ** [create_refresh_session] *)

Record refresh_request : Type := RefreshRequest {
  rq_user_id : Z;
  rq_token_hash : string;
  rq_family_id : string;
  rq_parent_id : option Z;
  rq_created_at : Z;
  rq_absolute_expires_at : Z;
  rq_idle_expires_at : Z;
}.

Inductive create_answer : Type :=
  | RefreshExists (exact_replay : bool) (session_id : Z) (family_id : string) (seq : Z)
  | RefreshUserNotFound (seq : Z)
  | RefreshCreated (session_id : Z) (family_id : string) (seq : Z).

Definition same_request (q : refresh_request) (r : LiveRefreshSession) : bool :=
  (rf_user_id r =? rq_user_id q) && String.eqb (rf_family_id r) (rq_family_id q)
  && bool_decide (rf_parent_id r = rq_parent_id q) && (rf_created_at r =? rq_created_at q)
  && (rf_absolute_expires_at r =? rq_absolute_expires_at q) && (rf_idle_expires_at r =? rq_idle_expires_at q).

Definition issued_row (q : refresh_request) : LiveRefreshSession :=
  RefreshSession (rq_token_hash q) (rq_user_id q) (rq_family_id q) (rq_parent_id q) (rq_created_at q)
    (rq_absolute_expires_at q) (rq_idle_expires_at q) None None.

Definition create_refresh_session (st : auth_store) (q : refresh_request) : create_answer * auth_store :=
  match first_row (has_token (rq_token_hash q)) (au_rows st) with
  | Some (id, existing) => (RefreshExists (same_request q existing) id (rf_family_id existing) (au_seq st), st)
  | None =>
      match au_users st !! rq_user_id q with
      | None => (RefreshUserNotFound (au_seq st), st)
      | Some _ =>
          let id := next_row_id (au_rows st) in
          let st := advance_auth_seq (set_refresh (<[id := issued_row q]> (au_rows st)) st) in
          (RefreshCreated id (rq_family_id q) (au_seq st), st)
      end
  end.

(** ** [rotate_refresh_session] *)

Inductive rotate_answer : Type :=
  | RotateInvalid (seq : Z)
  | RotateFamilyRevoked (revoked_count : Z) (seq : Z)
  | RotateReplay (session_id : Z) (user_id : Z) (family_id : string) (seq : Z)
  | NextHashTaken (seq : Z)
  | Rotated (session_id : Z) (user_id : Z) (family_id : string) (seq : Z).

Definition child_row (id : Z) (parent : LiveRefreshSession) (next_token_hash : string) (now idle_expires_at : Z) :
    LiveRefreshSession :=
  RefreshSession next_token_hash (rf_user_id parent) (rf_family_id parent) (Some id) now
    (rf_absolute_expires_at parent) idle_expires_at None None.

(** A token that was rotated before is presented again. *)
Definition present_used (st : auth_store) (id : Z) (parent : LiveRefreshSession) (used_at : Z) (next_token_hash : string)
    (now reuse_grace_seconds : Z) : rotate_answer * auth_store :=
  let reused :=
    if now - used_at <=? reuse_grace_seconds * US_PER_SECOND then (RotateInvalid (au_seq st), st)
    else let '(count, st) := revoke_family (rf_family_id parent) now st in (RotateFamilyRevoked count (au_seq st), st) in
  match first_row (live_child_of id) (au_rows st) with
  | Some (child_id, child) =>
      if String.eqb (rf_token_hash child) next_token_hash
      then (RotateReplay child_id (rf_user_id parent) (rf_family_id parent) (au_seq st), st)
      else reused
  | None => reused
  end.

Definition rotate_refresh_session (st : auth_store) (token_hash next_token_hash : string) (now idle_expires_at : Z)
    (reuse_grace_seconds : Z) : rotate_answer * auth_store :=
  match first_row (has_token token_hash) (au_rows st) with
  | None => (RotateInvalid (au_seq st), st)
  | Some (id, parent) =>
      if negb (is_unrevoked parent) then (RotateInvalid (au_seq st), st)
      else if (rf_absolute_expires_at parent <? now) || (rf_idle_expires_at parent <? now) then (RotateInvalid (au_seq st), st)
      else if negb (bool_decide (au_users st !! rf_user_id parent = Some true)) then
        let '(count, st) := revoke_family (rf_family_id parent) now st in
        (if count =? 0 then RotateInvalid (au_seq st) else RotateFamilyRevoked count (au_seq st), st)
      else
        match rf_used_at parent with
        | Some used_at => present_used st id parent used_at next_token_hash now reuse_grace_seconds
        | None =>
            match first_row (has_token next_token_hash) (au_rows st) with
            | Some _ => (NextHashTaken (au_seq st), st)
            | None =>
                let rows := <[id := used_row now parent]> (au_rows st) in
                let child_id := next_row_id rows in
                let rows := <[child_id := child_row id parent next_token_hash now idle_expires_at]> rows in
                let st := advance_auth_seq (set_refresh rows st) in
                (Rotated child_id (rf_user_id parent) (rf_family_id parent) (au_seq st), st)
            end
        end
  end.

(** ** [revoke_refresh_family]: whether the token is known, and the count *)

Definition revoke_refresh_family (st : auth_store) (token_hash : string) (now : Z) : (bool * Z * Z) * auth_store :=
  match first_row (has_token token_hash) (au_rows st) with
  | None => ((false, 0, au_seq st), st)
  | Some (_, r) => let '(count, st) := revoke_family (rf_family_id r) now st in ((true, count, au_seq st), st)
  end.

(** ** The RPC handlers *)

Section Handlers.
Context (other_form : string → option datetime).

Definition hash_param (value : pyval) : bool := match value with VStr s => is_sha256 s | _ => false end.

Definition refused {A} (st : auth_store) (message : string) : res (runtime_rpc A * auth_store) := Ok (Refused message, st).

(** A [ValueError] of the parsing of the parameters is [invalid_request]; any
    other exception leaves the handler. *)
Definition parsed {A B} (st : auth_store) (r : res B) (k : B → res (runtime_rpc A * auth_store)) :
    res (runtime_rpc A * auth_store) :=
  match r with Ok b => k b | Err (ValueError message) => refused st message | Err e => Err e end.

Definition instant_param (params : list (string * pyval)) (field : string) : res Z :=
  instant <$> parse_datetime other_form (assoc field params) field.

(** [_create_refresh]. *)
Definition handle_create_refresh (st : auth_store) (params : list (string * pyval)) :
    res (runtime_rpc create_answer * auth_store) :=
  let get name := assoc name params in
  if negb (has_fields ["user_id"; "token_hash"; "family_id"; "parent_id"; "created_at"; "absolute_expires_at";
                       "idle_expires_at"]%string params) then refused st "auth.refresh.create.v2 has invalid parameters"
  else if negb (positive_int (get "user_id"%string)) || negb (hash_param (get "token_hash"%string)) then
    refused st "user_id or token_hash is invalid"
  else if negb (is_string 64 (get "family_id"%string)) then refused st "family_id must contain 1 to 64 characters"
  else if negb (is_none (get "parent_id"%string)) && negb (positive_int (get "parent_id"%string)) then
    refused st "parent_id must be a positive integer or null"
  else
    parsed st
      (let! created := instant_param params "created_at" in
       let! absolute := instant_param params "absolute_expires_at" in
       let! idle := instant_param params "idle_expires_at" in
       Ok (created, absolute, idle))
      (λ '(created, absolute, idle),
       if negb ((created <? idle) && (idle <=? absolute)) then refused st "refresh expiry ordering is invalid"
       else
         let '(answer, st') := create_refresh_session st
           (RefreshRequest (default 0 (as_int (get "user_id"%string))) (the_str (get "token_hash"%string))
              (the_str (get "family_id"%string)) (as_int (get "parent_id"%string)) created absolute idle) in
         Ok (match answer with
             | RefreshUserNotFound _ => Conflicting "refresh session owner does not exist"
             | RefreshExists false _ _ _ => Conflicting "token_hash already exists with different attributes"
             | _ => Answered answer
             end, st')).

(** [_rotate_refresh]. *)
Definition handle_rotate_refresh (st : auth_store) (params : list (string * pyval)) :
    res (runtime_rpc rotate_answer * auth_store) :=
  let get name := assoc name params in
  let grace := get "reuse_grace_seconds"%string in
  if negb (has_fields ["token_hash"; "next_token_hash"; "now"; "idle_expires_at"; "reuse_grace_seconds"]%string params)
  then refused st "auth.refresh.rotate.v2 has invalid parameters"
  else if negb (hash_param (get "token_hash"%string)) || negb (hash_param (get "next_token_hash"%string)) then
    refused st "refresh token hashes must be lowercase hexadecimal SHA-256 values"
  else if String.eqb (the_str (get "token_hash"%string)) (the_str (get "next_token_hash"%string)) then
    refused st "next_token_hash must differ from token_hash"
  else if negb (match grace with VInt z => (0 <=? z) && (z <=? 300) | _ => false end) then
    refused st "reuse_grace_seconds must be an integer from 0 through 300"
  else
    parsed st
      (let! now := instant_param params "now" in
       let! idle := instant_param params "idle_expires_at" in
       Ok (now, idle))
      (λ '(now, idle),
       if idle <=? now then refused st "idle_expires_at must be after now"
       else
         let '(answer, st') := rotate_refresh_session st (the_str (get "token_hash"%string))
           (the_str (get "next_token_hash"%string)) now idle (default 0 (as_int grace)) in
         Ok (match answer with
             | NextHashTaken _ => Conflicting "refresh rotation conflicts with catalog state"
             | _ => Answered answer
             end, st')).

(** [_revoke_refresh_family]. *)
Definition handle_revoke_refresh_family (st : auth_store) (params : list (string * pyval)) :
    res (runtime_rpc (bool * Z * Z) * auth_store) :=
  if negb (has_fields ["token_hash"; "now"]%string params) || negb (hash_param (assoc "token_hash" params)) then
    refused st "auth.refresh.revoke_family.v2 requires token_hash and now"
  else
    parsed st (instant_param params "now")
      (λ now, let '(answer, st') := revoke_refresh_family st (the_str (assoc "token_hash" params)) now in
              Ok (Answered answer, st')).
End Handlers.

(** ** The browser routes *)

Definition ABSOLUTE_LIFETIME : Z := 90 * US_PER_DAY.
Definition IDLE_LIFETIME : Z := 30 * US_PER_DAY.
Definition REUSE_GRACE_SECONDS : Z := 10.

(** [_issue_session]'s refresh part: the token of a new family; whether the
    cookie is set. *)
Definition issue_refresh (st : auth_store) (user_id : Z) (token_hash family_id : string) (now : Z) : bool * auth_store :=
  let '(answer, st') := create_refresh_session st
    (RefreshRequest user_id token_hash family_id None now (now + ABSOLUTE_LIFETIME) (now + IDLE_LIFETIME)) in
  (match answer with RefreshCreated _ _ _ | RefreshExists true _ _ _ => true | _ => false end, st').

(** [POST /refresh] with a refresh cookie: the account whose cookies are set
    again, or [None] when both cookies are cleared. *)
Definition refresh_session (st : auth_store) (token_hash next_token_hash : string) (now : Z) :
    option Z * auth_store :=
  let '(answer, st') := rotate_refresh_session st token_hash next_token_hash now (now + IDLE_LIFETIME) REUSE_GRACE_SECONDS in
  (match answer with Rotated _ user_id _ _ | RotateReplay _ user_id _ _ => Some user_id | _ => None end, st').

(** [POST /logout] with a refresh cookie. *)
Definition logout (st : auth_store) (token_hash : string) (now : Z) : auth_store :=
  (revoke_refresh_family st token_hash now).2.
