(* ===== verification/RefreshProps.v ===== *)
(** * Properties of the browser refresh tokens

    The key invariants that [src/server/zerg/auth/refresh_tokens.py] states:
    a family has one current token, a rotated token is never exchanged again,
    and a rotated token that is presented again after the grace ends its
    family for good. *)

From S2P Require Import Prelude PyStr PyTime PyValue RefreshSessions.

Open Scope list_scope.
Open Scope Z_scope.

(** ** The table *)

Lemma row_ids_spec P rows k : k ∈ row_ids P rows ↔ ∃ r, rows !! k = Some r ∧ P r = true.
Proof.
  unfold row_ids. rewrite (py_sorted_perm Z.compare), list_elem_of_fmap. split.
  - intros ([k' r] & -> & [HP Hin]%list_elem_of_filter). apply elem_of_map_to_list in Hin. by exists r.
  - intros (r & Hr & HP). exists (k, r). split; [done|]. apply list_elem_of_filter. by rewrite elem_of_map_to_list.
Qed.

Lemma first_row_Some P rows k r : first_row P rows = Some (k, r) → rows !! k = Some r ∧ P r = true.
Proof.
  unfold first_row. intros (k' & Hh & Hk)%bind_Some. destruct (rows !! k') as [r'|] eqn:E; simplify_eq/=.
  split; [done|]. assert (k ∈ row_ids P rows) as (r' & ? & ?)%row_ids_spec; [|by simplify_eq].
  destruct (row_ids P rows); simplify_eq/=. left.
Qed.

Lemma first_row_None P rows : first_row P rows = None → ∀ k r, rows !! k = Some r → P r = false.
Proof.
  unfold first_row. intros Hf k r Hr. destruct (P r) eqn:HP; [|done].
  assert (k ∈ row_ids P rows) as Hin by (apply row_ids_spec; eauto).
  destruct (row_ids P rows) as [|k0 l] eqn:E; [by apply not_elem_of_nil in Hin|].
  assert (k0 ∈ row_ids P rows) as (r0 & Hr0 & _)%row_ids_spec by (rewrite E; left).
  cbn in Hf. by rewrite Hr0 in Hf.
Qed.

Lemma foldr_max_le k l : k ∈ l → k <= foldr Z.max 0 l.
Proof.
  induction l as [|k' l IH]; [by intros ?%not_elem_of_nil|]. intros [->|Hk]%elem_of_cons; simpl; [lia|].
  specialize (IH Hk). lia.
Qed.

Lemma next_row_id_above rows k r : rows !! k = Some r → k < next_row_id rows.
Proof.
  intros Hk%elem_of_map_to_list. unfold next_row_id.
  assert (k ∈ map fst (map_to_list rows)) as Hin%foldr_max_le; [|lia].
  apply list_elem_of_fmap. by exists (k, r).
Qed.

Lemma next_row_id_fresh rows : rows !! next_row_id rows = None.
Proof. destruct (rows !! _) as [r|] eqn:E; [|done]. apply next_row_id_above in E. lia. Qed.

Lemma lookup_revoke F now rows k r' : revoke_rows F now rows !! k = Some r' ↔
  ∃ r, rows !! k = Some r ∧ r' = if live_in_family F r then revoked_row now r else r.
Proof. unfold revoke_rows. rewrite lookup_fmap, fmap_Some. naive_solver. Qed.

(** Revocation changes nothing else of a row. *)
Lemma revoked_row_frame F now r r' : r' = (if live_in_family F r then revoked_row now r else r) →
  rf_token_hash r' = rf_token_hash r ∧ rf_user_id r' = rf_user_id r ∧ rf_family_id r' = rf_family_id r ∧
  rf_parent_id r' = rf_parent_id r ∧ rf_absolute_expires_at r' = rf_absolute_expires_at r ∧ rf_used_at r' = rf_used_at r ∧
  (is_unrevoked r' = true ↔ is_unrevoked r = true ∧ rf_family_id r ≠ F).
Proof.
  intros ->. unfold live_in_family. destruct (String.eqb_spec (rf_family_id r) F) as [E|E], (is_unrevoked r) eqn:U;
    cbn [andb]; split_and!; try done; rewrite ?U; split; intros H; try done; by destruct H.
Qed.

(** ** What one operation does to the table *)

Inductive effect (rows rows' : refresh_table) : Prop :=
  | Unchanged : rows' = rows → effect rows rows'
  | Revokes F now : rows' = revoke_rows F now rows → effect rows rows'
  | Rotates id parent next now idle :
      rows !! id = Some parent → is_unrevoked parent = true → rf_used_at parent = None →
      (∀ k r, rows !! k = Some r → rf_token_hash r ≠ next) →
      rows' = <[next_row_id (<[id := used_row now parent]> rows) := child_row id parent next now idle]>
                (<[id := used_row now parent]> rows) →
      effect rows rows'
  | Issues q :
      (∀ k r, rows !! k = Some r → rf_token_hash r ≠ rq_token_hash q) →
      (∀ k r, rows !! k = Some r → rf_family_id r ≠ rq_family_id q) → rq_parent_id q = None →
      rows' = <[next_row_id rows := issued_row q]> rows → effect rows rows'.

Lemma revoke_family_rows F now st : au_rows (revoke_family F now st).2 = revoke_rows F now (au_rows st).
Proof. unfold revoke_family. simpl. by case_match. Qed.

Lemma fresh_token rows t : first_row (has_token t) rows = None → ∀ k r, rows !! k = Some r → rf_token_hash r ≠ t.
Proof. intros Hf k r Hr E. apply (first_row_None _ _ Hf) in Hr. unfold has_token in Hr. by rewrite E, String.eqb_refl in Hr. Qed.

Lemma rotate_effect st t next now idle grace :
  effect (au_rows st) (au_rows (rotate_refresh_session st t next now idle grace).2).
Proof.
  unfold rotate_refresh_session, present_used. destruct (first_row (has_token t) _) as [[id parent]|] eqn:Hp; [|by apply Unchanged].
  apply first_row_Some in Hp as [Hp _].
  destruct (is_unrevoked parent) eqn:Hu; [|by apply Unchanged]. cbn [negb].
  case_match; [by apply Unchanged|]. pose proof (revoke_family_rows (rf_family_id parent) now st) as Hr.
  destruct (revoke_family _ _ _) as [count st'].
  case_match; [case_match; by eapply Revokes|]. destruct (rf_used_at parent) eqn:Hused.
  - repeat case_match; simplify_eq/=; first [by apply Unchanged|by eapply Revokes].
  - destruct (first_row (has_token next) _) as [|] eqn:Hn; [by apply Unchanged|].
    eapply Rotates; eauto using fresh_token.
Qed.

Lemma login_effect st user_id t F now : (∀ k r, au_rows st !! k = Some r → rf_family_id r ≠ F) →
  effect (au_rows st) (au_rows (issue_refresh st user_id t F now).2).
Proof.
  intros HF. unfold issue_refresh, create_refresh_session. cbn [rq_token_hash rq_user_id].
  destruct (first_row _ _) as [[id r]|] eqn:Hf; [by apply Unchanged|].
  destruct (au_users st !! user_id); [|by apply Unchanged].
  eapply (Issues _ _ (RefreshRequest user_id t F None now _ _)); [by apply fresh_token|done..].
Qed.

Lemma logout_effect st t now : effect (au_rows st) (au_rows (logout st t now)).
Proof.
  unfold logout, revoke_refresh_family. destruct (first_row _ _) as [[id r]|]; [|by apply Unchanged].
  pose proof (revoke_family_rows (rf_family_id r) now st) as Hr. destruct (revoke_family _ _ _). by eapply Revokes.
Qed.

(** ** Runs of the browser routes *)

(** A login draws a family that no row has; accounts are changed elsewhere. *)
Inductive browser_step : auth_store → auth_store → Prop :=
  | StepLogin st user_id token_hash family_id now :
      (∀ k r, au_rows st !! k = Some r → rf_family_id r ≠ family_id) →
      browser_step st (issue_refresh st user_id token_hash family_id now).2
  | StepRefresh st token_hash next now : browser_step st (refresh_session st token_hash next now).2
  | StepLogout st token_hash now : browser_step st (logout st token_hash now)
  | StepAccounts st users seq : browser_step st (AuthStore seq (au_rows st) users).

Definition browser_run : auth_store → auth_store → Prop := rtc browser_step.

Definition reachable (st : auth_store) : Prop := ∃ users seq, browser_run (AuthStore seq ∅ users) st.

Lemma refresh_rows st t next now :
  (refresh_session st t next now).2 = (rotate_refresh_session st t next now (now + IDLE_LIFETIME) REUSE_GRACE_SECONDS).2.
Proof. unfold refresh_session. by destruct (rotate_refresh_session _ _ _ _ _ _). Qed.

Lemma step_effect st st' : browser_step st st' → effect (au_rows st) (au_rows st').
Proof.
  destruct 1; [by apply login_effect|rewrite refresh_rows; apply rotate_effect|apply logout_effect|by apply Unchanged].
Qed.

(** ** The invariant *)

Record refresh_ok (rows : refresh_table) : Prop := {
  ro_token : ∀ i j r s, rows !! i = Some r → rows !! j = Some s → rf_token_hash r = rf_token_hash s → i = j;
  ro_family : ∀ i j r s, rows !! i = Some r → rows !! j = Some s → rf_family_id r = rf_family_id s →
    rf_user_id r = rf_user_id s ∧ rf_absolute_expires_at r = rf_absolute_expires_at s;
  ro_current : ∀ i j r s, rows !! i = Some r → rows !! j = Some s → rf_family_id r = rf_family_id s →
    rf_used_at r = None → rf_used_at s = None → i = j;
  ro_parent : ∀ i r p, rows !! i = Some r → rf_parent_id r = Some p →
    ∃ parent, rows !! p = Some parent ∧ is_Some (rf_used_at parent);
  ro_child : ∀ i j r s p, rows !! i = Some r → rows !! j = Some s →
    rf_parent_id r = Some p → rf_parent_id s = Some p → i = j;
}.

Lemma lookup_insert_cases {A} (m : gmap Z A) k v i x : <[k := v]> m !! i = Some x ↔
  (i = k ∧ x = v) ∨ (i ≠ k ∧ m !! i = Some x).
Proof. destruct (decide (i = k)) as [->|]; simplify_map_eq; naive_solver. Qed.

(** Revoking changes no link between rows. *)
Lemma revoke_ok F now rows : refresh_ok rows → refresh_ok (revoke_rows F now rows).
Proof.
  intros [Ht Hf Hc Hp Hch].
  assert (∀ i r, revoke_rows F now rows !! i = Some r → ∃ r0, rows !! i = Some r0 ∧
    rf_token_hash r = rf_token_hash r0 ∧ rf_user_id r = rf_user_id r0 ∧ rf_family_id r = rf_family_id r0 ∧
    rf_parent_id r = rf_parent_id r0 ∧ rf_absolute_expires_at r = rf_absolute_expires_at r0 ∧ rf_used_at r = rf_used_at r0) as H1.
  { intros i r (r0 & Hr & Fr%revoked_row_frame)%lookup_revoke. exists r0. naive_solver. }
  split.
  - intros i j r s (r0 & Hr & ?)%H1 (s0 & Hs & ?)%H1 E. apply (Ht i j r0 s0); naive_solver congruence.
  - intros i j r s (r0 & Hr & ?)%H1 (s0 & Hs & ?)%H1 E. destruct (Hf i j r0 s0); naive_solver congruence.
  - intros i j r s (r0 & Hr & ?)%H1 (s0 & Hs & ?)%H1 E ? ?. apply (Hc i j r0 s0); naive_solver congruence.
  - intros i r p (r0 & Hr & ?)%H1 E. destruct (Hp i r0 p Hr) as (q & Hq & Hu); [naive_solver congruence|].
    eexists. split; [apply lookup_revoke; eauto|]. by case_match.
  - intros i j r s p (r0 & Hr & ?)%H1 (s0 & Hs & ?)%H1 ? ?. apply (Hch i j r0 s0 p); naive_solver congruence.
Qed.

Lemma rotate_ok rows id parent next now idle : refresh_ok rows → rows !! id = Some parent → rf_used_at parent = None →
  (∀ k r, rows !! k = Some r → rf_token_hash r ≠ next) →
  refresh_ok (<[next_row_id (<[id := used_row now parent]> rows) := child_row id parent next now idle]>
                (<[id := used_row now parent]> rows)).
Proof.
  intros [Ht Hf Hc Hp Hch] Hid Hu Hn. set (rows1 := <[id := used_row now parent]> rows).
  assert (∀ i r, rows1 !! i = Some r → ∃ r0, rows !! i = Some r0 ∧ rf_token_hash r = rf_token_hash r0 ∧
    rf_user_id r = rf_user_id r0 ∧ rf_family_id r = rf_family_id r0 ∧ rf_parent_id r = rf_parent_id r0 ∧
    rf_absolute_expires_at r = rf_absolute_expires_at r0 ∧ (rf_used_at r = None → rf_used_at r0 = None ∧ i ≠ id)) as H1.
  { intros i r [[-> ->]|[? ?]]%lookup_insert_cases; [by exists parent|]. by exists r. }
  assert (∀ i r0, rows !! i = Some r0 → ∃ r, rows1 !! i = Some r ∧ (is_Some (rf_used_at r0) → is_Some (rf_used_at r))) as H2.
  { intros i r0 Hr0. unfold rows1. destruct (decide (i = id)) as [->|].
    - exists (used_row now parent). rewrite lookup_insert_eq. by split.
    - exists r0. by rewrite lookup_insert_ne. }
  assert (rows1 !! id = Some (used_row now parent)) as Hid1 by apply lookup_insert_eq.
  pose proof (next_row_id_fresh rows1) as Hfresh.
  assert (∀ i r, <[next_row_id rows1 := child_row id parent next now idle]> rows1 !! i = Some r →
    (i = next_row_id rows1 ∧ r = child_row id parent next now idle) ∨
    ∃ r0, rows !! i = Some r0 ∧ rf_token_hash r = rf_token_hash r0 ∧
    rf_user_id r = rf_user_id r0 ∧ rf_family_id r = rf_family_id r0 ∧ rf_parent_id r = rf_parent_id r0 ∧
    rf_absolute_expires_at r = rf_absolute_expires_at r0 ∧ (rf_used_at r = None → rf_used_at r0 = None ∧ i ≠ id)) as H3.
  { intros i r [?|[_ ?%H1]]%lookup_insert_cases; eauto. }
  split.
  - intros i j r s [[-> ->]|(r0 & Hr & Tr & _)]%H3 [[-> ->]|(s0 & Hs & Ts & _)]%H3 E; simpl in E; [done|..].
    + destruct (Hn _ _ Hs). congruence.
    + destruct (Hn _ _ Hr). congruence.
    + apply (Ht i j r0 s0); congruence.
  - intros i j r s [[-> ->]|(r0 & Hr & _ & Ur & Fr & _ & Ar & _)]%H3 [[-> ->]|(s0 & Hs & _ & Us & Fs & _ & As & _)]%H3 E;
      simpl in E; [done|..].
    + rewrite Us, As. apply (Hf id j parent s0); congruence.
    + rewrite Ur, Ar. apply (Hf i id r0 parent); congruence.
    + rewrite Ur, Us, Ar, As. apply (Hf i j r0 s0); congruence.
  - intros i j r s [[-> ->]|(r0 & Hr & _ & _ & Fr & _ & _ & Cr)]%H3 [[-> ->]|(s0 & Hs & _ & _ & Fs & _ & _ & Cs)]%H3 E Ur Us;
      simpl in E; [done|..].
    + destruct (Cs Us) as [? []]. symmetry. apply (Hc id j parent s0); congruence.
    + destruct (Cr Ur) as [? []]. apply (Hc i id r0 parent); congruence.
    + apply (Hc i j r0 s0); [done..|congruence|by apply Cr|by apply Cs].
  - intros i r p [[-> ->]|(r0 & Hr & _ & _ & _ & Pr & _)]%H3 E; simpl in E.
    + injection E as <-. exists (used_row now parent). rewrite lookup_insert_ne by congruence. by split.
    + destruct (Hp i r0 p Hr) as (q & (q' & Hq' & Huq)%H2 & Hq); [congruence|]. exists q'.
      rewrite lookup_insert_ne by congruence. split; [done|by apply Huq].
  - intros i j r s p [[-> ->]|(r0 & Hr & _ & _ & _ & Pr & _)]%H3 [[-> ->]|(s0 & Hs & _ & _ & _ & Ps & _)]%H3 Er Es;
      simpl in Er, Es; [done|..].
    + injection Er as <-. destruct (Hp j s0 id Hs) as (q & Hq & [u Hu']); congruence.
    + injection Es as <-. destruct (Hp i r0 id Hr) as (q & Hq & [u Hu']); congruence.
    + apply (Hch i j r0 s0 p); congruence.
Qed.

Lemma effect_ok rows rows' : effect rows rows' → refresh_ok rows → refresh_ok rows'.
Proof.
  intros He Hok. destruct He as [->|F now ->|id parent next now idle Hid _ Hu Hn ->|q Hq HF HP ->];
    [done|by apply revoke_ok|by apply rotate_ok|]. destruct Hok as [Ht Hf Hc Hp Hch].
  split.
  1-3: intros i j r s Hr Hs E; apply lookup_insert_cases in Hr, Hs; destruct Hr as [[-> ->]|[_ Hr]], Hs as [[-> ->]|[_ Hs]];
      try done; simpl in E; eauto;
      by first [by destruct (Hq _ _ Hs)|by destruct (Hq _ _ Hr)|by destruct (HF _ _ Hs)|by destruct (HF _ _ Hr)].
  - intros i r p [[-> ->]|[_ Hr]]%lookup_insert_cases E; simpl in E; [congruence|].
    destruct (Hp i r p Hr E) as (q' & Hq' & Hu). exists q'. split; [|done].
    rewrite lookup_insert_ne; [done|]. intros En. pose proof (next_row_id_fresh rows). congruence.
  - intros i j r s p [[-> ->]|[_ Hr]]%lookup_insert_cases [[-> ->]|[_ Hs]]%lookup_insert_cases Er Es; simpl in *;
      [done|congruence..|eauto].
Qed.

Lemma refresh_ok_empty : refresh_ok ∅.
Proof. split; intros * H; by rewrite lookup_empty in H. Qed.

Lemma run_ok st st' : browser_run st st' → refresh_ok (au_rows st) → refresh_ok (au_rows st').
Proof. induction 1 as [|st1 st2 st3 Hs _ IH]; [done|]. intros Hok. eapply IH, effect_ok, Hok. by apply step_effect. Qed.

Lemma reachable_ok st : reachable st → refresh_ok (au_rows st).
Proof. intros (users & seq & Hrun). eapply run_ok; [done|]. apply refresh_ok_empty. Qed.

(** ** What later steps keep *)

(** A row stays, keeps its identity, and is never unused or unrevoked again. *)
Lemma effect_keeps rows rows' k r : effect rows rows' → rows !! k = Some r →
  ∃ r', rows' !! k = Some r' ∧ rf_token_hash r' = rf_token_hash r ∧ rf_family_id r' = rf_family_id r ∧
    rf_parent_id r' = rf_parent_id r ∧ rf_user_id r' = rf_user_id r ∧
    (is_Some (rf_used_at r) → rf_used_at r' = rf_used_at r) ∧
    (is_unrevoked r' = true → is_unrevoked r = true).
Proof.
  intros He Hr. destruct He as [->|F now ->|id parent next now idle Hid _ Hu Hn ->|q Hq HF HP ->].
  - by exists r.
  - eexists. split; [by apply lookup_revoke; eexists|].
    destruct (revoked_row_frame F now r _ eq_refl) as (E1 & E0 & E2 & E3 & _ & E4 & E5). split_and!; try done. by intros [? _]%E5.
  - destruct (decide (k = id)) as [->|Hk].
    + exists (used_row now parent). assert (r = parent) as -> by congruence. split_and!; try done; [|by intros [? ?]; congruence].
      rewrite lookup_insert_ne, lookup_insert_eq; [done|]. intros E.
      pose proof (next_row_id_above (<[id := used_row now parent]> rows) id (used_row now parent) (lookup_insert_eq _ _ _)). lia.
    + exists r. split_and!; try done. rewrite lookup_insert_ne, lookup_insert_ne; try done. intros E.
      pose proof (next_row_id_above (<[id := used_row now parent]> rows) k r). rewrite lookup_insert_ne in H by done.
      specialize (H Hr). lia.
  - exists r. split_and!; try done. rewrite lookup_insert_ne; [done|]. intros E.
    pose proof (next_row_id_above rows k r Hr). lia.
Qed.

Lemma run_keeps st st' k r : browser_run st st' → au_rows st !! k = Some r →
  ∃ r', au_rows st' !! k = Some r' ∧ rf_token_hash r' = rf_token_hash r ∧ rf_family_id r' = rf_family_id r ∧
    rf_parent_id r' = rf_parent_id r ∧ rf_user_id r' = rf_user_id r ∧
    (is_Some (rf_used_at r) → rf_used_at r' = rf_used_at r) ∧
    (is_unrevoked r' = true → is_unrevoked r = true).
Proof.
  intros Hrun. revert r. induction Hrun as [st|st1 st2 st3 Hs _ IH]; intros r Hr; [by exists r|].
  destruct (effect_keeps _ _ k r (step_effect _ _ Hs) Hr) as (r1 & H1 & T1 & F1 & A1 & B1 & U1 & V1).
  destruct (IH r1 H1) as (r2 & H2 & T2 & F2 & A2 & B2 & U2 & V2). exists r2. split_and!; try congruence; [|by eauto].
  intros Hu. rewrite <- (U1 Hu). apply U2. by rewrite (U1 Hu).
Qed.

(** ** Dead families *)

Definition dead (family_id : string) (rows : refresh_table) : Prop :=
  (∃ k r, rows !! k = Some r ∧ rf_family_id r = family_id) ∧
  ∀ k r, rows !! k = Some r → rf_family_id r = family_id → is_unrevoked r = false.

Lemma effect_dead F rows rows' : effect rows rows' → dead F rows → dead F rows'.
Proof.
  intros He [(k0 & r0 & Hr0 & HF0) Hd]. split.
  { destruct (effect_keeps _ _ k0 r0 He Hr0) as (r' & Hr' & _ & HF' & _). exists k0, r'. split; congruence. }
  intros k r Hr HF. destruct (is_unrevoked r) eqn:U; [|done].
  destruct He as [->|G now ->|id parent next now idle Hid Hup Hu Hn ->|q Hq HFq HP ->].
  - by rewrite (Hd k r) in U.
  - apply lookup_revoke in Hr as (r1 & Hr1 & (_ & _ & E & _ & _ & _ & Hu)%revoked_row_frame).
    apply Hu in U as [U _]. rewrite (Hd k r1) in U; congruence.
  - apply lookup_insert_cases in Hr as [[-> ->]|[_ [[-> ->]|[_ Hr]]%lookup_insert_cases]]; simpl in HF;
      [rewrite (Hd id parent) in Hup; congruence..|rewrite (Hd k r) in U; congruence].
  - apply lookup_insert_cases in Hr as [[-> ->]|[_ Hr]]; simpl in HF; [destruct (HFq k0 r0); congruence|].
    rewrite (Hd k r) in U; congruence.
Qed.

Lemma run_dead F st st' : browser_run st st' → dead F (au_rows st) → dead F (au_rows st').
Proof. induction 1 as [|st1 st2 st3 Hs _ IH]; [done|]. intros Hd. eapply IH, effect_dead, Hd. by apply step_effect. Qed.

(** The row a presented token names. *)
Lemma first_row_token rows k r : refresh_ok rows → rows !! k = Some r → first_row (has_token (rf_token_hash r)) rows = Some (k, r).
Proof.
  intros Hok Hr. destruct (first_row _ _) as [[k' r']|] eqn:Hf.
  - apply first_row_Some in Hf as [Hr' Ht%String.eqb_eq]. assert (k' = k) as -> by (eapply (ro_token _ Hok); eauto). congruence.
  - by destruct (fresh_token _ _ Hf k r Hr).
Qed.

Lemma dead_refused st k r next now : refresh_ok (au_rows st) → au_rows st !! k = Some r → dead (rf_family_id r) (au_rows st) →
  refresh_session st (rf_token_hash r) next now = (None, st).
Proof.
  intros Hok Hr [_ Hd]. unfold refresh_session, rotate_refresh_session. rewrite (first_row_token _ k r) by done.
  by rewrite (Hd k r).
Qed.

Lemma revoke_kills F now rows k r : rows !! k = Some r → rf_family_id r = F → dead F (revoke_rows F now rows).
Proof.
  intros Hr HF. split.
  - eexists k, _. split; [by apply lookup_revoke; eexists|]. by destruct (revoked_row_frame F now r _ eq_refl) as (_ & _ & -> & _).
  - intros k' r' (r1 & Hr1 & (_ & _ & E & _ & _ & _ & Hu)%revoked_row_frame)%lookup_revoke HF'.
    destruct (is_unrevoked r'); [|done]. destruct Hu as [Hu _]. destruct (Hu eq_refl); congruence.
Qed.

(** ** Properties *)

(** C25: An unrevoked token that was exchanged, has reached neither its
    absolute nor its idle expiry, and is presented again after the grace, with
    a token drawn for it that no row has, logs its presenter out and ends its
    family: no token of the family is accepted ever after. *)
Theorem reuse_ends_the_family st k r used next now :
  reachable st → au_rows st !! k = Some r → is_unrevoked r = true → rf_used_at r = Some used →
  now <= rf_absolute_expires_at r → now <= rf_idle_expires_at r →
  used + REUSE_GRACE_SECONDS * US_PER_SECOND < now →
  (∀ i s, au_rows st !! i = Some s → rf_token_hash s ≠ next) →
  let st1 := (refresh_session st (rf_token_hash r) next now).2 in
  (refresh_session st (rf_token_hash r) next now).1 = None ∧
  ∀ st' k' r', browser_run st1 st' → au_rows st' !! k' = Some r' → rf_family_id r' = rf_family_id r →
    ∀ next' now', refresh_session st' (rf_token_hash r') next' now' = (None, st').
Proof.
  intros Hreach Hr Hun Hused Habs Hidle Hgrace Hnext st1.
  assert (∃ answer, rotate_refresh_session st (rf_token_hash r) next now (now + IDLE_LIFETIME) REUSE_GRACE_SECONDS =
    (answer, (revoke_family (rf_family_id r) now st).2) ∧
    match answer with Rotated _ _ _ _ | RotateReplay _ _ _ _ => False | _ => True end) as (answer & Hrot & Hans).
  { unfold rotate_refresh_session, present_used.
    rewrite (first_row_token _ k r (reachable_ok _ Hreach) Hr), Hun, Hused. cbn [negb].
    rewrite (proj2 (Z.ltb_ge _ _) Habs), (proj2 (Z.ltb_ge _ _) Hidle). cbn [orb].
    rewrite (proj2 (Z.leb_gt _ _)) by lia. destruct (revoke_family _ _ _) as [count st2].
    case_match; [by destruct (count =? 0); eexists|].
    destruct (first_row (live_child_of k) _) as [[ci c]|] eqn:Hc; [|by eexists].
    apply first_row_Some in Hc as [Hc _]. destruct (String.eqb_spec (rf_token_hash c) next) as [E|]; [by destruct (Hnext _ _ Hc)|by eexists]. }
  subst st1. unfold refresh_session. rewrite Hrot. split; [by destruct answer|].
  intros st' k' r' Hrun Hr' HF next' now'.
  change (browser_run (revoke_family (rf_family_id r) now st).2 st') in Hrun.
  assert (dead (rf_family_id r) (au_rows st')) as Hd.
  { apply (run_dead _ _ _ Hrun). rewrite revoke_family_rows. by eapply revoke_kills. }
  apply (dead_refused st' k' r'); [|done|by rewrite HF]. eapply run_ok; [exact Hrun|].
  rewrite revoke_family_rows. by apply revoke_ok, reachable_ok.
Qed.

(** A family has at most one token that was not exchanged yet, and all
    its tokens belong to one account and end at one instant. *)
Theorem family_has_one_current_token st i j r s :
  reachable st → au_rows st !! i = Some r → au_rows st !! j = Some s → rf_family_id r = rf_family_id s →
  (rf_used_at r = None → rf_used_at s = None → i = j) ∧
  rf_user_id r = rf_user_id s ∧ rf_absolute_expires_at r = rf_absolute_expires_at s.
Proof.
  intros Hreach%reachable_ok Hr Hs HF. split; [intros; by eapply (ro_current _ Hreach)|by eapply (ro_family _ Hreach)].
Qed.

Lemma rotate_rotated st t next now idle grace id user F seq st1 :
  rotate_refresh_session st t next now idle grace = (Rotated id user F seq, st1) →
  ∃ k parent, au_rows st !! k = Some parent ∧ rf_token_hash parent = t ∧ is_unrevoked parent = true ∧ rf_used_at parent = None ∧
    user = rf_user_id parent ∧ F = rf_family_id parent ∧ id = next_row_id (<[k := used_row now parent]> (au_rows st)) ∧
    au_rows st1 = <[id := child_row k parent next now idle]> (<[k := used_row now parent]> (au_rows st)).
Proof.
  unfold rotate_refresh_session, present_used. destruct (first_row (has_token t) _) as [[k parent]|] eqn:Hp; [|done].
  apply first_row_Some in Hp as [Hp Ht%String.eqb_eq].
  destruct (is_unrevoked parent) eqn:Hu; [|done]. cbn [negb]. case_match; [done|].
  destruct (revoke_family _ _ _) as [count st']. case_match; [by repeat case_match|].
  destruct (rf_used_at parent) eqn:Hused; [by repeat case_match|]. case_match; [done|].
  intros [= <- <- <- <- <-]. exists k, parent. by split_and!.
Qed.

Lemma rotate_keeps_ok st t next now idle grace answer st1 :
  rotate_refresh_session st t next now idle grace = (answer, st1) → refresh_ok (au_rows st) → refresh_ok (au_rows st1).
Proof. intros E. apply effect_ok. pose proof (rotate_effect st t next now idle grace) as He. by rewrite E in He. Qed.

Lemma lookup_used (rows : refresh_table) k now parent child :
  <[next_row_id (<[k := used_row now parent]> rows) := child]> (<[k := used_row now parent]> rows) !! k =
  Some (used_row now parent).
Proof.
  rewrite lookup_insert_ne, lookup_insert_eq; [done|]. intros E.
  pose proof (next_row_id_above (<[k := used_row now parent]> rows) k (used_row now parent) (lookup_insert_eq _ _ _)). lia.
Qed.

(** A token is exchanged once: however the routes are called after its
    rotation, no rotation of it succeeds again. *)
Theorem token_is_exchanged_once st t next now idle grace id user F seq st1 st' next' now' idle' grace' :
  reachable st → rotate_refresh_session st t next now idle grace = (Rotated id user F seq, st1) → browser_run st1 st' →
  match (rotate_refresh_session st' t next' now' idle' grace').1 with Rotated _ _ _ _ => False | _ => True end.
Proof.
  intros Hreach Hrot0 Hrun. pose proof (rotate_keeps_ok _ _ _ _ _ _ _ _ Hrot0 (reachable_ok _ Hreach)) as Hok.
  apply rotate_rotated in Hrot0 as (k & parent & Hk & Ht & _ & _ & _ & _ & Hid & Hrows).
  destruct (rotate_refresh_session st' t next' now' idle' grace') as [[| | | |id' user' F' seq'] st2] eqn:Hrot; try done.
  apply rotate_rotated in Hrot as (k' & parent' & Hk' & Ht' & _ & Hused' & _).
  assert (au_rows st1 !! k = Some (used_row now parent)) as Hk1 by (rewrite Hrows, Hid; apply lookup_used).
  destruct (run_keeps _ _ _ _ Hrun Hk1) as (r2 & Hr2 & T2 & _ & _ & _ & U2 & _).
  assert (k' = k) as -> by (eapply (ro_token _ (run_ok _ _ Hrun Hok)); eauto; simpl in T2; congruence).
  assert (parent' = r2) as -> by congruence. rewrite U2 in Hused' by (simpl; eauto). done.
Qed.

(** Repeating a rotation with the same next token finds the token that it
    issued, as long as the family stands and the exchanged token has not
    expired. *)
Theorem repeated_rotation_finds_its_token st t next now idle grace id user F seq st1 st' k p child now' idle' grace' :
  reachable st → rotate_refresh_session st t next now idle grace = (Rotated id user F seq, st1) → browser_run st1 st' →
  au_rows st' !! k = Some p → rf_token_hash p = t → is_unrevoked p = true →
  now' <= rf_absolute_expires_at p → now' <= rf_idle_expires_at p → au_users st' !! user = Some true →
  au_rows st' !! id = Some child → is_unrevoked child = true →
  rotate_refresh_session st' t next now' idle' grace' = (RotateReplay id user F (au_seq st'), st').
Proof.
  intros Hreach Hrot0 Hrun Hp Htp Hup Habs Hidle Hact Hchild Huc.
  pose proof (rotate_keeps_ok _ _ _ _ _ _ _ _ Hrot0 (reachable_ok _ Hreach)) as Hok1. pose proof (run_ok _ _ Hrun Hok1) as Hok.
  apply rotate_rotated in Hrot0 as (k0 & parent & Hk & Ht & _ & _ & Eu & EF & Hid & Hrows).
  assert (au_rows st1 !! k0 = Some (used_row now parent)) as Hk1 by (rewrite Hrows, Hid; apply lookup_used).
  assert (au_rows st1 !! id = Some (child_row k0 parent next now idle)) as Hc1 by (rewrite Hrows; apply lookup_insert_eq).
  destruct (run_keeps _ _ _ _ Hrun Hk1) as (p' & Hp' & Tp & Fp & _ & Up & Vp & _).
  destruct (run_keeps _ _ _ _ Hrun Hc1) as (c' & Hc' & Tc & _ & Pc & _). simpl in *.
  assert (k = k0) as -> by (eapply (ro_token _ Hok); eauto; congruence).
  assert (p' = p) as -> by congruence. assert (c' = child) as -> by congruence.
  unfold rotate_refresh_session, present_used. rewrite <- Htp, (first_row_token _ k0 p) by done.
  rewrite Hup, (proj2 (Z.ltb_ge _ _) Habs), (proj2 (Z.ltb_ge _ _) Hidle). cbn [negb orb].
  rewrite Up, <- Eu, Hact, bool_decide_true by done. cbn [negb]. rewrite Vp by eauto. cbv zeta.
  destruct (first_row (live_child_of k0) (au_rows st')) as [[ci c]|] eqn:Hf.
  - apply first_row_Some in Hf as [Hci Hl]. unfold live_child_of in Hl.
    apply andb_true_iff in Hl as [Hpc%bool_decide_eq_true _].
    assert (ci = id) as -> by (eapply (ro_child _ Hok); eauto). assert (c = child) as -> by congruence.
    by rewrite Tc, String.eqb_refl, Fp, EF.
  - pose proof (first_row_None _ _ Hf id child Hchild) as Hl. unfold live_child_of in Hl.
    by rewrite Pc, bool_decide_true, Huc in Hl.
Qed.
