(* ===== verification/RefreshSamples.v ===== *)
(** * The refresh tokens at concrete inputs *)

From S2P Require Import Prelude PyStr PyTime PyValue RefreshSessions RefreshProps.

Open Scope list_scope.
Open Scope Z_scope.

Definition second (n : Z) : Z := n * US_PER_SECOND.

Definition one_account : auth_store := AuthStore 0 ∅ {[ 1 := true ]}.
Definition logged_in : auth_store := Eval vm_compute in (issue_refresh one_account 1 "t1" "f" (second 0)).2.
Definition refreshed : auth_store := Eval vm_compute in (refresh_session logged_in "t1" "t2" (second 100)).2.
Definition stolen : auth_store := Eval vm_compute in (refresh_session refreshed "t1" "t3" (second 200)).2.

Definition row (st : auth_store) (id : Z) : LiveRefreshSession :=
  default (RefreshSession "" 0 "" None 0 0 0 None None) (au_rows st !! id).

Definition exchanged : LiveRefreshSession := Eval vm_compute in row refreshed 1.
Definition current : LiveRefreshSession := Eval vm_compute in row refreshed 2.

Example refresh_rotates : refresh_session logged_in "t1" "t2" (second 100) = (Some 1, refreshed).
Proof. vm_compute. reflexivity. Qed.

(** A second tab that refreshes with the same cookie is logged out, inside the
    grace too. *)
Example second_tab_is_logged_out : refresh_session refreshed "t1" "t3" (second 101) = (None, refreshed).
Proof. vm_compute. reflexivity. Qed.

Example reuse_revokes :
  rotate_refresh_session refreshed "t1" "t3" (second 200) (second 200 + IDLE_LIFETIME) REUSE_GRACE_SECONDS =
    (RotateFamilyRevoked 2 3, stolen) ∧
  refresh_session stolen "t2" "t4" (second 201) = (None, stolen).
Proof. vm_compute. done. Qed.

Lemma reach_logged_in : reachable logged_in.
Proof.
  exists {[ 1 := true ]}, 0. eapply rtc_l; [|apply rtc_refl].
  apply (StepLogin one_account 1 "t1" "f" (second 0)). intros k r Hr.
  change (au_rows one_account) with (∅ : refresh_table) in Hr. by rewrite lookup_empty in Hr.
Qed.

Lemma reach_refreshed : reachable refreshed.
Proof.
  destruct reach_logged_in as (users & seq & Hrun). exists users, seq. eapply rtc_r; [exact Hrun|].
  exact (StepRefresh logged_in "t1" "t2" (second 100)).
Qed.

Lemma tokens_of_refreshed i r : au_rows refreshed !! i = Some r → rf_token_hash r ∈ ["t1"; "t2"]%string.
Proof.
  assert (map_Forall (λ _ r, rf_token_hash r ∈ ["t1"; "t2"]%string) (au_rows refreshed)) as H.
  { apply (bool_decide_eq_true _). vm_compute. reflexivity. }
  apply H.
Qed.

Lemma reuse_ends_the_family_witness :
  (refresh_session refreshed "t1" "t3" (second 200)).1 = None ∧
  ∀ st' k' r', browser_run stolen st' → au_rows st' !! k' = Some r' → rf_family_id r' = "f"%string →
    ∀ next' now', refresh_session st' (rf_token_hash r') next' now' = (None, st').
Proof.
  apply (reuse_ends_the_family refreshed 1 exchanged (second 100) "t3" (second 200) reach_refreshed);
    [vm_compute; reflexivity|vm_compute; reflexivity|vm_compute; reflexivity|vm_compute; discriminate|vm_compute; discriminate
    |vm_compute; reflexivity|].
  intros i s Hs E. apply tokens_of_refreshed in Hs. rewrite E in Hs. apply (bool_decide_eq_true _) in Hs. by vm_compute in Hs.
Defined.

Lemma family_has_one_current_token_witness :
  (rf_used_at exchanged = None → rf_used_at current = None → 1 = 2) ∧ rf_user_id exchanged = rf_user_id current ∧
  rf_absolute_expires_at exchanged = rf_absolute_expires_at current.
Proof.
  apply (family_has_one_current_token refreshed 1 2 exchanged current reach_refreshed); vm_compute; reflexivity.
Defined.

Lemma token_is_exchanged_once_witness :
  match (rotate_refresh_session stolen "t1" "t4" (second 300) (second 400) 10).1 with Rotated _ _ _ _ => False | _ => True end.
Proof.
  apply (token_is_exchanged_once logged_in "t1" "t2" (second 100) (second 100 + IDLE_LIFETIME) REUSE_GRACE_SECONDS 2 1 "f" 2
    refreshed stolen "t4" (second 300) (second 400) 10 reach_logged_in); [vm_compute; reflexivity|].
  eapply rtc_l; [|apply rtc_refl]. exact (StepRefresh refreshed "t1" "t3" (second 200)).
Defined.

Lemma repeated_rotation_finds_its_token_witness :
  rotate_refresh_session refreshed "t1" "t2" (second 5000) (second 6000) 10 = (RotateReplay 2 1 "f" 2, refreshed).
Proof.
  apply (repeated_rotation_finds_its_token logged_in "t1" "t2" (second 100) (second 100 + IDLE_LIFETIME) REUSE_GRACE_SECONDS 2 1
    "f" 2 refreshed refreshed 1 exchanged current (second 5000) (second 6000) 10 reach_logged_in);
    [vm_compute; reflexivity|apply rtc_refl|vm_compute; reflexivity..|vm_compute; discriminate|vm_compute; discriminate
    |vm_compute; reflexivity|vm_compute; reflexivity|vm_compute; reflexivity].
Defined.
