(* ===== verification/ProjectorQueue.v ===== *)
(** * The projector queue

    Models the ledger of derived projections of [catalogd/store.py]: one row
    per projector and session names the revision that is wanted, the one that
    is done and the claim in between.  Workers claim lagging rows under a
    lease, complete or fail them; commits and deletions raise what is wanted;
    repairs, a replaced derived store and a restart take claims away.

    Times are UTC microseconds.  A column of the [sessions] table that no
    modelled operation reads is left out of [StorageSession]: titles, previews
    and the launch and visibility policy.  The [observed_at] of an advance,
    [completed_at] and [failed_at] are validated by the handlers and not read
    by the store: its own clock is the argument [commit_time]. *)

From S2P Require Import Prelude PyStr PyTime.

Open Scope list_scope.
Open Scope Z_scope.

(** ** Tables *)

(** [ProjectorState]. *)
Record ProjectorState : Type := ProjectorRow {
  ps_desired_revision : Z;
  ps_desired_at : option Z;
  ps_completed_revision : Z;
  ps_claimed_revision : option Z;
  ps_claim_token : option string;
  ps_worker_id : option string;
  ps_claim_expires_at : option Z;
  ps_status : string;
  ps_failure_count : Z;
  ps_last_error_code : option string;
  ps_last_error_message : option string;
  ps_retry_at : option Z;
  ps_last_completion_token : option string;
  ps_last_failure_token : option string;
  ps_commit_seq : Z;
  ps_created_at : Z;
  ps_updated_at : Z;
}.

(** [StorageSession]. *)
Record StorageSession : Type := SessionRow {
  ss_tenant_id : string;
  ss_owner_id : option string;
  ss_provider : string;
  ss_machine_id : string;
  ss_started_at : Z;
  ss_last_activity_at : Z;
  ss_user_messages : Z;
  ss_assistant_messages : Z;
  ss_tool_calls : Z;
  ss_transcript_revision : Z;
  ss_semantic_projection_version : Z;
  ss_current_render_generation : option string;
  ss_raw_state : string;
  ss_render_state : string;
  ss_media_state : string;
  ss_missing_media_hashes : list string;
  ss_user_state : string;
  ss_commit_seq : Z;
  ss_created_at : Z;
  ss_updated_at : Z;
}.

(** [SessionTombstone]. *)
Record SessionTombstone : Type := Tombstone {
  tb_deletion_id : option string;
  tb_deletion_revision : Z;
  tb_deleted_at : Z;
  tb_reason : option string;
  tb_commit_seq : Z;
}.

(** [ProjectorStoreBinding]. *)
Record ProjectorStoreBinding : Type := StoreBinding {
  pb_store_id : string;
  pb_schema_generation : string;
  pb_commit_seq : Z;
  pb_created_at : Z;
  pb_updated_at : Z;
}.

#[export] Instance projector_state_eq_dec : EqDecision ProjectorState.
Proof. solve_decision. Defined.
#[export] Instance storage_session_eq_dec : EqDecision StorageSession.
Proof. solve_decision. Defined.
#[export] Instance session_tombstone_eq_dec : EqDecision SessionTombstone.
Proof. solve_decision. Defined.
#[export] Instance projector_binding_eq_dec : EqDecision ProjectorStoreBinding.
Proof. solve_decision. Defined.

Abbreviation projector_table := (gmap (string * string) ProjectorState).

(** The tables of the ledger and the commit counter of [catalog_meta]. *)
Record projector_catalog : Type := ProjectorCatalog {
  pc_seq : Z;
  pc_states : projector_table;
  pc_sessions : gmap string StorageSession;
  pc_tombstones : gmap string SessionTombstone;
  pc_bindings : gmap string ProjectorStoreBinding;
}.

Definition set_states (states : projector_table) (pc : projector_catalog) : projector_catalog :=
  ProjectorCatalog (pc_seq pc) states (pc_sessions pc) (pc_tombstones pc) (pc_bindings pc).

Definition set_bindings (bindings : gmap string ProjectorStoreBinding) (pc : projector_catalog) : projector_catalog :=
  ProjectorCatalog (pc_seq pc) (pc_states pc) (pc_sessions pc) (pc_tombstones pc) bindings.

(** [_advance_commit_seq]. *)
Definition advance_projector_seq (pc : projector_catalog) : projector_catalog :=
  ProjectorCatalog (pc_seq pc + 1) (pc_states pc) (pc_sessions pc) (pc_tombstones pc) (pc_bindings pc).

(** ** Updates of one row *)

(** A new row: [completed_revision=0], [status="idle"], [failure_count=0]. *)
Definition idle_state (desired seq now : Z) : ProjectorState :=
  ProjectorRow desired (Some now) 0 None None None None "idle" 0 None None None None None seq now now.

(** A later revision is wanted; the claim, and the backoff of a failure, stay:
    the projector block of [commit_raw_object]. *)
Definition wanted (desired seq now : Z) (r : ProjectorState) : ProjectorState :=
  ProjectorRow desired (Some now) (ps_completed_revision r) (ps_claimed_revision r) (ps_claim_token r) (ps_worker_id r)
    (ps_claim_expires_at r) (ps_status r) (ps_failure_count r) (ps_last_error_code r) (ps_last_error_message r)
    (ps_retry_at r) (ps_last_completion_token r) (ps_last_failure_token r) seq (ps_created_at r) now.

(** A later revision is wanted and the failure is forgotten:
    [advance_projector_state] on a failed row. *)
Definition wanted_afresh (desired seq now : Z) (r : ProjectorState) : ProjectorState :=
  ProjectorRow desired (Some now) (ps_completed_revision r) (ps_claimed_revision r) (ps_claim_token r) (ps_worker_id r)
    (ps_claim_expires_at r) "idle" 0 None None None (ps_last_completion_token r) (ps_last_failure_token r) seq
    (ps_created_at r) now.

(** A revision is wanted and the claim is taken away: deletion, replacement of
    a source and the repair of retired sessions. *)
Definition wanted_unclaimed (desired seq now : Z) (r : ProjectorState) : ProjectorState :=
  ProjectorRow desired (Some now) (ps_completed_revision r) None None None None "idle" (ps_failure_count r)
    (ps_last_error_code r) (ps_last_error_message r) None (ps_last_completion_token r) (ps_last_failure_token r) seq
    (ps_created_at r) now.

(** An embedding row takes the revision of its search row. *)
Definition aligned (desired seq now : Z) (r : ProjectorState) : ProjectorState :=
  ProjectorRow desired (Some now) (ps_completed_revision r) None None None None "idle" 0 None None None
    (ps_last_completion_token r) (ps_last_failure_token r) seq (ps_created_at r) now.

(** Everything is to be done again: a requeue and a replaced store. *)
Definition restarted (seq now : Z) (r : ProjectorState) : ProjectorState :=
  ProjectorRow (ps_desired_revision r) (ps_desired_at r) 0 None None None None "idle" 0 None None None None None seq
    (ps_created_at r) now.

Definition lease_lost (r : ProjectorState) : bool := String.eqb (ps_status r) "claimed".

(** A claim; one that takes over a lease that ran out counts a failure. *)
Definition claimed_state (claim_token worker_id : string) (claimed expires_at seq now : Z) (r : ProjectorState) :
    ProjectorState :=
  ProjectorRow (ps_desired_revision r) (ps_desired_at r) (ps_completed_revision r) (Some claimed) (Some claim_token)
    (Some worker_id) (Some expires_at) "claimed"
    (if lease_lost r then ps_failure_count r + 1 else ps_failure_count r)
    (if lease_lost r then Some "claim_lease_expired"%string else ps_last_error_code r)
    (if lease_lost r
     then Some ("a pass held by " +:+ default "None"%string (ps_worker_id r) +:+ " did not finish inside its lease")
     else ps_last_error_message r)
    None (ps_last_completion_token r) (ps_last_failure_token r) seq (ps_created_at r) now.

Definition completed_state (claim_token : string) (completed seq now : Z) (r : ProjectorState) : ProjectorState :=
  ProjectorRow (ps_desired_revision r) (ps_desired_at r) completed None None None None "idle" 0 None None None
    (Some claim_token) (ps_last_failure_token r) seq (ps_created_at r) now.

Definition failed_state (claim_token error_code : string) (error_message : option string) (retry_at seq now : Z)
    (r : ProjectorState) : ProjectorState :=
  ProjectorRow (ps_desired_revision r) (ps_desired_at r) (ps_completed_revision r) None None None None "failed"
    (ps_failure_count r + 1) (Some error_code) error_message (Some retry_at) (ps_last_completion_token r)
    (Some claim_token) seq (ps_created_at r) now.

Definition released_state (seq now : Z) (r : ProjectorState) : ProjectorState :=
  ProjectorRow (ps_desired_revision r) (ps_desired_at r) (ps_completed_revision r) None None None None "idle"
    (ps_failure_count r) (Some "claim_released_worker_gone"%string)
    (Some "the claiming worker did not survive this daemon generation"%string) (ps_retry_at r)
    (ps_last_completion_token r) (ps_last_failure_token r) seq (ps_created_at r) now.

(** The row [key] through [f]. *)
Definition update_state (key : string * string) (f : ProjectorState → ProjectorState) (pc : projector_catalog) :
    projector_catalog :=
  set_states (alter f key (pc_states pc)) pc.

Definition insert_state (key : string * string) (r : ProjectorState) (pc : projector_catalog) : projector_catalog :=
  set_states (<[key := r]> (pc_states pc)) pc.

(** [update(table).where(...)] and its row count. *)
Definition update_where (P : string * string → ProjectorState → bool) (f : ProjectorState → ProjectorState)
    (pc : projector_catalog) : projector_catalog :=
  set_states (map_imap (λ k r, Some (if P k r then f r else r)) (pc_states pc)) pc.

Definition count_where (P : string * string → ProjectorState → bool) (states : projector_table) : Z :=
  Z.of_nat (length (filter (λ kr, P kr.1 kr.2 = true) (map_to_list states))).

(** ** Projectors *)

Definition SEMANTIC_PROJECTOR_ID : string := "semantic-v2".
Definition SEARCH_PROJECTOR : string := "search-v2".
Definition PERMANENT_FAILURE_RETRY_INTERVAL : Z := 3600 * US_PER_SECOND.

(** [order_by(updated_at, session_id)]. *)
Definition age (sr : string * ProjectorState) : Z * string := (ps_updated_at sr.2, sr.1).
Definition age_cmp : Z * string → Z * string → comparison := pair_cmp Z.compare str_cmp.

#[export] Instance age_comparison : Comparison age_cmp := pair_comparison Z.compare str_cmp.

Section Projectors.

(** The revision, dimensions and partition in the name of the embedding
    projector, which [embedding_space.py] reads from the model contract. *)
Context (embedding_artifact : string).

Definition EMBEDDING_PROJECTOR_ID : string := "embeddings-" +:+ embedding_artifact.
Definition KNOWN_PROJECTORS : list string := [SEMANTIC_PROJECTOR_ID; SEARCH_PROJECTOR; EMBEDDING_PROJECTOR_ID].
Definition ACTIVE_PROJECTORS : list string :=
  ["render-v2"%string; SEMANTIC_PROJECTOR_ID; SEARCH_PROJECTOR; EMBEDDING_PROJECTOR_ID].

Definition storage_projectors_for_provider (provider : option string) : list string :=
  let downstream := [SEARCH_PROJECTOR; EMBEDDING_PROJECTOR_ID] in
  if String.eqb (lower (strip (default ""%string provider))) "claude" then SEMANTIC_PROJECTOR_ID :: downstream
  else downstream.

Definition deleted_session (pc : projector_catalog) (session_id : string) : bool :=
  bool_decide (is_Some (pc_tombstones pc !! session_id)).

(** ** [advance_projector_state] *)

Inductive advance_answer : Type :=
  | AdvanceDeleted (deletion_revision seq : Z)
  | Advanced (changed : bool) (state : ProjectorState) (seq : Z).

Definition failed_before (r : ProjectorState) : bool := str_in (ps_status r) ["failed"; "quarantined"]%string.

Definition advance_projector_state (pc : projector_catalog) (projector session_id : string) (desired commit_time : Z) :
    option advance_answer * projector_catalog :=
  let key := (projector, session_id) in
  match pc_tombstones pc !! session_id with
  | Some t => (Some (AdvanceDeleted (tb_deletion_revision t) (pc_seq pc)), pc)
  | None =>
      match pc_states pc !! key with
      | Some r =>
          if desired <=? ps_desired_revision r then (Some (Advanced false r (ps_commit_seq r)), pc)
          else
            let pc := advance_projector_seq pc in
            let pc := update_state key
              ((if failed_before r then wanted_afresh else wanted) desired (pc_seq pc) commit_time) pc in
            ((λ r, Advanced true r (pc_seq pc)) <$> pc_states pc !! key, pc)
      | None =>
          let pc := advance_projector_seq pc in
          let pc := insert_state key (idle_state desired (pc_seq pc) commit_time) pc in
          ((λ r, Advanced true r (pc_seq pc)) <$> pc_states pc !! key, pc)
      end
  end.

(** ** [claim_projector_lag] *)

Inductive lag_claim_answer : Type :=
  | ClaimConflict (seq : Z)
  | Claimed (claimed : list (string * ProjectorState)) (exact_replay : bool) (seq : Z).

(** [order_by(session_id)]. *)
Definition by_session (rows : list (string * ProjectorState)) : list (string * ProjectorState) := sort_on str_cmp fst rows.

(** The rows of a projector that satisfy [P], with their sessions. *)
Definition projector_rows (projector : string) (P : string → ProjectorState → bool) (states : projector_table) :
    list (string * ProjectorState) :=
  map (λ kr, (kr.1.2, kr.2))
    (filter (λ kr, String.eqb kr.1.1 projector && P kr.1.2 kr.2 = true) (map_to_list states)).

Definition holds_claim (claim_token : string) (_ : string) (r : ProjectorState) : bool :=
  opt_is (ps_claim_token r) claim_token.

Definition ended_claim (claim_token : string) (_ : string) (r : ProjectorState) : bool :=
  opt_is (ps_last_completion_token r) claim_token || opt_is (ps_last_failure_token r) claim_token.

(** A nullable instant that has come. *)
Definition due (at_ : option Z) (now : Z) : bool := match at_ with None => true | Some t => t <=? now end.

Definition lagging (r : ProjectorState) : bool := ps_completed_revision r <? ps_desired_revision r.

(** The lag that counts: a deleted session matters to search alone. *)
Definition lag_counts (pc : projector_catalog) (projector session_id : string) (r : ProjectorState) : bool :=
  lagging r && (String.eqb projector SEARCH_PROJECTOR || negb (deleted_session pc session_id)).

(** What search has published of the session, when that is ahead of the row. *)
Definition search_completed (pc : projector_catalog) (session_id : string) (r : ProjectorState) : option Z :=
  match pc_states pc !! (SEARCH_PROJECTOR, session_id) with
  | Some s => if ps_completed_revision r <? ps_completed_revision s then Some (ps_completed_revision s) else None
  | None => None
  end.

Definition is_embedding (projector : string) : bool := String.eqb projector EMBEDDING_PROJECTOR_ID.

Definition claimable (pc : projector_catalog) (projector : string) (now : Z) (session_id : string) (r : ProjectorState) :
    bool :=
  lag_counts pc projector session_id r && due (ps_claim_expires_at r) now && due (ps_retry_at r) now
  && (negb (is_embedding projector) || bool_decide (is_Some (search_completed pc session_id r))).

Definition eligible_rows (pc : projector_catalog) (projector : string) (now : Z) : list (string * ProjectorState) :=
  sort_on age_cmp age (projector_rows projector (claimable pc projector now) (pc_states pc)).

Definition claimed_revision (pc : projector_catalog) (projector session_id : string) (r : ProjectorState) : Z :=
  match (if is_embedding projector then search_completed pc session_id r else None) with
  | Some revision => if revision =? 0 then ps_desired_revision r else Z.min revision (ps_desired_revision r)
  | None => ps_desired_revision r
  end.

Definition claim_row_of (pc : projector_catalog) (projector worker_id claim_token : string) (expires_at seq now : Z)
    (pc' : projector_catalog) (e : string * ProjectorState) : projector_catalog :=
  update_state (projector, e.1)
    (λ _, claimed_state claim_token worker_id (claimed_revision pc projector e.1 e.2) expires_at seq now e.2) pc'.

Definition claim_projector_lag (pc : projector_catalog) (projector worker_id claim_token : string)
    (now lease_seconds limit commit_time : Z) : lag_claim_answer * projector_catalog :=
  let replay_rows := by_session (projector_rows projector (holds_claim claim_token) (pc_states pc)) in
  match replay_rows with
  | first :: _ =>
      if existsb (λ sr, negb (opt_is (ps_worker_id sr.2) worker_id)) replay_rows then (ClaimConflict (pc_seq pc), pc)
      else (Claimed replay_rows true (ps_commit_seq first.2), pc)
  | [] =>
      match head (projector_rows projector (ended_claim claim_token) (pc_states pc)) with
      | Some ended => (Claimed [] true (ps_commit_seq ended.2), pc)
      | None =>
          match take (Z.to_nat limit) (eligible_rows pc projector now) with
          | [] => (Claimed [] false (pc_seq pc), pc)
          | eligible =>
              let pc' := advance_projector_seq pc in
              let pc' := foldl (claim_row_of pc projector worker_id claim_token (now + lease_seconds * US_PER_SECOND)
                                  (pc_seq pc') commit_time) pc' eligible in
              (Claimed (omap (λ e, pair e.1 <$> pc_states pc' !! (projector, e.1)) eligible) false (pc_seq pc'), pc')
          end
      end
  end.

(** ** [complete_projector_claim] and [fail_projector_claim] *)

Inductive settle_answer : Type :=
  | SettleConflict (seq : Z)
  | SettleReplay (state : ProjectorState) (seq : Z)
  | Settled (state : ProjectorState) (seq : Z).

(** The row is updated and read back. *)
Definition settle_claim (pc : projector_catalog) (key : string * string) (f : Z → ProjectorState → ProjectorState)
    (r : ProjectorState) : settle_answer * projector_catalog :=
  let pc := advance_projector_seq pc in
  let pc := insert_state key (f (pc_seq pc) r) pc in
  (Settled (f (pc_seq pc) r) (pc_seq pc), pc).

Definition complete_projector_claim (pc : projector_catalog) (projector session_id claim_token : string)
    (completed commit_time : Z) : settle_answer * projector_catalog :=
  let key := (projector, session_id) in
  match pc_states pc !! key with
  | None => (SettleConflict (pc_seq pc), pc)
  | Some r =>
      if opt_is (ps_last_completion_token r) claim_token && (completed <=? ps_completed_revision r)
      then (SettleReplay r (ps_commit_seq r), pc)
      else if negb (opt_is (ps_claim_token r) claim_token)
              || negb (bool_decide (ps_claimed_revision r = Some completed))
              || (ps_desired_revision r <? completed)
      then (SettleConflict (pc_seq pc), pc)
      else settle_claim pc key (λ seq, completed_state claim_token completed seq commit_time) r
  end.

(** A permanent error is retried after [PERMANENT_FAILURE_RETRY_INTERVAL]. *)
Definition effective_retry_at (error_code : string) (commit_time retry_at : Z) : Z :=
  if endswith error_code "_permanent" then commit_time + PERMANENT_FAILURE_RETRY_INTERVAL else retry_at.

Definition fail_projector_claim (pc : projector_catalog) (projector session_id claim_token error_code : string)
    (error_message : option string) (retry_at commit_time : Z) : settle_answer * projector_catalog :=
  let key := (projector, session_id) in
  match pc_states pc !! key with
  | None => (SettleConflict (pc_seq pc), pc)
  | Some r =>
      if opt_is (ps_last_failure_token r) claim_token then (SettleReplay r (ps_commit_seq r), pc)
      else if negb (opt_is (ps_claim_token r) claim_token) || bool_decide (ps_claimed_revision r = None)
      then (SettleConflict (pc_seq pc), pc)
      else settle_claim pc key
             (λ seq, failed_state claim_token error_code error_message
                       (effective_retry_at error_code commit_time retry_at) seq commit_time) r
  end.

(** ** Repairs *)

(** [requeue_projector_states]. *)
Definition requeue_changes (r : ProjectorState) : bool :=
  negb (ps_completed_revision r =? 0) || negb (bool_decide (ps_claimed_revision r = None))
  || negb (String.eqb (ps_status r) "idle") || negb (ps_failure_count r =? 0)
  || negb (bool_decide (ps_last_error_code r = None)) || negb (bool_decide (ps_last_error_message r = None))
  || negb (bool_decide (ps_retry_at r = None)).

Record requeue_answer : Type := RequeueAnswer {
  ra_requeued : list string;
  ra_missing : list string;
  ra_seq : Z;
}.

Definition requeue_projector_states (pc : projector_catalog) (projector : string) (session_ids : list string)
    (observed_at : Z) : requeue_answer * projector_catalog :=
  let session_keys := py_sorted str_cmp session_ids in
  let missing := filter (λ s, pc_states pc !! (projector, s) = None) session_keys in
  if negb (bool_decide (missing = [])) then (RequeueAnswer [] missing (pc_seq pc), pc)
  else
    let changed := filter (λ s, (requeue_changes <$> pc_states pc !! (projector, s)) = Some true) session_keys in
    if bool_decide (changed = []) then (RequeueAnswer [] [] (pc_seq pc), pc)
    else
      let pc := advance_projector_seq pc in
      (RequeueAnswer changed [] (pc_seq pc),
       update_where (λ k _, String.eqb k.1 projector && str_in k.2 changed) (restarted (pc_seq pc) observed_at) pc).

(** [bind_projector_store]: whether it changed, and the rows it invalidated. *)
Definition bind_projector_store (pc : projector_catalog) (projector store_id schema_generation : string)
    (observed_at : Z) : (bool * Z * Z) * projector_catalog :=
  let same := match pc_bindings pc !! projector with
              | Some b => String.eqb (pb_store_id b) store_id && String.eqb (pb_schema_generation b) schema_generation
              | None => false
              end in
  if same then ((false, 0, pc_seq pc), pc)
  else
    let count := count_where (λ k _, String.eqb k.1 projector) (pc_states pc) in
    let created := default observed_at (pb_created_at <$> pc_bindings pc !! projector) in
    let pc := advance_projector_seq pc in
    let pc := update_where (λ k _, String.eqb k.1 projector) (restarted (pc_seq pc) observed_at) pc in
    let binding := StoreBinding store_id schema_generation (pc_seq pc) created observed_at in
    ((true, count, pc_seq pc), set_bindings (<[projector := binding]> (pc_bindings pc)) pc).

(** [release_projector_claims_on_startup]: how many claims. *)
Definition stale_claim (active_worker_ids : list string) (key : string * string) (r : ProjectorState) : bool :=
  String.eqb (ps_status r) "claimed" && str_in key.1 KNOWN_PROJECTORS
  && (bool_decide (active_worker_ids = [])
      || match ps_worker_id r with None => true | Some w => negb (str_in w active_worker_ids) end).

Definition release_projector_claims_on_startup (pc : projector_catalog) (active_worker_ids : list string)
    (observed_at : Z) : Z * projector_catalog :=
  let count := count_where (stale_claim active_worker_ids) (pc_states pc) in
  if count =? 0 then (0, pc)
  else
    let pc := advance_projector_seq pc in
    (count, update_where (stale_claim active_worker_ids) (released_state (pc_seq pc) observed_at) pc).

(** [reap_retired_projector_states]: how many rows. *)
Definition reap_retired_projector_states (pc : projector_catalog) : Z * projector_catalog :=
  let retired := λ (k : string * string) (_ : ProjectorState), negb (str_in k.1 ACTIVE_PROJECTORS) in
  let count := count_where retired (pc_states pc) in
  if count =? 0 then (0, pc)
  else
    let pc := advance_projector_seq pc in
    (count, set_states (map_imap (λ k r, if retired k r then None else Some r) (pc_states pc)) pc).

(** ** [ensure_known_projector_states] *)

Definition irrelevant_semantic (pc : projector_catalog) (k : string * string) (_ : ProjectorState) : bool :=
  String.eqb k.1 SEMANTIC_PROJECTOR_ID
  && match pc_sessions pc !! k.2 with Some s => negb (String.eqb (lower (ss_provider s)) "claude") | None => false end.

Definition backfill_eligible (s : StorageSession) : bool :=
  negb (String.eqb (ss_user_state s) "deleted") && bool_decide (is_Some (ss_current_render_generation s))
  && String.eqb (ss_render_state s) "ready".

(** The wanted revisions of the known projectors. *)
Definition existing_revisions (states : projector_table) : gmap (string * string) Z :=
  map_imap (λ k r, if str_in k.1 KNOWN_PROJECTORS then Some (ps_desired_revision r) else None) states.

Definition add_missing (key : string * string) (revision : Z) (existing missing : gmap (string * string) Z) :
    gmap (string * string) Z :=
  if bool_decide (is_Some (existing !! key)) then missing else <[key := revision]> missing.

(** The rows that a ready session lacks. *)
Definition backfill_session (existing missing : gmap (string * string) Z) (session_id : string) (s : StorageSession) :
    gmap (string * string) Z :=
  let search_revision := default (ss_commit_seq s) (existing !! (SEARCH_PROJECTOR, session_id)) in
  let missing := if String.eqb (lower (strip (ss_provider s))) "claude" && (ss_semantic_projection_version s <? 1)
                 then add_missing (SEMANTIC_PROJECTOR_ID, session_id) (ss_commit_seq s) existing missing
                 else missing in
  let missing := add_missing (SEARCH_PROJECTOR, session_id) search_revision existing missing in
  add_missing (EMBEDDING_PROJECTOR_ID, session_id) search_revision existing missing.

(** Every search row has an embedding row. *)
Definition backfill_embedding (existing missing : gmap (string * string) Z) (key : string * string) (revision : Z) :
    gmap (string * string) Z :=
  let embedding_key := (EMBEDDING_PROJECTOR_ID, key.2) in
  if String.eqb key.1 SEARCH_PROJECTOR && bool_decide (existing !! embedding_key = None)
     && bool_decide (missing !! embedding_key = None)
  then <[embedding_key := revision]> missing else missing.

Definition missing_states (pc : projector_catalog) : gmap (string * string) Z :=
  let existing := existing_revisions (pc_states pc) in
  let ready := filter (λ kr, backfill_eligible kr.2 = true) (map_to_list (pc_sessions pc)) in
  let missing := foldl (λ m kr, backfill_session existing m kr.1 kr.2) ∅ ready in
  foldl (λ m kr, backfill_embedding existing m kr.1 kr.2) missing (map_to_list existing).

(** The search revision that an embedding row does not have yet. *)
Definition misaligned (states : projector_table) (k : string * string) (r : ProjectorState) : option Z :=
  if is_embedding k.1 then
    match states !! (SEARCH_PROJECTOR, k.2) with
    | Some s => if ps_desired_revision r =? ps_desired_revision s then None else Some (ps_desired_revision s)
    | None => None
    end
  else None.

(** A row of a retired session that wants less than the session's revision. *)
Definition behind_retired (pc : projector_catalog) (existing : gmap (string * string) Z) (k : string * string) :
    option Z :=
  match pc_sessions pc !! k.2, existing !! k with
  | Some s, Some current =>
      if String.eqb (ss_render_state s) "retired" && (current <? ss_commit_seq s) then Some (ss_commit_seq s) else None
  | _, _ => None
  end.

Definition ensure_known_projector_states (pc : projector_catalog) (now : Z) : projector_catalog :=
  let pc := set_states (map_imap (λ k r, if irrelevant_semantic pc k r then None else Some r) (pc_states pc)) pc in
  let existing := existing_revisions (pc_states pc) in
  let seq := pc_seq pc in
  let pc := set_states (((λ revision, idle_state revision seq now) <$> missing_states pc) ∪ pc_states pc) pc in
  let pc := set_states (map_imap (λ k r, Some match misaligned (pc_states pc) k r with
                                              | Some revision => aligned revision seq now r
                                              | None => r
                                              end) (pc_states pc)) pc in
  set_states (map_imap (λ k r, Some match behind_retired pc existing k with
                                    | Some revision => wanted_unclaimed revision seq now r
                                    | None => r
                                    end) (pc_states pc)) pc.

(** ** The catalog's own changes to the ledger *)

(** A commit wants its revision of its session: the projector block of
    [commit_raw_object]. *)
Definition want_revision (pc : projector_catalog) (session_id : string) (revision now : Z) (projector : string) :
    projector_catalog :=
  let key := (projector, session_id) in
  match pc_states pc !! key with
  | None => insert_state key (idle_state revision revision now) pc
  | Some r => if ps_desired_revision r <? revision then update_state key (wanted revision revision now) pc else pc
  end.

(** The deletion of a session wants every projector to follow it: the loop of
    [delete_storage_session]. *)
Definition want_deletion (pc : projector_catalog) (session_id : string) (revision now : Z) (projector : string) :
    projector_catalog :=
  let key := (projector, session_id) in
  match pc_states pc !! key with
  | None => insert_state key (idle_state revision revision now) pc
  | Some _ => update_state key (wanted_unclaimed revision revision now) pc
  end.

(** A session whose source was replaced by another session's: the loop of
    [commit_raw_object] over its rows. *)
Definition want_replacement (pc : projector_catalog) (session_id : string) (revision now : Z) (projector : string) :
    projector_catalog :=
  update_state (projector, session_id) (wanted_unclaimed revision revision now) pc.

(** The maintenance of the ledger when the daemon starts. *)
Definition projector_startup (pc : projector_catalog) (active_worker_ids : list string) (now : Z) : projector_catalog :=
  let pc := (reap_retired_projector_states pc).2 in
  let pc := ensure_known_projector_states pc now in
  (release_projector_claims_on_startup pc active_worker_ids now).2.

(** ** Reads *)

(** The rows that lag, by session. *)
Definition lag_rows (pc : projector_catalog) (projector : string) : list (string * ProjectorState) :=
  by_session (projector_rows projector (lag_counts pc projector) (pc_states pc)).

Definition minimum (l : list Z) : option Z := match l with [] => None | z :: l' => Some (foldl Z.min z l') end.

(** One below the least revision that a lagging row wants. *)
Definition indexed_through (pc : projector_catalog) (projector : string) : Z :=
  match minimum (map (λ sr, ps_desired_revision sr.2) (lag_rows pc projector)) with
  | Some first_lag_revision => first_lag_revision - 1
  | None => pc_seq pc
  end.

(** [list_projector_lag]: a page, the count and the watermark. *)
Definition list_projector_lag (pc : projector_catalog) (projector : string) (after_session_id : option string)
    (limit : Z) : list (string * ProjectorState) * Z * Z :=
  let rows := lag_rows pc projector in
  let after := match after_session_id with
               | None => rows
               | Some s => filter (λ sr, str_cmp s sr.1 = Lt) rows
               end in
  (take (Z.to_nat limit) after, Z.of_nat (length rows), indexed_through pc projector).

Record projector_coverage : Type := Coverage {
  co_store_binding : option ProjectorStoreBinding;
  co_lag_count : Z;
  co_indexed_through : Z;
  co_oldest_lag_at : option Z;
  co_commit_seq : Z;
}.

(** [read_projector_coverage]. *)
Definition read_projector_coverage (pc : projector_catalog) (projector : string) : projector_coverage :=
  let rows := lag_rows pc projector in
  Coverage (pc_bindings pc !! projector) (Z.of_nat (length rows)) (indexed_through pc projector)
    (minimum (map (λ sr, default (ps_created_at sr.2) (ps_desired_at sr.2)) rows)) (pc_seq pc).
End Projectors.
