(* ===== verification/ProjectorServer.v ===== *)
(** * The RPC handlers of the projector queue

    Models the [projector.*] methods of [catalogd/server.py]: the validation of
    their parameters, and how the store's answers become errors. *)

From S2P Require Import Prelude PyStr PyTime PyValue MachineEvidence PyText InputServer ProjectorQueue.

Open Scope list_scope.
Open Scope Z_scope.

(** What a storage method answers: the error codes and the result. *)
Inductive storage_rpc (A : Type) : Type :=
  | InvalidRequest (message : string)
  | ConflictError (message : string)
  | SessionDeleted (deletion_revision : Z)
  | NotFound (message : string)
  | Result (result : A).

Arguments InvalidRequest {A} message.
Arguments ConflictError {A} message.
Arguments SessionDeleted {A} deletion_revision.
Arguments NotFound {A} message.
Arguments Result {A} result.

(** A [ValueError] of the validation answers [invalid_request]. *)
Definition validated {A B} (checked : res A) (k : A → res (storage_rpc B)) : res (storage_rpc B) :=
  match checked with Ok a => k a | Err (ValueError message) => Ok (InvalidRequest message) | Err e => Err e end.

(** As above, for a method that writes. *)
Definition validated_write {A B S} (st : S) (checked : res A) (k : A → res (storage_rpc B * S)) :
    res (storage_rpc B * S) :=
  match checked with Ok a => k a | Err (ValueError message) => Ok (InvalidRequest message, st) | Err e => Err e end.

(** [_PROJECTOR_RE.fullmatch] and [_projector_name]. *)
Definition is_alnum_lower (c : ascii) : bool := let n := code c in (((97 <=? n) && (n <=? 122)) || ((48 <=? n) && (n <=? 57)))%nat.

Definition is_projector_char (c : ascii) : bool :=
  is_alnum_lower c || (code c =? 95)%nat || (code c =? 46)%nat || (code c =? 45)%nat.

Definition projector_name (value : pyval) : res string :=
  match value with
  | VStr (String c rest as s) =>
      let! _ := guard (is_alnum_lower c && str_forall is_projector_char rest && (String.length rest <=? 63)%nat)
                  (ValueError "projector must be canonical lowercase ASCII") in
      Ok s
  | _ => Err (ValueError "projector must be canonical lowercase ASCII")
  end.

(** [_canonical_uuid], as its text. *)
Definition canonical_uuid (value : pyval) (field : string) : res string :=
  let! _ := guard (is_canonical_uuid value) (ValueError (field +:+ " must be a canonical UUID")) in Ok (the_str value).

(** [_bounded_text]. *)
Definition bounded_text (value : pyval) (field : string) (maximum_bytes : nat) : res string :=
  match value with
  | VStr s =>
      let! _ := guard (str_truthy s) (ValueError (field +:+ " must be a non-empty string")) in
      let! _ := guard (String.length (utf8_encode s) <=? maximum_bytes)%nat
                  (ValueError (field +:+ " exceeds its UTF-8 bytes")) in
      Ok s
  | _ => Err (ValueError (field +:+ " must be a non-empty string"))
  end.

(** [_revision]. *)
Definition revision (value : pyval) (field : string) : res Z :=
  match value with
  | VInt z =>
      let! _ := guard ((0 <=? z) && (z <? 2 ^ 63)) (ValueError (field +:+ " must be a non-negative signed 64-bit integer")) in
      Ok z
  | _ => Err (ValueError (field +:+ " must be a non-negative signed 64-bit integer"))
  end.

(** [type(value) is int and low <= value <= high]. *)
Definition int_between (low high : Z) (value : pyval) : bool :=
  match value with VInt z => (low <=? z) && (z <=? high) | _ => false end.

Section Handlers.
Context (other_form : string → option datetime) (embedding_artifact : string).

Definition instant_of (value : pyval) (field : string) : res Z := instant <$> parse_datetime other_form value field.

(** [_validate_projector_identity]. *)
Definition projector_identity (params : list (string * pyval)) : res (string * string) :=
  let! projector := projector_name (assoc "projector" params) in
  let! session_id := canonical_uuid (assoc "session_id" params) "session_id" in
  Ok (projector, session_id).

Definition handle_advance (pc : projector_catalog) (params : list (string * pyval)) (commit_time : Z) :
    res (storage_rpc (option advance_answer) * projector_catalog) :=
  if negb (has_fields ["projector"; "session_id"; "desired_revision"; "observed_at"]%string params)
  then Ok (InvalidRequest "projector.state.advance.v2 has invalid parameters", pc)
  else
    validated_write pc
      (let! identity := projector_identity params in
       let! desired := revision (assoc "desired_revision" params) "desired_revision" in
       let! _ := instant_of (assoc "observed_at" params) "observed_at" in
       Ok (identity, desired))
      (λ '(projector, session_id, desired),
       let '(answer, pc') := advance_projector_state pc projector session_id desired commit_time in
       Ok (match answer with Some (AdvanceDeleted deletion _) => SessionDeleted deletion | _ => Result answer end, pc')).

Definition handle_claim_lag (pc : projector_catalog) (params : list (string * pyval)) (commit_time : Z) :
    res (storage_rpc lag_claim_answer * projector_catalog) :=
  let get name := assoc name params in
  if negb (has_fields ["projector"; "worker_id"; "claim_token"; "now"; "lease_seconds"; "limit"]%string params)
  then Ok (InvalidRequest "projector.state.claim.v2 has invalid parameters", pc)
  else
    validated_write pc
      (let! projector := projector_name (get "projector"%string) in
       let! worker_id := bounded_text (get "worker_id"%string) "worker_id" 255 in
       let! claim_token := canonical_uuid (get "claim_token"%string) "claim_token" in
       let! now := instant_of (get "now"%string) "now" in
       Ok (projector, worker_id, claim_token, now))
      (λ '(projector, worker_id, claim_token, now),
       if negb (int_between 1 3600 (get "lease_seconds"%string))
       then Ok (InvalidRequest "lease_seconds must be an integer from 1 through 3600", pc)
       else if negb (int_between 1 100 (get "limit"%string))
       then Ok (InvalidRequest "limit must be an integer from 1 through 100", pc)
       else
         let '(answer, pc') := claim_projector_lag embedding_artifact pc projector worker_id claim_token now
           (default 0 (as_int (get "lease_seconds"%string))) (default 0 (as_int (get "limit"%string))) commit_time in
         Ok (match answer with
             | ClaimConflict _ => ConflictError "projector claim token conflicts with catalog state"
             | Claimed _ _ _ => Result answer
             end, pc')).

(** How both ends of a claim answer. *)
Definition settled_rpc (message : string) (outcome : settle_answer * projector_catalog) :
    res (storage_rpc settle_answer * projector_catalog) :=
  Ok (match outcome.1 with SettleConflict _ => ConflictError message | _ => Result outcome.1 end, outcome.2).

Definition handle_complete (pc : projector_catalog) (params : list (string * pyval)) (commit_time : Z) :
    res (storage_rpc settle_answer * projector_catalog) :=
  if negb (has_fields ["projector"; "session_id"; "claim_token"; "completed_revision"; "completed_at"]%string params)
  then Ok (InvalidRequest "projector.state.complete.v2 has invalid parameters", pc)
  else
    validated_write pc
      (let! identity := projector_identity params in
       let! claim_token := canonical_uuid (assoc "claim_token" params) "claim_token" in
       let! completed := revision (assoc "completed_revision" params) "completed_revision" in
       let! _ := instant_of (assoc "completed_at" params) "completed_at" in
       Ok (identity, claim_token, completed))
      (λ '(projector, session_id, claim_token, completed),
       settled_rpc "projector completion does not match the active claim"
         (complete_projector_claim pc projector session_id claim_token completed commit_time)).

Definition handle_fail (pc : projector_catalog) (params : list (string * pyval)) (commit_time : Z) :
    res (storage_rpc settle_answer * projector_catalog) :=
  let get name := assoc name params in
  if negb (has_fields ["projector"; "session_id"; "claim_token"; "error_code"; "error_message"; "failed_at"; "retry_at"]%string
             params)
  then Ok (InvalidRequest "projector.state.fail.v2 has invalid parameters", pc)
  else
    validated_write pc
      (let! identity := projector_identity params in
       let! claim_token := canonical_uuid (get "claim_token"%string) "claim_token" in
       let! error_code := bounded_text (get "error_code"%string) "error_code" 64 in
       let! error_message := if is_none (get "error_message"%string) then Ok None
                             else Some <$> bounded_text (get "error_message"%string) "error_message" 2048 in
       let! failed_at := instant_of (get "failed_at"%string) "failed_at" in
       let! retry_at := instant_of (get "retry_at"%string) "retry_at" in
       Ok (identity, claim_token, error_code, error_message, failed_at, retry_at))
      (λ '(projector, session_id, claim_token, error_code, error_message, failed_at, retry_at),
       if retry_at <? failed_at then Ok (InvalidRequest "retry_at must not precede failed_at", pc)
       else settled_rpc "projector failure does not match the active claim"
              (fail_projector_claim pc projector session_id claim_token error_code error_message retry_at commit_time)).

Definition handle_list_lag (pc : projector_catalog) (params : list (string * pyval)) :
    res (storage_rpc (list (string * ProjectorState) * Z * Z)) :=
  if negb (has_fields ["projector"; "after_session_id"; "limit"]%string params)
  then Ok (InvalidRequest "projector.state.list_lag.v2 has invalid parameters")
  else
    validated
      (let! projector := projector_name (assoc "projector" params) in
       let! after := if is_none (assoc "after_session_id" params) then Ok None
                     else Some <$> canonical_uuid (assoc "after_session_id" params) "after_session_id" in
       Ok (projector, after))
      (λ '(projector, after),
       if negb (int_between 1 1000 (assoc "limit" params))
       then Ok (InvalidRequest "limit must be an integer from 1 through 1000")
       else Ok (Result (list_projector_lag pc projector after (default 0 (as_int (assoc "limit" params)))))).

Definition handle_coverage (pc : projector_catalog) (params : list (string * pyval)) :
    res (storage_rpc projector_coverage) :=
  if negb (has_fields ["projector"]%string params)
  then Ok (InvalidRequest "projector.coverage.read.v2 has invalid parameters")
  else validated (projector_name (assoc "projector" params)) (λ projector, Ok (Result (read_projector_coverage pc projector))).

Definition handle_requeue (pc : projector_catalog) (params : list (string * pyval)) :
    res (storage_rpc requeue_answer * projector_catalog) :=
  if negb (has_fields ["projector"; "session_ids"; "observed_at"]%string params)
  then Ok (InvalidRequest "projector.state.requeue.v2 has invalid parameters", pc)
  else
    validated_write pc
      (let! projector := projector_name (assoc "projector" params) in
       match assoc "session_ids" params with
       | VList raw_session_ids =>
           let! _ := guard (int_between 1 100 (VInt (Z.of_nat (length raw_session_ids))))
                       (ValueError "session_ids must contain from 1 through 100 UUIDs") in
           let! session_ids := map_res (λ value, canonical_uuid value "session_ids") raw_session_ids in
           let! _ := guard (bool_decide (NoDup session_ids)) (ValueError "session_ids must be unique") in
           let! observed_at := instant_of (assoc "observed_at" params) "observed_at" in
           Ok (projector, session_ids, observed_at)
       | _ => Err (ValueError "session_ids must contain from 1 through 100 UUIDs")
       end)
      (λ '(projector, session_ids, observed_at),
       let '(answer, pc') := requeue_projector_states pc projector session_ids observed_at in
       Ok (if bool_decide (ra_missing answer = []) then Result answer
           else NotFound "one or more projector states do not exist", pc')).

Definition handle_bind (pc : projector_catalog) (params : list (string * pyval)) :
    res (storage_rpc (bool * Z * Z) * projector_catalog) :=
  if negb (has_fields ["projector"; "store_id"; "schema_generation"; "observed_at"]%string params)
  then Ok (InvalidRequest "projector.store.bind.v2 has invalid parameters", pc)
  else
    validated_write pc
      (let! projector := projector_name (assoc "projector" params) in
       let! store_id := canonical_uuid (assoc "store_id" params) "store_id" in
       let! schema_generation := bounded_text (assoc "schema_generation" params) "schema_generation" 128 in
       let! observed_at := instant_of (assoc "observed_at" params) "observed_at" in
       Ok (projector, store_id, schema_generation, observed_at))
      (λ '(projector, store_id, schema_generation, observed_at),
       let '(answer, pc') := bind_projector_store pc projector store_id schema_generation observed_at in
       Ok (Result answer, pc')).
End Handlers.
