(* ===== verification/LedgerLaws.v ===== *)
(** * Laws of the projector ledger

    The life of one row as a relation, and that every call of
    [ProjectorQueue] moves every row by it. *)

From S2P Require Import Prelude PyStr PyTime ProjectorQueue.

Open Scope list_scope.
Open Scope Z_scope.

(** ** The life of a row *)

(** Whether a row is claimed, and what of it. *)
Definition claim_ok (r : ProjectorState) : Prop :=
  match ps_claimed_revision r, ps_claim_token r, ps_worker_id r, ps_claim_expires_at r with
  | Some claimed, Some _, Some _, Some _ =>
      ps_status r = "claimed"%string ∧ ps_completed_revision r < claimed <= ps_desired_revision r ∧ ps_retry_at r = None
  | None, None, None, None => ps_status r ≠ "claimed"%string
  | _, _, _, _ => False
  end.

Record row_ok (r : ProjectorState) : Prop := {
  rk_completed : 0 <= ps_completed_revision r;
  rk_failures : 0 <= ps_failure_count r;
  rk_claim : claim_ok r;
}.

Definition slot_ok (slot : option ProjectorState) : Prop := match slot with Some r => row_ok r | None => True end.

Definition rows_ok (states : projector_table) : Prop := map_Forall (λ _ r, row_ok r) states.

Lemma rows_ok_slots states : rows_ok states ↔ ∀ key, slot_ok (states !! key).
Proof. unfold rows_ok, map_Forall. split; [intros H key; destruct (states !! key) eqn:E; simpl; eauto|]. intros H k r E. specialize (H k). by rewrite E in H. Qed.

(** The claim of a sound row, with its four columns. *)
Lemma claim_ok_cases r : claim_ok r →
  (∃ c t w e, ps_claimed_revision r = Some c ∧ ps_claim_token r = Some t ∧ ps_worker_id r = Some w ∧
     ps_claim_expires_at r = Some e ∧ ps_status r = "claimed"%string ∧ ps_completed_revision r < c <= ps_desired_revision r ∧
     ps_retry_at r = None) ∨
  (ps_claimed_revision r = None ∧ ps_claim_token r = None ∧ ps_worker_id r = None ∧ ps_claim_expires_at r = None ∧
   ps_status r ≠ "claimed"%string).
Proof. unfold claim_ok. intros H. repeat case_match; try done; [left|right]; naive_solver. Qed.

Lemma lease_lost_spec r : lease_lost r = true ↔ ps_status r = "claimed"%string.
Proof. apply String.eqb_eq. Qed.

Lemma failed_before_unclaimed r : failed_before r = true → ps_status r ≠ "claimed"%string.
Proof. unfold failed_before. intros H E. rewrite E in H. by vm_compute in H. Qed.

(** [T] holds of the tokens that claims may use. *)
Section Moves.
Context (T : string → Prop).

Inductive ledger_move : option ProjectorState → option ProjectorState → Prop :=
  | MoveNew desired seq now : ledger_move None (Some (idle_state desired seq now))
  | MoveGone r : ledger_move (Some r) None
  | MoveWant r desired seq now : ps_desired_revision r <= desired → ledger_move (Some r) (Some (wanted desired seq now r))
  | MoveAfresh r desired seq now :
      failed_before r = true → ps_desired_revision r <= desired →
      ledger_move (Some r) (Some (wanted_afresh desired seq now r))
  | MoveUnclaim r desired seq now : ledger_move (Some r) (Some (wanted_unclaimed desired seq now r))
  | MoveAlign r desired seq now : ledger_move (Some r) (Some (aligned desired seq now r))
  | MoveRestart r seq now : ledger_move (Some r) (Some (restarted seq now r))
  | MoveClaim r claim_token worker_id claimed expires_at seq now :
      T claim_token → ps_completed_revision r < claimed <= ps_desired_revision r →
      ledger_move (Some r) (Some (claimed_state claim_token worker_id claimed expires_at seq now r))
  | MoveComplete r claim_token completed seq now :
      ps_claim_token r = Some claim_token → ps_claimed_revision r = Some completed →
      completed <= ps_desired_revision r →
      ledger_move (Some r) (Some (completed_state claim_token completed seq now r))
  | MoveFail r claim_token error_code error_message retry_at seq now :
      ps_claim_token r = Some claim_token → is_Some (ps_claimed_revision r) →
      ledger_move (Some r) (Some (failed_state claim_token error_code error_message retry_at seq now r))
  | MoveRelease r seq now : ps_status r = "claimed"%string → ledger_move (Some r) (Some (released_state seq now r)).

Definition ledger_moves : option ProjectorState → option ProjectorState → Prop := rtc ledger_move.

Lemma ledger_move_ok slot slot' : ledger_move slot slot' → slot_ok slot → slot_ok slot'.
Proof.
  intros Hm Hok. destruct Hm; simpl in *; try done; try destruct Hok as [Hc Hf Hcl]; split; simpl; try done; try lia.
  - apply claim_ok_cases in Hcl. unfold claim_ok; simpl. destruct Hcl as [(c & t & w & e & -> & -> & -> & -> & -> & ? & ->)|(-> & -> & -> & -> & ?)]; [|done].
    split_and!; lia || done.
  - apply claim_ok_cases in Hcl. apply failed_before_unclaimed in H. unfold claim_ok; simpl.
    destruct Hcl as [(c & t & w & e & _ & _ & _ & _ & ? & _)|(-> & -> & -> & -> & _)]; done.
  - destruct (lease_lost r); lia.
  - apply claim_ok_cases in Hcl as [(c & t & w & e & Hcr & _ & _ & _ & _ & ? & _)|(Hcr & _)]; rewrite Hcr in *; [|done].
    simplify_eq. lia.
Qed.

Lemma ledger_moves_ok slot slot' : ledger_moves slot slot' → slot_ok slot → slot_ok slot'.
Proof. induction 1; eauto using ledger_move_ok. Qed.

(** ** Tables *)

(** Every row moves by the life of a row. *)
Definition table_moves (states states' : projector_table) : Prop := ∀ key, ledger_moves (states !! key) (states' !! key).

#[export] Instance table_moves_preorder : PreOrder table_moves.
Proof. split; [intros st key; apply rtc_refl|]. intros s1 s2 s3 H1 H2 key. by etrans; [apply H1|apply H2]. Qed.

Lemma table_moves_ok states states' : table_moves states states' → rows_ok states → rows_ok states'.
Proof. rewrite !rows_ok_slots. intros Hm Hok key. eauto using ledger_moves_ok. Qed.

Lemma moves_one slot slot' : ledger_move slot slot' → ledger_moves slot slot'.
Proof. apply rtc_once. Qed.

Lemma insert_moves key r states : ledger_moves (states !! key) (Some r) → table_moves states (<[key := r]> states).
Proof. intros H key'. destruct (decide (key' = key)) as [->|]; [by rewrite lookup_insert_eq|by rewrite lookup_insert_ne]. Qed.

Lemma alter_moves key f states : (∀ r, states !! key = Some r → ledger_moves (Some r) (Some (f r))) →
  table_moves states (alter f key states).
Proof.
  intros H key'. destruct (decide (key' = key)) as [->|]; [rewrite lookup_alter_eq|by rewrite lookup_alter_ne].
  destruct (states !! key) eqn:E; simpl; [by apply H|apply rtc_refl].
Qed.

Lemma imap_moves f states : (∀ key r, states !! key = Some r → ledger_moves (Some r) (f key r)) →
  table_moves states (map_imap f states).
Proof.
  intros H key. rewrite map_lookup_imap. destruct (states !! key) eqn:E; simpl; [by apply H|apply rtc_refl].
Qed.

Lemma update_where_moves P f pc : (∀ key r, P key r = true → ledger_move (Some r) (Some (f r))) →
  table_moves (pc_states pc) (pc_states (update_where P f pc)).
Proof. intros H. apply imap_moves. intros key r _. destruct (P key r) eqn:HP; [apply moves_one; eauto|apply rtc_refl]. Qed.

Lemma filter_moves (P : string * string → ProjectorState → bool) states :
  table_moves states (map_imap (λ k r, if P k r then None else Some r) states).
Proof. apply imap_moves. intros key r _. destruct (P key r); [apply moves_one; constructor|apply rtc_refl]. Qed.

(** ** Selections *)

Lemma elem_of_projector_rows projector P states sr :
  sr ∈ projector_rows projector P states ↔ states !! (projector, sr.1) = Some sr.2 ∧ P sr.1 sr.2 = true.
Proof.
  unfold projector_rows. rewrite list_elem_of_fmap. split.
  - intros ([[p s] r] & -> & [H%andb_true_iff Hin]%list_elem_of_filter). simpl in *. destruct H as [->%String.eqb_eq HP].
    by apply elem_of_map_to_list in Hin.
  - intros [Hr HP]. exists ((projector, sr.1), sr.2). split; [by destruct sr|]. apply list_elem_of_filter.
    rewrite elem_of_map_to_list. simpl. by rewrite String.eqb_refl, HP.
Qed.

Lemma NoDup_projector_rows projector P states : NoDup (map fst (projector_rows projector P states)).
Proof.
  unfold projector_rows. rewrite map_map. cbn [fst]. apply NoDup_fmap_2_strong; [|apply NoDup_filter, NoDup_map_to_list].
  intros [[p1 s1] r1] [[p2 s2] r2] [Hp1%andb_true_iff H1]%list_elem_of_filter [Hp2%andb_true_iff H2]%list_elem_of_filter E.
  simpl in *. subst s2. destruct Hp1 as [->%String.eqb_eq _], Hp2 as [->%String.eqb_eq _].
  apply elem_of_map_to_list in H1, H2. congruence.
Qed.


(** ** The calls *)

Section Calls.
Context (embedding_artifact : string).

Lemma lookup_update_where P f pc key :
  pc_states (update_where P f pc) !! key = (λ r, if P key r then f r else r) <$> pc_states pc !! key.
Proof. unfold update_where; simpl. rewrite map_lookup_imap. by destruct (_ !! key). Qed.

Lemma advance_moves pc projector session_id desired now :
  table_moves (pc_states pc) (pc_states (advance_projector_state pc projector session_id desired now).2).
Proof.
  unfold advance_projector_state. destruct (pc_tombstones pc !! session_id); [done|].
  destruct (pc_states pc !! (projector, session_id)) as [r|] eqn:Hr.
  - destruct (desired <=? ps_desired_revision r) eqn:Hd; [done|]. apply Z.leb_gt in Hd.
    apply alter_moves. simpl. intros r' Hr'. assert (r' = r) as -> by congruence. apply moves_one.
    destruct (failed_before r) eqn:Hf; constructor; lia || done.
  - apply insert_moves. simpl. rewrite Hr. apply moves_one. constructor.
Qed.

(** *** The claim *)

(** The rows a claim takes, and what it leaves alone. *)
Lemma claim_rows_lookup pc projector worker_id claim_token e s now l pc' :
  NoDup (map fst l) → (∀ x, x ∈ l → pc_states pc' !! (projector, x.1) = Some x.2) →
  let pc1 := foldl (claim_row_of embedding_artifact pc projector worker_id claim_token e s now) pc' l in
  (∀ x, x ∈ l → pc_states pc1 !! (projector, x.1) =
     Some (claimed_state claim_token worker_id (claimed_revision embedding_artifact pc projector x.1 x.2) e s now x.2)) ∧
  (∀ key, (∀ x, x ∈ l → key ≠ (projector, x.1)) → pc_states pc1 !! key = pc_states pc' !! key).
Proof.
  revert pc'. induction l as [|x l IH]; intros pc' Hnd Hin pc1; [split; [by intros x ?%not_elem_of_nil|done]|].
  apply NoDup_cons in Hnd as [Hx Hnd]. subst pc1. simpl.
  set (pc2 := claim_row_of _ _ _ _ _ _ _ _ pc' x).
  assert (∀ y, y ∈ l → (projector, y.1) ≠ (projector, x.1)) as Hne.
  { intros y Hy [= E]. apply Hx, list_elem_of_fmap. exists y. by rewrite E. }
  destruct (IH pc2 Hnd) as [IH1 IH2].
  { intros y Hy. unfold pc2, claim_row_of, update_state; simpl. rewrite lookup_alter_ne by (intros E; symmetry in E; by apply (Hne y Hy)).
    apply Hin. by right. }
  split.
  - intros y [->|Hy]%elem_of_cons; [|by apply IH1]. rewrite IH2 by (intros z Hz E; symmetry in E; by apply (Hne z Hz)).
    unfold pc2, claim_row_of, update_state; simpl. by rewrite lookup_alter_eq, Hin by left.
  - intros key Hkey. rewrite IH2 by (intros z Hz; apply Hkey; by right).
    unfold pc2, claim_row_of, update_state; simpl. rewrite lookup_alter_ne; [done|]. intros E. by apply (Hkey x); [left|].
Qed.

Lemma claim_rows_frame pc projector worker_id claim_token e s now l pc' :
  foldl (claim_row_of embedding_artifact pc projector worker_id claim_token e s now) pc' l =
  set_states (pc_states (foldl (claim_row_of embedding_artifact pc projector worker_id claim_token e s now) pc' l)) pc'.
Proof.
  revert pc'. induction l as [|x l IH]; intros pc'; simpl; [by destruct pc'|]. by rewrite IH at 1.
Qed.

Definition fresh_token (claim_token projector : string) (pc : projector_catalog) : Prop :=
  projector_rows projector (holds_claim claim_token) (pc_states pc) = [] ∧
  projector_rows projector (ended_claim claim_token) (pc_states pc) = [].

Definition due_rows (pc : projector_catalog) (projector : string) (now limit : Z) : list (string * ProjectorState) :=
  take (Z.to_nat limit) (eligible_rows embedding_artifact pc projector now).

Lemma elem_of_eligible pc projector now x : x ∈ eligible_rows embedding_artifact pc projector now ↔
  pc_states pc !! (projector, x.1) = Some x.2 ∧ claimable embedding_artifact pc projector now x.1 x.2 = true.
Proof. unfold eligible_rows. rewrite (sort_on_perm age_cmp age). apply elem_of_projector_rows. Qed.

Lemma elem_of_due pc projector now limit x : x ∈ due_rows pc projector now limit →
  pc_states pc !! (projector, x.1) = Some x.2 ∧ claimable embedding_artifact pc projector now x.1 x.2 = true.
Proof. intros Hx. apply elem_of_eligible. eapply elem_of_sublist; [apply Hx|apply sublist_take]. Qed.

Lemma NoDup_due pc projector now limit : NoDup (map fst (due_rows pc projector now limit)).
Proof.
  eapply sublist_NoDup; [|apply fmap_sublist, sublist_take].
  unfold eligible_rows. rewrite (sort_on_perm age_cmp age). apply NoDup_projector_rows.
Qed.

Lemma lag_claim_cases pc projector worker_id claim_token now lease limit commit_time answer pc' :
  claim_projector_lag embedding_artifact pc projector worker_id claim_token now lease limit commit_time = (answer, pc') →
  let taken x := claimed_state claim_token worker_id (claimed_revision embedding_artifact pc projector x.1 x.2)
                   (now + lease * US_PER_SECOND) (pc_seq pc + 1) commit_time x.2 in
  (pc' = pc ∧ ∀ rows seq, answer = Claimed rows false seq → rows = [] ∧ due_rows pc projector now limit = []) ∨
  (fresh_token claim_token projector pc ∧
   answer = Claimed (map (λ x, (x.1, taken x)) (due_rows pc projector now limit)) false (pc_seq pc + 1) ∧
   (∀ x, x ∈ due_rows pc projector now limit → pc_states pc' !! (projector, x.1) = Some (taken x)) ∧
   (∀ key, (∀ x, x ∈ due_rows pc projector now limit → key ≠ (projector, x.1)) → pc_states pc' !! key = pc_states pc !! key)).
Proof.
  intros H taken. unfold claim_projector_lag, fresh_token in *.
  destruct (by_session _) as [|first rest] eqn:Hby.
  2: { left. case_match; simplify_eq; (split; [done|intros; by simplify_eq]). }
  assert (projector_rows projector (holds_claim claim_token) (pc_states pc) = []) as Hheld.
  { unfold by_session in Hby. pose proof (sort_on_perm str_cmp fst (projector_rows projector (holds_claim claim_token) (pc_states pc))) as Hp.
    rewrite Hby in Hp. by apply Permutation_nil in Hp. }
  destruct (head _) as [ended|] eqn:Hhd; [left; simplify_eq; (split; [done|intros; by simplify_eq])|].
  assert (projector_rows projector (ended_claim claim_token) (pc_states pc) = []) as Hended
    by (destruct (projector_rows _ (ended_claim _) _); done).
  fold (due_rows pc projector now limit) in H.
  pose proof (claim_rows_lookup pc projector worker_id claim_token (now + lease * US_PER_SECOND) (pc_seq pc + 1) commit_time
    (due_rows pc projector now limit) (advance_projector_seq pc) (NoDup_due _ _ _ _)) as Hlook.
  destruct Hlook as [H1 H2]; [intros x Hx; by apply elem_of_due in Hx as [? _]|].
  destruct (due_rows pc projector now limit) as [|x l] eqn:Hdue; [left; simplify_eq; split; [done|intros ?? [= <- _]; done]|].
  right. rewrite <- Hdue in *. apply pair_equal_spec in H as [<- <-]. split_and!; try done. f_equal.
  2: { by rewrite claim_rows_frame. }
  assert (∀ l', (∀ y, y ∈ l' → y ∈ due_rows pc projector now limit) →
    omap (λ e, pair e.1 <$> pc_states (foldl (claim_row_of embedding_artifact pc projector worker_id claim_token
      (now + lease * US_PER_SECOND) (pc_seq pc + 1) commit_time) (advance_projector_seq pc) (due_rows pc projector now limit))
      !! (projector, e.1)) l' = map (λ y, (y.1, taken y)) l') as Hom; [|by apply Hom].
  induction l' as [|y l' IH]; intros Hin; [done|]. simpl. rewrite H1 by (apply Hin; by left). simpl.
  f_equal. apply IH. intros z Hz. apply Hin. by right.
Qed.

(** A claim takes more than is done and at most what is wanted. *)
Lemma claimed_revision_bounds pc projector now session_id r :
  rows_ok (pc_states pc) → pc_states pc !! (projector, session_id) = Some r →
  claimable embedding_artifact pc projector now session_id r = true →
  ps_completed_revision r < claimed_revision embedding_artifact pc projector session_id r <= ps_desired_revision r.
Proof.
  intros Hok Hr Hc. unfold claimable, lag_counts, lagging in Hc. apply Hok in Hr as [Hz _ _].
  apply andb_true_iff in Hc as [[[[Hl%Z.ltb_lt _]%andb_true_iff _]%andb_true_iff _]%andb_true_iff He].
  unfold claimed_revision. destruct (is_embedding _ _); [|lia].
  unfold search_completed in *. destruct (_ !! (SEARCH_PROJECTOR, _)) as [s|]; [|done].
  destruct (ps_completed_revision r <? ps_completed_revision s) eqn:Hs; [|done]. apply Z.ltb_lt in Hs.
  destruct (_ =? 0) eqn:E0; lia.
Qed.

Lemma lag_claim_moves pc projector worker_id claim_token now lease limit commit_time :
  rows_ok (pc_states pc) → T claim_token →
  table_moves (pc_states pc)
    (pc_states (claim_projector_lag embedding_artifact pc projector worker_id claim_token now lease limit commit_time).2).
Proof.
  intros Hok HT. destruct (claim_projector_lag _ _ _ _ _ _ _ _ _) as [answer pc'] eqn:H.
  apply lag_claim_cases in H as [[-> _]|(_ & _ & Hin & Hout)]; [done|]. intros key. simpl.
  destruct (decide (Exists (λ x, key = (projector, x.1)) (due_rows pc projector now limit))) as [E|E].
  - apply Exists_exists in E as (x & Hx & ->). rewrite (Hin x Hx). apply elem_of_due in Hx as [Hr Hc]. rewrite Hr.
    apply moves_one, MoveClaim; [done|]. by eapply claimed_revision_bounds.
  - rewrite Hout; [apply rtc_refl|]. intros x Hx ->. apply E, Exists_exists. by exists x.
Qed.

(** *** The ends of a claim *)

Lemma settle_states pc key f r : pc_states (settle_claim pc key f r).2 = <[key := f (pc_seq pc + 1) r]> (pc_states pc).
Proof. done. Qed.

Lemma complete_cases pc projector session_id claim_token completed now :
  let out := complete_projector_claim pc projector session_id claim_token completed now in
  (out.2 = pc ∧ ∀ s q, out.1 ≠ Settled s q) ∨
  ∃ r, pc_states pc !! (projector, session_id) = Some r ∧ ps_claim_token r = Some claim_token ∧
    ps_claimed_revision r = Some completed ∧ completed <= ps_desired_revision r ∧
    out = settle_claim pc (projector, session_id) (λ seq, completed_state claim_token completed seq now) r.
Proof.
  unfold complete_projector_claim; cbv zeta. destruct (_ !! _) as [r|] eqn:Hr; [|by left].
  destruct (_ && _); [by left|].
  destruct (opt_is (ps_claim_token r) claim_token) eqn:Ht; cbn [negb orb]; [|by left].
  destruct (bool_decide (ps_claimed_revision r = Some completed)) eqn:Hc; cbn [negb orb]; [|by left].
  destruct (ps_desired_revision r <? completed) eqn:Hd; [by left|]. right. exists r.
  apply bool_decide_eq_true in Hc. apply Z.ltb_ge in Hd. by apply opt_is_spec in Ht.
Qed.

Lemma fail_cases pc projector session_id claim_token code message retry_at now :
  let out := fail_projector_claim pc projector session_id claim_token code message retry_at now in
  (out.2 = pc ∧ ∀ s q, out.1 ≠ Settled s q) ∨
  ∃ r, pc_states pc !! (projector, session_id) = Some r ∧ ps_claim_token r = Some claim_token ∧
    is_Some (ps_claimed_revision r) ∧
    out = settle_claim pc (projector, session_id)
            (λ seq, failed_state claim_token code message (effective_retry_at code now retry_at) seq now) r.
Proof.
  unfold fail_projector_claim; cbv zeta. destruct (_ !! _) as [r|] eqn:Hr; [|by left].
  destruct (opt_is (ps_last_failure_token r) _); [by left|].
  destruct (opt_is (ps_claim_token r) claim_token) eqn:Ht; cbn [negb orb]; [|by left].
  destruct (ps_claimed_revision r) as [c|] eqn:Hc; [|by left]. right. exists r. apply opt_is_spec in Ht. eauto.
Qed.

Lemma complete_moves pc projector session_id claim_token completed now :
  table_moves (pc_states pc) (pc_states (complete_projector_claim pc projector session_id claim_token completed now).2).
Proof.
  destruct (complete_cases pc projector session_id claim_token completed now) as [[-> _]|(r & Hr & Ht & Hc & Hd & ->)]; [done|].
  rewrite settle_states. apply insert_moves. rewrite Hr. by apply moves_one, MoveComplete.
Qed.

Lemma fail_moves pc projector session_id claim_token code message retry_at now :
  table_moves (pc_states pc)
    (pc_states (fail_projector_claim pc projector session_id claim_token code message retry_at now).2).
Proof.
  destruct (fail_cases pc projector session_id claim_token code message retry_at now) as [[-> _]|(r & Hr & Ht & Hc & ->)]; [done|].
  rewrite settle_states. apply insert_moves. rewrite Hr. by apply moves_one, MoveFail.
Qed.

(** *** Repairs and the catalog's own changes *)

Lemma requeue_moves pc projector session_ids now :
  table_moves (pc_states pc) (pc_states (requeue_projector_states pc projector session_ids now).2).
Proof.
  unfold requeue_projector_states. destruct (negb _); [done|]. destruct (bool_decide _); [done|].
  apply (update_where_moves _ _ (advance_projector_seq pc)). constructor.
Qed.

Lemma bind_moves pc projector store_id generation now :
  table_moves (pc_states pc) (pc_states (bind_projector_store pc projector store_id generation now).2).
Proof.
  unfold bind_projector_store. destruct (match pc_bindings pc !! projector with Some _ => _ | None => _ end); [done|].
  apply (update_where_moves _ _ (advance_projector_seq pc)). constructor.
Qed.

Lemma release_moves pc workers now :
  table_moves (pc_states pc) (pc_states (release_projector_claims_on_startup embedding_artifact pc workers now).2).
Proof.
  unfold release_projector_claims_on_startup. destruct (_ =? 0); [done|].
  apply (update_where_moves _ _ (advance_projector_seq pc)). intros key r H. constructor.
  unfold stale_claim in H. apply andb_true_iff in H as [[H%String.eqb_eq _]%andb_true_iff _]. done.
Qed.

Lemma reap_moves pc : table_moves (pc_states pc) (pc_states (reap_retired_projector_states embedding_artifact pc).2).
Proof. unfold reap_retired_projector_states. destruct (_ =? 0); [done|]. apply filter_moves. Qed.

(** The rows that [ensure_known_projector_states] adds are of known projectors
    and were absent. *)
Definition absent_known (existing missing : gmap (string * string) Z) : Prop :=
  ∀ key z, missing !! key = Some z → str_in key.1 (KNOWN_PROJECTORS embedding_artifact) = true ∧ existing !! key = None.

Lemma insert_absent existing missing key z :
  str_in key.1 (KNOWN_PROJECTORS embedding_artifact) = true → existing !! key = None → absent_known existing missing →
  absent_known existing (<[key := z]> missing).
Proof. intros Hk He Hm key' z'. rewrite lookup_insert_Some. intros [[<- _]|[_ H]]; [done|]. by eapply Hm. Qed.

Lemma add_missing_absent existing missing key z :
  str_in key.1 (KNOWN_PROJECTORS embedding_artifact) = true → absent_known existing missing →
  absent_known existing (add_missing key z existing missing).
Proof.
  intros Hk Hm. unfold add_missing. case_bool_decide as Hs; [done|]. apply insert_absent; [done| |done].
  destruct (existing !! key) eqn:E; [by destruct Hs|done].
Qed.

Lemma known_projector p : p ∈ KNOWN_PROJECTORS embedding_artifact → str_in p (KNOWN_PROJECTORS embedding_artifact) = true.
Proof. apply str_in_spec. Qed.

Lemma foldl_inv {A B} (I : A → Prop) (f : A → B → A) l a : (∀ a b, b ∈ l → I a → I (f a b)) → I a → I (foldl f a l).
Proof.
  revert a. induction l as [|b l IH]; intros a Hf Ha; [done|]. simpl. apply IH; [|by apply Hf; [left|]].
  intros. apply Hf; [by right|done].
Qed.

Lemma missing_states_absent pc : absent_known (existing_revisions embedding_artifact (pc_states pc)) (missing_states embedding_artifact pc).
Proof.
  unfold missing_states. apply foldl_inv.
  - intros m [key z] _ Hm. unfold backfill_embedding. simpl.
    destruct (String.eqb key.1 SEARCH_PROJECTOR); [|done].
    destruct (bool_decide (existing_revisions _ _ !! _ = None)) eqn:E; [|done]. apply bool_decide_eq_true in E.
    destruct (bool_decide _); [|done]. apply insert_absent; [|done..]. apply known_projector. unfold KNOWN_PROJECTORS. set_solver.
  - apply foldl_inv; [|intros key z; by rewrite lookup_empty].
    intros m [session s] _ Hm. unfold backfill_session. apply add_missing_absent; [apply known_projector; unfold KNOWN_PROJECTORS; set_solver|].
    apply add_missing_absent; [apply known_projector; unfold KNOWN_PROJECTORS; set_solver|].
    destruct (_ && _); [|done]. apply add_missing_absent; [apply known_projector; unfold KNOWN_PROJECTORS; set_solver|done].
Qed.

Lemma missing_states_new pc key z : missing_states embedding_artifact pc !! key = Some z → pc_states pc !! key = None.
Proof.
  intros H. apply missing_states_absent in H as [Hk He]. unfold existing_revisions in He. rewrite map_lookup_imap in He.
  destruct (pc_states pc !! key); [|done]. simpl in He. by rewrite Hk in He.
Qed.

Lemma backfill_moves pc seq now :
  table_moves (pc_states pc) (((λ revision, idle_state revision seq now) <$> missing_states embedding_artifact pc) ∪ pc_states pc).
Proof.
  intros key. rewrite lookup_union, lookup_fmap. destruct (missing_states _ pc !! key) as [z|] eqn:Hz; simpl.
  - rewrite (missing_states_new _ _ _ Hz). apply moves_one, MoveNew.
  - destruct (pc_states pc !! key); apply rtc_refl.
Qed.

Lemma ensure_moves pc now : table_moves (pc_states pc) (pc_states (ensure_known_projector_states embedding_artifact pc now)).
Proof.
  unfold ensure_known_projector_states. cbv zeta.
  etrans; [apply (filter_moves (irrelevant_semantic pc))|]. set (pc1 := set_states _ pc).
  change (map_imap _ _) with (pc_states pc1) at 1.
  etrans; [apply (backfill_moves pc1 (pc_seq pc) now)|]. set (pc2 := set_states _ pc1).
  etrans; [eapply (imap_moves (λ k r, Some match misaligned embedding_artifact (pc_states pc2) k r with
    | Some revision => aligned revision (pc_seq pc) now r | None => r end) (pc_states pc2))|].
  { intros key r _. destruct (misaligned _ _ _ _); [apply moves_one, MoveAlign|apply rtc_refl]. }
  apply imap_moves. intros key r _. destruct (behind_retired _ _ _); [apply moves_one, MoveUnclaim|apply rtc_refl].
Qed.

Lemma startup_moves pc workers now : table_moves (pc_states pc) (pc_states (projector_startup embedding_artifact pc workers now)).
Proof. unfold projector_startup. etrans; [apply reap_moves|]. etrans; [apply ensure_moves|]. apply release_moves. Qed.
End Calls.

Lemma want_moves pc session_id rev now projector :
  table_moves (pc_states pc) (pc_states (want_revision pc session_id rev now projector)).
Proof.
  unfold want_revision. destruct (pc_states pc !! _) as [r|] eqn:Hr.
  - destruct (ps_desired_revision r <? rev) eqn:Hd; [|done]. apply Z.ltb_lt in Hd. apply alter_moves.
    intros r' Hr'. assert (r' = r) as -> by congruence. apply moves_one, MoveWant. lia.
  - apply insert_moves. rewrite Hr. apply moves_one, MoveNew.
Qed.

Lemma deletion_moves pc session_id rev now projector :
  table_moves (pc_states pc) (pc_states (want_deletion pc session_id rev now projector)).
Proof.
  unfold want_deletion. destruct (pc_states pc !! _) as [r|] eqn:Hr.
  - apply alter_moves. intros r' _. apply moves_one, MoveUnclaim.
  - apply insert_moves. rewrite Hr. apply moves_one, MoveNew.
Qed.

Lemma replacement_moves pc session_id rev now projector :
  table_moves (pc_states pc) (pc_states (want_replacement pc session_id rev now projector)).
Proof. apply alter_moves. intros r _. apply moves_one, MoveUnclaim. Qed.
End Moves.
