(* ===== verification/LedgerProps.v ===== *)
(** * Properties of the projector ledger *)

From S2P Require Import Prelude PyStr PyTime ProjectorQueue LedgerLaws.

Open Scope list_scope.
Open Scope Z_scope.

Section Props.
Context (embedding_artifact : string).

(** ** Runs of calls *)

Inductive ledger_call : Type :=
  | CallAdvance (projector session_id : string) (desired now : Z)
  | CallClaim (projector worker_id claim_token : string) (now lease_seconds limit commit_time : Z)
  | CallComplete (projector session_id claim_token : string) (completed now : Z)
  | CallFail (projector session_id claim_token error_code : string) (error_message : option string) (retry_at now : Z)
  | CallRequeue (projector : string) (session_ids : list string) (now : Z)
  | CallBind (projector store_id schema_generation : string) (now : Z)
  | CallStartup (active_worker_ids : list string) (now : Z)
  | CallCommit (session_id : string) (revision now : Z) (projector : string)
  | CallDelete (session_id : string) (revision now : Z) (projector : string)
  | CallReplace (session_id : string) (revision now : Z) (projector : string)
  | CallCatalog (seq : Z) (sessions : gmap string StorageSession) (tombstones : gmap string SessionTombstone).

Definition exec (pc : projector_catalog) (call : ledger_call) : projector_catalog :=
  match call with
  | CallAdvance projector session_id desired now => (advance_projector_state pc projector session_id desired now).2
  | CallClaim projector worker_id claim_token now lease limit commit_time =>
      (claim_projector_lag embedding_artifact pc projector worker_id claim_token now lease limit commit_time).2
  | CallComplete projector session_id claim_token completed now =>
      (complete_projector_claim pc projector session_id claim_token completed now).2
  | CallFail projector session_id claim_token code message retry_at now =>
      (fail_projector_claim pc projector session_id claim_token code message retry_at now).2
  | CallRequeue projector session_ids now => (requeue_projector_states pc projector session_ids now).2
  | CallBind projector store_id generation now => (bind_projector_store pc projector store_id generation now).2
  | CallStartup workers now => projector_startup embedding_artifact pc workers now
  | CallCommit session_id revision now projector => want_revision pc session_id revision now projector
  | CallDelete session_id revision now projector => want_deletion pc session_id revision now projector
  | CallReplace session_id revision now projector => want_replacement pc session_id revision now projector
  | CallCatalog seq sessions tombstones => ProjectorCatalog seq (pc_states pc) sessions tombstones (pc_bindings pc)
  end.

Definition run (pc : projector_catalog) (calls : list ledger_call) : projector_catalog := foldl exec pc calls.

(** The ledgers that calls reach from an empty one. *)
Definition reachable_ledger (pc : projector_catalog) : Prop :=
  ∃ seq sessions tombstones calls, pc = run (ProjectorCatalog seq ∅ sessions tombstones ∅) calls.

(** The token that a call claims with. *)
Definition claims_with (call : ledger_call) (claim_token : string) : Prop :=
  match call with CallClaim _ _ t _ _ _ _ => t = claim_token | _ => False end.

Lemma ledger_exec_moves pc call : rows_ok (pc_states pc) →
  table_moves (claims_with call) (pc_states pc) (pc_states (exec pc call)).
Proof.
  intros Hok. destruct call; simpl exec; [apply advance_moves|by apply lag_claim_moves|apply complete_moves|apply fail_moves
    |apply requeue_moves|apply bind_moves|apply startup_moves|apply want_moves|apply deletion_moves
    |apply replacement_moves|done].
Qed.

Lemma ledger_exec_ok pc call : rows_ok (pc_states pc) → rows_ok (pc_states (exec pc call)).
Proof. intros Hok. by eapply table_moves_ok; [apply ledger_exec_moves|]. Qed.

Lemma ledger_run_ok pc calls : rows_ok (pc_states pc) → rows_ok (pc_states (run pc calls)).
Proof. revert pc. induction calls as [|c calls IH]; intros pc Hok; [done|]. by apply IH, ledger_exec_ok. Qed.

Lemma reachable_rows_ok pc : reachable_ledger pc → rows_ok (pc_states pc).
Proof. intros (seq & sessions & tombstones & calls & ->). apply ledger_run_ok, map_Forall_empty. Qed.

(** In every reachable ledger the four columns of a claim are set together,
    exactly while the row is claimed, and a claim is of a revision that is
    wanted and not done. *)
Theorem ledger_rows_stay_sound pc projector session_id r :
  reachable_ledger pc → pc_states pc !! (projector, session_id) = Some r →
  0 <= ps_completed_revision r ∧ 0 <= ps_failure_count r ∧
  ((∃ c t w e, ps_claimed_revision r = Some c ∧ ps_claim_token r = Some t ∧ ps_worker_id r = Some w ∧
      ps_claim_expires_at r = Some e ∧ ps_status r = "claimed"%string ∧
      ps_completed_revision r < c <= ps_desired_revision r ∧ ps_retry_at r = None) ∨
   (ps_claimed_revision r = None ∧ ps_claim_token r = None ∧ ps_worker_id r = None ∧ ps_claim_expires_at r = None ∧
    ps_status r ≠ "claimed"%string)).
Proof. intros Hok%reachable_rows_ok Hr. apply Hok in Hr as [Hc Hf Hcl]. split; [done|]. split; [done|]. by apply claim_ok_cases. Qed.

(** ** A claim that was taken over *)

Definition not_held (claim_token : string) (slot : option ProjectorState) : Prop :=
  match slot with Some r => ps_claim_token r ≠ Some claim_token | None => True end.

Lemma move_not_held (T : string → Prop) t slot slot' : ledger_move T slot slot' → ¬ T t → not_held t slot → not_held t slot'.
Proof. intros Hm HT Hn. destruct Hm; simpl in *; try done. intros [= ->]. done. Qed.

Lemma moves_not_held (T : string → Prop) t slot slot' : ledger_moves T slot slot' → ¬ T t → not_held t slot → not_held t slot'.
Proof. induction 1; eauto using move_not_held. Qed.

Lemma run_not_held pc calls key t :
  rows_ok (pc_states pc) → Forall (λ call, ¬ claims_with call t) calls → not_held t (pc_states pc !! key) →
  not_held t (pc_states (run pc calls) !! key).
Proof.
  revert pc. induction calls as [|c calls IH]; intros pc Hok Hc Hn; [done|]. apply Forall_cons in Hc as [Hc Hcs].
  apply (IH (exec pc c)); [by apply ledger_exec_ok|done|]. eapply moves_not_held; [by apply ledger_exec_moves|done..].
Qed.

Lemma not_held_refused pc projector session_id t : not_held t (pc_states pc !! (projector, session_id)) →
  (∀ completed now, let out := complete_projector_claim pc projector session_id t completed now in
     out.2 = pc ∧ ∀ s q, out.1 ≠ Settled s q) ∧
  (∀ code message retry_at now, let out := fail_projector_claim pc projector session_id t code message retry_at now in
     out.2 = pc ∧ ∀ s q, out.1 ≠ Settled s q).
Proof.
  intros Hn. split; intros.
  - destruct (complete_cases pc projector session_id t completed now) as [H|(r & Hr & Ht & _)]; [done|]. by rewrite Hr in Hn.
  - destruct (fail_cases pc projector session_id t code message retry_at now) as [H|(r & Hr & Ht & _)]; [done|]. by rewrite Hr in Hn.
Qed.

(** C31: A worker whose claim another worker took over is refused ever after: its
    completion and its failure change nothing, whatever happens in between,
    unless its token claims again. *)
Theorem evicted_worker_is_refused pc projector worker_id claim_token now lease limit commit_time claimed seq pc1
    session_id evicted calls :
  reachable_ledger pc →
  claim_projector_lag embedding_artifact pc projector worker_id claim_token now lease limit commit_time =
    (Claimed claimed false seq, pc1) →
  session_id ∈ map fst claimed → evicted ≠ claim_token → Forall (λ call, ¬ claims_with call evicted) calls →
  let pc' := run pc1 calls in
  (∀ completed at_, let out := complete_projector_claim pc' projector session_id evicted completed at_ in
     out.2 = pc' ∧ ∀ s q, out.1 ≠ Settled s q) ∧
  (∀ code message retry_at at_, let out := fail_projector_claim pc' projector session_id evicted code message retry_at at_ in
     out.2 = pc' ∧ ∀ s q, out.1 ≠ Settled s q).
Proof.
  intros Hok%reachable_rows_ok Hclaim Hs Hne Hcalls. cbv zeta. apply not_held_refused.
  assert (rows_ok (pc_states pc1)) as Hok1.
  { pose proof (ledger_exec_ok pc (CallClaim projector worker_id claim_token now lease limit commit_time) Hok) as H.
    simpl in H. by rewrite Hclaim in H. }
  apply run_not_held; [done..|].
  apply lag_claim_cases in Hclaim as [[-> Hnone]|(_ & E & Hin & _)].
  - destruct (Hnone _ _ eq_refl) as [-> _]. by apply not_elem_of_nil in Hs.
  - injection E as -> ->. rewrite map_map in Hs. apply list_elem_of_fmap in Hs as (x & -> & Hx). simpl.
    rewrite (Hin x Hx). simpl. congruence.
Qed.

(** ** What a claim hands out *)

(** What is said of a row that a claim handed out. *)
Record handed_out (pc pc' : projector_catalog) (projector worker_id claim_token : string) (now lease : Z)
    (session_id : string) (row row' : ProjectorState) : Prop := {
  ho_before : pc_states pc !! (projector, session_id) = Some row;
  ho_after : pc_states pc' !! (projector, session_id) = Some row';
  ho_due : claimable embedding_artifact pc projector now session_id row = true;
  ho_token : ps_claim_token row' = Some claim_token;
  ho_worker : ps_worker_id row' = Some worker_id;
  ho_lease : ps_claim_expires_at row' = Some (now + lease * US_PER_SECOND);
  ho_work : ∃ c, ps_claimed_revision row' = Some c ∧ ps_completed_revision row < c <= ps_desired_revision row ∧
    (projector = EMBEDDING_PROJECTOR_ID embedding_artifact →
     ∃ search, pc_states pc !! (SEARCH_PROJECTOR, session_id) = Some search ∧ c <= ps_completed_revision search);
}.

Lemma claimed_within_search pc session_id r (projector := EMBEDDING_PROJECTOR_ID embedding_artifact) :
  is_Some (search_completed pc session_id r) → 0 <= ps_completed_revision r →
  ∃ search, pc_states pc !! (SEARCH_PROJECTOR, session_id) = Some search ∧
    claimed_revision embedding_artifact pc projector session_id r <= ps_completed_revision search.
Proof.
  intros Hs Hz. unfold claimed_revision, is_embedding. subst projector. rewrite String.eqb_refl.
  unfold search_completed in *. destruct (_ !! _) as [s|]; [|by destruct Hs]. exists s. split; [done|].
  destruct (_ <? _) eqn:Hlt; [|by destruct Hs]. apply Z.ltb_lt in Hlt. destruct (_ =? 0) eqn:E; lia.
Qed.

Lemma claimable_search pc now session_id r :
  claimable embedding_artifact pc (EMBEDDING_PROJECTOR_ID embedding_artifact) now session_id r = true →
  is_Some (search_completed pc session_id r).
Proof.
  unfold claimable, is_embedding. rewrite String.eqb_refl. intros [_ H]%andb_true_iff. by apply bool_decide_eq_true in H.
Qed.

Lemma due_row_handed_out pc pc' projector worker_id claim_token now lease seq commit_time x :
  rows_ok (pc_states pc) → pc_states pc !! (projector, x.1) = Some x.2 →
  claimable embedding_artifact pc projector now x.1 x.2 = true →
  let row' := claimed_state claim_token worker_id (claimed_revision embedding_artifact pc projector x.1 x.2)
                (now + lease * US_PER_SECOND) seq commit_time x.2 in
  pc_states pc' !! (projector, x.1) = Some row' →
  handed_out pc pc' projector worker_id claim_token now lease x.1 x.2 row'.
Proof.
  intros Hok Hr Hc row' Hr'. split; try done. exists (claimed_revision embedding_artifact pc projector x.1 x.2).
  split_and!; [done|by eapply claimed_revision_bounds..|]. intros ->.
  apply claimed_within_search; [by eapply claimable_search|]. by apply Hok in Hr as [? _ _].
Qed.

(** The rows that come before others in a sorted list. *)
Lemma sorted_take_before {A} (le : A → A → Prop) (l : list A) n x y :
  StronglySorted le l → x ∈ take n l → y ∈ l → y ∉ take n l → le x y.
Proof.
  intros Hs Hx Hy Hny. rewrite <- (take_drop n l) in Hs, Hy. apply elem_of_app in Hy as [|Hy]; [done|].
  revert Hs Hx Hy. generalize (take n l) (drop n l). intros l1 l2 Hs. induction l1 as [|z l1 IH]; intros Hx Hy; [by apply not_elem_of_nil in Hx|].
  apply StronglySorted_inv in Hs as [Hs Hz]. apply elem_of_cons in Hx as [->|Hx]; [|by apply IH].
  rewrite Forall_forall in Hz. apply Hz, elem_of_app. by right.
Qed.

(** C39: A fresh claim hands out claimable rows, each with the revision it is to
    reach: wanted, not done, and for embeddings published by search.  A
    claimable row that it passes over finds the claim full, and is not older
    than any row handed out.  No other row is touched. *)
Theorem claim_hands_out_the_oldest_work pc projector worker_id claim_token now lease limit commit_time claimed seq pc' :
  reachable_ledger pc → 0 <= limit →
  claim_projector_lag embedding_artifact pc projector worker_id claim_token now lease limit commit_time =
    (Claimed claimed false seq, pc') →
  (∀ session_id row', (session_id, row') ∈ claimed →
     ∃ row, handed_out pc pc' projector worker_id claim_token now lease session_id row row') ∧
  (∀ session_id row, pc_states pc !! (projector, session_id) = Some row →
     claimable embedding_artifact pc projector now session_id row = true → session_id ∉ map fst claimed →
     Z.of_nat (length claimed) = limit ∧
     ∀ taken row0, taken ∈ map fst claimed → pc_states pc !! (projector, taken) = Some row0 →
       cmp_le age_cmp (age (taken, row0)) (age (session_id, row))) ∧
  (∀ key, (∀ taken, taken ∈ map fst claimed → key ≠ (projector, taken)) → pc_states pc' !! key = pc_states pc !! key).
Proof.
  intros Hok%reachable_rows_ok Hlim Hclaim.
  set (due := due_rows embedding_artifact pc projector now limit).
  assert (map fst claimed = map fst due ∧ (∀ s r', (s, r') ∈ claimed → ∃ row, handed_out pc pc' projector worker_id claim_token now lease s row r') ∧
    ∀ key, (∀ x, x ∈ due → key ≠ (projector, x.1)) → pc_states pc' !! key = pc_states pc !! key) as (Hm & Hout & Hframe).
  { apply lag_claim_cases in Hclaim as [[-> Hnone]|(_ & E & Hin & Hframe)].
    - destruct (Hnone _ _ eq_refl) as [-> Hd]. unfold due. rewrite Hd. split_and!; [done|by intros ?? ?%not_elem_of_nil|done].
    - injection E as -> ->. split_and!; [by rewrite map_map| |done].
      intros s r' (x & [= -> ->] & Hx)%list_elem_of_fmap. exists x.2. pose proof (Hin x Hx) as Hr'.
      apply elem_of_due in Hx as [Hr Hc]. by apply due_row_handed_out. }
  assert (length claimed = length due) as Hlen by (rewrite <- (length_map fst), Hm; apply length_map).
  split_and!; [done| |].
  - intros s row Hr Hc Hs. rewrite Hm in Hs.
    assert ((s, row) ∈ eligible_rows embedding_artifact pc projector now) as He by (apply elem_of_eligible; done).
    assert ((s, row) ∉ due) as Hnd by (intros Hd; apply Hs, list_elem_of_fmap; by exists (s, row)).
    split.
    + rewrite Hlen. unfold due, due_rows in *. rewrite length_take.
      destruct (decide (Z.to_nat limit <= length (eligible_rows embedding_artifact pc projector now))%nat); [lia|].
      rewrite take_ge in Hnd by lia. done.
    + intros taken row0 Ht Hr0. rewrite Hm in Ht. apply list_elem_of_fmap in Ht as ([s0 r0] & -> & Hx). simpl in *.
      pose proof (elem_of_due _ _ _ _ _ _ Hx) as [Hr0' _]. simpl in Hr0'. assert (r0 = row0) as -> by congruence.
      eapply (sorted_take_before (key_le age_cmp age)); [apply (sort_on_sorted age_cmp age)|exact Hx|exact He|done].
  - intros key Hkey. apply Hframe. intros x Hx. apply Hkey. rewrite Hm. apply list_elem_of_fmap. by exists x.
Qed.

(** ** Every lag is worked off *)

(** A claim of the projector while [from] to [until] lasts, under a lease that
    lasts as long. *)
Definition claim_within (projector : string) (from until : Z) (call : ledger_call) : Prop :=
  match call with
  | CallClaim p _ _ now lease limit _ => p = projector ∧ from <= now <= until ∧ until < now + lease * US_PER_SECOND ∧ 0 <= limit
  | _ => False
  end.

(** How many rows the claims may hand out. *)
Definition room (calls : list ledger_call) : Z :=
  foldr (λ call n, match call with CallClaim _ _ _ _ _ limit _ => limit + n | _ => n end) 0 calls.

(** The token of each claim is new to the ledger it meets. *)
Fixpoint fresh_claims (projector : string) (pc : projector_catalog) (calls : list ledger_call) : Prop :=
  match calls with
  | [] => True
  | call :: calls' => (∀ t, claims_with call t → fresh_token t projector pc) ∧ fresh_claims projector (exec pc call) calls'
  end.

(** The lagging rows that no claim holds beyond [until]. *)
Definition open_rows (pc : projector_catalog) (projector : string) (until : Z) : list (string * ProjectorState) :=
  projector_rows projector (λ s r, lag_counts pc projector s r && due (ps_claim_expires_at r) until) (pc_states pc).

Lemma elem_of_open pc projector until x : x ∈ open_rows pc projector until ↔
  pc_states pc !! (projector, x.1) = Some x.2 ∧ lag_counts pc projector x.1 x.2 = true ∧ due (ps_claim_expires_at x.2) until = true.
Proof. unfold open_rows. rewrite elem_of_projector_rows, andb_true_iff. done. Qed.

Lemma open_rows_lag pc projector until : (length (open_rows pc projector until) <= length (lag_rows pc projector))%nat.
Proof.
  unfold lag_rows, by_session. rewrite (sort_on_perm str_cmp fst). apply submseteq_length, NoDup_submseteq.
  - eapply NoDup_fmap_1, NoDup_projector_rows.
  - intros x (H & Hl & _)%elem_of_open. by apply elem_of_projector_rows.
Qed.

Lemma due_later at_ now until : now <= until → due at_ now = true → due at_ until = true.
Proof. unfold due. destruct at_; [rewrite !Z.leb_le; lia|done]. Qed.

Lemma lag_claim_frame pc projector worker_id claim_token now lease limit commit_time :
  pc_tombstones (claim_projector_lag embedding_artifact pc projector worker_id claim_token now lease limit commit_time).2
  = pc_tombstones pc.
Proof.
  unfold claim_projector_lag. destruct (by_session _); [|by destruct (existsb _ _)]. destruct (head _); [done|].
  destruct (take _ _); [done|]. cbn [snd]. by rewrite claim_rows_frame.
Qed.

(** A fresh claim that does not take an eligible row hands out as many rows as
    it may, and those are no longer open. *)
Lemma claim_shrinks pc projector worker_id claim_token now lease limit commit_time until session_id row answer pc1 :
  fresh_token claim_token projector pc → 0 <= limit → now <= until → until < now + lease * US_PER_SECOND →
  (session_id, row) ∈ eligible_rows embedding_artifact pc projector now →
  claim_projector_lag embedding_artifact pc projector worker_id claim_token now lease limit commit_time = (answer, pc1) →
  (session_id, row) ∉ due_rows embedding_artifact pc projector now limit →
  pc_states pc1 !! (projector, session_id) = Some row ∧ pc_tombstones pc1 = pc_tombstones pc ∧
  Z.of_nat (length (open_rows pc1 projector until)) + limit <= Z.of_nat (length (open_rows pc projector until)).
Proof.
  intros Hfresh Hlimit Hw Hu He Hclaim Hnd. set (taken := due_rows embedding_artifact pc projector now limit) in *.
  assert (pc_tombstones pc1 = pc_tombstones pc) as Etomb.
  { pose proof (lag_claim_frame pc projector worker_id claim_token now lease limit commit_time) as H. by rewrite Hclaim in H. }
  assert (Z.of_nat (length taken) = limit) as Hlen.
  { unfold taken, due_rows in *. rewrite length_take.
    destruct (decide (Z.to_nat limit <= length (eligible_rows embedding_artifact pc projector now))%nat); [lia|].
    by rewrite take_ge in Hnd by lia. }
  assert (∀ s, s ∉ map fst taken → pc_states pc1 !! (projector, s) = pc_states pc !! (projector, s)) as Hout.
  { intros s Hs. apply lag_claim_cases in Hclaim as [[-> _]|(_ & _ & _ & Hout)]; [done|]. apply Hout.
    intros x Hx [= ->]. apply Hs, list_elem_of_fmap. by exists x. }
  assert (∀ x, x ∈ taken → ∃ r, pc_states pc1 !! (projector, x.1) = Some r ∧ due (ps_claim_expires_at r) until = false) as Hin.
  { intros x Hx. pose proof Hclaim as [[-> Hnone]|(_ & _ & Hin & _)]%lag_claim_cases.
    - exfalso. apply elem_of_eligible in He as [He _]. destruct Hfresh as [Hheld Hended].
      unfold claim_projector_lag, by_session in Hclaim. rewrite Hheld, Hended in Hclaim. simpl in Hclaim.
      fold (due_rows embedding_artifact pc projector now limit) in Hclaim. fold taken in Hclaim.
      destruct taken as [|y l]; [by apply not_elem_of_nil in Hx|].
      injection Hclaim as <- Hpc. apply (f_equal pc_seq) in Hpc. rewrite claim_rows_frame in Hpc. simpl in Hpc. lia.
    - eexists. split; [by apply Hin|]. simpl. lia. }
  apply elem_of_eligible in He as [Hr Hc]. simpl in Hr, Hc.
  assert (session_id ∉ map fst taken) as Hs.
  { intros ([s r] & -> & Hx)%list_elem_of_fmap. apply Hnd. pose proof (elem_of_due _ _ _ _ _ _ Hx) as [Hr' _]. simpl in *. congruence. }
  split; [by rewrite Hout|]. split; [done|].
  assert (length (map fst (open_rows pc1 projector until) ++ map fst taken) <= length (map fst (open_rows pc projector until)))%nat as Hle.
  2: { rewrite length_app, !length_map in Hle. lia. }
  apply submseteq_length, NoDup_submseteq.
  - apply NoDup_app. split; [apply NoDup_projector_rows|]. split; [|apply NoDup_due].
    intros s (x & -> & (Hx & _ & Hd)%elem_of_open)%list_elem_of_fmap (y & E & (r & Hy & Hnd')%Hin)%list_elem_of_fmap.
    rewrite <- E in Hy. congruence.
  - intros s [(x & -> & (Hx & Hl & Hd)%elem_of_open)%list_elem_of_fmap|(x & -> & Hx)%list_elem_of_fmap]%elem_of_app;
      apply list_elem_of_fmap; exists x; (split; [done|]); apply elem_of_open.
    + destruct (decide (x.1 ∈ map fst taken)) as [(y & E & (r & Hy & Hnd')%Hin)%list_elem_of_fmap|Hn]; [rewrite <- E in Hy; congruence|].
      rewrite Hout in Hx by done. split; [done|]. split; [|done]. unfold lag_counts, deleted_session in *. by rewrite <- Etomb.
    + apply elem_of_due in Hx as [Hx Hcl]. unfold claimable in Hcl. rewrite !andb_true_iff in Hcl.
      destruct Hcl as [[[Hl Hd] _] _]. split; [done|]. split; [done|]. eapply due_later; [|done]. lia.
Qed.

(** A row that a claim takes is completed by its worker. *)
Lemma taken_row_completes pc projector worker_id claim_token now lease limit commit_time session_id row :
  projector ≠ EMBEDDING_PROJECTOR_ID embedding_artifact → fresh_token claim_token projector pc →
  (session_id, row) ∈ due_rows embedding_artifact pc projector now limit →
  let '(answer, pc1) := claim_projector_lag embedding_artifact pc projector worker_id claim_token now lease limit commit_time in
  (∃ claimed seq, answer = Claimed claimed false seq ∧ session_id ∈ map fst claimed) ∧
  ∀ completed_at, ∃ state seq pc2,
    complete_projector_claim pc1 projector session_id claim_token (ps_desired_revision row) completed_at =
      (Settled state seq, pc2) ∧
    pc_states pc2 !! (projector, session_id) = Some state ∧ ps_completed_revision state = ps_desired_revision row ∧
    lagging state = false.
Proof.
  intros Hemb [Hheld Hended] Hdue. assert (is_embedding embedding_artifact projector = false) as Hne by (by apply String.eqb_neq).
  destruct (claim_projector_lag _ _ _ _ _ _ _ _ _) as [answer pc1] eqn:Hclaim.
  pose proof (elem_of_due _ _ _ _ _ _ Hdue) as [Hr _]. simpl in Hr.
  pose proof (lag_claim_cases _ _ _ _ _ _ _ _ _ _ _ Hclaim) as [[-> Hnone]|(_ & -> & Hin & _)].
  - exfalso. unfold claim_projector_lag, by_session in Hclaim. rewrite Hheld, Hended in Hclaim. simpl in Hclaim.
    fold (due_rows embedding_artifact pc projector now limit) in Hclaim.
    destruct (due_rows _ _ _ _ _) as [|x l]; [by apply not_elem_of_nil in Hdue|].
    injection Hclaim as <- Hpc. apply (f_equal pc_seq) in Hpc. rewrite claim_rows_frame in Hpc. simpl in Hpc. lia.
  - split.
    { eexists _, _. split; [done|]. rewrite map_map. apply list_elem_of_fmap. by exists (session_id, row). }
    intros at_. specialize (Hin _ Hdue). simpl in Hin. unfold complete_projector_claim. rewrite Hin.
    cbn [fst snd claimed_state ps_last_completion_token ps_completed_revision ps_claim_token ps_claimed_revision ps_desired_revision].
    assert (opt_is (ps_last_completion_token row) claim_token = false) as ->.
    { destruct (opt_is _ _) eqn:E; [|done]. assert ((session_id, row) ∈ projector_rows projector (ended_claim claim_token) (pc_states pc)) as H.
      { apply elem_of_projector_rows. split; [done|]. unfold ended_claim; cbn [fst snd]. by rewrite E. }
      rewrite Hended in H. by apply not_elem_of_nil in H. }
    unfold claimed_revision. rewrite Hne.
    rewrite (proj2 (opt_is_spec (Some claim_token) claim_token) eq_refl), bool_decide_true by done.
    cbn [andb negb orb]. rewrite Z.ltb_irrefl. eexists _, _, _. split; [done|]. simpl. rewrite lookup_insert_eq.
    split_and!; [done..|]. unfold lagging; simpl. apply Z.ltb_irrefl.
Qed.

(** Claims with room for every open row reach a given one. *)
Lemma claims_reach_row projector until session_id row from calls pc :
  projector ≠ EMBEDDING_PROJECTOR_ID embedding_artifact →
  Z.max (default 0 (ps_claim_expires_at row)) (default 0 (ps_retry_at row)) <= from →
  pc_states pc !! (projector, session_id) = Some row → lag_counts pc projector session_id row = true →
  Forall (claim_within projector from until) calls → fresh_claims projector pc calls → calls ≠ [] →
  Z.of_nat (length (open_rows pc projector until)) <= room calls →
  ∃ before worker_id claim_token now lease limit commit_time after,
    calls = before ++ CallClaim projector worker_id claim_token now lease limit commit_time :: after ∧
    fresh_token claim_token projector (run pc before) ∧
    (session_id, row) ∈ due_rows embedding_artifact (run pc before) projector now limit.
Proof.
  intros Hemb Hfrom. assert (is_embedding embedding_artifact projector = false) as Hne by (by apply String.eqb_neq).
  revert pc. induction calls as [|call calls IH]; intros pc Hr Hlag Hcalls Hfresh Hnil Hroom; [done|].
  apply Forall_cons in Hcalls as [Hcall Hcalls].
  destruct call as [|p worker_id claim_token now lease limit commit_time| | | | | | | | |]; try done.
  destruct Hcall as (-> & Hw & Hu & Hlimit), Hfresh as [Hfr Hfresh]. specialize (Hfr _ eq_refl).
  assert (claimable embedding_artifact pc projector now session_id row = true) as Hc.
  { unfold claimable, due. rewrite Hlag, Hne. destruct (ps_claim_expires_at row), (ps_retry_at row); simpl in *;
      rewrite ?andb_true_r; try lia; repeat (rewrite (proj2 (Z.leb_le _ _)) by lia); done. }
  assert ((session_id, row) ∈ eligible_rows embedding_artifact pc projector now) as He by (by apply elem_of_eligible).
  destruct (decide ((session_id, row) ∈ due_rows embedding_artifact pc projector now limit)) as [Hdue|Hdue].
  { by exists [], worker_id, claim_token, now, lease, limit, commit_time, calls. }
  destruct (claim_projector_lag embedding_artifact pc projector worker_id claim_token now lease limit commit_time) as [answer pc1] eqn:Hclaim.
  destruct (claim_shrinks _ _ _ _ _ _ _ _ _ _ _ _ _ Hfr Hlimit (proj2 Hw) Hu He Hclaim Hdue) as (Hr1 & Et & Hle).
  assert (exec pc (CallClaim projector worker_id claim_token now lease limit commit_time) = pc1) as E1 by (simpl; by rewrite Hclaim).
  rewrite E1 in Hfresh. simpl in Hroom.
  assert (lag_counts pc1 projector session_id row = true) as Hlag1 by (unfold lag_counts, deleted_session in *; by rewrite Et).
  assert (calls ≠ []) as Hnil1.
  { intros ->. simpl in Hroom. assert ((session_id, row) ∈ open_rows pc1 projector until) as Ho.
    - apply elem_of_open. split; [done|]. split; [done|]. simpl. unfold due. destruct (ps_claim_expires_at row); simpl in *; [lia|done].
    - destruct (open_rows pc1 projector until); [by apply not_elem_of_nil in Ho|]. simpl in *. lia. }
  destruct (IH pc1 Hr1 Hlag1 Hcalls Hfresh Hnil1 ltac:(lia)) as (before & w & t & n & l & m & c & after & -> & Hf & Hd).
  exists (CallClaim projector worker_id claim_token now lease limit commit_time :: before), w, t, n, l, m, c, after.
  split; [done|]. unfold run in *. cbn [foldl]. by rewrite E1.
Qed.

(** C40: no failure of the search or the semantics projector is final, nor does
    a backlog starve a row.  Whatever happened to a lagging row before, once
    its lease and its backoff are over, claims that follow one another while
    their leases last, each with a fresh token and room for as few rows as it
    likes, and together for as many rows as lag, include one that hands the row
    out; and completing what was handed out ends the lag.  (An embedding row
    waits for search, so the embeddings are left out.) *)
Theorem lagging_row_catches_up pc projector session_id row from until calls :
  projector ≠ EMBEDDING_PROJECTOR_ID embedding_artifact →
  pc_states pc !! (projector, session_id) = Some row → lag_counts pc projector session_id row = true →
  default 0 (ps_claim_expires_at row) <= from → default 0 (ps_retry_at row) <= from →
  Forall (claim_within projector from until) calls → fresh_claims projector pc calls →
  Z.of_nat (length (lag_rows pc projector)) <= room calls →
  ∃ before worker_id claim_token now lease limit commit_time after,
    calls = before ++ CallClaim projector worker_id claim_token now lease limit commit_time :: after ∧
    let '(answer, pc1) := claim_projector_lag embedding_artifact (run pc before) projector worker_id claim_token now lease
                            limit commit_time in
    (∃ claimed seq, answer = Claimed claimed false seq ∧ session_id ∈ map fst claimed) ∧
    ∀ completed_at, ∃ state seq pc2,
      complete_projector_claim pc1 projector session_id claim_token (ps_desired_revision row) completed_at =
        (Settled state seq, pc2) ∧
      pc_states pc2 !! (projector, session_id) = Some state ∧ ps_completed_revision state = ps_desired_revision row ∧
      lagging state = false.
Proof.
  intros Hemb Hr Hlag Hlease Hretry Hcalls Hfresh Hroom.
  assert (calls ≠ []) as Hnil.
  { intros ->. simpl in Hroom. assert ((session_id, row) ∈ lag_rows pc projector) as H.
    - unfold lag_rows, by_session. rewrite (sort_on_perm str_cmp fst). by apply elem_of_projector_rows.
    - destruct (lag_rows pc projector); [by apply not_elem_of_nil in H|]. simpl in *. lia. }
  pose proof (open_rows_lag pc projector until) as Hle. assert (Z.max (default 0 (ps_claim_expires_at row)) (default 0 (ps_retry_at row)) <= from) as Hfrom by lia.
  destruct (claims_reach_row projector until session_id row from calls pc Hemb Hfrom Hr Hlag Hcalls Hfresh Hnil ltac:(lia))
    as (before & worker_id & claim_token & now & lease & limit & commit_time & after & -> & Hf & Hdue).
  exists before, worker_id, claim_token, now, lease, limit, commit_time, after. split; [done|].
  by apply taken_row_completes.
Qed.

(** ** Replays *)

(** Reporting a completion again answers the state that the first report left,
    and repeating a claim answers the rows it handed out; neither changes the
    ledger. *)
Theorem ledger_calls_replay pc projector pc1 :
  (∀ session_id t completed now state seq at_,
     complete_projector_claim pc projector session_id t completed now = (Settled state seq, pc1) →
     complete_projector_claim pc1 projector session_id t completed at_ = (SettleReplay state seq, pc1)) ∧
  (∀ worker_id t now lease limit commit_time claimed seq now' lease' limit' at_,
     claim_projector_lag embedding_artifact pc projector worker_id t now lease limit commit_time = (Claimed claimed false seq, pc1) →
     claimed ≠ [] →
     ∃ again, claim_projector_lag embedding_artifact pc1 projector worker_id t now' lease' limit' at_ =
       (Claimed again true seq, pc1) ∧ again ≡ₚ claimed).
Proof.
  split.
  - intros session_id t completed now state seq at_ H.
    pose proof (complete_cases pc projector session_id t completed now) as Hc. rewrite H in Hc.
    destruct Hc as [[_ Hno]|(r & _ & _ & _ & _ & E)]; [by destruct (Hno state seq)|]. injection E as -> -> ->.
    unfold complete_projector_claim. cbn [insert_state set_states pc_states]. rewrite lookup_insert_eq.
    cbn [completed_state ps_last_completion_token ps_completed_revision].
    by rewrite (proj2 (opt_is_spec (Some t) t) eq_refl), Z.leb_refl.
  - intros worker_id t now lease limit commit_time claimed seq now' lease' limit' at_ Hclaim Hne.
    apply lag_claim_cases in Hclaim as [[_ Hnone]|([Hheld _] & E & Hin & Hout)]; [by destruct (Hnone _ _ eq_refl)|].
    injection E as Ec ->. set (due := due_rows embedding_artifact pc projector now limit) in *.
    set (rows := by_session (projector_rows projector (holds_claim t) (pc_states pc1))).
    assert (rows ≡ₚ claimed) as Hp.
    { unfold rows, by_session. rewrite (sort_on_perm str_cmp fst). apply NoDup_Permutation.
      - eapply NoDup_fmap_1, NoDup_projector_rows.
      - apply (NoDup_fmap_1 fst). subst claimed. rewrite map_map. apply NoDup_due.
      - intros [s r]. rewrite elem_of_projector_rows, Ec, list_elem_of_fmap. simpl. split.
        + intros [Hr Ht]. destruct (decide (s ∈ map fst due)) as [(x & -> & Hx)%list_elem_of_fmap|Hs].
          * exists x. rewrite (Hin x Hx) in Hr. by injection Hr as <-.
          * rewrite Hout in Hr by (intros x Hx [= ->]; apply Hs, list_elem_of_fmap; by exists x).
            assert ((s, r) ∈ projector_rows projector (holds_claim t) (pc_states pc)) as H by (by apply elem_of_projector_rows).
            rewrite Hheld in H. by apply not_elem_of_nil in H.
        + intros (x & [= -> ->] & Hx). split; [by apply Hin|]. by apply opt_is_spec. }
    assert (∀ sr, sr ∈ rows → ps_worker_id sr.2 = Some worker_id ∧ ps_commit_seq sr.2 = pc_seq pc + 1) as Hall.
    { intros sr Hsr. rewrite Hp, Ec in Hsr. by apply list_elem_of_fmap in Hsr as (x & -> & _). }
    exists rows. split; [|done]. unfold claim_projector_lag. fold rows.
    destruct rows as [|first rest]; [by apply Permutation_nil in Hp|].
    replace (existsb _ _) with false; [by rewrite (proj2 (Hall first (list_elem_of_here _ _)))|].
    symmetry. apply not_true_iff_false. intros (sr & Hsr%list_elem_of_In & H)%existsb_exists.
    destruct (Hall _ Hsr) as [Hw _]. rewrite Hw in H. by rewrite (proj2 (opt_is_spec _ _) eq_refl) in H.
Qed.

(** ** The watermark *)

Lemma elem_of_lag_rows pc projector sr : sr ∈ lag_rows pc projector ↔
  pc_states pc !! (projector, sr.1) = Some sr.2 ∧ lag_counts pc projector sr.1 sr.2 = true.
Proof. unfold lag_rows, by_session. rewrite (sort_on_perm str_cmp fst). apply elem_of_projector_rows. Qed.

Lemma minimum_is l m : m ∈ l → (∀ z, z ∈ l → m <= z) → minimum l = Some m.
Proof.
  intros Hm Hle. destruct l as [|z l]; [by apply not_elem_of_nil in Hm|]. simpl. f_equal.
  assert (∀ l z, m ∈ z :: l → (∀ y, y ∈ z :: l → m <= y) → foldl Z.min z l = m) as H; [|by apply H].
  clear. induction l as [|y l IH]; intros z Hm Hle; simpl.
  - by apply list_elem_of_singleton in Hm.
  - apply IH.
    + pose proof (Hle y ltac:(right; left)). pose proof (Hle z ltac:(left)). rewrite elem_of_cons in *.
      destruct Hm as [->|[->|Hm]%elem_of_cons]; [left; lia|left; lia|by right].
    + intros x [->|Hx]%elem_of_cons; [|apply Hle; by right; right].
      pose proof (Hle y ltac:(right; left)). pose proof (Hle z ltac:(left)). lia.
Qed.

Lemma indexed_through_is pc projector session_id r :
  pc_states pc !! (projector, session_id) = Some r → lag_counts pc projector session_id r = true →
  (∀ s r', pc_states pc !! (projector, s) = Some r' → lag_counts pc projector s r' = true →
     ps_desired_revision r <= ps_desired_revision r') →
  indexed_through pc projector = ps_desired_revision r - 1.
Proof.
  intros Hr Hl Hmin. unfold indexed_through. rewrite (minimum_is _ (ps_desired_revision r)); [done|..].
  - apply list_elem_of_fmap. exists (session_id, r). by rewrite elem_of_lag_rows.
  - intros z ([s r'] & -> & [H1 H2]%elem_of_lag_rows)%list_elem_of_fmap. by eapply Hmin.
Qed.

Lemma advanced_row pc projector session_id r desired now :
  pc_tombstones pc !! session_id = None → pc_states pc !! (projector, session_id) = Some r →
  ps_desired_revision r < desired →
  let pc1 := (advance_projector_state pc projector session_id desired now).2 in
  (∃ r1, pc_states pc1 !! (projector, session_id) = Some r1 ∧ ps_desired_revision r1 = desired ∧
     ps_completed_revision r1 = ps_completed_revision r) ∧
  (∀ key, key ≠ (projector, session_id) → pc_states pc1 !! key = pc_states pc !! key) ∧
  pc_tombstones pc1 = pc_tombstones pc.
Proof.
  intros Ht Hr Hd. unfold advance_projector_state. rewrite Ht, Hr, (proj2 (Z.leb_gt _ _) Hd). simpl.
  split_and!; [|intros key Hk; by rewrite lookup_alter_ne|done].
  rewrite lookup_alter_eq, Hr. simpl. destruct (failed_before r); eexists; done.
Qed.

(** C35: The watermark [indexed_through] passes revisions that are not indexed: when
    the row that lags most is wanted at a later revision before it was done,
    the watermark moves up to that revision although the row's projection
    stands where it stood. *)
Theorem watermark_passes_unindexed_revisions pc projector session_id r desired now :
  pc_tombstones pc !! session_id = None → pc_states pc !! (projector, session_id) = Some r → lagging r = true →
  ps_desired_revision r < desired →
  (∀ s r', pc_states pc !! (projector, s) = Some r' → s ≠ session_id → lag_counts pc projector s r' = true →
     desired <= ps_desired_revision r') →
  let pc1 := (advance_projector_state pc projector session_id desired now).2 in
  indexed_through pc projector = ps_desired_revision r - 1 ∧ indexed_through pc1 projector = desired - 1 ∧
  ∃ r1, pc_states pc1 !! (projector, session_id) = Some r1 ∧
    ps_completed_revision r1 < ps_desired_revision r <= indexed_through pc1 projector.
Proof.
  intros Ht Hr Hl Hd Hothers pc1.
  destruct (advanced_row pc projector session_id r desired now Ht Hr Hd) as ((r1 & Hr1 & Ed & Ec) & Hframe & Et).
  fold pc1 in Hr1, Hframe, Et. apply Z.ltb_lt in Hl.
  assert (indexed_through pc1 projector = ps_desired_revision r1 - 1) as E1.
  { eapply indexed_through_is; [exact Hr1| |].
    - unfold lag_counts, lagging, deleted_session. rewrite Et, Ht, Ed, Ec, bool_decide_false by (by intros [? ?]).
      rewrite orb_true_r, andb_true_r. apply Z.ltb_lt. lia.
    - intros s r' Hr' Hl'. destruct (decide (s = session_id)) as [->|Hne]; [simplify_eq; lia|].
      rewrite Hframe in Hr' by congruence. rewrite Ed. eapply Hothers; [done|done|].
      unfold lag_counts, deleted_session in *. by rewrite Et in Hl'. }
  split_and!.
  - eapply indexed_through_is; [exact Hr| |].
    + unfold lag_counts, lagging, deleted_session. rewrite Ht, bool_decide_false by (by intros [? ?]).
      rewrite orb_true_r, andb_true_r. by apply Z.ltb_lt.
    + intros s r' Hr' Hl'. destruct (decide (s = session_id)) as [->|Hne]; [simplify_eq; lia|].
      specialize (Hothers s r' Hr' Hne Hl'). lia.
  - by rewrite E1, Ed.
  - exists r1. split; [done|]. rewrite E1, Ed. lia.
Qed.
(** ** The chain from search to embeddings *)

Abbreviation EMBEDDING := (EMBEDDING_PROJECTOR_ID embedding_artifact).

Lemma embedding_not_search : EMBEDDING ≠ SEARCH_PROJECTOR.
Proof. unfold EMBEDDING_PROJECTOR_ID. by intros [=]. Qed.

(** Every session with a search row, there already or to be added, has an
    embedding row, there already or to be added. *)
Definition paired (existing missing : gmap (string * string) Z) (session_id : string) : Prop :=
  is_Some (missing !! (SEARCH_PROJECTOR, session_id)) →
  is_Some (missing !! (EMBEDDING, session_id)) ∨ is_Some (existing !! (EMBEDDING, session_id)).

Lemma add_missing_keeps existing missing key z key' : is_Some (missing !! key') → is_Some (add_missing key z existing missing !! key').
Proof.
  intros H. unfold add_missing. case_bool_decide; [done|]. destruct (decide (key = key')) as [->|]; [by rewrite lookup_insert_eq|by rewrite lookup_insert_ne].
Qed.

Lemma add_missing_has existing missing key z : is_Some (add_missing key z existing missing !! key) ∨ is_Some (existing !! key).
Proof. unfold add_missing. case_bool_decide; [by right|left; by rewrite lookup_insert_eq]. Qed.

Lemma add_missing_other existing missing key z key' : key ≠ key' → add_missing key z existing missing !! key' = missing !! key'.
Proof. intros H. unfold add_missing. case_bool_decide; [done|by rewrite lookup_insert_ne]. Qed.

Lemma backfill_session_paired existing missing s row session_id :
  paired existing missing session_id → paired existing (backfill_session embedding_artifact existing missing s row) session_id.
Proof.
  intros Hp Hs. unfold backfill_session in *.
  assert (∀ m1, (m1 = missing ∨ m1 = add_missing (SEMANTIC_PROJECTOR_ID, s) (ss_commit_seq row) existing missing) →
    let revision := default (ss_commit_seq row) (existing !! (SEARCH_PROJECTOR, s)) in
    let m2 := add_missing (SEARCH_PROJECTOR, s) revision existing m1 in
    let m3 := add_missing (EMBEDDING, s) revision existing m2 in
    is_Some (m3 !! (SEARCH_PROJECTOR, session_id)) →
    is_Some (m3 !! (EMBEDDING, session_id)) ∨ is_Some (existing !! (EMBEDDING, session_id))) as H;
    [|destruct (_ && _); [by apply (H _ (or_intror eq_refl))|by apply (H _ (or_introl eq_refl))]].
  clear Hs. intros m1 Hm1 revision m2 m3 Hs. subst m2 m3.
  destruct (decide (s = session_id)) as [->|Hne]; [apply add_missing_has|].
  rewrite !add_missing_other in Hs by (intros [=]; congruence).
  assert (is_Some (missing !! (SEARCH_PROJECTOR, session_id))) as Hs0
    by (destruct Hm1 as [->| ->]; [done|by rewrite add_missing_other in Hs]).
  destruct (Hp Hs0) as [H|H]; [left|by right]. apply add_missing_keeps, add_missing_keeps.
  destruct Hm1 as [->| ->]; [done|by apply add_missing_keeps].
Qed.

Lemma backfill_embedding_keeps existing missing key z key' :
  is_Some (missing !! key') → is_Some (backfill_embedding embedding_artifact existing missing key z !! key').
Proof.
  intros H. unfold backfill_embedding. destruct (_ && _); [|done].
  destruct (decide ((EMBEDDING, key.2) = key')) as [->|]; [by rewrite lookup_insert_eq|by rewrite lookup_insert_ne].
Qed.

Lemma foldl_reach {A B} (P : A → Prop) (f : A → B → A) l a b :
  b ∈ l → (∀ a, P (f a b)) → (∀ a c, P a → P (f a c)) → P (foldl f a l).
Proof.
  intros Hb Hf Hk. revert a. induction l as [|c l IH]; intros a; [by apply not_elem_of_nil in Hb|].
  apply elem_of_cons in Hb as [->|Hb]; [|by apply IH]. simpl. clear IH. generalize (Hf a). generalize (f a c). clear -Hk.
  induction l as [|d l IH]; intros a' Ha'; [done|]. simpl. apply IH, Hk, Ha'.
Qed.

Lemma missing_states_paired pc session_id (existing := existing_revisions embedding_artifact (pc_states pc))
    (missing := missing_states embedding_artifact pc) :
  is_Some (existing !! (SEARCH_PROJECTOR, session_id)) ∨ is_Some (missing !! (SEARCH_PROJECTOR, session_id)) →
  is_Some (missing !! (EMBEDDING, session_id)) ∨ is_Some (existing !! (EMBEDDING, session_id)).
Proof.
  intros [[z Hz]|Hm].
  - destruct (existing !! (EMBEDDING, session_id)) eqn:E; [by right; eexists|]. left. subst missing. unfold missing_states.
    fold existing. apply (foldl_reach (λ m, is_Some (m !! (EMBEDDING, session_id))) _ _ _ ((SEARCH_PROJECTOR, session_id), z)).
    + by apply elem_of_map_to_list.
    + intros m. unfold backfill_embedding. simpl. rewrite E, !bool_decide_true by done. simpl.
      destruct (m !! (EMBEDDING, session_id)) eqn:Em; [rewrite bool_decide_false by done; by eexists|].
      rewrite bool_decide_true by done. by rewrite lookup_insert_eq.
    + intros m [key z'] H. by apply backfill_embedding_keeps.
  - revert Hm. subst missing. unfold missing_states. fold existing.
    apply (foldl_inv (λ m, paired existing m session_id)).
    + intros m [key z] _ Hp Hs. unfold backfill_embedding in Hs. simpl in Hs.
      destruct (Hp ltac:(destruct (_ && _); [rewrite lookup_insert_ne in Hs by (intros [=])|]; done)) as [H|H]; [|by right].
      left. by apply backfill_embedding_keeps.
    + apply foldl_inv; [|intros [? H]; by rewrite lookup_empty in H].
      intros m [s row] _ Hp. by apply backfill_session_paired.
Qed.
Lemma not_behind pc existing key :
  (∀ row, pc_sessions pc !! key.2 = Some row → ss_render_state row ≠ "retired"%string) → behind_retired pc existing key = None.
Proof.
  intros H. unfold behind_retired. destruct (_ !! key.2) as [row|]; [|done]. destruct (existing !! key); [|done].
  by rewrite (proj2 (String.eqb_neq _ _) (H row eq_refl)).
Qed.

Lemma existing_lookup states key : key.1 ∈ KNOWN_PROJECTORS embedding_artifact →
  existing_revisions embedding_artifact states !! key = ps_desired_revision <$> states !! key.
Proof.
  intros Hk. unfold existing_revisions. rewrite map_lookup_imap. destruct (states !! key); simpl; [|done].
  by rewrite (proj2 (str_in_spec _ _) Hk).
Qed.

Lemma some_union_idle {K} `{Countable K} (new : gmap K Z) (old : gmap K ProjectorState) seq now key :
  is_Some ((((λ revision, idle_state revision seq now) <$> new) ∪ old) !! key) ↔ is_Some (new !! key) ∨ is_Some (old !! key).
Proof.
  rewrite lookup_union, lookup_fmap, union_is_Some, fmap_is_Some. done.
Qed.

(** After the maintenance at the start of the daemon, every session that
    search follows, unless it is retired, has an embedding row that wants the
    very revision that search wants. *)
Theorem restart_pairs_search_with_embeddings pc now session_id search :
  (∀ row, pc_sessions pc !! session_id = Some row → ss_render_state row ≠ "retired"%string) →
  pc_states (ensure_known_projector_states embedding_artifact pc now) !! (SEARCH_PROJECTOR, session_id) = Some search →
  ∃ e, pc_states (ensure_known_projector_states embedding_artifact pc now) !! (EMBEDDING, session_id) = Some e ∧
    ps_desired_revision e = ps_desired_revision search.
Proof.
  intros Hret. unfold ensure_known_projector_states. cbv zeta. set (pc1 := set_states _ pc).
  set (pc2 := set_states _ pc1). set (pc3 := set_states _ pc2). unfold set_states at 1 2. cbn [pc_states].
  rewrite !map_lookup_imap, !(not_behind pc3) by done.
  assert (∀ p, pc_states pc3 !! (p, session_id) ≫= (λ r, Some r) = pc_states pc3 !! (p, session_id)) as Hid
    by (intros p; by destruct (pc_states pc3 !! (p, session_id))).
  rewrite !Hid. unfold pc3. cbn [set_states pc_states]. rewrite !map_lookup_imap.
  intros Hs. destruct (pc_states pc2 !! (SEARCH_PROJECTOR, session_id)) as [s2|] eqn:Hs2; [|done]. cbn [mbind option_bind] in Hs.
  assert (misaligned embedding_artifact (pc_states pc2) (SEARCH_PROJECTOR, session_id) s2 = None) as E.
  { unfold misaligned, is_embedding. cbn [fst snd].
    destruct (String.eqb_spec SEARCH_PROJECTOR EMBEDDING) as [Es|]; [by destruct (embedding_not_search (eq_sym Es))|done]. }
  rewrite E in Hs. injection Hs as <-.
  assert (is_Some (pc_states pc2 !! (EMBEDDING, session_id))) as [e He].
  { unfold pc2. cbn [set_states pc_states]. apply some_union_idle.
    assert (is_Some (pc_states pc2 !! (SEARCH_PROJECTOR, session_id))) as Hsome by eauto.
    unfold pc2 in Hsome. cbn [set_states pc_states] in Hsome. apply some_union_idle in Hsome.
    pose proof (missing_states_paired pc1 session_id) as Hp; cbv zeta in Hp.
    rewrite !existing_lookup, !fmap_is_Some in Hp by (unfold KNOWN_PROJECTORS; set_solver). tauto. }
  rewrite He. cbn [mbind option_bind]. eexists. split; [done|]. unfold misaligned, is_embedding. cbn [fst snd].
  rewrite String.eqb_refl, Hs2. destruct (ps_desired_revision e =? ps_desired_revision s2) eqn:Ed; [by apply Z.eqb_eq in Ed|done].
Qed.
End Props.
