(* ===== verification/LedgerSamples.v ===== *)
(** * The projector ledger at concrete inputs *)

From S2P Require Import Prelude PyStr PyTime ProjectorQueue LedgerLaws LedgerProps.

Open Scope list_scope.
Open Scope Z_scope.

Definition artifact : string := "0a1b2c3d4e5f-256d-p3".
Definition at_s (n : Z) : Z := n * US_PER_SECOND.

Definition ledger_empty : projector_catalog := ProjectorCatalog 10 ∅ ∅ ∅ ∅.

(** Search is to follow two sessions; a first worker claims the older. *)
Definition wanted_calls : list ledger_call :=
  [CallAdvance SEARCH_PROJECTOR "s1" 5 (at_s 1); CallAdvance SEARCH_PROJECTOR "s2" 7 (at_s 2)].
Definition ledger_wanted : projector_catalog := Eval vm_compute in run artifact ledger_empty wanted_calls.
Definition first_call : ledger_call := CallClaim SEARCH_PROJECTOR "w1" "t1" (at_s 100) 60 1 (at_s 100).
Definition ledger_first : projector_catalog := Eval vm_compute in exec artifact ledger_wanted first_call.

(** A second worker claims after the lease of the first. *)
Definition second_outcome : lag_claim_answer * projector_catalog :=
  Eval vm_compute in claim_projector_lag artifact ledger_first SEARCH_PROJECTOR "w2" "t2" (at_s 200) 60 10 (at_s 200).
Definition second_claimed : list (string * ProjectorState) :=
  Eval vm_compute in match second_outcome.1 with Claimed rows _ _ => rows | _ => [] end.
Definition ledger_second : projector_catalog := Eval vm_compute in second_outcome.2.

Definition ledger_row (pc : projector_catalog) (session_id : string) : ProjectorState :=
  default (idle_state 0 0 0) (pc_states pc !! (SEARCH_PROJECTOR, session_id)).

Example taken_over : map fst second_claimed = ["s2"; "s1"]%string ∧
  ps_last_error_code (ledger_row ledger_second "s1") = Some "claim_lease_expired"%string ∧
  ps_last_error_message (ledger_row ledger_second "s1") = Some "a pass held by w1 did not finish inside its lease"%string ∧
  ps_failure_count (ledger_row ledger_second "s1") = 1.
Proof. vm_compute. done. Qed.

Lemma reach_ledger calls pc : pc = run artifact ledger_empty calls → reachable_ledger artifact pc.
Proof. intros ->. by exists 10, ∅, ∅, calls. Qed.

Lemma reach_first : reachable_ledger artifact ledger_first.
Proof. apply (reach_ledger (wanted_calls ++ [first_call])). vm_compute. reflexivity. Qed.

Lemma reach_second : reachable_ledger artifact ledger_second.
Proof.
  apply (reach_ledger (wanted_calls ++ [first_call; CallClaim SEARCH_PROJECTOR "w2" "t2" (at_s 200) 60 10 (at_s 200)])).
  vm_compute. reflexivity.
Qed.

Lemma ledger_rows_stay_sound_witness : 0 <= ps_completed_revision (ledger_row ledger_second "s1") ∧ 0 <= 1 ∧
  ((∃ c t w e, Some 5 = Some c ∧ Some "t2"%string = Some t ∧ Some "w2"%string = Some w ∧ Some (at_s 260) = Some e ∧
      "claimed"%string = "claimed"%string ∧ 0 < c <= 5 ∧ None = @None Z) ∨
   (Some 5 = None ∧ Some "t2"%string = None ∧ Some "w2"%string = None ∧ Some (at_s 260) = None ∧ "claimed"%string ≠ "claimed"%string)).
Proof.
  apply (ledger_rows_stay_sound artifact ledger_second SEARCH_PROJECTOR "s1" (ledger_row ledger_second "s1") reach_second).
  vm_compute. reflexivity.
Defined.

(** The first worker reports, late, after search was asked for more. *)
Definition later_calls : list ledger_call := [CallAdvance SEARCH_PROJECTOR "s1" 9 (at_s 201)].

Lemma evicted_worker_is_refused_witness :
  let pc' := run artifact ledger_second later_calls in
  (∀ completed at_, let out := complete_projector_claim pc' SEARCH_PROJECTOR "s1" "t1" completed at_ in
     out.2 = pc' ∧ ∀ s q, out.1 ≠ Settled s q) ∧
  (∀ code message retry_at at_, let out := fail_projector_claim pc' SEARCH_PROJECTOR "s1" "t1" code message retry_at at_ in
     out.2 = pc' ∧ ∀ s q, out.1 ≠ Settled s q).
Proof.
  apply (evicted_worker_is_refused artifact ledger_first SEARCH_PROJECTOR "w2" "t2" (at_s 200) 60 10 (at_s 200) second_claimed 14
    ledger_second "s1" "t1" later_calls reach_first); [vm_compute; reflexivity| |discriminate|].
  - apply (bool_decide_eq_true _). vm_compute. reflexivity.
  - constructor; [intros []|constructor].
Defined.

(** With room for one row the claim takes the row that waited longest. *)
Definition one_outcome : lag_claim_answer * projector_catalog :=
  Eval vm_compute in claim_projector_lag artifact ledger_first SEARCH_PROJECTOR "w2" "t2" (at_s 200) 60 1 (at_s 200).
Definition one_claimed : list (string * ProjectorState) :=
  Eval vm_compute in match one_outcome.1 with Claimed rows _ _ => rows | _ => [] end.

Lemma claim_hands_out_the_oldest_work_witness :
  Z.of_nat (length one_claimed) = 1 ∧
  ∀ taken row0, taken ∈ map fst one_claimed → pc_states ledger_first !! (SEARCH_PROJECTOR, taken) = Some row0 →
    cmp_le age_cmp (age (taken, row0)) (age ("s1"%string, ledger_row ledger_first "s1")).
Proof.
  destruct (claim_hands_out_the_oldest_work artifact ledger_first SEARCH_PROJECTOR "w2" "t2" (at_s 200) 60 1 (at_s 200)
    one_claimed 14 one_outcome.2 reach_first) as (_ & H & _); [discriminate|vm_compute; reflexivity|].
  apply H; [vm_compute; reflexivity|vm_compute; reflexivity|]. apply (bool_decide_eq_false _). vm_compute. reflexivity.
Defined.

(** A row that failed for good, as its worker said, is claimed again. *)
Definition ledger_failed : projector_catalog :=
  Eval vm_compute in exec artifact ledger_first (CallFail SEARCH_PROJECTOR "s1" "t1" "parse_permanent" None (at_s 101) (at_s 110)).

(** Two workers, with room for one row each, after the backoff. *)
Definition two_claims : list ledger_call :=
  [CallClaim SEARCH_PROJECTOR "w2" "t2" (at_s 4000) 60 1 (at_s 4000); CallClaim SEARCH_PROJECTOR "w3" "t3" (at_s 4010) 60 1 (at_s 4010)].

Lemma fresh_claim_cons pc projector worker_id t now lease limit commit_time calls :
  fresh_token t projector pc →
  fresh_claims artifact projector (exec artifact pc (CallClaim projector worker_id t now lease limit commit_time)) calls →
  fresh_claims artifact projector pc (CallClaim projector worker_id t now lease limit commit_time :: calls).
Proof. intros Ht Hc. split; [|done]. by intros t' <-. Qed.

Lemma two_claims_fresh : fresh_claims artifact SEARCH_PROJECTOR ledger_failed two_claims.
Proof. do 2 (apply fresh_claim_cons; [split; vm_compute; reflexivity|]). done. Qed.

Lemma lagging_row_catches_up_witness :
  ∃ before worker_id claim_token now lease limit commit_time after,
    two_claims = before ++ CallClaim SEARCH_PROJECTOR worker_id claim_token now lease limit commit_time :: after ∧
    let '(answer, pc1) := claim_projector_lag artifact (run artifact ledger_failed before) SEARCH_PROJECTOR worker_id claim_token
                            now lease limit commit_time in
    (∃ claimed seq, answer = Claimed claimed false seq ∧ "s1"%string ∈ map fst claimed) ∧
    ∀ completed_at, ∃ state seq pc2,
      complete_projector_claim pc1 SEARCH_PROJECTOR "s1" claim_token 5 completed_at = (Settled state seq, pc2) ∧
      pc_states pc2 !! (SEARCH_PROJECTOR, "s1"%string) = Some state ∧ ps_completed_revision state = 5 ∧ lagging state = false.
Proof.
  apply (lagging_row_catches_up artifact ledger_failed SEARCH_PROJECTOR "s1" (ledger_row ledger_failed "s1") (at_s 4000) (at_s 4010)
           two_claims); [discriminate|vm_compute; reflexivity|vm_compute; reflexivity|vm_compute; discriminate|vm_compute; discriminate
    | |exact two_claims_fresh|vm_compute; discriminate].
  repeat constructor; vm_compute; congruence.
Defined.

Example retried_after_an_hour : ps_retry_at (ledger_row ledger_failed "s1") = Some (at_s (110 + 3600)).
Proof. vm_compute. reflexivity. Qed.

(** The first row, wanted at revision 5 and never done, is wanted at 7 before a
    worker takes it: the watermark moves from 4 to 6. *)
Lemma watermark_passes_unindexed_revisions_witness :
  let pc1 := (advance_projector_state ledger_wanted SEARCH_PROJECTOR "s1" 7 (at_s 3)).2 in
  indexed_through ledger_wanted SEARCH_PROJECTOR = 5 - 1 ∧ indexed_through pc1 SEARCH_PROJECTOR = 7 - 1 ∧
  ∃ r1, pc_states pc1 !! (SEARCH_PROJECTOR, "s1"%string) = Some r1 ∧
    ps_completed_revision r1 < 5 <= indexed_through pc1 SEARCH_PROJECTOR.
Proof.
  apply (watermark_passes_unindexed_revisions ledger_wanted SEARCH_PROJECTOR "s1" (ledger_row ledger_wanted "s1") 7 (at_s 3));
    [vm_compute; reflexivity..|].
  assert (map_Forall (λ _ r, bool_decide (7 <= ps_desired_revision r) || bool_decide (ps_desired_revision r = 5) = true)
    (pc_states ledger_wanted)) as H by (apply (bool_decide_eq_true _); vm_compute; reflexivity).
  assert (map_Forall (λ k r, ps_desired_revision r = 5 → k.2 = "s1"%string) (pc_states ledger_wanted)) as H1
    by (apply (bool_decide_eq_true _); vm_compute; reflexivity).
  intros s r' Hr' Hne _. specialize (H _ _ Hr'). specialize (H1 _ _ Hr'). simpl in H1.
  apply orb_true_iff in H as [H%bool_decide_eq_true|H%bool_decide_eq_true]; [done|]. by destruct Hne, (H1 H).
Defined.

Lemma ledger_calls_replay_witness :
  ∃ again, claim_projector_lag artifact ledger_second SEARCH_PROJECTOR "w2" "t2" (at_s 201) 60 10 (at_s 201) =
    (Claimed again true 14, ledger_second) ∧ again ≡ₚ second_claimed.
Proof.
  apply (ledger_calls_replay artifact ledger_first SEARCH_PROJECTOR ledger_second) with (now := at_s 200) (lease := 60)
    (limit := 10) (commit_time := at_s 200); [vm_compute; reflexivity|vm_compute; discriminate].
Defined.

(** A daemon that starts over the ledger adds the embedding rows. *)
Definition ensured : projector_catalog := Eval vm_compute in ensure_known_projector_states artifact ledger_second (at_s 300).

Lemma restart_pairs_search_with_embeddings_witness :
  ∃ e, pc_states ensured !! (EMBEDDING_PROJECTOR_ID artifact, "s1"%string) = Some e ∧ ps_desired_revision e = 5.
Proof.
  apply (restart_pairs_search_with_embeddings artifact ledger_second (at_s 300) "s1" (ledger_row ledger_second "s1"));
    [|vm_compute; reflexivity].
  intros row H. vm_compute in H. discriminate.
Defined.
