(* ===== verification/StorageTables.v ===== *)
(** * The tables of the storage catalog

    The manifests of [catalogd/models.py] that a storage commit reads and
    writes, beside the tables of [ProjectorQueue].  Positions of a source are
    integers here; their columns hold [u64_key] texts, whose order is the order
    of the integers ([u64_key_order]).  A JSON list of hashes is a list.  The
    order keys, previews and titles of rendered objects are left out, with
    their columns. *)

From S2P Require Import Prelude PyStr PyTime Timestamps ProjectorQueue.

Open Scope list_scope.
Open Scope Z_scope.

(** [SourceEpoch]. *)
Record SourceEpoch : Type := EpochRow {
  ep_tenant_id : string;
  ep_machine_id : string;
  ep_provider : string;
  ep_opaque_source_id : string;
  ep_range_kind : string;
  ep_state : string;
  ep_predecessor : option string;
  ep_replaced_by : option string;
  ep_accepted_through : Z;
  ep_object_count : Z;
  ep_commit_seq : Z;
  ep_closed_commit_seq : option Z;
  ep_opened_at : Z;
  ep_closed_at : option Z;
  ep_close_reason : option string;
  ep_created_at : Z;
  ep_updated_at : Z;
}.

(** [RawObject]. *)
Record RawObject : Type := RawRow {
  ro_tenant_id : string;
  ro_session_id : string;
  ro_machine_id : string;
  ro_provider : string;
  ro_opaque_source_id : string;
  ro_source_epoch : string;
  ro_range_kind : string;
  ro_range_start : Z;
  ro_range_end : Z;
  ro_record_count : Z;
  ro_record_hashes_hash : string;
  ro_object_hash : string;
  ro_payload_hash : string;
  ro_compressed_hash : string;
  ro_object_path : string;
  ro_uncompressed_size : Z;
  ro_compressed_size : Z;
  ro_provenance_kind : string;
  ro_media_refs_hash : string;
  ro_render_state : string;
  ro_media_state : string;
  ro_missing_media_hashes : list string;
  ro_commit_seq : Z;
  ro_sealed_at : Z;
  ro_created_at : Z;
  ro_retired_at : option Z;
  ro_retirement_revision : option Z;
}.

(** [RenderGeneration]. *)
Record RenderGeneration : Type := GenerationRow {
  rg_session_id : string;
  rg_parser_revision : string;
  rg_ordering_revision : string;
  rg_state : string;
  rg_source_chain_hash : string;
  rg_object_count : Z;
  rg_event_count : Z;
  rg_commit_seq : Z;
  rg_created_at : Z;
  rg_updated_at : Z;
  rg_superseded_at : option Z;
}.

(** [RenderObject]. *)
Record RenderObject : Type := RenderRow {
  rr_generation_id : string;
  rr_session_id : string;
  rr_source_envelope_id : string;
  rr_object_hash : string;
  rr_payload_hash : string;
  rr_object_path : string;
  rr_uncompressed_size : Z;
  rr_compressed_size : Z;
  rr_event_count : Z;
  rr_user_messages : Z;
  rr_assistant_messages : Z;
  rr_tool_calls : Z;
  rr_semantic_projection_version : Z;
  rr_commit_seq : Z;
  rr_created_at : Z;
  rr_retired_at : option Z;
  rr_retirement_revision : option Z;
}.

(** [MediaObject]. *)
Record MediaObject : Type := MediaRow {
  mo_state : string;
  mo_mime_type : option string;
  mo_byte_size : option Z;
  mo_object_path : option string;
  mo_commit_seq : Z;
  mo_observed_at : Z;
  mo_verified_at : option Z;
  mo_deleted_at : option Z;
  mo_created_at : Z;
  mo_updated_at : Z;
}.

(** [SessionMediaRef], beside the columns of its unique constraint. *)
Record SessionMediaRef : Type := MediaRefRow {
  sr_state : string;
  sr_commit_seq : Z;
  sr_created_at : Z;
  sr_retired_at : option Z;
  sr_deletion_revision : option Z;
}.

#[export] Instance source_epoch_eq_dec : EqDecision SourceEpoch.
Proof. solve_decision. Defined.
#[export] Instance raw_object_eq_dec : EqDecision RawObject.
Proof. solve_decision. Defined.
#[export] Instance render_generation_eq_dec : EqDecision RenderGeneration.
Proof. solve_decision. Defined.
#[export] Instance render_object_eq_dec : EqDecision RenderObject.
Proof. solve_decision. Defined.
#[export] Instance media_object_eq_dec : EqDecision MediaObject.
Proof. solve_decision. Defined.
#[export] Instance media_ref_eq_dec : EqDecision SessionMediaRef.
Proof. solve_decision. Defined.

(** Session, media hash, envelope and reference key. *)
Abbreviation ref_name := (string * string * option string * string)%type.

Record storage_store : Type := StorageStore {
  sg_ledger : projector_catalog;
  sg_epochs : gmap string SourceEpoch;
  sg_raw : gmap string RawObject;
  sg_generations : gmap string RenderGeneration;
  sg_renders : gmap string RenderObject;
  sg_media : gmap string MediaObject;
  sg_refs : gmap ref_name SessionMediaRef;
}.

(** One field replaced. *)
Definition set_ledger (f : projector_catalog → projector_catalog) (sg : storage_store) : storage_store :=
  StorageStore (f (sg_ledger sg)) (sg_epochs sg) (sg_raw sg) (sg_generations sg) (sg_renders sg) (sg_media sg) (sg_refs sg).
Definition set_epochs (f : gmap string SourceEpoch → gmap string SourceEpoch) (sg : storage_store) : storage_store :=
  StorageStore (sg_ledger sg) (f (sg_epochs sg)) (sg_raw sg) (sg_generations sg) (sg_renders sg) (sg_media sg) (sg_refs sg).
Definition set_raw (f : gmap string RawObject → gmap string RawObject) (sg : storage_store) : storage_store :=
  StorageStore (sg_ledger sg) (sg_epochs sg) (f (sg_raw sg)) (sg_generations sg) (sg_renders sg) (sg_media sg) (sg_refs sg).
Definition set_generations (f : gmap string RenderGeneration → gmap string RenderGeneration) (sg : storage_store) :
    storage_store :=
  StorageStore (sg_ledger sg) (sg_epochs sg) (sg_raw sg) (f (sg_generations sg)) (sg_renders sg) (sg_media sg) (sg_refs sg).
Definition set_renders (f : gmap string RenderObject → gmap string RenderObject) (sg : storage_store) : storage_store :=
  StorageStore (sg_ledger sg) (sg_epochs sg) (sg_raw sg) (sg_generations sg) (f (sg_renders sg)) (sg_media sg) (sg_refs sg).
Definition set_media (f : gmap string MediaObject → gmap string MediaObject) (sg : storage_store) : storage_store :=
  StorageStore (sg_ledger sg) (sg_epochs sg) (sg_raw sg) (sg_generations sg) (sg_renders sg) (f (sg_media sg)) (sg_refs sg).
Definition set_refs (f : gmap ref_name SessionMediaRef → gmap ref_name SessionMediaRef) (sg : storage_store) : storage_store :=
  StorageStore (sg_ledger sg) (sg_epochs sg) (sg_raw sg) (sg_generations sg) (sg_renders sg) (sg_media sg) (f (sg_refs sg)).

Definition set_sessions (f : gmap string StorageSession → gmap string StorageSession) (pc : projector_catalog) :
    projector_catalog :=
  ProjectorCatalog (pc_seq pc) (pc_states pc) (f (pc_sessions pc)) (pc_tombstones pc) (pc_bindings pc).
Definition set_tombstones (f : gmap string SessionTombstone → gmap string SessionTombstone) (pc : projector_catalog) :
    projector_catalog :=
  ProjectorCatalog (pc_seq pc) (pc_states pc) (pc_sessions pc) (f (pc_tombstones pc)) (pc_bindings pc).

Definition sg_seq (sg : storage_store) : Z := pc_seq (sg_ledger sg).
Definition sg_sessions (sg : storage_store) : gmap string StorageSession := pc_sessions (sg_ledger sg).
Definition sg_tombstones (sg : storage_store) : gmap string SessionTombstone := pc_tombstones (sg_ledger sg).

(** [update(table).where(P).values(...)]. *)
Definition update_rows {K A} `{Countable K} (P : K → A → bool) (f : A → A) (rows : gmap K A) : gmap K A :=
  map_imap (λ k r, Some (if P k r then f r else r)) rows.

(** The rows that [select(table).where(P)] finds, with their keys. *)
Definition select_rows {K A} `{Countable K} (P : K → A → bool) (rows : gmap K A) : list (K * A) :=
  filter (λ kr, P kr.1 kr.2 = true) (map_to_list rows).

Lemma elem_of_select_rows {K A} `{Countable K} (P : K → A → bool) (rows : gmap K A) k r :
  (k, r) ∈ select_rows P rows ↔ rows !! k = Some r ∧ P k r = true.
Proof. unfold select_rows. rewrite list_elem_of_filter, elem_of_map_to_list. simpl. tauto. Qed.

Lemma lookup_update_rows {K A} `{Countable K} (P : K → A → bool) (f : A → A) (rows : gmap K A) k :
  update_rows P f rows !! k = (λ r, if P k r then f r else r) <$> rows !! k.
Proof. unfold update_rows. rewrite map_lookup_imap. by destruct (rows !! k). Qed.

(** ** Positions *)

(** [_u64_key]. *)
Definition u64_key (value : Z) : res string :=
  let! _ := guard ((0 <=? value) && (value <? 2 ^ 64)) (ValueError "value exceeds u64") in Ok (fmt_zero 20 value).

Lemma digit_char_cmp m n : 0 <= m < 10 → 0 <= n < 10 →
  ascii_cmp (pretty_N_char (Z.to_N m)) (pretty_N_char (Z.to_N n)) = (m ?= n).
Proof.
  intros Hm Hn.
  assert (∀ m n : nat, (m < 10)%nat → (n < 10)%nat →
    ascii_cmp (pretty_N_char (N.of_nat m)) (pretty_N_char (N.of_nat n)) = Nat.compare m n) as H.
  { intros m' n' Hm' Hn'. do 10 (destruct m' as [|m']; [do 10 (destruct n' as [|n']; [reflexivity|]); lia|]). lia. }
  specialize (H (Z.to_nat m) (Z.to_nat n) ltac:(lia) ltac:(lia)). rewrite !Z_nat_N in H. by rewrite H, Z2Nat.inj_compare by lia.
Qed.

Lemma div_mod_cmp a b : (a ?= b) = match a / 10 ?= b / 10 with Eq => a mod 10 ?= b mod 10 | c => c end.
Proof.
  pose proof (Z.div_mod a 10). pose proof (Z.div_mod b 10). pose proof (Z.mod_pos_bound a 10). pose proof (Z.mod_pos_bound b 10).
  destruct (Z.compare_spec (a / 10) (b / 10)); destruct (Z.compare_spec a b); try (exfalso; lia); try done;
    destruct (Z.compare_spec (a mod 10) (b mod 10)); try done; exfalso; lia.
Qed.

Lemma digits_cmp w a b r s : str_cmp (digits w a r) (digits w b s) =
  match (a mod 10 ^ Z.of_nat w) ?= (b mod 10 ^ Z.of_nat w) with Eq => str_cmp r s | c => c end.
Proof.
  revert a b r s. induction w as [|w IH]; intros a b r s; [by rewrite !Z.mod_1_r|].
  cbn [digits]. rewrite IH. rewrite (div_mod_cmp (a mod _) (b mod _)).
  assert (∀ z, (z mod 10 ^ Z.of_nat (S w)) / 10 = (z / 10) mod 10 ^ Z.of_nat w ∧ (z mod 10 ^ Z.of_nat (S w)) mod 10 = z mod 10) as Hz.
  { intros z. rewrite Nat2Z.inj_succ, Z.pow_succ_r by lia.
    rewrite Z.rem_mul_r by lia. pose proof (Z.mod_pos_bound z 10).
    rewrite (Z.mul_comm 10), Z.div_add, Z.mod_add, Z.mod_mod by lia. rewrite Z.div_small by lia. lia. }
  destruct (Hz a) as [-> ->], (Hz b) as [-> ->]. destruct (_ ?= _); try done.
  unfold str_cmp at 1. cbn [String.list_ascii_of_string lex].
  rewrite digit_char_cmp by (apply Z.mod_pos_bound; lia). done.
Qed.

(** The keys of positions sort as the positions do. *)
Lemma u64_key_order a b ka kb : u64_key a = Ok ka → u64_key b = Ok kb → str_cmp ka kb = (a ?= b).
Proof.
  unfold u64_key. intros ([] & Ha%guard_ok & [= <-])%bind_ok ([] & Hb%guard_ok & [= <-])%bind_ok.
  apply andb_true_iff in Ha as [Ha0%Z.leb_le Ha%Z.ltb_lt], Hb as [Hb0%Z.leb_le Hb%Z.ltb_lt].
  assert (2 ^ 64 <= 10 ^ Z.of_nat 20) as H by (vm_compute; discriminate).
  rewrite <- (app_nil_s (fmt_zero 20 a)), <- (app_nil_s (fmt_zero 20 b)), !fmt_zero_digits by lia.
  rewrite digits_cmp, !Z.mod_small by lia. by destruct (a ?= b).
Qed.
