(* ===== verification/StorageCommit.v ===== *)
(** * Source epochs, the commit of a sealed envelope, and media

    Models [open_source_epoch], [commit_raw_object], [delete_storage_session],
    [commit_media_object] and the reads of manifests of [catalogd/store.py] over
    the tables of [StorageTables].  A source (a transcript file of a
    provider on a machine) is shipped in epochs; an epoch is shipped as sealed
    envelopes, each a range of the source that begins where the last one ended.

    Of a commit the model has the checks and the rows of epochs, raw objects,
    media, sessions, renderings and the ledger.  It leaves out the columns of
    [StorageTables], the policy that classifies a session's origin and
    visibility, titles, the aliases of provider sessions and the retirement of
    live previews: no check and no modelled column reads them.  Of the details
    of a conflict it keeps the reason. *)

From S2P Require Import Prelude PyStr PyTime PyValue PyText Sha256 Bytes StorageContracts ProjectorQueue StorageTables.

Open Scope list_scope.
Open Scope Z_scope.

(** ** Source epochs *)

(** The four columns that name a source. *)
Record source_name : Type := SourceName {
  sn_tenant_id : string;
  sn_machine_id : string;
  sn_provider : string;
  sn_opaque_source_id : string;
}.

#[export] Instance source_name_eq_dec : EqDecision source_name.
Proof. solve_decision. Defined.

Definition source_of (e : SourceEpoch) : source_name :=
  SourceName (ep_tenant_id e) (ep_machine_id e) (ep_provider e) (ep_opaque_source_id e).

Definition names_source (src : source_name) (e : SourceEpoch) : bool := bool_decide (source_of e = src).

Definition is_open (e : SourceEpoch) : bool := String.eqb (ep_state e) "open".

(** The open epochs of a source. *)
Definition open_rows (src : source_name) (epochs : gmap string SourceEpoch) : list string :=
  map fst (select_rows (λ _ e, names_source src e && is_open e) epochs).

Definition closed_epoch (replaced_by : string) (closed_at seq now : Z) (e : SourceEpoch) : SourceEpoch :=
  EpochRow (ep_tenant_id e) (ep_machine_id e) (ep_provider e) (ep_opaque_source_id e) (ep_range_kind e) "closed"
    (ep_predecessor e) (Some replaced_by) (ep_accepted_through e) (ep_object_count e) (ep_commit_seq e) (Some seq)
    (ep_opened_at e) (Some closed_at) (Some "replaced"%string) (ep_created_at e) now.

Definition new_epoch (src : source_name) (range_kind : string) (predecessor : option string)
    (accepted_through object_count opened_at seq now : Z) : SourceEpoch :=
  EpochRow (sn_tenant_id src) (sn_machine_id src) (sn_provider src) (sn_opaque_source_id src) range_kind "open"
    predecessor None accepted_through object_count seq None opened_at None None now now.

(** [accepted_through=..., object_count=...] of an epoch. *)
Definition accepted_epoch (accepted_through object_count now : Z) (e : SourceEpoch) : SourceEpoch :=
  EpochRow (ep_tenant_id e) (ep_machine_id e) (ep_provider e) (ep_opaque_source_id e) (ep_range_kind e) (ep_state e)
    (ep_predecessor e) (ep_replaced_by e) accepted_through object_count (ep_commit_seq e) (ep_closed_commit_seq e)
    (ep_opened_at e) (ep_closed_at e) (ep_close_reason e) (ep_created_at e) now.

(** Whether an epoch was opened by the same request. *)
Definition same_opening (src : source_name) (range_kind : string) (predecessor : option string) (opened_at : Z)
    (e : SourceEpoch) : bool :=
  names_source src e && String.eqb (ep_range_kind e) range_kind && bool_decide (ep_predecessor e = predecessor)
  && (ep_opened_at e =? opened_at).

(** Why a new epoch is refused: it replaces exactly the open epoch of its
    source, or its source has none. *)
Definition opening_refusal (epochs : gmap string SourceEpoch) (src : source_name) (predecessor : option string) :
    option string :=
  let open_ids := open_rows src epochs in
  match predecessor with
  | Some p =>
      match epochs !! p with
      | Some e =>
          if negb (names_source src e && is_open e) then Some "predecessor_not_open_for_this_identity"%string
          else if negb (forallb (String.eqb p) open_ids) then Some "open_epoch_is_not_the_named_predecessor"%string
          else None
      | None => Some "predecessor_not_open_for_this_identity"%string
      end
  | None => if bool_decide (open_ids = []) then None else Some "another_epoch_is_already_open_for_this_source"%string
  end.

(** The predecessor, if one is named, is closed. *)
Definition close_predecessor (predecessor : option string) (epoch : string) (closed_at seq now : Z) (sg : storage_store) :
    storage_store :=
  match predecessor with
  | Some p => set_epochs (alter (closed_epoch epoch closed_at seq now) p) sg
  | None => sg
  end.

Inductive epoch_answer : Type :=
  | EpochConflict (seq : Z)
  | EpochKnown (e : SourceEpoch) (seq : Z)
  | EpochOpened (e : SourceEpoch) (seq : Z).

Definition open_source_epoch (sg : storage_store) (src : source_name) (epoch range_kind : string)
    (predecessor : option string) (opened_at commit_time : Z) : epoch_answer * storage_store :=
  match sg_epochs sg !! epoch with
  | Some e =>
      if same_opening src range_kind predecessor opened_at e then (EpochKnown e (ep_commit_seq e), sg)
      else (EpochConflict (sg_seq sg), sg)
  | None =>
      match opening_refusal (sg_epochs sg) src predecessor with
      | Some _ => (EpochConflict (sg_seq sg), sg)
      | None =>
          let sg := set_ledger advance_projector_seq sg in
          let seq := sg_seq sg in
          let sg := close_predecessor predecessor epoch opened_at seq commit_time sg in
          let e := new_epoch src range_kind predecessor 0 0 opened_at seq commit_time in
          (EpochOpened e seq, set_epochs (insert epoch e) sg)
      end
  end.

(** ** The request *)

Record media_ref : Type := MediaRef {
  mf_media_hash : string;
  mf_source_position : Z;
  mf_ref_key : string;
  mf_availability : string;
}.

Record render_manifest : Type := RenderManifest {
  rm_generation_id : string;
  rm_parser_revision : string;
  rm_ordering_revision : string;
  rm_object_id : string;
  rm_object_hash : string;
  rm_payload_hash : string;
  rm_object_path : string;
  rm_uncompressed_size : Z;
  rm_compressed_size : Z;
  rm_event_count : Z;
  rm_user_messages : Z;
  rm_assistant_messages : Z;
  rm_tool_calls : Z;
  rm_semantic_projection_version : Z;
}.

Record raw_commit : Type := RawCommit {
  cc_source : source_name;
  cc_owner_id : option string;
  cc_session_id : string;
  cc_source_epoch : string;
  cc_predecessor : option string;
  cc_epoch_opened_at : Z;
  cc_range_kind : string;
  cc_range_start : Z;
  cc_range_end : Z;
  cc_record_hashes : list bytes;
  cc_envelope_id : string;
  cc_object_hash : string;
  cc_payload_hash : string;
  cc_compressed_hash : string;
  cc_object_path : string;
  cc_uncompressed_size : Z;
  cc_compressed_size : Z;
  cc_provenance_kind : string;
  cc_render_state : string;
  cc_media_refs : list media_ref;
  cc_projectors : list string;
  cc_render_manifest : option render_manifest;
  cc_started_at : Z;
  cc_last_activity_at : Z;
  cc_sealed_at : Z;
}.

Definition envelope_identity (c : raw_commit) : EnvelopeIdentity :=
  let src := cc_source c in
  Identity (ustr_of (sn_tenant_id src)) (ustr_of (sn_machine_id src)) (ustr_of (sn_provider src))
    (ustr_of (sn_opaque_source_id src)) (default 0 (uuid_of (cc_source_epoch c))) (cc_range_kind c) (cc_range_start c)
    (cc_range_end c) (cc_record_hashes c).

Definition record_hashes_hash (c : raw_commit) : string := sha256_hexdigest (concat (cc_record_hashes c)).

(** [json.dumps(list(media_refs), sort_keys=True, ...)] and its hash. *)
Definition media_ref_value (ref : media_ref) : pyval :=
  VDict [("media_hash", VStr (mf_media_hash ref)); ("source_position", VInt (mf_source_position ref));
         ("ref_key", VStr (mf_ref_key ref)); ("availability", VStr (mf_availability ref))]%string.

Definition media_refs_hash (c : raw_commit) : string :=
  sha256_hex (dumps (sort_value (VList (map media_ref_value (cc_media_refs c))))).

(** ** Answers *)

Inductive commit_answer : Type :=
  | IdentityMismatch
  | CommitDeleted (deletion_revision : Z)
  | CommitReplay (receipt : list (string * pyval))
  | CommitConflict (reason : option string) (seq : Z)
  | MediaUnavailable (media_hashes : list string) (seq : Z)
  | CommitCreated (receipt : list (string * pyval)).

(** [_raw_object_receipt]. *)
Definition raw_object_receipt (envelope_id : string) (r : RawObject) : res (list (string * pyval)) :=
  as_wire (Receipt envelope_id (ro_object_hash r) (ro_commit_seq r) (ro_render_state r) (ro_media_state r)
             (ro_missing_media_hashes r)).

Definition is_active (r : RawObject) : bool := bool_decide (ro_retired_at r = None).

(** [_raw_object_matches] on the identity of a replay. *)
Definition replays (c : raw_commit) (r : RawObject) : bool :=
  bool_decide (SourceName (ro_tenant_id r) (ro_machine_id r) (ro_provider r) (ro_opaque_source_id r) = cc_source c)
  && String.eqb (ro_source_epoch r) (cc_source_epoch c) && String.eqb (ro_range_kind r) (cc_range_kind c)
  && (ro_range_start r =? cc_range_start c) && (ro_range_end r =? cc_range_end c)
  && (ro_record_count r =? Z.of_nat (length (cc_record_hashes c)))
  && String.eqb (ro_record_hashes_hash r) (record_hashes_hash c)
  && String.eqb (ro_media_refs_hash r) (media_refs_hash c).

(** ** Media *)

Definition media_present (media : gmap string MediaObject) (media_hash : string) : bool :=
  match media !! media_hash with Some m => String.eqb (mo_state m) "present" | None => false end.

(** The hashes of the references of one availability that are not present. *)
Definition absent_media (media : gmap string MediaObject) (availability : string) (refs : list media_ref) : list string :=
  sorted_strings (remove_dups (map mf_media_hash
    (filter (λ ref, String.eqb (mf_availability ref) availability && negb (media_present media (mf_media_hash ref)) = true)
       refs))).

Definition unavailable_media (media : gmap string MediaObject) (c : raw_commit) : list string :=
  absent_media media "available" (cc_media_refs c).

Definition missing_media (media : gmap string MediaObject) (c : raw_commit) : list string :=
  absent_media media "missing" (cc_media_refs c).

Definition media_state_of (missing : list string) : string := if bool_decide (missing = []) then "complete" else "missing".

(** ** Checks of the session and of the rendering *)

Definition session_refusal (sg : storage_store) (c : raw_commit) : option (option string) :=
  match sg_sessions sg !! cc_session_id c with
  | None => None
  | Some s =>
      if negb (String.eqb (ss_tenant_id s) (sn_tenant_id (cc_source c)) && String.eqb (ss_provider s) (sn_provider (cc_source c)))
      then Some None
      else match ss_owner_id s, cc_owner_id c with
           | Some owner, Some owner' => if String.eqb owner owner' then None else Some (Some "session_owner_conflict"%string)
           | _, _ => None
           end
  end.

Definition same_revision (c : raw_commit) (m : render_manifest) (_ : string) (g : RenderGeneration) : bool :=
  String.eqb (rg_session_id g) (cc_session_id c) && String.eqb (rg_parser_revision g) (rm_parser_revision m)
  && String.eqb (rg_ordering_revision g) (rm_ordering_revision m).

Definition render_refusal (sg : storage_store) (c : raw_commit) : option (option string) :=
  match cc_render_manifest c with
  | None => None
  | Some m =>
      let other := match head (select_rows (same_revision c m) (sg_generations sg)) with
                   | Some (generation_id, _) => negb (String.eqb generation_id (rm_generation_id m))
                   | None => false
                   end in
      let unfit := match sg_generations sg !! rm_generation_id m with
                   | Some g => negb (same_revision c m "" g) || String.eqb (rg_state g) "failed"
                   | None => false
                   end in
      let taken := bool_decide (is_Some (sg_renders sg !! rm_object_id m))
                   || negb (bool_decide (select_rows (λ _ r, String.eqb (rr_generation_id r) (rm_generation_id m)
                                                         && String.eqb (rr_source_envelope_id r) (cc_envelope_id c))
                                      (sg_renders sg) = [])) in
      if other then Some (Some "render_generation_revision_conflict"%string)
      else if unfit || taken then Some None else None
  end.

(** ** Admission of the range *)

(** [_contiguous_range_prefix]. *)
Fixpoint contiguous_from (through : Z) (ranges : list (Z * Z)) : Z :=
  match ranges with
  | [] => through
  | (start, end_) :: ranges => if negb (start =? through) || (end_ <? start) then through else contiguous_from end_ ranges
  end.

Definition contiguous_range_prefix (ranges : list (Z * Z)) : Z :=
  match ranges with [] => 0 | (start, _) :: _ => contiguous_from start ranges end.

Definition in_epoch (epoch : string) (_ : string) (r : RawObject) : bool := String.eqb (ro_source_epoch r) epoch.

Definition range_of (r : RawObject) : Z * Z := (ro_range_start r, ro_range_end r).

(** The ranges of an epoch that are not retired, in order. *)
Definition range_cmp : Z * Z → Z * Z → comparison := pair_cmp Z.compare Z.compare.

#[export] Instance range_comparison : Comparison range_cmp := pair_comparison Z.compare Z.compare.

Definition existing_ranges (sg : storage_store) (epoch : string) : list (Z * Z) :=
  py_sorted range_cmp (map (λ kr, range_of kr.2) (select_rows (λ k r, in_epoch epoch k r && is_active r) (sg_raw sg))).

(** Where the next range of a known epoch is to start. *)
Definition frontier (sg : storage_store) (c : raw_commit) (e : SourceEpoch) : Z :=
  let ranges := existing_ranges sg (cc_source_epoch c) in
  if bool_decide (ranges = []) && (ep_object_count e =? 0) then cc_range_start c else contiguous_range_prefix ranges.

(** A frontier that differs from the ranges is repaired, whether or not the
    commit is accepted. *)
Definition repair_frontier (sg : storage_store) (c : raw_commit) (e : SourceEpoch) (now : Z) : storage_store :=
  let ranges := existing_ranges sg (cc_source_epoch c) in
  if negb (bool_decide (ranges = [])) && negb (frontier sg c e =? ep_accepted_through e)
  then set_epochs (alter (accepted_epoch (frontier sg c e) (ep_object_count e) now) (cc_source_epoch c)) sg
  else sg.

(** Whether a known epoch takes the commit. *)
Definition known_epoch_refused (sg : storage_store) (c : raw_commit) (e : SourceEpoch) : bool :=
  negb (same_opening (cc_source c) (cc_range_kind c) (cc_predecessor c) (cc_epoch_opened_at c) e)
  || negb (is_open e)
  || match head (select_rows (in_epoch (cc_source_epoch c)) (sg_raw sg)) with
     | Some (_, r) => negb (String.eqb (ro_session_id r) (cc_session_id c))
     | None => false
     end.

Definition overlaps (c : raw_commit) (k : string) (r : RawObject) : bool :=
  in_epoch (cc_source_epoch c) k r && (ro_range_start r <? cc_range_end c) && (cc_range_start c <? ro_range_end r).

Definition same_range (c : raw_commit) (k : string) (r : RawObject) : bool :=
  in_epoch (cc_source_epoch c) k r && (ro_range_start r =? cc_range_start c) && (ro_range_end r =? cc_range_end c).

Definition range_refusal (sg : storage_store) (c : raw_commit) (accepted_through : Z) : option string :=
  if negb (bool_decide (select_rows (same_range c) (sg_raw sg) = [])) then Some "same_range_different_identity"%string
  else if cc_range_start c <? accepted_through then Some "range_overlap"%string
  else if accepted_through <? cc_range_start c then Some "range_gap"%string
  else if (cc_range_start c <? cc_range_end c) && negb (bool_decide (select_rows (overlaps c) (sg_raw sg) = []))
  then Some "range_overlap"%string
  else None.

(** ** The writes *)

Definition retired_raw (seq now : Z) (r : RawObject) : RawObject :=
  RawRow (ro_tenant_id r) (ro_session_id r) (ro_machine_id r) (ro_provider r) (ro_opaque_source_id r) (ro_source_epoch r)
    (ro_range_kind r) (ro_range_start r) (ro_range_end r) (ro_record_count r) (ro_record_hashes_hash r) (ro_object_hash r)
    (ro_payload_hash r) (ro_compressed_hash r) (ro_object_path r) (ro_uncompressed_size r) (ro_compressed_size r)
    (ro_provenance_kind r) (ro_media_refs_hash r) (ro_render_state r) (ro_media_state r) (ro_missing_media_hashes r)
    (ro_commit_seq r) (ro_sealed_at r) (ro_created_at r) (Some now) (Some seq).

Definition retired_render (seq now : Z) (r : RenderObject) : RenderObject :=
  RenderRow (rr_generation_id r) (rr_session_id r) (rr_source_envelope_id r) (rr_object_hash r) (rr_payload_hash r)
    (rr_object_path r) (rr_uncompressed_size r) (rr_compressed_size r) (rr_event_count r) (rr_user_messages r)
    (rr_assistant_messages r) (rr_tool_calls r) (rr_semantic_projection_version r) (rr_commit_seq r) (rr_created_at r)
    (Some now) (Some seq).

Definition retired_ref (seq now : Z) (r : SessionMediaRef) : SessionMediaRef :=
  MediaRefRow "retired" seq (sr_created_at r) (Some now) (Some seq).

Definition superseded_generation (seq now : Z) (g : RenderGeneration) : RenderGeneration :=
  GenerationRow (rg_session_id g) (rg_parser_revision g) (rg_ordering_revision g) "superseded" (rg_source_chain_hash g)
    (rg_object_count g) (rg_event_count g) seq (rg_created_at g) now (Some now).

Definition retired_session (seq now : Z) (s : StorageSession) : StorageSession :=
  SessionRow (ss_tenant_id s) (ss_owner_id s) (ss_provider s) (ss_machine_id s) (ss_started_at s) (ss_last_activity_at s)
    (ss_user_messages s) (ss_assistant_messages s) (ss_tool_calls s) (ss_transcript_revision s)
    (ss_semantic_projection_version s) (ss_current_render_generation s) "retired" "retired" (ss_media_state s)
    (ss_missing_media_hashes s) (ss_user_state s) seq (ss_created_at s) now.

Definition ref_active (r : SessionMediaRef) : bool := String.eqb (sr_state r) "active".

Definition render_active (r : RenderObject) : bool := bool_decide (rr_retired_at r = None).

(** The raw objects [ids], with their renderings and references, are retired. *)
Definition retire_envelopes (ids : list string) (seq now : Z) (sg : storage_store) : storage_store :=
  let sg := set_raw (update_rows (λ k _, str_in k ids) (retired_raw seq now)) sg in
  let sg := set_renders (update_rows (λ _ r, str_in (rr_source_envelope_id r) ids && render_active r) (retired_render seq now)) sg in
  set_refs (update_rows (λ k r, opt_in k.1.2 ids && ref_active r) (retired_ref seq now)) sg.

(** A session without active raw objects is retired. *)
Definition retire_session (embedding_artifact : string) (seq now : Z) (sg : storage_store) (session_id : string) :
    storage_store :=
  if bool_decide (select_rows (λ _ r, String.eqb (ro_session_id r) session_id && is_active r) (sg_raw sg) = [])
  then
    let sg := set_ledger (set_sessions (alter (retired_session seq now) session_id)) sg in
    let sg := set_generations (update_rows (λ _ g, String.eqb (rg_session_id g) session_id && String.eqb (rg_state g) "current")
                                 (superseded_generation seq now)) sg in
    set_ledger (λ pc, foldl (λ pc p, want_replacement pc session_id seq now p) pc (KNOWN_PROJECTORS embedding_artifact)) sg
  else sg.

(** A new epoch takes the place of its predecessor: the predecessor is closed,
    its envelopes are retired, and so are the other sessions that had only
    those.  The order in which a set of sessions is gone through does not
    matter: each is retired by itself. *)
Definition replace_epoch (embedding_artifact : string) (c : raw_commit) (p : string) (seq now : Z) (sg : storage_store) :
    storage_store :=
  let rows := select_rows (λ k r, in_epoch p k r && is_active r) (sg_raw sg) in
  let replaced := remove_dups (filter (λ s, negb (String.eqb s (cc_session_id c)) = true) (map (λ kr, ro_session_id kr.2) rows)) in
  let sg := close_predecessor (Some p) (cc_source_epoch c) (cc_epoch_opened_at c) seq now sg in
  let sg := retire_envelopes (map fst rows) seq now sg in
  foldl (retire_session embedding_artifact seq now) sg replaced.

(** The rows of the epoch: a new one, or the one that is extended. *)
Definition write_epoch (embedding_artifact : string) (c : raw_commit) (seq now : Z) (sg : storage_store) : storage_store :=
  match sg_epochs sg !! cc_source_epoch c with
  | None =>
      let sg := match cc_predecessor c with Some p => replace_epoch embedding_artifact c p seq now sg | None => sg end in
      set_epochs (insert (cc_source_epoch c)
        (new_epoch (cc_source c) (cc_range_kind c) (cc_predecessor c) (cc_range_end c) 1 (cc_epoch_opened_at c) seq now)) sg
  | Some e => set_epochs (insert (cc_source_epoch c) (accepted_epoch (cc_range_end c) (ep_object_count e + 1) now e)) sg
  end.

Definition new_raw_object (c : raw_commit) (missing : list string) (seq now : Z) : RawObject :=
  let src := cc_source c in
  RawRow (sn_tenant_id src) (cc_session_id c) (sn_machine_id src) (sn_provider src) (sn_opaque_source_id src)
    (cc_source_epoch c) (cc_range_kind c) (cc_range_start c) (cc_range_end c) (Z.of_nat (length (cc_record_hashes c)))
    (record_hashes_hash c) (cc_object_hash c) (cc_payload_hash c) (cc_compressed_hash c) (cc_object_path c)
    (cc_uncompressed_size c) (cc_compressed_size c) (cc_provenance_kind c) (media_refs_hash c) (cc_render_state c)
    (media_state_of missing) missing seq (cc_sealed_at c) now None None.

(** A row for every missing object that has none. *)
Definition missing_object (seq now : Z) : MediaObject := MediaRow "missing" None None None seq now None None now now.

Definition insert_missing (missing : list string) (seq now : Z) (media : gmap string MediaObject) : gmap string MediaObject :=
  foldl (λ media h, match media !! h with Some _ => media | None => <[h := missing_object seq now]> media end) media missing.

(** The references of the envelope, under the table's unique constraint. *)
Fixpoint insert_media_refs (c : raw_commit) (seq now : Z) (media_refs : list media_ref) (refs : gmap ref_name SessionMediaRef) :
    res (gmap ref_name SessionMediaRef) :=
  match media_refs with
  | [] => Ok refs
  | ref :: media_refs =>
      let key := (cc_session_id c, mf_media_hash ref, Some (cc_envelope_id c), mf_ref_key ref) in
      match refs !! key with
      | Some _ => Err IntegrityError
      | None => insert_media_refs c seq now media_refs (<[key := MediaRefRow "active" seq now None None]> refs)
      end
  end.

(** *** The session *)

(** The bound of [missing_media_hashes_json] on a session. *)
Definition bounded_missing (hashes : list string) : list string := take 1000 (sorted_strings (remove_dups hashes)).

(** The media that the raw objects of a session miss. *)
Definition active_missing (sg : storage_store) (session_id : string) : list string :=
  concat (map (λ kr, ro_missing_media_hashes kr.2)
            (select_rows (λ _ r, String.eqb (ro_session_id r) session_id && is_active r) (sg_raw sg))).

(** [media_state] and [missing_media_hashes_json] of the session.  An epoch
    that was replaced is count_after out; otherwise what was missing stays. *)
Definition session_media (sg : storage_store) (c : raw_commit) (replaces : bool) (missing : list string)
    (existing : option StorageSession) : string * list string :=
  match existing with
  | None => (media_state_of missing, missing)
  | Some s =>
      if replaces then let hashes := bounded_missing (active_missing sg (cc_session_id c)) in (media_state_of hashes, hashes)
      else if String.eqb (ss_media_state s) "missing"
      then ("missing"%string, bounded_missing (ss_missing_media_hashes s ++ missing))
      else (media_state_of missing, missing)
  end.

Definition write_session (c : raw_commit) (replaces : bool) (missing : list string) (existing : option StorageSession)
    (seq now : Z) (sg : storage_store) : storage_store :=
  let '(media_state, hashes) := session_media sg c replaces missing existing in
  let src := cc_source c in
  let row := match existing with
    | None =>
        SessionRow (sn_tenant_id src) (cc_owner_id c) (sn_provider src) (sn_machine_id src) (cc_started_at c)
          (cc_last_activity_at c) 0 0 0 seq 0 None "durable" (cc_render_state c) media_state hashes "active" seq now now
    | Some s =>
        SessionRow (ss_tenant_id s) (match cc_owner_id c with Some o => Some o | None => ss_owner_id s end) (ss_provider s)
          (ss_machine_id s) (Z.min (ss_started_at s) (cc_started_at c)) (Z.max (ss_last_activity_at s) (cc_last_activity_at c))
          (ss_user_messages s) (ss_assistant_messages s) (ss_tool_calls s) seq (ss_semantic_projection_version s)
          (ss_current_render_generation s) "durable" (cc_render_state c) media_state hashes (ss_user_state s) seq
          (ss_created_at s) now
    end in
  set_ledger (set_sessions (insert (cc_session_id c) row)) sg.

(** *** The rendering *)

Definition publishes (c : raw_commit) : bool := String.eqb (cc_render_state c) "ready".

(** [bytes.fromhex] of a hash. *)
Definition envelope_bytes (h : string) : bytes := fromhex (chars h).

Definition generation_state (c : raw_commit) : string := if publishes c then "current" else "pending".

Definition new_generation (c : raw_commit) (m : render_manifest) (seq now : Z) : RenderGeneration :=
  GenerationRow (cc_session_id c) (rm_parser_revision m) (rm_ordering_revision m) (generation_state c)
    (sha256_hexdigest (envelope_bytes (cc_envelope_id c))) 1 (rm_event_count m) seq now now None.

Definition extended_generation (c : raw_commit) (m : render_manifest) (seq now : Z) (g : RenderGeneration) : RenderGeneration :=
  GenerationRow (rg_session_id g) (rg_parser_revision g) (rg_ordering_revision g) (generation_state c)
    (sha256_hexdigest (envelope_bytes (rg_source_chain_hash g) ++ envelope_bytes (cc_envelope_id c))) (rg_object_count g + 1)
    (rg_event_count g + rm_event_count m) seq (rg_created_at g) now (rg_superseded_at g).

Definition new_render_object (c : raw_commit) (m : render_manifest) (seq now : Z) : RenderObject :=
  RenderRow (rm_generation_id m) (cc_session_id c) (cc_envelope_id c) (rm_object_hash m) (rm_payload_hash m)
    (rm_object_path m) (rm_uncompressed_size m) (rm_compressed_size m) (rm_event_count m) (rm_user_messages m)
    (rm_assistant_messages m) (rm_tool_calls m) (rm_semantic_projection_version m) seq now None None.

(** The projection of a published rendering on its session.  A Claude session
    is left to the semantic projector, with version 0. *)
Definition published_version (c : raw_commit) (m : render_manifest) (existing : option StorageSession) : Z :=
  if String.eqb (lower (strip (sn_provider (cc_source c)))) "claude" then 0
  else match existing with
       | Some s =>
           match ss_current_render_generation s with
           | Some _ => Z.min (ss_semantic_projection_version s) (rm_semantic_projection_version m)
           | None => rm_semantic_projection_version m
           end
       | None => rm_semantic_projection_version m
       end.

Definition projected_session (generation_id : string) (render_state : string → string) (users assistants tools version : Z)
    (s : StorageSession) : StorageSession :=
  SessionRow (ss_tenant_id s) (ss_owner_id s) (ss_provider s) (ss_machine_id s) (ss_started_at s) (ss_last_activity_at s)
    users assistants tools (ss_transcript_revision s) version (Some generation_id) (ss_raw_state s)
    (render_state (ss_render_state s)) (ss_media_state s) (ss_missing_media_hashes s) (ss_user_state s) (ss_commit_seq s)
    (ss_created_at s) (ss_updated_at s).

Definition count_after (f : StorageSession → Z) (existing : option StorageSession) (n : Z) : Z :=
  match existing with Some s => f s | None => 0 end + n.

Definition publish_on_session (c : raw_commit) (m : render_manifest) (existing : option StorageSession) (sg : storage_store) :
    storage_store :=
  set_ledger (set_sessions (alter (projected_session (rm_generation_id m) (λ _, "ready"%string)
    (count_after ss_user_messages existing (rm_user_messages m)) (count_after ss_assistant_messages existing (rm_assistant_messages m))
    (count_after ss_tool_calls existing (rm_tool_calls m)) (published_version c m existing)) (cc_session_id c))) sg.

(** The other current generations of the session are superseded. *)
Definition supersede_others (c : raw_commit) (m : render_manifest) (seq now : Z) (sg : storage_store) : storage_store :=
  set_generations (update_rows (λ k g, String.eqb (rg_session_id g) (cc_session_id c)
    && negb (String.eqb k (rm_generation_id m)) && String.eqb (rg_state g) "current") (superseded_generation seq now)) sg.

Definition write_rendering (c : raw_commit) (existing : option StorageSession) (seq now : Z) (sg : storage_store) :
    storage_store :=
  match cc_render_manifest c with
  | None => sg
  | Some m =>
      let g := match sg_generations sg !! rm_generation_id m with
               | None => new_generation c m seq now
               | Some g => extended_generation c m seq now g
               end in
      let sg := set_generations (insert (rm_generation_id m) g) sg in
      let sg := if publishes c then supersede_others c m seq now sg else sg in
      let sg := set_renders (insert (rm_object_id m) (new_render_object c m seq now)) sg in
      if publishes c then publish_on_session c m existing sg else sg
  end.

(** *** After a replacement *)

Definition sum (l : list Z) : Z := foldr Z.add 0 l.

Definition rendered_rows (sg : storage_store) (session_id generation_id : string) : list RenderObject :=
  map snd (select_rows (λ _ r, String.eqb (rr_session_id r) session_id && String.eqb (rr_generation_id r) generation_id
                                 && render_active r) (sg_renders sg)).

Definition recomputed_generation (rows : list RenderObject) (seq now : Z) (g : RenderGeneration) : RenderGeneration :=
  GenerationRow (rg_session_id g) (rg_parser_revision g) (rg_ordering_revision g) "current"
    (sha256_hexdigest (chars "longhouse-render-source-set-v1" ++ [byte_of 0]
       ++ concat (map envelope_bytes (sorted_strings (map rr_source_envelope_id rows)))))
    (Z.of_nat (length rows)) (sum (map rr_event_count rows)) seq (rg_created_at g) now (rg_superseded_at g).

(** [_recompute_render_generation_projection]. *)
Definition recompute_render_generation_projection (session_id generation_id : string) (seq now : Z) (sg : storage_store) :
    storage_store :=
  let rows := rendered_rows sg session_id generation_id in
  let sg := set_generations (alter (recomputed_generation rows seq now) generation_id) sg in
  set_ledger (set_sessions (alter (projected_session generation_id (λ s, s) (sum (map rr_user_messages rows))
    (sum (map rr_assistant_messages rows)) (sum (map rr_tool_calls rows))
    (default 0 (minimum (map rr_semantic_projection_version rows)))) session_id)) sg.

Definition generation_to_recompute (c : raw_commit) (existing : option StorageSession) : string :=
  match cc_render_manifest c with
  | Some m => rm_generation_id m
  | None => default ""%string (s ← existing; ss_current_render_generation s)
  end.

Definition recompute_replaced (c : raw_commit) (replaces : bool) (existing : option StorageSession) (seq now : Z)
    (sg : storage_store) : storage_store :=
  let generation_id := generation_to_recompute c existing in
  if replaces && publishes c && negb (String.eqb generation_id "")
  then recompute_render_generation_projection (cc_session_id c) generation_id seq now sg
  else sg.

(** ** The commit *)

Section Commit.
Context (nfc : ustr → ustr) (embedding_artifact : string).

(** Whether the range is admitted; the refusal, and the frontier repaired. *)
Definition admit_range (sg : storage_store) (c : raw_commit) (repaired_at : Z) : option (option string) * storage_store :=
  match sg_epochs sg !! cc_source_epoch c with
  | None =>
      match opening_refusal (sg_epochs sg) (cc_source c) (cc_predecessor c) with
      | Some reason => (Some (Some reason), sg)
      | None => (Some <$> range_refusal sg c (cc_range_start c), sg)
      end
  | Some e =>
      if known_epoch_refused sg c e then (Some None, sg)
      else let sg' := repair_frontier sg c e repaired_at in (Some <$> range_refusal sg' c (frontier sg c e), sg')
  end.

(** Whether the commit opens an epoch in place of another. *)
Definition replaces_epoch (sg : storage_store) (c : raw_commit) : bool :=
  bool_decide (sg_epochs sg !! cc_source_epoch c = None) && bool_decide (is_Some (cc_predecessor c)).

(** The writes of an admitted commit. *)
Definition write_commit (sg : storage_store) (c : raw_commit) (now : Z) : res storage_store :=
  let existing := sg_sessions sg !! cc_session_id c in
  let replaces := replaces_epoch sg c in
  let missing := missing_media (sg_media sg) c in
  let sg := set_ledger advance_projector_seq sg in
  let seq := sg_seq sg in
  let sg := write_epoch embedding_artifact c seq now sg in
  let sg := set_raw (insert (cc_envelope_id c) (new_raw_object c missing seq now)) sg in
  let sg := set_media (insert_missing missing seq now) sg in
  let! refs := insert_media_refs c seq now (cc_media_refs c) (sg_refs sg) in
  let sg := set_refs (λ _, refs) sg in
  let sg := write_session c replaces missing existing seq now sg in
  let sg := write_rendering c existing seq now sg in
  let sg := recompute_replaced c replaces existing seq now sg in
  Ok (set_ledger (λ pc, foldl (λ pc p, want_revision pc (cc_session_id c) seq now p) pc (cc_projectors c)) sg).

Definition conflict (sg : storage_store) (reason : option string) : res (commit_answer * storage_store) :=
  Ok (CommitConflict reason (sg_seq sg), sg).

(** The checks of a commit that come after the tombstone and the replay. *)
Definition commit_new (sg : storage_store) (c : raw_commit) (repaired_at commit_time : Z) :
    res (commit_answer * storage_store) :=
  let unavailable := unavailable_media (sg_media sg) c in
  if negb (bool_decide (unavailable = [])) then Ok (MediaUnavailable unavailable (sg_seq sg), sg)
  else
    match session_refusal sg c with
    | Some reason => conflict sg reason
    | None =>
        match render_refusal sg c with
        | Some reason => conflict sg reason
        | None =>
            match admit_range sg c repaired_at with
            | (Some reason, sg) => conflict sg reason
            | (None, sg) =>
                let! sg := write_commit sg c commit_time in
                match sg_raw sg !! cc_envelope_id c with
                | Some r => let! receipt := raw_object_receipt (cc_envelope_id c) r in Ok (CommitCreated receipt, sg)
                | None => Err NoResultFound
                end
            end
        end
    end.

Definition commit_raw_object (sg : storage_store) (c : raw_commit) (repaired_at commit_time : Z) :
    res (commit_answer * storage_store) :=
  let! id := envelope_id nfc (envelope_identity c) in
  if negb (String.eqb id (cc_envelope_id c)) then Ok (IdentityMismatch, sg)
  else
    let! _ := u64_key (cc_range_start c) in
    let! _ := u64_key (cc_range_end c) in
    match sg_tombstones sg !! cc_session_id c with
    | Some t => Ok (CommitDeleted (tb_deletion_revision t), sg)
    | None =>
        match sg_raw sg !! cc_envelope_id c with
        | Some r =>
            if negb (bool_decide (ro_retired_at r = None) && bool_decide (ro_retirement_revision r = None))
               || negb (replays c r)
            then conflict sg None
            else let! receipt := raw_object_receipt (cc_envelope_id c) r in Ok (CommitReplay receipt, sg)
        | None => commit_new sg c repaired_at commit_time
        end
    end.

End Commit.

(** ** Deletion *)

Definition deleted_session_row (seq now : Z) (s : StorageSession) : StorageSession :=
  SessionRow (ss_tenant_id s) (ss_owner_id s) (ss_provider s) (ss_machine_id s) (ss_started_at s) (ss_last_activity_at s)
    (ss_user_messages s) (ss_assistant_messages s) (ss_tool_calls s) (ss_transcript_revision s)
    (ss_semantic_projection_version s) (ss_current_render_generation s) (ss_raw_state s) (ss_render_state s)
    (ss_media_state s) (ss_missing_media_hashes s) "deleted" seq (ss_created_at s) now.

Inductive deletion_answer : Type :=
  | DeletionKnown (exact_replay : bool) (deletion_id : option string) (deletion_revision seq : Z)
  | SessionDeleted (deletion_id : string) (deletion_revision retired_raw retired_render retired_generations
                    retired_media_refs : Z).

(** [rowcount]. *)
Definition row_count {K A} `{Countable K} (P : K → A → bool) (rows : gmap K A) : Z := Z.of_nat (length (select_rows P rows)).

(** The rows that a deletion retires. *)
Definition raw_of_session (session_id : string) (_ : string) (r : RawObject) : bool :=
  String.eqb (ro_session_id r) session_id && is_active r.
Definition renders_of_session (session_id : string) (_ : string) (r : RenderObject) : bool :=
  String.eqb (rr_session_id r) session_id && render_active r.
Definition generations_of_session (session_id : string) (_ : string) (g : RenderGeneration) : bool :=
  String.eqb (rg_session_id g) session_id && negb (String.eqb (rg_state g) "superseded").
Definition refs_of_session (session_id : string) (k : ref_name) (r : SessionMediaRef) : bool :=
  String.eqb k.1.1.1 session_id && ref_active r.

(** [delete_storage_session], without the bounded live state and [ended_at]. *)
Definition delete_storage_session (embedding_artifact : string) (sg : storage_store) (session_id deletion_id : string)
    (reason : option string) (deleted_at : Z) : deletion_answer * storage_store :=
  match sg_tombstones sg !! session_id with
  | Some t =>
      (DeletionKnown (bool_decide (tb_deletion_id t = Some deletion_id)) (tb_deletion_id t) (tb_deletion_revision t)
         (tb_commit_seq t), sg)
  | None =>
      let raw := row_count (raw_of_session session_id) (sg_raw sg) in
      let renders := row_count (renders_of_session session_id) (sg_renders sg) in
      let generations := row_count (generations_of_session session_id) (sg_generations sg) in
      let refs := row_count (refs_of_session session_id) (sg_refs sg) in
      let sg := set_ledger advance_projector_seq sg in
      let seq := sg_seq sg in
      let sg := set_ledger (set_tombstones (insert session_id (Tombstone (Some deletion_id) seq deleted_at reason seq))) sg in
      let sg := set_raw (update_rows (raw_of_session session_id) (retired_raw seq deleted_at)) sg in
      let sg := set_renders (update_rows (renders_of_session session_id) (retired_render seq deleted_at)) sg in
      let sg := set_generations (update_rows (generations_of_session session_id) (superseded_generation seq deleted_at)) sg in
      let sg := set_refs (update_rows (refs_of_session session_id) (retired_ref seq deleted_at)) sg in
      let sg := set_ledger (set_sessions (alter (deleted_session_row seq deleted_at) session_id)) sg in
      let sg := set_ledger (λ pc, foldl (λ pc p, want_deletion pc session_id seq deleted_at p) pc
                                    (KNOWN_PROJECTORS embedding_artifact)) sg in
      (SessionDeleted deletion_id seq raw renders generations refs, sg)
  end.

(** ** Media *)

Record session_ref : Type := SessionRef {
  sf_session_id : string;
  sf_envelope_id : option string;
  sf_ref_key : string;
}.

Record media_commit : Type := MediaCommit {
  mm_media_hash : string;
  mm_state : string;
  mm_mime_type : option string;
  mm_byte_size : option Z;
  mm_object_path : option string;
  mm_session_refs : list session_ref;
  mm_observed_at : Z;
}.

Inductive media_answer : Type :=
  | MediaSessionDeleted (deletion_revision : Z)
  | MediaConflict (seq : Z)
  | MediaReplay (media : MediaObject) (seq : Z)
  | MediaCommitted (created : bool) (media : MediaObject) (seq : Z).

Definition ref_of (m : media_commit) (ref : session_ref) : ref_name :=
  (sf_session_id ref, mm_media_hash m, sf_envelope_id ref, sf_ref_key ref).

(** The first reference to a deleted session, or to an envelope that is not an
    active one of its session. *)
Fixpoint ref_refusal (sg : storage_store) (refs : list session_ref) : option media_answer :=
  match refs with
  | [] => None
  | ref :: refs =>
      match sg_tombstones sg !! sf_session_id ref with
      | Some t => Some (MediaSessionDeleted (tb_deletion_revision t))
      | None =>
          match sf_envelope_id ref with
          | None => ref_refusal sg refs
          | Some envelope =>
              match sg_raw sg !! envelope with
              | Some r => if is_active r && String.eqb (ro_session_id r) (sf_session_id ref) then ref_refusal sg refs
                          else Some (MediaConflict (sg_seq sg))
              | None => Some (MediaConflict (sg_seq sg))
              end
          end
      end
  end.

(** The states a media object may take from its state; no others are stored. *)
Definition allowed_states (state : string) : list string :=
  if String.eqb state "missing" then ["missing"; "present"; "corrupt"; "deleted"]
  else if String.eqb state "present" then ["present"; "corrupt"; "deleted"]
  else if String.eqb state "corrupt" then ["corrupt"; "present"; "deleted"]
  else if String.eqb state "deleted" then ["deleted"] else [].

Definition sizes_differ (a b : option Z) : bool :=
  match a, b with Some a, Some b => negb (a =? b) | _, _ => false end.

Definition referenced (sg : storage_store) (media_hash : string) : bool :=
  negb (bool_decide (select_rows (λ k r, String.eqb k.1.1.2 media_hash && ref_active r) (sg_refs sg) = [])).

Definition media_refused (sg : storage_store) (m : media_commit) (existing : MediaObject) : bool :=
  (String.eqb (mo_state existing) "deleted" && negb (String.eqb (mm_state m) "deleted"))
  || sizes_differ (mo_byte_size existing) (mm_byte_size m)
  || negb (str_in (mm_state m) (allowed_states (mo_state existing)))
  || (String.eqb (mm_state m) "deleted" && referenced sg (mm_media_hash m)).

(** The references that have no row yet; a retired one ends the call. *)
Fixpoint new_media_refs (sg : storage_store) (m : media_commit) (refs : list session_ref) : media_answer + list ref_name :=
  match refs with
  | [] => inr []
  | ref :: refs =>
      match sg_refs sg !! ref_of m ref with
      | Some prior =>
          if negb (ref_active prior) || negb (bool_decide (sr_retired_at prior = None))
          then inl (MediaSessionDeleted (default 0 (sr_deletion_revision prior)))
          else new_media_refs sg m refs
      | None => match new_media_refs sg m refs with inr keys => inr (ref_of m ref :: keys) | inl answer => inl answer end
      end
  end.

Definition newly_known {A} (existing given : option A) : bool :=
  match existing, given with None, Some _ => true | _, _ => false end.

Definition object_changed (m : media_commit) (existing : MediaObject) : bool :=
  negb (String.eqb (mo_state existing) (mm_state m)) || newly_known (mo_mime_type existing) (mm_mime_type m)
  || newly_known (mo_byte_size existing) (mm_byte_size m) || newly_known (mo_object_path existing) (mm_object_path m).

Definition when (state : string) (m : media_commit) (otherwise : option Z) : option Z :=
  if String.eqb (mm_state m) state then Some (mm_observed_at m) else otherwise.

Definition new_media (m : media_commit) (seq now : Z) : MediaObject :=
  MediaRow (mm_state m) (mm_mime_type m) (mm_byte_size m) (mm_object_path m) seq (mm_observed_at m) (when "present" m None)
    (when "deleted" m None) now now.

Definition changed_media (m : media_commit) (seq now : Z) (e : MediaObject) : MediaObject :=
  MediaRow (mm_state m) (opt_or (mo_mime_type e) (mm_mime_type m))
    (match mo_byte_size e with Some n => Some n | None => mm_byte_size m end) (opt_or (mm_object_path m) (mo_object_path e)) seq
    (mm_observed_at m) (when "present" m (mo_verified_at e)) (when "deleted" m None) (mo_created_at e) now.

Fixpoint insert_refs (keys : list ref_name) (seq now : Z) (refs : gmap ref_name SessionMediaRef) :
    res (gmap ref_name SessionMediaRef) :=
  match keys with
  | [] => Ok refs
  | key :: keys =>
      match refs !! key with
      | Some _ => Err IntegrityError
      | None => insert_refs keys seq now (<[key := MediaRefRow "active" seq now None None]> refs)
      end
  end.

(** The rows of the object and of its new references. *)
Definition write_media (sg : storage_store) (m : media_commit) (existing : option MediaObject) (keys : list ref_name)
    (now : Z) : res (media_answer * storage_store) :=
  let sg := set_ledger advance_projector_seq sg in
  let seq := sg_seq sg in
  let row := match existing with
             | None => new_media m seq now
             | Some e => if object_changed m e then changed_media m seq now e else e
             end in
  let! refs := insert_refs keys seq now (sg_refs sg) in
  Ok (MediaCommitted (bool_decide (existing = None)) row seq, set_refs (λ _, refs) (set_media (insert (mm_media_hash m) row) sg)).

(** [commit_media_object].  Its answer also lists the references. *)
Definition commit_media_object (sg : storage_store) (m : media_commit) (commit_time : Z) : res (media_answer * storage_store) :=
  match ref_refusal sg (mm_session_refs m) with
  | Some answer => Ok (answer, sg)
  | None =>
      let existing := sg_media sg !! mm_media_hash m in
      if match existing with Some e => media_refused sg m e | None => false end then Ok (MediaConflict (sg_seq sg), sg)
      else
        match new_media_refs sg m (mm_session_refs m) with
        | inl answer => Ok (answer, sg)
        | inr keys =>
            match existing with
            | Some e =>
                if negb (object_changed m e) && bool_decide (keys = []) then Ok (MediaReplay e (mo_commit_seq e), sg)
                else write_media sg m existing keys commit_time
            | None => write_media sg m existing keys commit_time
            end
        end
  end.

(** ** Reads *)

(** The order of a manifest: position, then envelope. *)
Definition manifest_key (kr : string * RawObject) : Z * Z * string := (range_of kr.2, kr.1).
Definition manifest_cmp : Z * Z * string → Z * Z * string → comparison := pair_cmp range_cmp str_cmp.

(** [read_source_epoch_manifest]: the epoch and a page of its envelopes, the
    retired ones with them. *)
Definition read_source_epoch_manifest (sg : storage_store) (epoch : string) (after_position : option Z) (limit : nat) :
    option (SourceEpoch * list (string * RawObject)) :=
  e ← sg_epochs sg !! epoch;
  let rows := select_rows (λ k r, in_epoch epoch k r
                && match after_position with Some p => p <=? ro_range_start r | None => true end) (sg_raw sg) in
  Some (e, take limit (sort_on manifest_cmp manifest_key rows)).

(** [raw_objects_exist_batch]: what is known of an envelope. *)
Definition raw_object_state (sg : storage_store) (envelope_id : string) : string :=
  match sg_raw sg !! envelope_id with
  | Some r => if is_active r then "durable" else "deleted"
  | None => "missing"
  end.
