(* ===== verification/StorageLaws.v ===== *)
(** * Lemmas on the storage commit

    What each stage of a commit leaves alone, the cases of a commit, and the
    invariant of source epochs. *)

From S2P Require Import Prelude PyStr PyTime PyText Bytes StorageContracts ProjectorQueue LedgerLaws StorageTables.
From S2P Require Import StorageCommit.

Open Scope list_scope.
Open Scope Z_scope.

(** The rows that decide what is admitted. *)
Definition core (sg : storage_store) : gmap string SourceEpoch * gmap string RawObject * gmap string SessionTombstone :=
  (sg_epochs sg, sg_raw sg, sg_tombstones sg).

Section Frames.
Context (embedding_artifact : string).

Lemma foldl_keeps {A B C} (g : A → C) (f : A → B → A) l a : (∀ a b, g (f a b) = g a) → g (foldl f a l) = g a.
Proof. intros Hf. revert a. induction l as [|b l IH]; intros a; [done|]. simpl. by rewrite IH. Qed.

Lemma want_replacement_tables seq now s p pc :
  pc_sessions (want_replacement pc s seq now p) = pc_sessions pc ∧ pc_tombstones (want_replacement pc s seq now p) = pc_tombstones pc.
Proof. done. Qed.

Lemma want_revision_tables seq now s p pc :
  pc_sessions (want_revision pc s seq now p) = pc_sessions pc ∧ pc_tombstones (want_revision pc s seq now p) = pc_tombstones pc.
Proof. unfold want_revision. destruct (_ !! _); [|done]. by destruct (_ <? _). Qed.

Lemma want_deletion_tables seq now s p pc :
  pc_sessions (want_deletion pc s seq now p) = pc_sessions pc ∧ pc_tombstones (want_deletion pc s seq now p) = pc_tombstones pc.
Proof. unfold want_deletion. by destruct (_ !! _). Qed.

Lemma fold_tables (f : projector_catalog → string → projector_catalog) l pc :
  (∀ pc p, pc_sessions (f pc p) = pc_sessions pc ∧ pc_tombstones (f pc p) = pc_tombstones pc) →
  pc_sessions (foldl f pc l) = pc_sessions pc ∧ pc_tombstones (foldl f pc l) = pc_tombstones pc.
Proof. intros Hf. split; apply foldl_keeps; intros; apply Hf. Qed.

Lemma fold_wants seq now s l pc :
  let pc' := foldl (λ pc p, want_revision pc s seq now p) pc l in
  pc_sessions pc' = pc_sessions pc ∧ pc_tombstones pc' = pc_tombstones pc.
Proof. apply fold_tables. intros; apply want_revision_tables. Qed.

Lemma retire_session_core seq now sg s : core (retire_session embedding_artifact seq now sg s) = core sg.
Proof.
  unfold retire_session. case_bool_decide; [|done]. unfold core, sg_tombstones. cbn [sg_epochs sg_raw sg_ledger set_ledger set_generations].
  rewrite (proj2 (fold_tables _ _ _ (λ pc p, want_replacement_tables seq now s p pc))). done.
Qed.

Lemma replace_epoch_core c p seq now sg :
  core (replace_epoch embedding_artifact c p seq now sg) =
  (alter (closed_epoch (cc_source_epoch c) (cc_epoch_opened_at c) seq now) p (sg_epochs sg),
   update_rows (λ k _, str_in k (map fst (select_rows (λ k r, in_epoch p k r && is_active r) (sg_raw sg))))
     (retired_raw seq now) (sg_raw sg),
   sg_tombstones sg).
Proof. unfold replace_epoch. rewrite (foldl_keeps core); [done|]. intros; apply retire_session_core. Qed.

(** The epochs and raw objects once the epoch is written. *)
Definition epochs_written (c : raw_commit) (seq now : Z) (epochs : gmap string SourceEpoch) : gmap string SourceEpoch :=
  match epochs !! cc_source_epoch c with
  | None =>
      <[cc_source_epoch c := new_epoch (cc_source c) (cc_range_kind c) (cc_predecessor c) (cc_range_end c) 1
                               (cc_epoch_opened_at c) seq now]>
        match cc_predecessor c with
        | Some p => alter (closed_epoch (cc_source_epoch c) (cc_epoch_opened_at c) seq now) p epochs
        | None => epochs
        end
  | Some e => <[cc_source_epoch c := accepted_epoch (cc_range_end c) (ep_object_count e + 1) now e]> epochs
  end.

Definition raw_retired (c : raw_commit) (seq now : Z) (epochs : gmap string SourceEpoch) (raw : gmap string RawObject) :
    gmap string RawObject :=
  match epochs !! cc_source_epoch c, cc_predecessor c with
  | None, Some p => update_rows (λ k _, str_in k (map fst (select_rows (λ k r, in_epoch p k r && is_active r) raw)))
                      (retired_raw seq now) raw
  | _, _ => raw
  end.

Lemma write_epoch_core c seq now sg :
  core (write_epoch embedding_artifact c seq now sg) =
  (epochs_written c seq now (sg_epochs sg), raw_retired c seq now (sg_epochs sg) (sg_raw sg), sg_tombstones sg).
Proof.
  unfold write_epoch, epochs_written, raw_retired. destruct (sg_epochs sg !! _) as [e|]; [done|].
  destruct (cc_predecessor c) as [p|]; [|done]. pose proof (replace_epoch_core c p seq now sg) as H.
  unfold core in *. cbn [sg_epochs sg_raw set_epochs]. unfold sg_tombstones in *. cbn [sg_ledger set_epochs].
  injection H as He Hr Ht. by rewrite He, Hr, Ht.
Qed.

Lemma write_session_core c replaces missing existing seq now sg :
  core (write_session c replaces missing existing seq now sg) = core sg.
Proof. unfold write_session. by destruct (session_media _ _ _ _ _). Qed.

Lemma write_rendering_core c existing seq now sg : core (write_rendering c existing seq now sg) = core sg.
Proof. unfold write_rendering. destruct (cc_render_manifest c); [|done]. by destruct (publishes c). Qed.

Lemma recompute_core c replaces existing seq now sg : core (recompute_replaced c replaces existing seq now sg) = core sg.
Proof. unfold recompute_replaced. by destruct (_ && _ && _). Qed.

(** What a commit does to the core. *)
Lemma write_commit_core sg c now sg' : write_commit embedding_artifact sg c now = Ok sg' →
  let seq := sg_seq sg + 1 in
  core sg' = (epochs_written c seq now (sg_epochs sg),
              <[cc_envelope_id c := new_raw_object c (missing_media (sg_media sg) c) seq now]>
                (raw_retired c seq now (sg_epochs sg) (sg_raw sg)),
              sg_tombstones sg).
Proof.
  intros H. cbv zeta. unfold write_commit in H. cbv zeta in H.
  destruct (insert_media_refs _ _ _ _ _) as [refs|]; [|done]. injection H as <-.
  unfold core at 1. cbn [sg_epochs sg_raw set_ledger]. unfold sg_tombstones at 1. cbn [sg_ledger set_ledger].
  rewrite (proj2 (fold_wants _ _ _ _ _)).
  match goal with |- (sg_epochs ?final, _, _) = ?r => change (core final = r) end.
  rewrite recompute_core, write_rendering_core, write_session_core.
  pose proof (write_epoch_core c (sg_seq sg + 1) now (set_ledger advance_projector_seq sg)) as Hw.
  unfold core in *. cbn [sg_epochs sg_raw set_ledger set_refs set_media set_raw].
  unfold sg_tombstones in *. cbn [sg_ledger set_ledger set_refs set_media set_raw].
  change (sg_seq (set_ledger advance_projector_seq sg)) with (sg_seq sg + 1). injection Hw as He Hr Ht. rewrite He, Hr, Ht. done.
Qed.

(** ** The cases of a commit *)

Context (nfc : ustr → ustr).

(** A commit either leaves the catalog as it is, or repairs the frontier of its
    epoch and refuses, or writes. *)
Inductive commit_case (sg : storage_store) (c : raw_commit) (repaired_at now : Z) : commit_answer → storage_store → Prop :=
  | CaseKept answer : (∀ receipt, answer ≠ CommitCreated receipt) → commit_case sg c repaired_at now answer sg
  | CaseRepaired answer e :
      (∀ receipt, answer ≠ CommitCreated receipt) →
      sg_tombstones sg !! cc_session_id c = None → sg_epochs sg !! cc_source_epoch c = Some e →
      known_epoch_refused sg c e = false →
      commit_case sg c repaired_at now answer (repair_frontier sg c e repaired_at)
  | CaseWritten sg1 sg' r receipt :
      sg_tombstones sg !! cc_session_id c = None → sg_raw sg !! cc_envelope_id c = None →
      session_refusal sg c = None → render_refusal sg c = None →
      admit_range sg c repaired_at = (None, sg1) → write_commit embedding_artifact sg1 c now = Ok sg' →
      sg_raw sg' !! cc_envelope_id c = Some r → raw_object_receipt (cc_envelope_id c) r = Ok receipt →
      unavailable_media (sg_media sg) c = [] →
      commit_case sg c repaired_at now (CommitCreated receipt) sg'.

Lemma commit_cases sg c repaired_at now answer sg' :
  commit_raw_object nfc embedding_artifact sg c repaired_at now = Ok (answer, sg') → commit_case sg c repaired_at now answer sg'.
Proof.
  unfold commit_raw_object. intros (id & _ & H)%bind_ok. destruct (negb _); [injection H as <- <-; by constructor|].
  apply bind_ok in H as (k & _ & H). apply bind_ok in H as (k' & _ & H).
  destruct (sg_tombstones sg !! _) as [t|] eqn:Ht; [injection H as <- <-; by constructor|].
  destruct (sg_raw sg !! _) as [r|] eqn:Hr.
  { destruct (_ || _); [injection H as <- <-; by constructor|]. apply bind_ok in H as (receipt & _ & [= <- <-]). by constructor. }
  unfold commit_new in H. cbv zeta in H. destruct (negb (bool_decide (unavailable_media _ c = []))) eqn:Hun;
    [injection H as <- <-; by constructor|]. apply negb_false_iff, bool_decide_eq_true in Hun.
  destruct (session_refusal sg c) eqn:Hs; [injection H as <- <-; by constructor|].
  destruct (render_refusal sg c) eqn:Hg; [injection H as <- <-; by constructor|].
  destruct (admit_range sg c repaired_at) as [[reason|] sg1] eqn:Ha.
  - injection H as <- <-. unfold admit_range in Ha. destruct (sg_epochs sg !! _) as [e|] eqn:He.
    + destruct (known_epoch_refused sg c e) eqn:Hk; [injection Ha as _ <-; by constructor|].
      injection Ha as _ <-. by eapply CaseRepaired.
    + destruct (opening_refusal _ _ _); injection Ha as _ <-; by constructor.
  - apply bind_ok in H as (sg2 & Hw & H). destruct (sg_raw sg2 !! _) as [r|] eqn:Hr2; [|done].
    apply bind_ok in H as (receipt & Hc & [= <- <-]). by eapply CaseWritten.
Qed.

(** What the admission of a range says. *)
Lemma admit_range_ok sg c repaired_at sg1 : admit_range sg c repaired_at = (None, sg1) →
  (sg_epochs sg !! cc_source_epoch c = None ∧ sg1 = sg ∧ opening_refusal (sg_epochs sg) (cc_source c) (cc_predecessor c) = None
   ∧ range_refusal sg c (cc_range_start c) = None) ∨
  (∃ e, sg_epochs sg !! cc_source_epoch c = Some e ∧ sg1 = repair_frontier sg c e repaired_at ∧
     known_epoch_refused sg c e = false ∧ range_refusal sg1 c (frontier sg c e) = None).
Proof.
  unfold admit_range. destruct (sg_epochs sg !! _) as [e|] eqn:He.
  - destruct (known_epoch_refused sg c e) eqn:Hk; [done|]. cbv zeta. intros [= H <-]. right. exists e.
    repeat split; [done|]. by destruct (range_refusal _ c _).
  - destruct (opening_refusal _ _ _) eqn:Ho; [done|]. intros [= H <-]. left. repeat split. by destruct (range_refusal _ c _).
Qed.

Lemma range_refusal_none sg c through : range_refusal sg c through = None → cc_range_start c = through.
Proof.
  unfold range_refusal. destruct (negb (bool_decide (select_rows (same_range c) _ = []))); [done|].
  destruct (Z.ltb_spec (cc_range_start c) through); [done|]. destruct (Z.ltb_spec through (cc_range_start c)); [done|]. lia.
Qed.

Lemma opening_refusal_none epochs src predecessor : opening_refusal epochs src predecessor = None →
  ∀ k e, epochs !! k = Some e → source_of e = src → is_open e = true → predecessor = Some k.
Proof.
  unfold opening_refusal. intros H k e He Hs Ho.
  assert (k ∈ open_rows src epochs) as Hk.
  { unfold open_rows. apply list_elem_of_fmap. exists (k, e). split; [done|]. apply elem_of_select_rows. split; [done|].
    rewrite Ho, andb_true_r. by apply bool_decide_eq_true. }
  destruct predecessor as [p|].
  - destruct (epochs !! p) as [e'|]; [|done]. destruct (negb (_ && _)); [done|]. destruct (negb (forallb _ _)) eqn:Hf; [done|].
    apply negb_false_iff in Hf. rewrite forallb_forall in Hf. apply list_elem_of_In, Hf in Hk. apply String.eqb_eq in Hk. by subst.
  - case_bool_decide as Hn; [|done]. rewrite Hn in Hk. by apply elem_of_nil in Hk.
Qed.

Lemma opening_predecessor epochs src p : opening_refusal epochs src (Some p) = None →
  ∃ e, epochs !! p = Some e ∧ source_of e = src ∧ is_open e = true.
Proof.
  unfold opening_refusal. destruct (epochs !! p) as [e|]; [|done]. destruct (negb (_ && _)) eqn:H; [done|]. intros _.
  apply negb_false_iff, andb_true_iff in H as [H%bool_decide_eq_true Ho]. eauto.
Qed.

Lemma repair_frontier_core sg c e now : frontier sg c e = ep_accepted_through e → repair_frontier sg c e now = sg.
Proof. unfold repair_frontier. intros ->. by rewrite Z.eqb_refl, andb_false_r. Qed.

End Frames.

(** ** The invariant of source epochs

    In the catalogs that storage calls reach, the envelopes of an epoch tile the
    range from where the epoch began to its frontier. *)

(** *** Tilings *)

(** Each range begins where the one before it ended. *)
Fixpoint tiled (base : Z) (ranges : list (Z * Z)) (through : Z) : Prop :=
  match ranges with
  | [] => base = through
  | (start, end_) :: ranges => start = base ∧ start <= end_ ∧ tiled end_ ranges through
  end.

Lemma tiled_snoc base l t e : tiled base l t → t <= e → tiled base (l ++ [(t, e)]) e.
Proof. revert base. induction l as [|[s e'] l IH]; intros base; simpl; [intros ->; done|]. naive_solver. Qed.

Lemma tiled_prefix base l t : tiled base l t → contiguous_from base l = t.
Proof.
  revert base. induction l as [|[s e] l IH]; intros base; simpl; [done|]. intros (-> & Hle & Ht).
  rewrite Z.eqb_refl. destruct (Z.ltb_spec e base); [lia|]. by apply IH.
Qed.

Lemma tiled_above base l t s e : tiled base l t → (s, e) ∈ l → base <= s <= e.
Proof.
  revert base. induction l as [|[s' e'] l IH]; intros base; simpl; [by intros _ ?%elem_of_nil|].
  intros (-> & Hle & Ht) [[= -> ->]|Hin]%elem_of_cons; [lia|]. specialize (IH _ Ht Hin). lia.
Qed.

Lemma range_le s e s' e' : s < s' ∨ s = s' ∧ e <= e' → cmp_le range_cmp (s, e) (s', e').
Proof.
  unfold cmp_le, range_cmp, pair_cmp. cbn [fst snd]. intros H.
  destruct (Z.compare_spec s s'), (Z.compare_spec e e'); naive_solver lia.
Qed.

Lemma tiled_sorted base l t : tiled base l t → StronglySorted (cmp_le range_cmp) l.
Proof.
  revert base. induction l as [|[s e] l IH]; intros base; simpl; [constructor|]. intros (-> & Hle & Ht).
  constructor; [by eapply IH|]. apply Forall_forall. intros [s' e'] Hin. apply range_le.
  pose proof (tiled_above _ _ _ _ _ Ht Hin). lia.
Qed.

Lemma tiled_py_sorted base l l' t : tiled base l t → l' ≡ₚ l → py_sorted range_cmp l' = l.
Proof.
  intros Ht Hp. apply (StronglySorted_unique (cmp_le range_cmp)); [apply (py_sorted_sorted _)|by eapply tiled_sorted|].
  etransitivity; [apply (py_sorted_perm range_cmp)|done].
Qed.

Lemma tiled_contiguous base l t : tiled base l t → l ≠ [] → contiguous_range_prefix l = t.
Proof. intros Ht Hne. destruct l as [|[s e] l]; [done|]. pose proof Ht as (-> & _ & _). by apply (tiled_prefix base). Qed.

(** *** The envelopes of an epoch *)

(** The envelopes of an epoch and their ranges. *)
Definition epoch_rows (raw : gmap string RawObject) (epoch : string) (rows : list (string * (Z * Z))) : Prop :=
  NoDup (map fst rows) ∧
  ∀ k rg, (k, rg) ∈ rows ↔ ∃ r, raw !! k = Some r ∧ ro_source_epoch r = epoch ∧ range_of r = rg.

Lemma NoDup_select_rows {A} (P : string → A → bool) (rows : gmap string A) : NoDup (map fst (select_rows P rows)).
Proof.
  unfold select_rows. pose proof (NoDup_fst_map_to_list rows) as H. revert H. generalize (map_to_list rows). intros l.
  induction l as [|[k r] l IH]; [constructor|]. intros [Hk Hl]%NoDup_cons. rewrite filter_cons. destruct (decide _); [|by apply IH].
  cbn [map]. constructor; [|by apply IH]. intros (kr & Heq & Hin)%list_elem_of_fmap. apply Hk.
  apply list_elem_of_filter in Hin as [_ Hin]. apply list_elem_of_fmap. by exists kr.
Qed.

Lemma NoDup_fst_pairs {A} (l : list (string * A)) : NoDup (map fst l) → NoDup l.
Proof. apply NoDup_fmap_1. Qed.

(** The ranges the commit sorts are those of the envelopes, while none of them
    is retired. *)
Lemma existing_ranges_rows sg epoch rows :
  epoch_rows (sg_raw sg) epoch rows →
  (∀ k r, sg_raw sg !! k = Some r → ro_source_epoch r = epoch → is_active r = true) →
  map (λ kr, range_of kr.2) (select_rows (λ k r, in_epoch epoch k r && is_active r) (sg_raw sg)) ≡ₚ map snd rows.
Proof.
  intros [Hnd Hrows] Hact. set (sel := select_rows _ _).
  assert (map (λ kr, (kr.1, range_of kr.2)) sel ≡ₚ rows) as Hp.
  { apply NoDup_Permutation; [|by apply NoDup_fst_pairs|].
    - apply NoDup_fst_pairs. rewrite map_map. apply NoDup_select_rows.
    - intros [k rg]. rewrite Hrows, list_elem_of_fmap. split.
      + intros ([k' r] & [= -> ->] & [Hr [He _]%andb_true_iff]%elem_of_select_rows). apply String.eqb_eq in He. eauto.
      + intros (r & Hr & He & <-). exists (k, r). split; [done|]. apply elem_of_select_rows. split; [done|].
        unfold in_epoch. by rewrite He, String.eqb_refl, (Hact k r). }
  rewrite <- Hp. by rewrite map_map.
Qed.

(** *** The invariant *)

Record sound (epochs : gmap string SourceEpoch) (raw : gmap string RawObject) (tombstones : gmap string SessionTombstone) :
    Prop := {
  sound_tiles epoch e : epochs !! epoch = Some e → ∃ base rows, epoch_rows raw epoch rows ∧
    Z.of_nat (length rows) = ep_object_count e ∧ tiled base (map snd rows) (ep_accepted_through e);
  sound_known k r : raw !! k = Some r → is_Some (epochs !! ro_source_epoch r);
  sound_session k k' r r' : raw !! k = Some r → raw !! k' = Some r' → ro_source_epoch r = ro_source_epoch r' →
    ro_session_id r = ro_session_id r';
  sound_active k r e : raw !! k = Some r → epochs !! ro_source_epoch r = Some e → is_open e = true →
    is_active r = true ∨ is_Some (tombstones !! ro_session_id r);
  sound_open k k' e e' : epochs !! k = Some e → epochs !! k' = Some e' → is_open e = true → is_open e' = true →
    source_of e = source_of e' → k = k';
}.

Lemma sound_empty : sound ∅ ∅ ∅.
Proof. constructor; intros *; rewrite ?lookup_empty; done. Qed.

Lemma sound_close epochs raw tombs p by_epoch at_ seq now :
  sound epochs raw tombs → sound (alter (closed_epoch by_epoch at_ seq now) p epochs) raw tombs.
Proof.
  intros [Ht Hk Hs Ha Ho]. set (epochs' := alter _ _ _).
  assert (∀ k e, epochs' !! k = Some e → ∃ e0, epochs !! k = Some e0 ∧ (e = e0 ∨ e = closed_epoch by_epoch at_ seq now e0)) as Hback.
  { intros k e. unfold epochs'. destruct (decide (p = k)) as [->|]; [rewrite lookup_alter_eq|rewrite lookup_alter_ne by done; eauto].
    intros (e0 & -> & ?)%fmap_Some; eauto. }
  assert (∀ k e, epochs' !! k = Some e → is_open e = true → epochs !! k = Some e) as Hopen.
  { intros k e He Hop. destruct (Hback _ _ He) as (e0 & He0 & [->| ->]); done. }
  constructor; [|intros k r Hr|done|eauto|eauto].
  - intros k e He. destruct (Hback _ _ He) as (e0 & He0 & [->| ->]); apply Ht in He0; done.
  - unfold epochs'. rewrite lookup_alter_is_Some. eauto.
Qed.

Lemma epoch_rows_retire P seq now raw epoch rows :
  epoch_rows raw epoch rows → epoch_rows (update_rows P (retired_raw seq now) raw) epoch rows.
Proof.
  intros [Hnd Hrows]. split; [done|]. intros k rg. rewrite Hrows, lookup_update_rows. split.
  - intros (r & -> & He & Hg). simpl. exists (if P k r then retired_raw seq now r else r). by destruct (P k r).
  - intros (r & (r0 & -> & ->)%fmap_Some & He & Hg). exists r0. by destruct (P k r0).
Qed.

Lemma sound_retire P seq now epochs raw tombs :
  (∀ k r e, raw !! k = Some r → P k r = true → epochs !! ro_source_epoch r = Some e → is_open e = true →
     is_Some (tombs !! ro_session_id r)) →
  sound epochs raw tombs → sound epochs (update_rows P (retired_raw seq now) raw) tombs.
Proof.
  intros HP [Ht Hk Hs Ha Ho].
  assert (∀ k r, update_rows P (retired_raw seq now) raw !! k = Some r → ∃ r0, raw !! k = Some r0 ∧
    ro_source_epoch r = ro_source_epoch r0 ∧ ro_session_id r = ro_session_id r0 ∧
    (r = r0 ∨ P k r0 = true)) as Hback.
  { intros k r. rewrite lookup_update_rows. intros (r0 & Hr & ->)%fmap_Some. exists r0. destruct (P k r0) eqn:?; eauto. }
  constructor; [|intros k r Hr|intros k k' r r' Hr Hr' He|intros k r e Hr He Hop|done].
  - intros k e He. destruct (Ht k e He) as (base & rows & Hrows & ?). exists base, rows. split; [by apply epoch_rows_retire|done].
  - destruct (Hback _ _ Hr) as (r0 & Hr0 & -> & _). eauto.
  - destruct (Hback _ _ Hr) as (r0 & Hr0 & He0 & -> & _), (Hback _ _ Hr') as (r1 & Hr1 & He1 & -> & _).
    apply (Hs k k'); congruence.
  - destruct (Hback _ _ Hr) as (r0 & Hr0 & He0 & -> & [Heq|HPk]); rewrite He0 in He; [subst r; eauto|right; eauto].
Qed.

Lemma sound_tombstone epochs raw tombs s t : sound epochs raw tombs → sound epochs raw (<[s := t]> tombs).
Proof.
  intros [Ht Hk Hs Ha Ho]. constructor; try done. intros k r e Hr He Hop. destruct (Ha _ _ _ Hr He Hop) as [?|Hd]; [by left|].
  right. rewrite lookup_insert_is_Some'. by right.
Qed.

Lemma no_rows raw epoch : (∀ k r, raw !! k = Some r → ro_source_epoch r ≠ epoch) → epoch_rows raw epoch [].
Proof.
  intros H. split; [constructor|]. intros k rg. rewrite elem_of_nil. split; [done|]. intros (r & Hr & He & _). by apply (H k r).
Qed.

Lemma sound_add_epoch epochs raw tombs epoch e :
  epochs !! epoch = None → ep_object_count e = 0 →
  (∀ k e', epochs !! k = Some e' → is_open e' = true → source_of e' = source_of e → k = epoch) →
  sound epochs raw tombs → sound (<[epoch := e]> epochs) raw tombs.
Proof.
  intros Hnew Hcount Hothers [Ht Hk Hs Ha Ho].
  assert (∀ k r, raw !! k = Some r → ro_source_epoch r ≠ epoch) as Hfree.
  { intros k r Hr <-. apply Hk in Hr as [? Hr]. congruence. }
  constructor; [|intros k r Hr|done|intros k r e' Hr He Hop|].
  - intros k e' [[<- <-]|[Hne He]]%lookup_insert_Some; [|by apply Ht].
    exists (ep_accepted_through e), []. split; [by apply no_rows|done].
  - rewrite lookup_insert_is_Some'. right. eauto.
  - rewrite lookup_insert_ne in He by (intros ->; by eapply Hfree). eauto.
  - intros k k' e1 e2 [[<- <-]|[Hne He]]%lookup_insert_Some [[<- <-]|[Hne' He']]%lookup_insert_Some Hop Hop' Hsrc.
    + done.
    + symmetry. by eapply Hothers.
    + by eapply Hothers.
    + by eapply Ho.
Qed.

Lemma epoch_rows_other raw epoch id r rows : raw !! id = None → ro_source_epoch r ≠ epoch →
  epoch_rows raw epoch rows → epoch_rows (<[id := r]> raw) epoch rows.
Proof.
  intros Hid Hne [Hnd Hrows]. split; [done|]. intros k rg. rewrite Hrows. split.
  - intros (r0 & Hr & He & Hg). exists r0. rewrite lookup_insert_ne by congruence. done.
  - intros (r0 & [[<- <-]|[_ Hr]]%lookup_insert_Some & He & Hg); [done|]. eauto.
Qed.

Lemma epoch_rows_snoc raw epoch id r rows : raw !! id = None → ro_source_epoch r = epoch →
  epoch_rows raw epoch rows → epoch_rows (<[id := r]> raw) epoch (rows ++ [(id, range_of r)]).
Proof.
  intros Hid He [Hnd Hrows]. split.
  - rewrite map_app. apply NoDup_app. split; [done|]. split; [|apply NoDup_singleton].
    intros k ([k' rg] & -> & (r0 & Hr & _)%Hrows)%list_elem_of_fmap. simpl. rewrite list_elem_of_singleton. congruence.
  - intros k rg. rewrite elem_of_app, list_elem_of_singleton, Hrows. split.
    + intros [(r0 & Hr & Hr')|[= -> ->]]; [|exists r; by rewrite lookup_insert_eq].
      exists r0. rewrite lookup_insert_ne by congruence. done.
    + intros (r0 & [[<- <-]|[_ Hr]]%lookup_insert_Some & He' & <-); [by right|]. left. eauto.
Qed.

Lemma sound_add_row epochs raw tombs epoch e id r now :
  epochs !! epoch = Some e → raw !! id = None → ro_source_epoch r = epoch → is_active r = true →
  (ep_object_count e = 0 ∨ ro_range_start r = ep_accepted_through e) → ro_range_start r <= ro_range_end r →
  (∀ k r', raw !! k = Some r' → ro_source_epoch r' = epoch → ro_session_id r' = ro_session_id r) →
  sound epochs raw tombs →
  sound (<[epoch := accepted_epoch (ro_range_end r) (ep_object_count e + 1) now e]> epochs) (<[id := r]> raw) tombs.
Proof.
  intros He Hid Her Hact Hstart Hle Hsess [Ht Hk Hs Ha Ho]. set (e' := accepted_epoch _ _ _ _).
  assert (∀ k e0, <[epoch := e']> epochs !! k = Some e0 → ∃ e1, epochs !! k = Some e1 ∧ is_open e0 = is_open e1 ∧
    source_of e0 = source_of e1) as Hback.
  { intros k e0 [[<- <-]|[_ H]]%lookup_insert_Some; [exists e|exists e0]; done. }
  constructor.
  - intros k e0 [[<- <-]|[Hne He0]]%lookup_insert_Some.
    + destruct (Ht _ _ He) as (base & rows & Hrows & Hlen & Htile). exists (if decide (rows = []) then ro_range_start r else base),
        (rows ++ [(id, range_of r)]). split; [by apply epoch_rows_snoc|]. split; [rewrite length_app; simpl; lia|].
      rewrite map_app. simpl ep_accepted_through. destruct (decide (rows = [])) as [->|Hne]; [done|].
      destruct Hstart as [Hz|Hz]; [destruct rows; simpl in Hlen; [done|lia]|]. unfold range_of. simpl.
      rewrite Hz in *. by apply tiled_snoc.
    + destruct (Ht _ _ He0) as (base & rows & Hrows & ?). exists base, rows. split; [|done].
      apply epoch_rows_other; [done|congruence|done].
  - intros k r0 [[<- <-]|[_ Hr]]%lookup_insert_Some; rewrite lookup_insert_is_Some'; [by left|right; eauto].
  - intros k k' r0 r1 [[<- <-]|[_ Hr]]%lookup_insert_Some [[<- <-]|[_ Hr']]%lookup_insert_Some Heq;
      [done|symmetry; eapply Hsess; [done|congruence]|eapply Hsess; [done|congruence]|by eapply Hs].
  - intros k r0 e0 [[<- <-]|[_ Hr]]%lookup_insert_Some He0 Hop; [by left|].
    destruct (Hback _ _ He0) as (e1 & He1 & Heq & _). rewrite Heq in Hop. eauto.
  - intros k k' e0 e1 H0 H1 Hop0 Hop1 Hsrc. destruct (Hback _ _ H0) as (e2 & ? & ? & ?), (Hback _ _ H1) as (e3 & ? & ? & ?).
    apply (Ho k k' e2 e3); congruence.
Qed.
