(* ===== verification/StorageProps.v ===== *)
(** * Properties of the storage commit

    Runs of calls, the invariants they keep, and the properties. *)

From S2P Require Import Prelude PyStr PyTime PyText Bytes StorageContracts ProjectorQueue LedgerLaws StorageTables.
From S2P Require Import StorageCommit StorageLaws.

Open Scope list_scope.
Open Scope Z_scope.

Section Props.
Context (nfc : ustr → ustr) (embedding_artifact : string).

(** ** Runs of calls *)

(** The calls of this part, and a call of another part.  Those write the
    ledger, sessions, renderings and their objects in ways of their own (the
    repair and the reconciliation of relinked renderings, the restoration of a
    generation, the migration's completion and its repair, semantic publishing,
    preferences): the model lets them leave these tables in any state.  Epochs,
    envelopes, tombstones, media and references have no other writer. *)
Inductive storage_call : Type :=
  | CallOpenEpoch (src : source_name) (epoch range_kind : string) (predecessor : option string) (opened_at commit_time : Z)
  | CallCommitRaw (c : raw_commit) (repaired_at commit_time : Z)
  | CallDeleteSession (session_id deletion_id : string) (reason : option string) (deleted_at : Z)
  | CallMedia (m : media_commit) (commit_time : Z)
  | CallElsewhere (seq : Z) (states : projector_table) (bindings : gmap string ProjectorStoreBinding)
      (sessions : gmap string StorageSession) (generations : gmap string RenderGeneration) (renders : gmap string RenderObject).

(** A transaction that raises is rolled back. *)
Definition storage_exec (sg : storage_store) (call : storage_call) : storage_store :=
  match call with
  | CallOpenEpoch src epoch range_kind predecessor opened_at now =>
      (open_source_epoch sg src epoch range_kind predecessor opened_at now).2
  | CallCommitRaw c repaired_at now =>
      match commit_raw_object nfc embedding_artifact sg c repaired_at now with Ok (_, sg') => sg' | Err _ => sg end
  | CallDeleteSession session_id deletion_id reason deleted_at =>
      (delete_storage_session embedding_artifact sg session_id deletion_id reason deleted_at).2
  | CallMedia m now => match commit_media_object sg m now with Ok (_, sg') => sg' | Err _ => sg end
  | CallElsewhere seq states bindings sessions generations renders =>
      set_ledger (λ pc, ProjectorCatalog seq states sessions (pc_tombstones pc) bindings)
        (set_generations (λ _, generations) (set_renders (λ _, renders) sg))
  end.

Definition storage_run (sg : storage_store) (calls : list storage_call) : storage_store := foldl storage_exec sg calls.

(** What the handler of a commit lets through. *)
Definition in_order (call : storage_call) : Prop :=
  match call with
  | CallCommitRaw c _ _ =>
      cc_range_start c <= cc_range_end c ∧ Forall (λ ref, mf_availability ref ∈ ["available"; "missing"]%string) (cc_media_refs c)
  | _ => True
  end.

Definition empty_storage (ledger : projector_catalog) : storage_store := StorageStore ledger ∅ ∅ ∅ ∅ ∅ ∅.

Definition reachable_storage (sg : storage_store) : Prop :=
  ∃ seq states bindings calls, Forall in_order calls ∧
    sg = storage_run (empty_storage (ProjectorCatalog seq states ∅ ∅ bindings)) calls.

Definition sound_store (sg : storage_store) : Prop := sound (sg_epochs sg) (sg_raw sg) (sg_tombstones sg).

Lemma storage_run_inv (I : storage_store → Prop) (P : storage_call → Prop) sg calls :
  (∀ sg call, P call → I sg → I (storage_exec sg call)) → Forall P calls → I sg → I (storage_run sg calls).
Proof.
  intros Hstep. revert sg. induction calls as [|call calls IH]; intros sg Hc HI; [done|]. apply Forall_cons in Hc as [Hc Hcs].
  apply IH; [done|]. by apply Hstep.
Qed.

(** What a commit of a media object changes. *)
Lemma commit_media_cases sg m now answer sg' : commit_media_object sg m now = Ok (answer, sg') →
  sg' = sg ∨ ∃ keys,
    ref_refusal sg (mm_session_refs m) = None ∧ new_media_refs sg m (mm_session_refs m) = inr keys ∧
    (∀ e, sg_media sg !! mm_media_hash m = Some e → media_refused sg m e = false) ∧
    write_media sg m (sg_media sg !! mm_media_hash m) keys now = Ok (answer, sg').
Proof.
  unfold commit_media_object. destruct (ref_refusal _ _); [intros [= _ <-]; by left|]. cbv zeta.
  destruct (match sg_media sg !! _ with Some e => _ | None => _ end) eqn:Hm; [intros [= _ <-]; by left|].
  destruct (new_media_refs _ _ _) as [a|keys]; [intros [= _ <-]; by left|].
  destruct (sg_media sg !! mm_media_hash m) as [e|] eqn:He.
  - destruct (_ && _); [intros [= _ <-]; by left|]. intros Hw. right. exists keys. split_and!; [done..| |done]. by intros ? [= <-].
  - intros Hw. right. exists keys. by split_and!.
Qed.

Lemma write_media_frame sg m existing keys now answer sg' : write_media sg m existing keys now = Ok (answer, sg') →
  core sg' = core sg ∧ sg_generations sg' = sg_generations sg ∧ sg_sessions sg' = sg_sessions sg ∧
  insert_refs keys (sg_seq sg + 1) now (sg_refs sg) = Ok (sg_refs sg') ∧
  sg_media sg' = <[mm_media_hash m := match existing with
    | None => new_media m (sg_seq sg + 1) now
    | Some e => if object_changed m e then changed_media m (sg_seq sg + 1) now e else e end]> (sg_media sg).
Proof. unfold write_media. cbv zeta. intros (refs & Hr & [= _ <-])%bind_ok. split_and!; done. Qed.

Lemma media_call_frame sg m now : let sg' := storage_exec sg (CallMedia m now) in
  core sg' = core sg ∧ sg_generations sg' = sg_generations sg ∧ sg_sessions sg' = sg_sessions sg.
Proof.
  simpl. destruct (commit_media_object sg m now) as [[a sg']|] eqn:H; [|done].
  apply commit_media_cases in H as [->|(keys & _ & _ & _ & (Hc & Hg & Hs & _)%write_media_frame)]; done.
Qed.

(** ** The invariant is kept *)

Lemma core_sound sg epochs raw tombs : core sg = (epochs, raw, tombs) → sound epochs raw tombs → sound_store sg.
Proof. unfold core, sound_store. by intros [= <- <- <-]. Qed.

(** A known epoch that takes a commit: its envelopes are of the session, and its
    frontier needs no repair. *)
Lemma known_epoch_ready sg c e now :
  sound_store sg → sg_epochs sg !! cc_source_epoch c = Some e → sg_tombstones sg !! cc_session_id c = None →
  known_epoch_refused sg c e = false →
  is_open e = true ∧
  (∀ k r, sg_raw sg !! k = Some r → ro_source_epoch r = cc_source_epoch c → ro_session_id r = cc_session_id c) ∧
  repair_frontier sg c e now = sg ∧ (ep_object_count e = 0 ∨ frontier sg c e = ep_accepted_through e).
Proof.
  intros Hs He Hd Hk. unfold known_epoch_refused in Hk. apply orb_false_iff in Hk as [Hk Hsess].
  apply orb_false_iff in Hk as [_ Hopen%negb_false_iff].
  assert (∀ k r, sg_raw sg !! k = Some r → ro_source_epoch r = cc_source_epoch c → ro_session_id r = cc_session_id c) as Hall.
  { intros k r Hr Her.
    assert ((k, r) ∈ select_rows (in_epoch (cc_source_epoch c)) (sg_raw sg)) as Hin.
    { apply elem_of_select_rows. split; [done|]. by apply String.eqb_eq. }
    destruct (select_rows _ _) as [|[k0 r0] l] eqn:Hsel; [by apply elem_of_nil in Hin|]. simpl in Hsess.
    apply negb_false_iff, String.eqb_eq in Hsess. rewrite <- Hsess.
    assert ((k0, r0) ∈ select_rows (in_epoch (cc_source_epoch c)) (sg_raw sg)) as [Hr0 He0%String.eqb_eq]%elem_of_select_rows
      by (rewrite Hsel; left).
    eapply (sound_session _ _ _ Hs); [done|done|congruence]. }
  split; [done|]. split; [done|]. destruct (sound_tiles _ _ _ Hs _ _ He) as (base & rows & Hrows & Hlen & Htile).
  assert (existing_ranges sg (cc_source_epoch c) = map snd rows) as Hex.
  { unfold existing_ranges. eapply tiled_py_sorted; [done|]. apply existing_ranges_rows; [done|]. intros k r Hr Her.
    rewrite <- Her in He. destruct (sound_active _ _ _ Hs _ _ _ Hr He Hopen) as [?|[t Ht]]; [done|].
    rewrite (Hall _ _ Hr Her) in Ht. congruence. }
  unfold repair_frontier, frontier. rewrite Hex. destruct rows as [|row rows].
  - simpl in *. split; [done|]. left. lia.
  - rewrite (bool_decide_eq_false_2 (map snd (row :: rows) = [])) by done. cbn [andb negb].
    rewrite (tiled_contiguous _ _ _ Htile), Z.eqb_refl by done. split; [done|]. by right.
Qed.

Lemma write_known_sound sg c e now sg' :
  sound_store sg → sg_epochs sg !! cc_source_epoch c = Some e → sg_tombstones sg !! cc_session_id c = None →
  sg_raw sg !! cc_envelope_id c = None → known_epoch_refused sg c e = false → range_refusal sg c (frontier sg c e) = None →
  cc_range_start c <= cc_range_end c → write_commit embedding_artifact sg c now = Ok sg' → sound_store sg'.
Proof.
  intros Hs He Hd Hid Hk Hr%range_refusal_none Hle Hw%write_commit_core. eapply core_sound; [done|].
  destruct (known_epoch_ready sg c e now Hs He Hd Hk) as (Hopen & Hall & _ & Hf). unfold epochs_written, raw_retired. rewrite He.
  refine (sound_add_row _ _ _ _ e _ (new_raw_object c _ _ _) now He Hid _ _ _ _ _ Hs); try done.
  destruct Hf as [?|Hf]; [by left|right]. simpl. congruence.
Qed.

Lemma write_new_sound sg c now sg' :
  sound_store sg → sg_epochs sg !! cc_source_epoch c = None → sg_raw sg !! cc_envelope_id c = None →
  opening_refusal (sg_epochs sg) (cc_source c) (cc_predecessor c) = None →
  cc_range_start c <= cc_range_end c → write_commit embedding_artifact sg c now = Ok sg' → sound_store sg'.
Proof.
  intros Hs He Hid Ho Hle Hw%write_commit_core. eapply core_sound; [done|]. unfold epochs_written, raw_retired. rewrite He.
  set (seq := sg_seq sg + 1). set (epochs := match cc_predecessor c with Some p => _ | None => _ end).
  set (raw := match cc_predecessor c with Some p => _ | None => _ end).
  assert (sound epochs raw (sg_tombstones sg) ∧ epochs !! cc_source_epoch c = None ∧ raw !! cc_envelope_id c = None ∧
    ∀ k e, epochs !! k = Some e → is_open e = true → source_of e = cc_source c → k = cc_source_epoch c)
    as (Hs' & He' & Hid' & Hothers).
  { unfold epochs, raw. destruct (cc_predecessor c) as [p|] eqn:Hp.
    - destruct (opening_predecessor _ _ _ Ho) as (ep & Hep & Hsrc & Hop). split_and!.
      + apply sound_retire; [|by apply sound_close]. intros k r e Hr Hin%str_in_spec Her Hoe. exfalso.
        apply list_elem_of_fmap in Hin as ([k' r'] & -> & [Hr' Hsel]%elem_of_select_rows). simpl in Hr.
        apply andb_true_iff in Hsel as [<-%String.eqb_eq _]. rewrite Hr' in Hr. injection Hr as <-.
        rewrite lookup_alter_eq, Hep in Her. by injection Her as <-.
      + rewrite lookup_alter_ne by congruence. done.
      + rewrite lookup_update_rows. by rewrite Hid.
      + intros k e Hke Hoe Hse. exfalso. destruct (decide (p = k)) as [<-|Hne].
        * rewrite lookup_alter_eq, Hep in Hke. by injection Hke as <-.
        * rewrite lookup_alter_ne in Hke by done. pose proof (opening_refusal_none _ _ _ Ho _ _ Hke Hse Hoe). congruence.
    - split_and!; [done..|]. intros k e Hke Hoe Hse. pose proof (opening_refusal_none _ _ _ Ho _ _ Hke Hse Hoe). done. }
  pose (e0 := new_epoch (cc_source c) (cc_range_kind c) (cc_predecessor c) 0 0 (cc_epoch_opened_at c) seq now).
  assert (sound (<[cc_source_epoch c := e0]> epochs) raw (sg_tombstones sg)) as Hs0.
  { apply sound_add_epoch; [done|done| |done]. intros k e Hke Hoe Hse. apply (Hothers k e); [done..|].
    rewrite Hse. by destruct (cc_source c). }
  rewrite <- (insert_insert_eq epochs (cc_source_epoch c) _ e0).
  refine (sound_add_row _ _ _ _ e0 _ (new_raw_object c _ _ _) now (lookup_insert_eq _ _ _) Hid' _ _ _ _ _ Hs0); try done; [by left|].
  intros k r Hr Her. destruct (sound_known _ _ _ Hs' _ _ Hr) as [e Hke]. congruence.
Qed.

Lemma commit_sound sg c repaired_at now answer sg' :
  sound_store sg → cc_range_start c <= cc_range_end c →
  commit_raw_object nfc embedding_artifact sg c repaired_at now = Ok (answer, sg') → sound_store sg'.
Proof.
  intros Hs Hle [| answer' e _ Hd He Hk| sg1 sg2 r receipt Hd Hid _ _ Hadm Hw _ _]%commit_cases; [done| |].
  - by rewrite (proj1 (proj2 (proj2 (known_epoch_ready sg c e repaired_at Hs He Hd Hk)))).
  - apply admit_range_ok in Hadm as [(He & -> & Ho & _)|(e & He & -> & Hk & Hr)]; [by eapply write_new_sound|].
    destruct (known_epoch_ready sg c e repaired_at Hs He Hd Hk) as (_ & _ & Heq & _). rewrite Heq in *. by eapply write_known_sound.
Qed.

Lemma open_sound sg src epoch range_kind predecessor opened_at now :
  sound_store sg → sound_store (open_source_epoch sg src epoch range_kind predecessor opened_at now).2.
Proof.
  intros Hs. unfold open_source_epoch. destruct (sg_epochs sg !! epoch) as [e|] eqn:He; [by destruct (same_opening _ _ _ _ _)|].
  destruct (opening_refusal _ _ _) eqn:Ho; [done|]. destruct predecessor as [p|]; simpl.
  - destruct (opening_predecessor _ _ _ Ho) as (ep & Hep & Hsrc & Hop). unfold sound_store. simpl.
    apply sound_add_epoch; [rewrite lookup_alter_ne by congruence; done|done| |by apply sound_close].
    intros k e Hke Hoe Hse. exfalso. destruct (decide (p = k)) as [<-|Hne].
    + rewrite lookup_alter_eq, Hep in Hke. by injection Hke as <-.
    + rewrite lookup_alter_ne in Hke by done. assert (source_of e = src) as Hse' by (rewrite Hse; by destruct src).
      pose proof (opening_refusal_none _ _ _ Ho _ _ Hke Hse' Hoe). congruence.
  - unfold sound_store. simpl. apply sound_add_epoch; [done|done| |done]. intros k e Hke Hoe Hse.
    assert (source_of e = src) as Hse' by (rewrite Hse; by destruct src). by pose proof (opening_refusal_none _ _ _ Ho _ _ Hke Hse' Hoe).
Qed.

Lemma delete_core sg session_id deletion_id reason now : sg_tombstones sg !! session_id = None →
  let seq := sg_seq sg + 1 in
  core (delete_storage_session embedding_artifact sg session_id deletion_id reason now).2 =
  (sg_epochs sg, update_rows (raw_of_session session_id) (retired_raw seq now) (sg_raw sg),
   <[session_id := Tombstone (Some deletion_id) seq now reason seq]> (sg_tombstones sg)).
Proof.
  intros Ht. unfold delete_storage_session. rewrite Ht. cbv zeta. cbn [snd]. unfold core, sg_tombstones.
  cbn [sg_epochs sg_raw sg_ledger set_ledger set_generations set_refs set_renders set_raw].
  rewrite (proj2 (fold_tables _ _ _ (λ pc p, want_deletion_tables _ _ _ p pc))). done.
Qed.

Lemma delete_sound sg session_id deletion_id reason now :
  sound_store sg → sound_store (delete_storage_session embedding_artifact sg session_id deletion_id reason now).2.
Proof.
  intros Hs. destruct (sg_tombstones sg !! session_id) as [t|] eqn:Ht; [unfold delete_storage_session; by rewrite Ht|].
  eapply core_sound; [by apply delete_core|]. apply sound_retire; [|by apply sound_tombstone].
  intros k r e Hr [->%String.eqb_eq _]%andb_true_iff _ _. rewrite lookup_insert_is_Some'. by left.
Qed.

Lemma storage_exec_sound sg call : in_order call → sound_store sg → sound_store (storage_exec sg call).
Proof.
  destruct call as [src epoch rk p o now|c ra now|s d r now|m now|seq st b ss gs rs0]; intros Hc Hs.
  - by apply open_sound.
  - destruct Hc as [Hc _]. simpl. destruct (commit_raw_object _ _ _ _ _ _) as [[a sg']|] eqn:H; [by eapply commit_sound|done].
  - by apply delete_sound.
  - by eapply core_sound; [apply media_call_frame|].
  - exact Hs.
Qed.

Lemma reachable_sound sg : reachable_storage sg → sound_store sg.
Proof.
  intros (seq & states & bindings & calls & Hc & ->). eapply storage_run_inv; [apply storage_exec_sound|done|apply sound_empty].
Qed.

(** C8: In every reachable catalog the envelopes of an epoch, retired or not, can be
    listed so that each begins where the one before it ended: they tile the
    source from where the epoch began to its frontier, and there are as many of
    them as the epoch counts. *)
Theorem envelopes_tile_their_epoch sg epoch e :
  reachable_storage sg → sg_epochs sg !! epoch = Some e →
  ∃ base rows, NoDup (map fst rows) ∧
    (∀ k rg, (k, rg) ∈ rows ↔ ∃ r, sg_raw sg !! k = Some r ∧ ro_source_epoch r = epoch ∧ range_of r = rg) ∧
    Z.of_nat (length rows) = ep_object_count e ∧ tiled base (map snd rows) (ep_accepted_through e).
Proof.
  intros Hs%reachable_sound He. destruct (sound_tiles _ _ _ Hs _ _ He) as (base & rows & [Hnd Hrows] & Hlen & Ht).
  exists base, rows. auto.
Qed.

(** ** What an accepted commit does *)

(** C13: A commit that is accepted in a reachable catalog either extends the open
    epoch it names, from that epoch's frontier, or opens a new one, and then
    the open epoch of the source is the predecessor it names and is closed: the
    source never has two open epochs.  No other epoch changes. *)
Theorem accepted_commit_extends_the_source sg c repaired_at now receipt sg' :
  reachable_storage sg → cc_range_start c <= cc_range_end c →
  commit_raw_object nfc embedding_artifact sg c repaired_at now = Ok (CommitCreated receipt, sg') →
  (∃ e', sg_epochs sg' !! cc_source_epoch c = Some e' ∧ is_open e' = true ∧ source_of e' = cc_source c ∧
     ep_accepted_through e' = cc_range_end c ∧
     match sg_epochs sg !! cc_source_epoch c with
     | Some e => is_open e = true ∧ ep_object_count e' = ep_object_count e + 1 ∧
                 (ep_object_count e ≠ 0 → ep_accepted_through e = cc_range_start c)
     | None => ep_object_count e' = 1 ∧
               ∀ k e, sg_epochs sg !! k = Some e → is_open e = true → source_of e = cc_source c → cc_predecessor c = Some k
     end) ∧
  (∀ k e', sg_epochs sg' !! k = Some e' → is_open e' = true → source_of e' = cc_source c → k = cc_source_epoch c) ∧
  (∀ k, k ≠ cc_source_epoch c → cc_predecessor c ≠ Some k ∨ is_Some (sg_epochs sg !! cc_source_epoch c) →
     sg_epochs sg' !! k = sg_epochs sg !! k).
Proof.
  intros Hs%reachable_sound Hle Hc. pose proof (commit_sound _ _ _ _ _ _ Hs Hle Hc) as Hs'. apply commit_cases in Hc.
  inversion Hc as [? Hn| ? ? Hn| sg1 ? r ? Hd Hid _ _ Hadm Hw _ _]; subst; [by destruct (Hn receipt)..|].
  assert (∃ e', sg_epochs sg' !! cc_source_epoch c = Some e' ∧ is_open e' = true ∧ source_of e' = cc_source c ∧
    ep_accepted_through e' = cc_range_end c ∧
    match sg_epochs sg !! cc_source_epoch c with
    | Some e => is_open e = true ∧ ep_object_count e' = ep_object_count e + 1 ∧
                (ep_object_count e ≠ 0 → ep_accepted_through e = cc_range_start c)
    | None => ep_object_count e' = 1 ∧
              ∀ k e, sg_epochs sg !! k = Some e → is_open e = true → source_of e = cc_source c → cc_predecessor c = Some k
    end ∧ sg_epochs sg' = epochs_written c (sg_seq sg1 + 1) now (sg_epochs sg)) as (e' & He' & Ho' & Hsrc' & Ha' & Hm & Hw').
  { apply admit_range_ok in Hadm as [(He & -> & Ho & _)|(e & He & -> & Hk & Hr)].
    - pose proof (write_commit_core _ _ _ _ _ Hw) as [= Hcore _ _]. rewrite He, Hcore. unfold epochs_written. rewrite He, lookup_insert_eq.
      eexists. split; [done|]. split_and!; try done; [by destruct (cc_source c)|]. intros k e Hke Hoe Hse. by eapply opening_refusal_none.
    - destruct (known_epoch_ready sg c e repaired_at Hs He Hd Hk) as (Hopen & _ & Heq & Hf). rewrite Heq in *.
      pose proof (write_commit_core _ _ _ _ _ Hw) as [= Hcore _ _]. rewrite He, Hcore. unfold epochs_written. rewrite He, lookup_insert_eq.
      eexists. split; [done|]. split_and!; try done.
      + unfold known_epoch_refused in Hk. apply orb_false_iff in Hk as [[Hso%negb_false_iff _]%orb_false_iff _].
        unfold same_opening in Hso. rewrite !andb_true_iff in Hso. by destruct Hso as [[[Hso%bool_decide_eq_true _] _] _].
      + apply range_refusal_none in Hr. intros Hne. destruct Hf as [?|Hf]; [done|]. congruence. }
  split; [by exists e'|]. split.
  - intros k e1 Hk Ho Hsrc. eapply (sound_open _ _ _ Hs'); [done|done|done|done|congruence].
  - intros k Hne Hp. rewrite Hw'. unfold epochs_written. destruct (sg_epochs sg !! cc_source_epoch c) as [e|].
    + by rewrite lookup_insert_ne.
    + rewrite lookup_insert_ne by done. destruct Hp as [Hp|[? Hp]]; [|done]. destruct (cc_predecessor c) as [p|]; [|done].
      by rewrite lookup_alter_ne by congruence.
Qed.

(** ** Receipts *)

(** A raw object is only ever retired. *)
Definition kept (r r' : RawObject) : Prop := r' = r ∨ ∃ seq now, r' = retired_raw seq now r.

Lemma kept_retire seq now r r' : kept r r' → kept r (retired_raw seq now r').
Proof. intros [->|(seq' & now' & ->)]; right; by eexists _, _. Qed.

Lemma storage_exec_keeps sg call k r0 r : kept r0 r → sg_raw sg !! k = Some r →
  ∃ r', sg_raw (storage_exec sg call) !! k = Some r' ∧ kept r0 r'.
Proof.
  intros Hkept Hr.
  assert (∀ P seq now, ∃ r', update_rows P (retired_raw seq now) (sg_raw sg) !! k = Some r' ∧ kept r0 r') as Hupd.
  { intros P seq now. rewrite lookup_update_rows, Hr. simpl. eexists. split; [done|]. destruct (P k r); [by apply kept_retire|done]. }
  destruct call as [src epoch rk p o now|c ra now|s d rs now|m now|seq st b ss gs rs0];
    [| | |pose proof (media_call_frame sg m now) as [[= _ Hr' _] _]; unfold storage_exec; rewrite Hr'; by eauto|by eauto]; simpl.
  - unfold open_source_epoch. destruct (sg_epochs sg !! epoch); [destruct (same_opening _ _ _ _ _); by eauto|].
    destruct (opening_refusal _ _ _); [by eauto|]. destruct p; by eauto.
  - destruct (commit_raw_object _ _ _ _ _ _) as [[a sg']|] eqn:H; [|by eauto].
    apply commit_cases in H as [| answer' e _ Hd He Hk| sg1 sg2 r1 receipt Hd Hid _ _ Hadm Hw _ _]; [by eauto| |].
    + unfold repair_frontier. destruct (_ && _); by eauto.
    + pose proof (write_commit_core _ _ _ _ _ Hw) as [= _ Hraw _]. rewrite Hraw, lookup_insert_ne by congruence.
      assert (sg_raw sg1 = sg_raw sg) as ->.
      { apply admit_range_ok in Hadm as [(_ & -> & _)|(e & _ & -> & _)]; [done|]. unfold repair_frontier. by destruct (_ && _). }
      unfold raw_retired. destruct (sg_epochs sg1 !! _); [by eauto|]. destruct (cc_predecessor c); [|by eauto]. apply Hupd.
  - destruct (sg_tombstones sg !! s) as [t|] eqn:Ht; [unfold delete_storage_session; rewrite Ht; by eauto|].
    pose proof (delete_core sg s d rs now Ht) as [= _ Hraw _]. rewrite Hraw. apply Hupd.
Qed.

Lemma storage_run_keeps sg calls k r0 r : kept r0 r → sg_raw sg !! k = Some r →
  ∃ r', sg_raw (storage_run sg calls) !! k = Some r' ∧ kept r0 r'.
Proof.
  revert sg r. induction calls as [|call calls IH]; intros sg r Hk Hr; [by eauto|].
  destruct (storage_exec_keeps sg call _ _ _ Hk Hr) as (r' & Hr' & Hk'). by eapply IH.
Qed.

Lemma new_raw_replays c missing seq now r : kept (new_raw_object c missing seq now) r → replays c r = true.
Proof.
  intros H. assert (replays c (new_raw_object c missing seq now) = true) as Hnew.
  { unfold replays. simpl. rewrite bool_decide_eq_true_2 by (by destruct (cc_source c)). rewrite !String.eqb_refl, !Z.eqb_refl. done. }
  by destruct H as [->|(? & ? & ->)].
Qed.

Lemma kept_retired c missing seq now r : kept (new_raw_object c missing seq now) r →
  bool_decide (ro_retired_at r = None) && bool_decide (ro_retirement_revision r = None) = is_active r.
Proof. by intros [->|(? & ? & ->)]. Qed.

Lemma kept_receipt id r0 r : kept r0 r → raw_object_receipt id r = raw_object_receipt id r0.
Proof. by intros [->|(? & ? & ->)]. Qed.

(** A request for the same envelope: the same source, range, records and
    references to media.  The session, the hashes and sizes of the object, its
    path, the rendering and the times may differ, as they do when a source is
    relinked to another session or sealed again. *)
Definition same_envelope (c c' : raw_commit) : Prop :=
  cc_source c' = cc_source c ∧ cc_source_epoch c' = cc_source_epoch c ∧ cc_range_kind c' = cc_range_kind c ∧
  cc_range_start c' = cc_range_start c ∧ cc_range_end c' = cc_range_end c ∧ cc_record_hashes c' = cc_record_hashes c ∧
  cc_media_refs c' = cc_media_refs c ∧ cc_envelope_id c' = cc_envelope_id c.

Lemma same_envelope_replays c c' r : same_envelope c c' → replays c' r = replays c r.
Proof.
  intros (E1 & E2 & E3 & E4 & E5 & E6 & E7 & _). unfold replays, record_hashes_hash, media_refs_hash.
  by rewrite E1, E2, E3, E4, E5, E6, E7.
Qed.

(** A commit that names an envelope the catalog has. *)
Lemma known_envelope_kept sg c repaired_at now answer sg' r :
  sg_raw sg !! cc_envelope_id c = Some r → commit_raw_object nfc embedding_artifact sg c repaired_at now = Ok (answer, sg') →
  sg' = sg ∧ (∀ receipt, answer ≠ CommitCreated receipt) ∧
  ∀ receipt, answer = CommitReplay receipt → raw_object_receipt (cc_envelope_id c) r = Ok receipt.
Proof.
  intros Hr H. unfold commit_raw_object in H. apply bind_ok in H as (id & _ & H). destruct (negb _); [by injection H as <- <-|].
  apply bind_ok in H as (k & _ & H). apply bind_ok in H as (k' & _ & H).
  destruct (sg_tombstones sg !! _) as [t|]; [by injection H as <- <-|]. rewrite Hr in H.
  destruct (_ || _); [by injection H as <- <-|]. apply bind_ok in H as (receipt & Hrec & [= <- <-]).
  split; [done|]. split; [done|]. by intros ? [= <-].
Qed.


(** ** Deletion *)

Definition fenced (session_id : string) (t : SessionTombstone) (sg : storage_store) : Prop :=
  sg_tombstones sg !! session_id = Some t ∧
  ∀ k r, sg_raw sg !! k = Some r → ro_session_id r = session_id → ro_retired_at r ≠ None.

Lemma fenced_raw session_id P seq now (raw : gmap string RawObject) :
  (∀ k r, raw !! k = Some r → ro_session_id r = session_id → ro_retired_at r ≠ None) →
  ∀ k r, update_rows P (retired_raw seq now) raw !! k = Some r → ro_session_id r = session_id → ro_retired_at r ≠ None.
Proof.
  intros H k r. rewrite lookup_update_rows. intros (r0 & Hr & ->)%fmap_Some. destruct (P k r0); [done|by apply (H k)].
Qed.

Lemma storage_exec_fenced session_id t sg call : fenced session_id t sg → fenced session_id t (storage_exec sg call).
Proof.
  intros [Ht Hraw]. destruct call as [src epoch rk p o now|c ra now|s d rs now|m now|seq st b ss gs rs0];
    [| | |pose proof (media_call_frame sg m now) as [[= _ Hr' Ht'] _]; unfold fenced, storage_exec; by rewrite Hr', Ht'|done]; simpl.
  - unfold open_source_epoch. destruct (sg_epochs sg !! epoch); [by destruct (same_opening _ _ _ _ _)|].
    destruct (opening_refusal _ _ _); [done|]. by destruct p.
  - destruct (commit_raw_object _ _ _ _ _ _) as [[a sg']|] eqn:H; [|done].
    apply commit_cases in H as [| answer' e _ Hd He Hk| sg1 sg2 r1 receipt Hd Hid _ _ Hadm Hw _ _]; [done| |].
    + unfold repair_frontier. by destruct (_ && _).
    + assert (sg_raw sg1 = sg_raw sg ∧ sg_tombstones sg1 = sg_tombstones sg) as [Hr1 Ht1].
      { apply admit_range_ok in Hadm as [(_ & -> & _)|(e & _ & -> & _)]; [done|]. unfold repair_frontier. by destruct (_ && _). }
      pose proof (write_commit_core _ _ _ _ _ Hw) as [= _ Hraw2 Ht2]. split; [congruence|]. intros k r. rewrite Hraw2, Hr1.
      intros [[<- <-]|[_ Hr]]%lookup_insert_Some; [simpl; congruence|]. revert Hr. unfold raw_retired.
      destruct (sg_epochs sg1 !! _); [apply Hraw|]. destruct (cc_predecessor c); [|apply Hraw]. by apply fenced_raw.
  - destruct (sg_tombstones sg !! s) as [t'|] eqn:Ht'; [unfold delete_storage_session; by rewrite Ht'|].
    pose proof (delete_core sg s d rs now Ht') as [= _ Hraw2 Ht2]. unfold fenced. rewrite Hraw2, Ht2. split.
    + rewrite lookup_insert_ne; [done|congruence].
    + by apply fenced_raw.
Qed.

Lemma delete_fences sg session_id deletion_id reason now : sg_tombstones sg !! session_id = None →
  fenced session_id (Tombstone (Some deletion_id) (sg_seq sg + 1) now reason (sg_seq sg + 1))
    (delete_storage_session embedding_artifact sg session_id deletion_id reason now).2.
Proof.
  intros Ht. pose proof (delete_core sg session_id deletion_id reason now Ht) as [= _ Hraw Ht2]. unfold fenced. rewrite Hraw, Ht2.
  split; [apply lookup_insert_eq|]. intros k r. rewrite lookup_update_rows. intros (r0 & Hr & ->)%fmap_Some.
  unfold raw_of_session, is_active. destruct (String.eqb_spec (ro_session_id r0) session_id) as [Heq|Hne].
  - case_bool_decide; [done|]. done.
  - simpl. intros Heq. done.
Qed.

(** C17: A deleted session stays deleted: whatever is called afterwards, all its
    envelopes stay retired, no commit writes to it, and another deletion
    answers the first one's revision. *)
Theorem deletion_is_final sg session_id deletion_id reason deleted_at calls :
  sg_tombstones sg !! session_id = None →
  let revision := sg_seq sg + 1 in
  let sg1 := (delete_storage_session embedding_artifact sg session_id deletion_id reason deleted_at).2 in
  let sg2 := storage_run sg1 calls in
  (∀ k r, sg_raw sg2 !! k = Some r → ro_session_id r = session_id → ro_retired_at r ≠ None) ∧
  (∀ c repaired_at now answer sg3, cc_session_id c = session_id →
     commit_raw_object nfc embedding_artifact sg2 c repaired_at now = Ok (answer, sg3) →
     sg3 = sg2 ∧ (answer = IdentityMismatch ∨ answer = CommitDeleted revision)) ∧
  (∀ deletion_id' reason' now, delete_storage_session embedding_artifact sg2 session_id deletion_id' reason' now =
     (DeletionKnown (bool_decide (deletion_id = deletion_id')) (Some deletion_id) revision revision, sg2)).
Proof.
  intros Ht revision sg1 sg2. assert (fenced session_id (Tombstone (Some deletion_id) revision deleted_at reason revision) sg2) as [Ht2 Hraw].
  { apply (storage_run_inv _ (λ _, True)); [intros; by apply storage_exec_fenced|by apply Forall_true|by apply delete_fences]. }
  split_and!; [done| |].
  - intros c ra now answer sg3 <- H. unfold commit_raw_object in H. apply bind_ok in H as (id & _ & H).
    destruct (negb _); [injection H as <- <-; auto|]. apply bind_ok in H as (k & _ & H). apply bind_ok in H as (k' & _ & H).
    rewrite Ht2 in H. injection H as <- <-. auto.
  - intros d' rs' now. unfold delete_storage_session. rewrite Ht2. simpl. do 2 f_equal. apply bool_decide_ext. naive_solver.
Qed.

End Props.

(** ** The current rendering of a session

    The rendering a session points to exists and is its own, and no other of
    its renderings is current.  Other parts break this for a session (a repair
    of the migration clears the pointer and leaves a current rendering of
    another revision), so the invariant is kept per session. *)

Lemma alter_as_insert {A} (f : A → A) (m : gmap string A) k x : m !! k = Some x → alter f k m = <[k := f x]> m.
Proof.
  intros Hx. apply map_eq. intros k'. destruct (decide (k = k')) as [<-|];
    by rewrite ?lookup_insert_eq, ?lookup_alter_eq, ?Hx, ?lookup_insert_ne, ?lookup_alter_ne.
Qed.

Lemma update_rows_insert {A} (P : string → A → bool) (f : A → A) (m : gmap string A) k x : P k x = false →
  update_rows P f (<[k := x]> m) = <[k := x]> (update_rows P f m).
Proof.
  intros Hx. apply map_eq. intros k'. rewrite lookup_update_rows. destruct (decide (k = k')) as [<-|].
  - rewrite !lookup_insert_eq. simpl. by rewrite Hx.
  - by rewrite !lookup_insert_ne, lookup_update_rows.
Qed.

Section Current.
Context (nfc : ustr → ustr) (embedding_artifact : string).

(** What holds of the sessions in [P] and of every pointer. *)
Record current_ok (P : string → Prop) (generations : gmap string RenderGeneration) (sessions : gmap string StorageSession) :
    Prop := {
  co_current id g : generations !! id = Some g → rg_state g = "current"%string → P (rg_session_id g) →
    ∃ s, sessions !! rg_session_id g = Some s ∧ ss_current_render_generation s = Some id;
  co_pointer k s id : sessions !! k = Some s → ss_current_render_generation s = Some id →
    ∃ g, generations !! id = Some g ∧ rg_session_id g = k;
}.

Definition current_sound (P : string → Prop) (sg : storage_store) : Prop := current_ok P (sg_generations sg) (sg_sessions sg).

Lemma current_ok_supersede Q P seq now generations sessions :
  current_ok Q generations sessions → current_ok Q (update_rows P (superseded_generation seq now) generations) sessions.
Proof.
  intros [Hc Hp]. split.
  - intros id g. rewrite lookup_update_rows. intros (g0 & Hg & ->)%fmap_Some. destruct (P id g0); [done|]. by apply Hc.
  - intros k s id Hs Hcur. destruct (Hp _ _ _ Hs Hcur) as (g & Hg & Hk). rewrite lookup_update_rows, Hg. eexists.
    split; [done|]. by destruct (P id g).
Qed.

(** A session row that keeps its pointer. *)
Lemma current_ok_session P generations sessions k row :
  ss_current_render_generation row = (s ← sessions !! k; ss_current_render_generation s) →
  current_ok P generations sessions → current_ok P generations (<[k := row]> sessions).
Proof.
  intros Hrow [Hc Hp]. split.
  - intros id g Hg Hcur HP. destruct (Hc _ _ Hg Hcur HP) as (s & Hs & Hid). destruct (decide (k = rg_session_id g)) as [->|Hne].
    + exists row. rewrite lookup_insert_eq. split; [done|]. by rewrite Hrow, Hs.
    + exists s. by rewrite lookup_insert_ne.
  - intros k' s id [[<- <-]|[_ Hs]]%lookup_insert_Some Hcur; [|by eapply Hp]. rewrite Hrow in Hcur.
    destruct (sessions !! k) as [s0|] eqn:Hs0; [|done]. by eapply Hp.
Qed.

Lemma current_ok_alter P generations sessions k f :
  (∀ s, ss_current_render_generation (f s) = ss_current_render_generation s) →
  current_ok P generations sessions → current_ok P generations (alter f k sessions).
Proof.
  intros Hf Hok. destruct (sessions !! k) as [s|] eqn:Hs.
  - rewrite (alter_as_insert _ _ _ _ Hs). apply current_ok_session; [rewrite Hs; apply Hf|done].
  - by rewrite alter_id'.
Qed.

(** A rendering becomes the session's only current one. *)
Lemma current_ok_publish (P Q : string → Prop) generations sessions k id g row :
  rg_session_id g = k → ss_current_render_generation row = Some id →
  (∀ k', Q k' → k' = k ∨ P k') →
  (∀ g0, generations !! id = Some g0 → rg_session_id g0 = k) →
  (Q k → ∀ id' g', generations !! id' = Some g' → rg_state g' = "current"%string → rg_session_id g' = k → id' = id) →
  current_ok P generations sessions → current_ok Q (<[id := g]> generations) (<[k := row]> sessions).
Proof.
  intros Hg Hrow HPQ Hown Hother [Hc Hp]. split.
  - intros id' g' [[<- <-]|[Hne Hg']]%lookup_insert_Some Hcur HQ.
    + exists row. by rewrite Hg, lookup_insert_eq.
    + destruct (decide (rg_session_id g' = k)) as [Hk|Hk].
      { destruct Hne. symmetry. eapply Hother; [by rewrite <- Hk|done..]. }
      destruct (HPQ _ HQ) as [?|HP]; [done|]. destruct (Hc _ _ Hg' Hcur HP) as (s & Hs & Hid). exists s.
      by rewrite lookup_insert_ne.
  - intros k' s id' [[<- <-]|[_ Hs]]%lookup_insert_Some Hcur.
    + rewrite Hrow in Hcur. injection Hcur as <-. exists g. by rewrite lookup_insert_eq.
    + destruct (Hp _ _ _ Hs Hcur) as (g' & Hg' & Hk'). destruct (decide (id = id')) as [<-|].
      * exists g. rewrite lookup_insert_eq. split; [done|]. rewrite Hg, <- Hk'. symmetry. by apply Hown.
      * exists g'. by rewrite lookup_insert_ne.
Qed.

(** A rendering that is not current. *)
Lemma current_ok_pending P generations sessions id g :
  rg_state g ≠ "current"%string → (∀ g0, generations !! id = Some g0 → rg_session_id g0 = rg_session_id g) →
  current_ok P generations sessions → current_ok P (<[id := g]> generations) sessions.
Proof.
  intros Hst Hown [Hc Hp]. split.
  - intros id' g' [[<- <-]|[_ Hg']]%lookup_insert_Some Hcur; [done|by apply Hc].
  - intros k s id' Hs Hcur. destruct (Hp _ _ _ Hs Hcur) as (g' & Hg' & Hk). destruct (decide (id = id')) as [<-|].
    + exists g. rewrite lookup_insert_eq. split; [done|]. rewrite <- Hk. symmetry. by apply Hown.
    + exists g'. by rewrite lookup_insert_ne.
Qed.

(** ** The stages of a commit *)

(** The stages before the rendering: the session of the commit keeps its row,
    the renderings their sessions. *)
Record stage (P : string → Prop) (k : string) (sg sg' : storage_store) : Prop := {
  stage_ok : current_sound P sg';
  stage_row : sg_sessions sg' !! k = sg_sessions sg !! k;
  stage_own id g' : sg_generations sg' !! id = Some g' →
    ∃ g, sg_generations sg !! id = Some g ∧ rg_session_id g' = rg_session_id g;
}.

Lemma stage_refl P k sg : current_sound P sg → stage P k sg sg.
Proof. intros H. split; [done|done|eauto]. Qed.

Lemma stage_same P k sg sg1 sg2 : sg_generations sg2 = sg_generations sg1 → sg_sessions sg2 = sg_sessions sg1 →
  stage P k sg sg1 → stage P k sg sg2.
Proof. intros Hg Hs [H1 H2 H3]. split; unfold current_sound in *; rewrite ?Hg, ?Hs; done. Qed.

Lemma retire_session_tables seq now sg s : ∃ sessions generations,
  sg_sessions (retire_session embedding_artifact seq now sg s) = sessions ∧
  sg_generations (retire_session embedding_artifact seq now sg s) = generations ∧
  (sessions = sg_sessions sg ∧ generations = sg_generations sg ∨
   sessions = alter (retired_session seq now) s (sg_sessions sg) ∧
   ∃ P, generations = update_rows P (superseded_generation seq now) (sg_generations sg)).
Proof.
  eexists _, _. split; [done|]. split; [done|]. unfold retire_session. case_bool_decide; [|by left]. right.
  unfold sg_sessions. cbn [sg_ledger set_ledger set_generations sg_generations].
  rewrite (proj1 (fold_tables _ _ _ (λ pc p, want_replacement_tables seq now s p pc))). eauto.
Qed.

Lemma retire_session_stage Q k seq now sg sg' s : s ≠ k → stage Q k sg sg' →
  stage Q k sg (retire_session embedding_artifact seq now sg' s).
Proof.
  intros Hne [Hok Hrow Hown]. destruct (retire_session_tables seq now sg' s) as (ss & gs & Hs & Hg & [[-> ->]|[-> [P ->]]]).
  { by apply (stage_same _ _ _ sg'). }
  split.
  - unfold current_sound. rewrite Hs, Hg. by apply current_ok_alter, current_ok_supersede.
  - by rewrite Hs, lookup_alter_ne.
  - intros id g'. rewrite Hg, lookup_update_rows. intros (g0 & Hg0 & ->)%fmap_Some. destruct (Hown _ _ Hg0) as (g & ? & ?).
    exists g. by destruct (P id g0).
Qed.

Lemma replace_epoch_stage P c p seq now sg sg0 : stage P (cc_session_id c) sg0 sg →
  stage P (cc_session_id c) sg0 (replace_epoch embedding_artifact c p seq now sg).
Proof.
  intros Hst. unfold replace_epoch. apply foldl_inv.
  - intros sg' s Hs Hst'. rewrite elem_of_remove_dups in Hs. apply retire_session_stage; [|done]. apply list_elem_of_filter in Hs as [Hs _].
    apply negb_true_iff, String.eqb_neq in Hs. done.
  - by apply (stage_same _ _ _ sg).
Qed.

Lemma write_epoch_stage P c seq now sg sg0 : stage P (cc_session_id c) sg0 sg →
  stage P (cc_session_id c) sg0 (write_epoch embedding_artifact c seq now sg).
Proof.
  intros Hst. unfold write_epoch. destruct (sg_epochs sg !! _); [by apply (stage_same _ _ _ sg)|].
  destruct (cc_predecessor c) as [p|]; [|by apply (stage_same _ _ _ sg)].
  apply (stage_same _ _ _ (replace_epoch embedding_artifact c p seq now sg)); [done|done|]. by apply replace_epoch_stage.
Qed.

Lemma write_session_tables c replaces missing existing seq now sg : ∃ row,
  sg_generations (write_session c replaces missing existing seq now sg) = sg_generations sg ∧
  sg_sessions (write_session c replaces missing existing seq now sg) = <[cc_session_id c := row]> (sg_sessions sg) ∧
  ss_current_render_generation row = (s ← existing; ss_current_render_generation s).
Proof.
  unfold write_session. destruct (session_media _ _ _ _ _) as [ms hashes]. eexists. split; [done|]. split; [done|]. by destruct existing.
Qed.

(** A commit that publishes a rendering covers its session. *)
Definition covered (c : raw_commit) (P : string → Prop) (k : string) : Prop :=
  P k ∨ (publishes c = true ∧ is_Some (cc_render_manifest c) ∧ k = cc_session_id c).

(** The rendering of a commit, and its projection recomputed. *)
Lemma write_rendering_current P c existing seq now sg :
  current_sound P sg → is_Some (sg_sessions sg !! cc_session_id c) →
  (∀ m g, cc_render_manifest c = Some m → sg_generations sg !! rm_generation_id m = Some g → rg_session_id g = cc_session_id c) →
  let sg' := write_rendering c existing seq now sg in
  current_sound (covered c P) sg' ∧ ∃ s, sg_sessions sg' !! cc_session_id c = Some s ∧
    ss_current_render_generation s = match cc_render_manifest c with
                                     | Some m => if publishes c then Some (rm_generation_id m)
                                                 else s0 ← sg_sessions sg !! cc_session_id c; ss_current_render_generation s0
                                     | None => s0 ← sg_sessions sg !! cc_session_id c; ss_current_render_generation s0
                                     end.
Proof.
  intros Hok [s Hs] Hown.
  assert (publishes c = false ∨ cc_render_manifest c = None → ∀ generations sessions,
    current_ok P generations sessions → current_ok (covered c P) generations sessions) as Hsame.
  { intros Hn generations sessions [Hc Hp]. split; [|done]. intros id g Hg Hcur [HP|(Hpub & [m Hm] & _)]; [by apply Hc|].
    destruct Hn; congruence. }
  unfold write_rendering. destruct (cc_render_manifest c) as [m|] eqn:Hm.
  2: { split; [by apply Hsame; [right|]|]. exists s. by rewrite Hs. }
  set (g := match sg_generations sg !! rm_generation_id m with Some _ => _ | None => _ end).
  assert (rg_session_id g = cc_session_id c ∧ rg_state g = generation_state c) as [Hg Hst].
  { unfold g. destruct (sg_generations sg !! _) as [g0|] eqn:Hg0; [|done]. simpl. split; [by eapply Hown|done]. }
  unfold generation_state in Hst. destruct (publishes c) eqn:Hpub.
  - cbv zeta. unfold current_sound, sg_sessions. simpl. rewrite update_rows_insert by by rewrite String.eqb_refl, andb_false_r.
    rewrite (alter_as_insert _ _ _ _ Hs). split; [|eexists; split; [apply lookup_insert_eq|done]].
    apply (current_ok_publish P); [done|done| | | |by apply current_ok_supersede].
    + intros k' [?|(_ & _ & ->)]; [by right|by left].
    + intros g0. rewrite lookup_update_rows. intros (g1 & Hg1 & ->)%fmap_Some. destruct (_ && _ && _); simpl; by eapply Hown.
    + intros _ id' g'. rewrite lookup_update_rows. intros (g1 & Hg1 & ->)%fmap_Some. destruct (_ && _ && _) eqn:HP; [done|].
      intros Hcur Hses. rewrite Hcur, Hses, String.eqb_refl in HP. simpl in HP. rewrite andb_true_r in HP.
      by apply negb_false_iff, String.eqb_eq in HP.
  - split; [|exists s; by rewrite Hs]. unfold current_sound. simpl. apply Hsame; [by left|]. apply current_ok_pending; [by rewrite Hst| |done].
    intros g0 Hg0. rewrite Hg. by eapply Hown.
Qed.

Lemma recompute_current Q c replaces existing seq now sg s :
  current_sound Q sg → sg_sessions sg !! cc_session_id c = Some s →
  (publishes c = true → generation_to_recompute c existing ≠ ""%string →
     ss_current_render_generation s = Some (generation_to_recompute c existing)) →
  let sg' := recompute_replaced c replaces existing seq now sg in
  current_sound Q sg' ∧ ∃ s', sg_sessions sg' !! cc_session_id c = Some s' ∧
    ss_current_render_generation s' = ss_current_render_generation s.
Proof.
  intros Hok Hs Hptr. unfold recompute_replaced. destruct (replaces && publishes c && negb _) eqn:Hb; [|split; [done|eauto]].
  apply andb_true_iff in Hb as [[_ Hp]%andb_true_iff Hne%negb_true_iff%String.eqb_neq]. specialize (Hptr Hp Hne).
  set (id := generation_to_recompute c existing) in *. destruct (co_pointer _ _ _ Hok _ _ _ Hs Hptr) as (g & Hg & Hk).
  unfold current_sound, sg_sessions. simpl. rewrite (alter_as_insert _ _ _ _ Hs), (alter_as_insert _ _ _ _ Hg).
  split; [|eexists; split; [apply lookup_insert_eq|by rewrite Hptr]].
  apply (current_ok_publish Q); [done|done|by right| | |done].
  - intros g0 Hg0. congruence.
  - intros HQ id' g' Hg' Hcur Hses. destruct (co_current _ _ _ Hok _ _ Hg' Hcur) as (s' & Hs' & Hid'); [by rewrite Hses|].
    rewrite Hses in Hs'. congruence.
Qed.

(** ** The invariant *)

Lemma render_admitted sg c : render_refusal sg c = None → ∀ m g, cc_render_manifest c = Some m →
  sg_generations sg !! rm_generation_id m = Some g → rg_session_id g = cc_session_id c.
Proof.
  unfold render_refusal. intros H m g Hm Hg. rewrite Hm, Hg in H. destruct (match head _ with Some _ => _ | None => _ end); [done|].
  destruct (negb (same_revision c m "" g)) eqn:Hs; [done|]. apply negb_false_iff in Hs. unfold same_revision in Hs.
  rewrite !andb_true_iff in Hs. destruct Hs as [[Hs%String.eqb_eq _] _]. done.
Qed.

Lemma write_commit_current P sg c now sg' :
  current_sound P sg →
  (∀ m g, cc_render_manifest c = Some m → sg_generations sg !! rm_generation_id m = Some g → rg_session_id g = cc_session_id c) →
  write_commit embedding_artifact sg c now = Ok sg' →
  current_sound (covered c P) sg' ∧
  ∀ m, cc_render_manifest c = Some m → publishes c = true →
    ∃ s, sg_sessions sg' !! cc_session_id c = Some s ∧ ss_current_render_generation s = Some (rm_generation_id m).
Proof.
  intros Hok Hown H. unfold write_commit in H. cbv zeta in H.
  destruct (insert_media_refs _ _ _ _ _) as [refs|]; [|done]. injection H as <-. set (existing := sg_sessions sg !! cc_session_id c).
  set (seq := sg_seq _).
  pose proof (write_epoch_stage P c seq now _ sg (stage_same _ _ _ sg (set_ledger advance_projector_seq sg) eq_refl eq_refl
    (stage_refl _ _ _ Hok))) as Hst.
  match goal with |- context [write_session c ?rep ?missing existing seq now ?base] => set (sg1 := base); set (replaces := rep);
    set (missed := missing) end.
  assert (stage P (cc_session_id c) sg sg1) as Hst1 by (eapply stage_same; [..|exact Hst]; done).
  destruct (write_session_tables c replaces missed existing seq now sg1) as (row & Hg2 & Hs2 & Hrow).
  set (sg2 := write_session _ _ _ _ _ _ _) in *. destruct Hst1 as [Hok1 Hrow1 Hown1].
  assert (current_sound P sg2) as Hok2.
  { unfold current_sound. rewrite Hg2, Hs2. apply current_ok_session; [by rewrite Hrow, Hrow1|done]. }
  destruct (write_rendering_current P c existing seq now sg2 Hok2) as [Hok3 (s3 & Hs3 & Hptr3)].
  { rewrite Hs2, lookup_insert_eq. by eexists. }
  { intros m g' Hm. rewrite Hg2. intros (g & Hg & ->)%Hown1. by eapply Hown. }
  unfold current_sound. cbn [sg_generations set_ledger]. unfold sg_sessions at 1 2. cbn [sg_ledger set_ledger].
  rewrite (proj1 (fold_wants _ _ _ _ _)).
  destruct (recompute_current (covered c P) c replaces existing seq now _ s3 Hok3 Hs3) as [Hok4 (s4 & Hs4 & Hptr4)].
  - intros Hp Hne. rewrite Hptr3, Hp. unfold generation_to_recompute in *. destruct (cc_render_manifest c); [done|].
    rewrite Hs2, lookup_insert_eq. simpl. rewrite Hrow. by destruct (existing ≫= _).
  - split; [exact Hok4|]. intros m Hm Hp. exists s4. split; [exact Hs4|]. by rewrite Hptr4, Hptr3, Hm, Hp.
Qed.

(** A call of this part. *)
Definition own_call (call : storage_call) : Prop := match call with CallElsewhere _ _ _ _ _ _ => False | _ => True end.

Lemma commit_current P sg c ra now answer sg' :
  current_sound P sg → commit_raw_object nfc embedding_artifact sg c ra now = Ok (answer, sg') →
  current_sound P sg' ∧
  ∀ receipt m, answer = CommitCreated receipt → cc_render_manifest c = Some m → publishes c = true →
    current_sound (λ k, k = cc_session_id c) sg' ∧
    ∃ s, sg_sessions sg' !! cc_session_id c = Some s ∧ ss_current_render_generation s = Some (rm_generation_id m).
Proof.
  intros Hok [a Hn| a e Hn Hd He Hk| sg1 sg2 r1 receipt1 Hd Hid _ Hrr Hadm Hw _ _]%commit_cases.
  - split; [done|]. intros receipt m Ha. by destruct (Hn receipt).
  - split; [|intros receipt m Ha; by destruct (Hn receipt)]. unfold repair_frontier. by destruct (_ && _).
  - assert (sg_generations sg1 = sg_generations sg ∧ sg_sessions sg1 = sg_sessions sg) as [Hg Hs].
    { apply admit_range_ok in Hadm as [(_ & -> & _)|(e & _ & -> & _)]; [done|]. unfold repair_frontier. by destruct (_ && _). }
    destruct (write_commit_current P sg1 c now sg2) as [[Hc Hp] Hptr]; [unfold current_sound; by rewrite Hg, Hs|rewrite Hg; by apply render_admitted|done|].
    split; [split; [|done]; intros id g Hig Hcur HP; apply (Hc id g Hig Hcur); by left|].
    intros receipt m _ Hm Hpub. split; [|by apply Hptr]. split; [|done].
    intros id g Hig Hcur HP. apply (Hc id g Hig Hcur). right. split_and!; [done|by rewrite Hm|done].
Qed.

Lemma storage_exec_current P sg call : own_call call → current_sound P sg →
  current_sound P (storage_exec nfc embedding_artifact sg call).
Proof.
  intros Hown Hok. destruct call as [src epoch rk p o now|c ra now|s d rs now|m now|seq st b ss gs rs0];
    [| | |destruct (media_call_frame nfc embedding_artifact sg m now) as (_ & Hg & Hs); unfold current_sound; by rewrite Hg, Hs|done]; simpl.
  - unfold open_source_epoch. destruct (sg_epochs sg !! epoch); [by destruct (same_opening _ _ _ _ _)|].
    destruct (opening_refusal _ _ _); [done|]. by destruct p.
  - destruct (commit_raw_object _ _ _ _ _ _) as [[a sg']|] eqn:H; [|done]. by eapply commit_current.
  - unfold delete_storage_session. destruct (sg_tombstones sg !! s); [done|]. unfold current_sound. cbv zeta. cbn [snd]. unfold sg_sessions at 1.
    cbn [sg_ledger sg_generations set_ledger]. rewrite (proj1 (fold_tables _ _ _ (λ pc p, want_deletion_tables _ _ _ p pc))).
    by apply current_ok_alter, current_ok_supersede.
Qed.

Lemma storage_run_current P sg calls : Forall own_call calls → current_sound P sg →
  current_sound P (storage_run nfc embedding_artifact sg calls).
Proof. apply storage_run_inv. intros sg' call. apply storage_exec_current. Qed.

(** Every pointer of a session leads to a rendering of the session itself. *)
Definition pointers_own (sg : storage_store) : Prop :=
  ∀ k s id, sg_sessions sg !! k = Some s → ss_current_render_generation s = Some id →
    ∃ g, sg_generations sg !! id = Some g ∧ rg_session_id g = k.

(** The session has no current rendering but the one its row points to. *)
Definition one_current (sg : storage_store) (k : string) : Prop :=
  ∀ id g, sg_generations sg !! id = Some g → rg_state g = "current"%string → rg_session_id g = k →
    ∃ s, sg_sessions sg !! k = Some s ∧ ss_current_render_generation s = Some id.

Lemma current_sound_one sg k : current_sound (λ k', k' = k) sg ↔ one_current sg k ∧ pointers_own sg.
Proof.
  split.
  - intros [Hc Hp]. split; [|done]. intros id g Hg Hcur <-. by apply (Hc id g).
  - intros [Hc Hp]. split; [|done]. intros id g Hg Hcur E. rewrite E. by apply (Hc id g).
Qed.


End Current.

(** ** Media *)

Section Media.
Context (nfc : ustr → ustr) (embedding_artifact : string).

(** A media object only gains: its size is never rewritten, and once deleted it
    stays deleted. *)
Definition advances (r r' : MediaObject) : Prop :=
  (mo_state r = "deleted"%string → mo_state r' = "deleted"%string) ∧ (∀ n, mo_byte_size r = Some n → mo_byte_size r' = Some n).

Definition media_grows (media media' : gmap string MediaObject) : Prop :=
  ∀ h r, media !! h = Some r → ∃ r', media' !! h = Some r' ∧ advances r r'.

Lemma media_grows_refl media : media_grows media media.
Proof. intros h r Hr. by exists r. Qed.

Lemma media_grows_trans m1 m2 m3 : media_grows m1 m2 → media_grows m2 m3 → media_grows m1 m3.
Proof.
  intros H12 H23 h r Hr. destruct (H12 _ _ Hr) as (r2 & Hr2 & Hd2 & Hs2), (H23 _ _ Hr2) as (r3 & Hr3 & Hd3 & Hs3).
  exists r3. split; [done|]. split; auto.
Qed.

Lemma insert_missing_spec missing seq now media :
  media_grows media (insert_missing missing seq now media) ∧ ∀ h, h ∈ missing → is_Some (insert_missing missing seq now media !! h).
Proof.
  unfold insert_missing. revert media. induction missing as [|h0 missing IH]; intros media.
  { split; [apply media_grows_refl|]. by intros h Hh%elem_of_nil. }
  cbn [foldl]. set (media1 := match media !! h0 with Some _ => _ | None => _ end). destruct (IH media1) as [Hg Hin].
  assert (media_grows media media1 ∧ is_Some (media1 !! h0)) as [Hg1 [r1 Hr1]].
  { unfold media1. destruct (media !! h0) as [r|] eqn:Hr; [split; [apply media_grows_refl|by eexists]|].
    split; [|rewrite lookup_insert_eq; by eexists]. intros h r Hh. exists r. rewrite lookup_insert_ne by congruence. done. }
  split; [by eapply media_grows_trans|]. intros h [->|Hh]%elem_of_cons; [|by apply Hin]. destruct (Hg _ _ Hr1) as (r' & Hr' & _). eauto.
Qed.

(** The media and references once a commit is written. *)
Lemma write_commit_media sg c now sg' : write_commit embedding_artifact sg c now = Ok sg' →
  sg_media sg' = insert_missing (missing_media (sg_media sg) c) (sg_seq sg + 1) now (sg_media sg) ∧
  insert_media_refs c (sg_seq sg + 1) now (cc_media_refs c)
    (sg_refs (write_epoch embedding_artifact c (sg_seq sg + 1) now (set_ledger advance_projector_seq sg))) = Ok (sg_refs sg').
Proof.
  unfold write_commit. cbv zeta. intros (refs & Hrefs & [= <-])%bind_ok.
  assert (∀ sg0, sg_media (write_epoch embedding_artifact c (sg_seq sg + 1) now sg0) = sg_media sg0) as Hw.
  { intros sg0. unfold write_epoch. destruct (sg_epochs sg0 !! _); [done|]. destruct (cc_predecessor c); [|done].
    cbn [sg_media set_epochs]. unfold replace_epoch. rewrite (foldl_keeps sg_media); [done|]. intros sg1 session_id.
    unfold retire_session. by case_bool_decide. }
  assert (∀ sg0 rep existing, sg_media (recompute_replaced c rep existing (sg_seq sg + 1) now sg0) = sg_media sg0 ∧
    sg_refs (recompute_replaced c rep existing (sg_seq sg + 1) now sg0) = sg_refs sg0) as Hr.
  { intros. unfold recompute_replaced. by destruct (_ && _ && _). }
  assert (∀ sg0 existing, sg_media (write_rendering c existing (sg_seq sg + 1) now sg0) = sg_media sg0 ∧
    sg_refs (write_rendering c existing (sg_seq sg + 1) now sg0) = sg_refs sg0) as Hg.
  { intros. unfold write_rendering. destruct (cc_render_manifest c); [|done]. by destruct (publishes c). }
  assert (∀ sg0 rep missing existing, sg_media (write_session c rep missing existing (sg_seq sg + 1) now sg0) = sg_media sg0 ∧
    sg_refs (write_session c rep missing existing (sg_seq sg + 1) now sg0) = sg_refs sg0) as Hs.
  { intros. unfold write_session. by destruct (session_media _ _ _ _ _). }
  cbn [sg_media sg_refs set_ledger]. change (sg_seq (set_ledger advance_projector_seq sg)) with (sg_seq sg + 1) in *.
  rewrite (proj1 (Hr _ _ _)), (proj2 (Hr _ _ _)), (proj1 (Hg _ _)), (proj2 (Hg _ _)), (proj1 (Hs _ _ _ _)), (proj2 (Hs _ _ _ _)).
  cbn [sg_media sg_refs set_refs set_media set_raw]. split; [by rewrite Hw|exact Hrefs].
Qed.

Lemma media_call_advances sg m e : sg_media sg !! mm_media_hash m = Some e → media_refused sg m e = false →
  ∀ seq now, advances e (changed_media m seq now e).
Proof.
  intros He Hr seq now. unfold media_refused in Hr. rewrite !orb_false_iff in Hr. destruct Hr as [[[Hd Hsize] _] _]. split; simpl.
  - intros Hs. rewrite Hs in Hd. simpl in Hd. by apply negb_false_iff, String.eqb_eq in Hd.
  - by intros n ->.
Qed.

Lemma storage_exec_media sg call : media_grows (sg_media sg) (sg_media (storage_exec nfc embedding_artifact sg call)).
Proof.
  destruct call as [src epoch rk p o now|c ra now|s d rs now|m now|seq st b ss gs rs0]; simpl; [| | | |apply media_grows_refl].
  - unfold open_source_epoch. destruct (sg_epochs sg !! epoch); [destruct (same_opening _ _ _ _ _); apply media_grows_refl|].
    destruct (opening_refusal _ _ _); [apply media_grows_refl|]. destruct p; apply media_grows_refl.
  - destruct (commit_raw_object _ _ _ _ _ _) as [[a sg']|] eqn:H; [|apply media_grows_refl].
    apply commit_cases in H as [| answer' e _ Hd He Hk| sg1 sg2 r1 receipt Hd Hid _ _ Hadm Hw _ _]; [apply media_grows_refl| |].
    + unfold repair_frontier. destruct (_ && _); apply media_grows_refl.
    + assert (sg_media sg1 = sg_media sg) as Hm.
      { apply admit_range_ok in Hadm as [(_ & -> & _)|(e & _ & -> & _)]; [done|]. unfold repair_frontier. by destruct (_ && _). }
      rewrite (proj1 (write_commit_media _ _ _ _ Hw)), Hm. apply insert_missing_spec.
  - unfold delete_storage_session. destruct (sg_tombstones sg !! s); apply media_grows_refl.
  - destruct (commit_media_object sg m now) as [[a sg']|] eqn:H; [|apply media_grows_refl].
    apply commit_media_cases in H as [->|(keys & _ & _ & Hok & Hw)]; [apply media_grows_refl|].
    apply write_media_frame in Hw as (_ & _ & _ & _ & ->). intros h r Hh.
    destruct (decide (h = mm_media_hash m)) as [->|Hne]; [|rewrite lookup_insert_ne by done; by exists r].
    rewrite lookup_insert_eq, Hh. eexists. split; [done|]. destruct (object_changed m r); [|done].
    by apply (media_call_advances sg m r Hh), Hok.
Qed.

(** Whatever is called, a media object keeps the size it was committed with, and
    a deleted one never comes back. *)
Theorem media_object_only_advances sg calls media_hash r :
  sg_media sg !! media_hash = Some r →
  ∃ r', sg_media (storage_run nfc embedding_artifact sg calls) !! media_hash = Some r' ∧
    (mo_state r = "deleted"%string → mo_state r' = "deleted"%string) ∧ (∀ n, mo_byte_size r = Some n → mo_byte_size r' = Some n).
Proof.
  revert sg r. induction calls as [|call calls IH]; intros sg r Hr; [by exists r|].
  destruct (storage_exec_media sg call _ _ Hr) as (r1 & Hr1 & Hd1 & Hs1). destruct (IH _ _ Hr1) as (r2 & Hr2 & Hd2 & Hs2).
  exists r2. split; [exact Hr2|]. split; auto.
Qed.

(** *** References *)

Definition ref_sound (raw : gmap string RawObject) (media : gmap string MediaObject) (tombs : gmap string SessionTombstone)
    (key : ref_name) (r : SessionMediaRef) : Prop :=
  is_Some (media !! key.1.1.2) ∧
  (∀ e, key.1.2 = Some e → ∃ row, raw !! e = Some row ∧ ro_session_id row = key.1.1.1 ∧
     (ref_active r = true → is_active row = true)) ∧
  (ref_active r = true → tombs !! key.1.1.1 = None).

Definition refs_sound (sg : storage_store) : Prop :=
  ∀ key r, sg_refs sg !! key = Some r → ref_sound (sg_raw sg) (sg_media sg) (sg_tombstones sg) key r.

Lemma insert_media_refs_spec c seq now l refs refs' key r : insert_media_refs c seq now l refs = Ok refs' →
  refs' !! key = Some r →
  refs !! key = Some r ∨ ∃ ref, ref ∈ l ∧ key = (cc_session_id c, mf_media_hash ref, Some (cc_envelope_id c), mf_ref_key ref).
Proof.
  revert refs. induction l as [|ref l IH]; intros refs; simpl; [intros [= ->]; auto|].
  destruct (refs !! _) eqn:Hfree; [done|]. intros H Hr. destruct (IH _ H Hr) as [Hk|(ref' & Hin & ->)].
  - apply lookup_insert_Some in Hk as [[<- _]|[_ Hk]]; [|by left]. right. exists ref. split; [left|done].
  - right. exists ref'. split; [by right|done].
Qed.

Lemma insert_refs_spec keys seq now refs refs' key r : insert_refs keys seq now refs = Ok refs' →
  refs' !! key = Some r → refs !! key = Some r ∨ key ∈ keys.
Proof.
  revert refs. induction keys as [|k keys IH]; intros refs; simpl; [intros [= ->]; auto|].
  destruct (refs !! k) eqn:Hfree; [done|]. intros H Hr. destruct (IH _ H Hr) as [Hk|Hin]; [|right; by right].
  apply lookup_insert_Some in Hk as [[<- _]|[_ Hk]]; [right; left|by left].
Qed.

Lemma new_media_refs_spec sg m refs keys key : new_media_refs sg m refs = inr keys → key ∈ keys →
  ∃ ref, ref ∈ refs ∧ key = ref_of m ref.
Proof.
  revert keys. induction refs as [|ref refs IH]; intros keys; simpl; [intros [= <-] Hk; by apply elem_of_nil in Hk|].
  destruct (sg_refs sg !! _) as [prior|].
  - destruct (_ || _); [done|]. intros H Hk. destruct (IH _ H Hk) as (ref' & Hin & ->). exists ref'. split; [by right|done].
  - destruct (new_media_refs sg m refs) as [|keys']; [done|]. intros [= <-] [->|Hk]%elem_of_cons; [exists ref; split; [left|done]|].
    destruct (IH _ eq_refl Hk) as (ref' & Hin & ->). exists ref'. split; [by right|done].
Qed.

Lemma ref_refusal_spec sg refs ref : ref_refusal sg refs = None → ref ∈ refs →
  sg_tombstones sg !! sf_session_id ref = None ∧
  ∀ e, sf_envelope_id ref = Some e → ∃ r, sg_raw sg !! e = Some r ∧ ro_session_id r = sf_session_id ref ∧ is_active r = true.
Proof.
  induction refs as [|ref0 refs IH]; simpl; [intros _ Hin; by apply elem_of_nil in Hin|].
  destruct (sg_tombstones sg !! sf_session_id ref0) eqn:Ht; [done|]. intros H [->|Hin]%elem_of_cons.
  - split; [done|]. intros e He. rewrite He in H. destruct (sg_raw sg !! e) as [r|] eqn:Hr; [|done].
    destruct (is_active r && _) eqn:Ha; [|done]. apply andb_true_iff in Ha as [Ha Hs%String.eqb_eq]. by exists r.
  - apply IH; [|done]. destruct (sf_envelope_id ref0) as [e|]; [|done]. destruct (sg_raw sg !! e) as [r|]; [|done].
    by destruct (is_active r && _).
Qed.

Lemma write_epoch_refs c seq now sg :
  sg_refs (write_epoch embedding_artifact c seq now sg) =
  match sg_epochs sg !! cc_source_epoch c, cc_predecessor c with
  | None, Some p =>
      update_rows (λ k r, opt_in k.1.2 (map fst (select_rows (λ k r, in_epoch p k r && is_active r) (sg_raw sg))) && ref_active r)
        (retired_ref seq now) (sg_refs sg)
  | _, _ => sg_refs sg
  end.
Proof.
  unfold write_epoch. destruct (sg_epochs sg !! _); [done|]. destruct (cc_predecessor c) as [p|]; [|done].
  cbn [sg_refs set_epochs]. unfold replace_epoch. rewrite (foldl_keeps sg_refs); [done|]. intros sg1 session_id.
  unfold retire_session. by case_bool_decide.
Qed.

(** The references of a commit that were there before. *)
Lemma old_refs_sound c seq now sg media key r :
  refs_sound sg → sg_raw sg !! cc_envelope_id c = None → media_grows (sg_media sg) media →
  sg_refs (write_epoch embedding_artifact c seq now (set_ledger advance_projector_seq sg)) !! key = Some r →
  ∀ new, ref_sound (<[cc_envelope_id c := new]> (raw_retired c seq now (sg_epochs sg) (sg_raw sg))) media (sg_tombstones sg) key r.
Proof.
  intros Hok Hid Hgrow. rewrite write_epoch_refs. cbn [sg_epochs sg_raw sg_refs set_ledger]. unfold raw_retired.
  assert (∀ k r, ref_sound (sg_raw sg) (sg_media sg) (sg_tombstones sg) k r → is_Some (media !! k.1.1.2)) as Hmedia.
  { intros k r' [[m Hm] _]. destruct (Hgrow _ _ Hm) as (m' & Hm' & _). eauto. }
  assert (sg_refs sg !! key = Some r → ∀ new, ref_sound (<[cc_envelope_id c := new]> (sg_raw sg)) media (sg_tombstones sg) key r) as Hsame.
  { intros Hr new. pose proof (Hok _ _ Hr) as Hs. split; [by eapply Hmedia|]. destruct Hs as (_ & Hrow & Ht). split; [|done].
    intros e He. destruct (Hrow e He) as (row & Hr' & ?). exists row. rewrite lookup_insert_ne by congruence. done. }
  destruct (sg_epochs sg !! _); [exact Hsame|]. destruct (cc_predecessor c) as [p|]; [|exact Hsame]. set (ids := map fst _).
  rewrite lookup_update_rows. intros (r0 & Hr0 & ->)%fmap_Some new. pose proof (Hok _ _ Hr0) as Hs.
  split; [by eapply Hmedia|]. destruct Hs as (_ & Hrow & Ht). split.
  - intros e He. destruct (Hrow e He) as (row & Hr' & Hsess & Hact). rewrite lookup_insert_ne by congruence.
    rewrite lookup_update_rows, Hr'. eexists. split; [done|]. rewrite He. cbn [opt_in].
    destruct (str_in e ids); [|done]. split; [done|]. destruct (ref_active r0) eqn:Ha; simpl; [done|congruence].
  - intros Ha. apply Ht. by destruct (opt_in _ _ && ref_active r0).
Qed.

Lemma new_ref_media c media ref seq now :
  Forall (λ ref, mf_availability ref ∈ ["available"; "missing"]%string) (cc_media_refs c) → unavailable_media media c = [] →
  ref ∈ cc_media_refs c → is_Some (insert_missing (missing_media media c) seq now media !! mf_media_hash ref).
Proof.
  intros Hav Hun Hin. destruct (insert_missing_spec (missing_media media c) seq now media) as [Hgrow Hnew].
  destruct (media_present media (mf_media_hash ref)) eqn:Hp.
  { unfold media_present in Hp. destruct (media !! mf_media_hash ref) as [m|] eqn:Hm; [|done].
    destruct (Hgrow _ _ Hm) as (m' & -> & _). by eexists. }
  rewrite Forall_forall in Hav. specialize (Hav _ Hin).
  assert (∀ av, mf_availability ref = av → mf_media_hash ref ∈ absent_media media av (cc_media_refs c)) as Habs.
  { intros av <-. unfold absent_media, sorted_strings. rewrite elem_of_py_sorted, elem_of_remove_dups. apply list_elem_of_fmap.
    exists ref. split; [done|]. apply list_elem_of_filter. split; [|done]. by rewrite String.eqb_refl, Hp. }
  apply elem_of_cons in Hav as [Hav|Hav%list_elem_of_singleton].
  - specialize (Habs _ Hav). fold (unavailable_media media c) in Habs. rewrite Hun in Habs. by apply elem_of_nil in Habs.
  - apply Hnew, Habs, Hav.
Qed.

Lemma commit_refs_sound sg c repaired_at now answer sg' :
  Forall (λ ref, mf_availability ref ∈ ["available"; "missing"]%string) (cc_media_refs c) → refs_sound sg →
  commit_raw_object nfc embedding_artifact sg c repaired_at now = Ok (answer, sg') → refs_sound sg'.
Proof.
  intros Hav Hok [| answer' e _ Hd He Hk| sg1 sg2 r1 receipt Hd Hid _ _ Hadm Hw _ _ Hun]%commit_cases; [done| |].
  { unfold repair_frontier. by destruct (_ && _). }
  assert (refs_sound sg1 ∧ sg_raw sg1 = sg_raw sg ∧ sg_media sg1 = sg_media sg ∧ sg_tombstones sg1 = sg_tombstones sg)
    as (Hok1 & Hr1 & Hm1 & Ht1).
  { apply admit_range_ok in Hadm as [(_ & -> & _)|(e & _ & -> & _)]; [done|]. unfold repair_frontier. by destruct (_ && _). }
  pose proof (write_commit_core _ _ _ _ _ Hw) as [= _ Hraw Ht]. destruct (write_commit_media _ _ _ _ Hw) as [Hmedia Hrefs].
  intros key r Hr. rewrite Hraw, Ht, Hmedia. destruct (insert_media_refs_spec _ _ _ _ _ _ _ _ Hrefs Hr) as [Hold|(ref & Hin & ->)].
  - apply (old_refs_sound c (sg_seq sg1 + 1) now sg1); [done|congruence|apply insert_missing_spec|exact Hold].
  - split; [apply new_ref_media; [done|congruence|done]|]. split; [|intros _; simpl; congruence].
    intros e [= <-]. rewrite lookup_insert_eq. eexists. split; [done|]. by split.
Qed.

Lemma delete_refs_sound sg session_id deletion_id reason now : refs_sound sg →
  refs_sound (delete_storage_session embedding_artifact sg session_id deletion_id reason now).2.
Proof.
  intros Hok. destruct (sg_tombstones sg !! session_id) as [t|] eqn:Ht; [unfold delete_storage_session; by rewrite Ht|].
  pose proof (delete_core embedding_artifact sg session_id deletion_id reason now Ht) as [= _ Hraw Htombs].
  set (sg' := (delete_storage_session _ _ _ _ _ _).2) in *. assert (sg_media sg' = sg_media sg) as Hm.
  { unfold sg', delete_storage_session. by rewrite Ht. }
  assert (∃ seq, sg_refs sg' = update_rows (refs_of_session session_id) (retired_ref seq now) (sg_refs sg)) as [seq Hrefs].
  { unfold sg', delete_storage_session. rewrite Ht. by eexists. }
  intros key r. rewrite Hrefs, Hraw, Hm, Htombs, lookup_update_rows. intros (r0 & Hr0 & ->)%fmap_Some.
  destruct (Hok _ _ Hr0) as (Hmed & Hrow & Htomb). split; [done|].
  assert (ref_active (if refs_of_session session_id key r0 then retired_ref seq now r0 else r0) = true →
    ref_active r0 = true ∧ key.1.1.1 ≠ session_id) as Hact.
  { unfold refs_of_session. destruct (String.eqb_spec key.1.1.1 session_id); destruct (ref_active r0) eqn:Ha; simpl; rewrite ?Ha; by auto. }
  split.
  - intros e He. destruct (Hrow e He) as (row & Hr' & Hs & Ha). rewrite lookup_update_rows, Hr'. eexists. split; [done|].
    split; [by destruct (raw_of_session _ _ _)|]. intros [H1 Hne]%Hact. unfold raw_of_session. rewrite Hs, (proj2 (String.eqb_neq _ _) Hne).
    by apply Ha.
  - intros [H1 Hne]%Hact. rewrite lookup_insert_ne by done. by apply Htomb.
Qed.

Lemma media_refs_sound sg m now answer sg' : refs_sound sg → commit_media_object sg m now = Ok (answer, sg') → refs_sound sg'.
Proof.
  intros Hok [->|(keys & Href & Hkeys & Hfit & Hw)]%commit_media_cases; [done|].
  apply write_media_frame in Hw as ([= _ Hraw Ht] & _ & _ & Hrefs & Hmedia). intros key r Hr. rewrite Hraw, Ht, Hmedia.
  destruct (insert_refs_spec _ _ _ _ _ _ _ Hrefs Hr) as [Hold|Hin].
  - destruct (Hok _ _ Hold) as (Hmed & ?). split; [|done]. rewrite lookup_insert_is_Some'. by right.
  - destruct (new_media_refs_spec _ _ _ _ _ Hkeys Hin) as (ref & Hmem & ->). destruct (ref_refusal_spec _ _ _ Href Hmem) as [Htomb Hrow].
    split; [simpl; rewrite lookup_insert_eq; by eexists|]. split; [|done]. intros e He. destruct (Hrow e He) as (row & ? & ? & ?). by exists row.
Qed.

Lemma storage_exec_refs sg call : in_order call → refs_sound sg → refs_sound (storage_exec nfc embedding_artifact sg call).
Proof.
  destruct call as [src epoch rk p o now|c ra now|s d rs now|m now|seq st b ss gs rs0]; simpl; intros Hc Hok.
  - unfold open_source_epoch. destruct (sg_epochs sg !! epoch); [by destruct (same_opening _ _ _ _ _)|].
    destruct (opening_refusal _ _ _); [done|]. by destruct p.
  - destruct Hc as [_ Hav]. destruct (commit_raw_object _ _ _ _ _ _) as [[a sg']|] eqn:H; [by eapply commit_refs_sound|done].
  - by apply delete_refs_sound.
  - destruct (commit_media_object sg m now) as [[a sg']|] eqn:H; [by eapply media_refs_sound|done].
  - exact Hok.
Qed.

(** In every reachable catalog a reference leads to a media row, and to an
    envelope of its session where it names one; an active reference is of a
    session that is not deleted and of an envelope that is not retired. *)
Theorem references_are_backed sg session_id media_hash envelope ref_key r :
  reachable_storage nfc embedding_artifact sg → sg_refs sg !! (session_id, media_hash, envelope, ref_key) = Some r →
  is_Some (sg_media sg !! media_hash) ∧
  (∀ e, envelope = Some e → ∃ row, sg_raw sg !! e = Some row ∧ ro_session_id row = session_id ∧
     (sr_state r = "active"%string → ro_retired_at row = None)) ∧
  (sr_state r = "active"%string → sg_tombstones sg !! session_id = None).
Proof.
  intros (seq & states & bindings & calls & Hc & ->) Hr.
  assert (refs_sound (storage_run nfc embedding_artifact (empty_storage (ProjectorCatalog seq states ∅ ∅ bindings)) calls)) as Hok.
  { eapply storage_run_inv; [apply storage_exec_refs|done|]. intros key r0. simpl. by rewrite lookup_empty. }
  destruct (Hok _ _ Hr) as (Hm & Hrow & Ht). unfold ref_active in *. split; [done|]. split.
  - intros e He. destruct (Hrow e He) as (row & Hr' & Hs & Ha). exists row. split; [done|]. split; [done|].
    intros Hact. specialize (Ha (proj2 (String.eqb_eq _ _) Hact)). unfold is_active in Ha. by apply bool_decide_eq_true in Ha.
  - intros Hact. apply Ht. by apply String.eqb_eq.
Qed.

End Media.
