(* ===== verification/StorageSamples.v ===== *)
(** * Witnesses of the storage commit *)

From S2P Require Import Prelude PyStr PyTime PyValue PyText Sha256 Bytes StorageContracts ProjectorQueue LedgerLaws.
From S2P Require Import StorageTables StorageCommit StorageLaws StorageProps.

Open Scope list_scope.
Open Scope Z_scope.

Definition plain (s : ustr) : ustr := s.

Definition sample_source : source_name := SourceName "tenant" "mac" "codex" "/sessions/a.jsonl".
Definition first_epoch : string := "00000000-0000-4000-8000-000000000001".
Definition second_epoch : string := "00000000-0000-4000-8000-000000000002".
Definition sample_media : string := sha256_hex "image".

(** A commit with the envelope id of its identity. *)
Definition sealed (c : raw_commit) : raw_commit :=
  RawCommit (cc_source c) (cc_owner_id c) (cc_session_id c) (cc_source_epoch c) (cc_predecessor c) (cc_epoch_opened_at c)
    (cc_range_kind c) (cc_range_start c) (cc_range_end c) (cc_record_hashes c)
    (ok_or ""%string (envelope_id plain (envelope_identity c))) (cc_object_hash c) (cc_payload_hash c) (cc_compressed_hash c)
    (cc_object_path c) (cc_uncompressed_size c) (cc_compressed_size c) (cc_provenance_kind c) (cc_render_state c)
    (cc_media_refs c) (cc_projectors c) (cc_render_manifest c) (cc_started_at c) (cc_last_activity_at c) (cc_sealed_at c).

Definition sample_manifest (object_id : string) : render_manifest :=
  RenderManifest "generation" "parser-1" "order-1" object_id (sha256_hex "rendering") (sha256_hex "rendering") "r" 10 5 2 1 1 0 1.

Definition sample_commit (epoch : string) (predecessor : option string) (start end_ : Z) (refs : list media_ref)
    (object_id : string) : raw_commit :=
  sealed (RawCommit sample_source (Some "1"%string) "session" epoch predecessor 0 "byte_offset" start end_
    (hash_records [chars "record"; chars object_id]) "" (sha256_hex "object") (sha256_hex "payload") (sha256_hex "object") "o" 20 10
    "native" "ready" refs ["search-v2"]%string (Some (sample_manifest object_id)) 0 10 20).

(** The epoch begins at 100: the cursor of an older source. *)
Definition commit_1 : raw_commit := sample_commit first_epoch None 100 140 [] "r1".
Definition commit_2 : raw_commit := sample_commit first_epoch None 140 200 [MediaRef sample_media 150 "image" "missing"] "r2".
Definition commit_late : raw_commit := sample_commit first_epoch None 300 340 [] "r3".
Definition commit_3 : raw_commit := sample_commit second_epoch (Some first_epoch) 0 50 [] "r4".

Definition storage_0 : storage_store := empty_storage (ProjectorCatalog 7 ∅ ∅ ∅ ∅).

Definition commit_call (c : raw_commit) : storage_call := CallCommitRaw c 30 40.
Definition after (calls : list storage_call) : storage_store := storage_run plain "model" storage_0 calls.
Definition storage_1 : storage_store := after [commit_call commit_1].
Definition storage_2 : storage_store := after [commit_call commit_1; commit_call commit_2].

Abbreviation outcome sg c := (commit_raw_object plain "model" sg c 30 40).
Definition receipt_of (r : res (commit_answer * storage_store)) : list (string * pyval) :=
  match r with Ok (CommitCreated receipt, _) => receipt | _ => [] end.
Definition stored (r : res (commit_answer * storage_store)) : storage_store :=
  match r with Ok (_, sg) => sg | Err _ => storage_0 end.
Definition answered (r : res (commit_answer * storage_store)) : option commit_answer :=
  match r with Ok (answer, _) => Some answer | Err _ => None end.

Lemma reachable_after calls : Forall in_order calls → reachable_storage plain "model" (after calls).
Proof. intros H. by exists 7, ∅, ∅, calls. Qed.

Lemma created_shape r receipt : answered r = Some (CommitCreated receipt) → r = Ok (CommitCreated (receipt_of r), stored r).
Proof. destruct r as [[a sg]|]; [|done]. simpl. by intros [= ->]. Qed.

Example early_commit_refused : answered (outcome storage_2 (sample_commit first_epoch None 100 150 [] "r3")) =
  Some (CommitConflict (Some "range_overlap"%string) 9).
Proof. vm_compute. reflexivity. Qed.

Example late_commit_refused : answered (outcome storage_2 commit_late) = Some (CommitConflict (Some "range_gap"%string) 9).
Proof. vm_compute. reflexivity. Qed.

(** A second open epoch of the source is refused. *)
Example unrelated_epoch_refused : answered (outcome storage_2 (sample_commit second_epoch None 0 50 [] "r4")) =
  Some (CommitConflict (Some "another_epoch_is_already_open_for_this_source"%string) 9).
Proof. vm_compute. reflexivity. Qed.

(** Two records that name the same reference pass the handler, whose key has
    the position, and break the table's unique constraint, which has not. *)
Example shared_reference_key_fails :
  outcome storage_1 (sample_commit first_epoch None 140 200
    [MediaRef sample_media 150 "image" "missing"; MediaRef sample_media 160 "image" "missing"] "r2") = Err IntegrityError.
Proof. vm_compute. reflexivity. Qed.

Definition arrived : media_commit :=
  MediaCommit sample_media "present" (Some "image/png"%string) (Some 12) (Some "m"%string) [] 60.

(** Media that arrives after its envelope is not missing any more, but the
    session stays incomplete, also after its next envelope. *)
Example missing_media_stays :
  let sg := after [commit_call commit_1; commit_call commit_2; CallMedia arrived 60;
                   commit_call (sample_commit first_epoch None 200 240 [] "r5")] in
  (mo_state <$> sg_media sg !! sample_media, ss_media_state <$> sg_sessions sg !! "session"%string,
   ss_missing_media_hashes <$> sg_sessions sg !! "session"%string) =
  (Some "present", Some "missing", Some [sample_media])%string.
Proof. vm_compute. reflexivity. Qed.

(** The replacement of an epoch retires its envelopes and counts the session
    afresh. *)
Example replacement_recounts :
  let sg := stored (outcome storage_2 commit_3) in
  (ss_user_messages <$> sg_sessions storage_2 !! "session"%string, ss_user_messages <$> sg_sessions sg !! "session"%string,
   ss_missing_media_hashes <$> sg_sessions sg !! "session"%string,
   map (λ c, is_active <$> sg_raw sg !! cc_envelope_id c) [commit_1; commit_2; commit_3]) =
  (Some 2, Some 1, Some [], [Some false; Some false; Some true]).
Proof. vm_compute. reflexivity. Qed.

(** ** Witnesses *)

Lemma ordered_1 : in_order (commit_call commit_1).
Proof. split; [vm_compute; discriminate|]. apply (bool_decide_unpack _). vm_compute. exact I. Qed.

Lemma ordered_2 : in_order (commit_call commit_2).
Proof. split; [vm_compute; discriminate|]. apply (bool_decide_unpack _). vm_compute. exact I. Qed.

Lemma ordered_both : Forall in_order [commit_call commit_1; commit_call commit_2].
Proof. repeat constructor; apply ordered_1 || apply ordered_2. Qed.

Definition epoch_2 : SourceEpoch :=
  EpochRow "tenant" "mac" "codex" "/sessions/a.jsonl" "byte_offset" "open" None None 200 2 8 None 0 None None 40 40.

Lemma envelopes_tile_their_epoch_witness :
  sg_epochs storage_2 !! first_epoch = Some epoch_2 ∧
  ∃ base rows, NoDup (map fst rows) ∧
    (∀ k rg, (k, rg) ∈ rows ↔ ∃ r, sg_raw storage_2 !! k = Some r ∧ ro_source_epoch r = first_epoch ∧ range_of r = rg) ∧
    Z.of_nat (length rows) = 2 ∧ tiled base (map snd rows) 200.
Proof.
  assert (sg_epochs storage_2 !! first_epoch = Some epoch_2) as He by (vm_compute; reflexivity). split; [exact He|].
  refine (envelopes_tile_their_epoch plain "model" storage_2 first_epoch epoch_2 (reachable_after _ ordered_both) He).
Defined.

Abbreviation written_1 := (outcome storage_0 commit_1).
Abbreviation written_2 := (outcome storage_1 commit_2).
Abbreviation later := (storage_run plain "model" (stored written_1) [commit_call commit_2]).
Abbreviation deleted := ((delete_storage_session "model" storage_1 "session" "deletion-1" None 70).2).

Lemma accepted_commit_extends_the_source_witness :
  written_2 = Ok (CommitCreated (receipt_of written_2), stored written_2) ∧
  ∃ e', sg_epochs (stored written_2) !! first_epoch = Some e' ∧ is_open e' = true ∧ source_of e' = sample_source ∧
    ep_accepted_through e' = 200.
Proof.
  assert (written_2 = Ok (CommitCreated (receipt_of written_2), stored written_2)) as Hc by (eapply created_shape; vm_compute; reflexivity).
  split; [exact Hc|].
  destruct (accepted_commit_extends_the_source plain "model" storage_1 commit_2 30 40 _ _
    (reachable_after [commit_call commit_1] (Forall_cons_2 _ _ _ ordered_1 (Forall_nil_2 _))) (proj1 ordered_2) Hc)
    as [(e' & He & Ho & Hs & Ha & _) _].
  exists e'. auto.
Defined.

(** The first envelope, sealed again for the session its source was relinked to. *)
Definition relinked_1 : raw_commit :=
  RawCommit (cc_source commit_1) None "relinked" first_epoch None 0 (cc_range_kind commit_1) 100 140 (cc_record_hashes commit_1)
    (cc_envelope_id commit_1) (sha256_hex "sealed again") (sha256_hex "payload") (sha256_hex "sealed again") "p" 20 11 "native" "ready"
    [] [] None 0 10 90.

Lemma relinked_same : same_envelope commit_1 relinked_1.
Proof.
  unfold same_envelope, relinked_1.
  cbn [cc_source cc_source_epoch cc_range_kind cc_range_start cc_range_end cc_record_hashes cc_media_refs cc_envelope_id].
  split_and!; reflexivity.
Qed.


(** A commit of the session's next envelope is refused after its deletion. *)
Lemma deletion_is_final_witness :
  sg_tombstones storage_1 !! "session"%string = None ∧
  (∀ answer sg3, outcome (storage_run plain "model" deleted [commit_call commit_2]) commit_2 = Ok (answer, sg3) →
     sg3 = storage_run plain "model" deleted [commit_call commit_2] ∧
     (answer = IdentityMismatch ∨ answer = CommitDeleted (sg_seq storage_1 + 1))) ∧
  answered (outcome (storage_run plain "model" deleted [commit_call commit_2]) commit_2) = Some (CommitDeleted 9).
Proof.
  assert (sg_tombstones storage_1 !! "session"%string = None) as Ht by (vm_compute; reflexivity). split; [exact Ht|].
  split; [|vm_compute; reflexivity]. intros answer sg3 H.
  destruct (deletion_is_final plain "model" storage_1 "session" "deletion-1" None 70 [commit_call commit_2] Ht) as (_ & Hc & _).
  exact (Hc commit_2 30 40 answer sg3 eq_refl H).
Defined.

Lemma exec_created sg c receipt sg' : outcome sg c = Ok (CommitCreated receipt, sg') →
  storage_exec plain "model" sg (commit_call c) = sg'.
Proof. intros H. unfold storage_exec, commit_call. by rewrite H. Qed.

Lemma own_run : Forall own_call [commit_call commit_1].
Proof. repeat constructor. Qed.

Lemma storage_1_current P : current_sound P storage_1.
Proof. apply storage_run_current; [apply own_run|]. split; intros *; unfold sg_sessions; simpl; by rewrite lookup_empty. Qed.


(** The image of the second envelope, before and after it arrives. *)
Lemma media_object_only_advances_witness :
  let row := new_media arrived 10 60 in
  let sg := set_media (λ _, {[ sample_media := row ]}) storage_1 in
  sg_media sg !! sample_media = Some row ∧
  ∃ r', sg_media (storage_run plain "model" sg [commit_call commit_2]) !! sample_media = Some r' ∧ mo_byte_size r' = Some 12.
Proof.
  cbv zeta. set (sg := set_media _ _). assert (sg_media sg !! sample_media = Some (new_media arrived 10 60)) as Hr by apply lookup_singleton_eq.
  split; [exact Hr|]. destruct (media_object_only_advances plain "model" sg [commit_call commit_2] sample_media _ Hr) as (r' & Hr' & _ & Hs).
  exists r'. split; [exact Hr'|]. apply Hs. reflexivity.
Defined.

Definition image_ref : SessionMediaRef := MediaRefRow "active" 9 40 None None.

Lemma references_are_backed_witness :
  sg_refs storage_2 !! ("session"%string, sample_media, Some (cc_envelope_id commit_2), "image"%string) = Some image_ref ∧
  is_Some (sg_media storage_2 !! sample_media) ∧ sg_tombstones storage_2 !! "session"%string = None.
Proof.
  assert (sg_refs storage_2 !! ("session"%string, sample_media, Some (cc_envelope_id commit_2), "image"%string) = Some image_ref)
    as Hr by (vm_compute; reflexivity).
  split; [exact Hr|].
  destruct (references_are_backed plain "model" storage_2 _ _ _ _ _ (reachable_after _ ordered_both) Hr) as (Hm & _ & Ht).
  split; [exact Hm|]. apply Ht. reflexivity.
Defined.
