(* ===== verification/RuntimeLaws.v ===== *)
(** * Laws of the runtime reducer

    The signal clock of a row, what each part of the reducer leaves alone, the
    invariant of the rows, and what applying an event a second time does. *)

From S2P Require Import Prelude PyStr PyTime PyValue MachineEvidence PyText FactStore FactReducer RuntimeView.
From S2P Require Import RuntimeEvents PauseRequests.
From S2P Require Import LivePreviews Interactions InputQueue InputStore ConsoleTurns LiveRuntime.

Open Scope list_scope.
Open Scope Z_scope.

(** A hypothesis that a chain of [let!] returned, taken apart. *)
Ltac inv_ok :=
  repeat match goal with
         | H : mbind _ _ = Ok _ |- _ => let E := fresh "E" in apply bind_ok in H as (? & E & H)
         | H : Ok _ = Ok _ |- _ => injection H as H
         | H : (_, _) = (_, _) |- _ => injection H as ? ?
         end; simplify_eq/=.

(** ** Clocks *)

Lemma outdated_fold now ts t :
  (now <? fold_left Z.max ts t) = (now <? t) || existsb (λ t, now <? t) ts.
Proof.
  revert t. induction ts as [|u ts IH]; intros t; simpl; [by rewrite orb_false_r|].
  rewrite IH, orb_assoc. f_equal. lia.
Qed.

Lemma outdated_latest now values : outdated now (latest values) = existsb (outdated now) values.
Proof.
  unfold latest. induction values as [|[t|] values IH]; simpl; [done| |exact IH].
  rewrite outdated_fold. f_equal. clear IH.
  induction values as [|[u|] values IH]; simpl; [done|by rewrite IH|exact IH].
Qed.

Lemma outdated_clock now row :
  outdated now (signal_clock row) =
  outdated now (rc_last_runtime_signal_at (lr_clock row)) || outdated now (rc_last_progress_at (lr_clock row))
  || outdated now (rt_terminal_at (lr_terminal row)).
Proof. unfold signal_clock. rewrite outdated_latest. simpl. by rewrite orb_false_r, orb_assoc. Qed.

Lemma outdated_refl now : outdated now (Some now) = false.
Proof. apply Z.ltb_irrefl. Qed.

Lemma latest_again l r : latest [latest [l; Some r]; Some r] = latest [l; Some r].
Proof. destruct l; unfold latest; simpl; f_equal; lia. Qed.

(** ** Texts and optional fields *)

Lemma strip_or_again s fallback : fallback ≠ EmptyString → strip fallback = fallback →
  strip_or (Some (strip_or s fallback)) fallback = strip_or s fallback.
Proof.
  intros Hne Hs. pose proof (strip_or_nonempty s fallback Hne) as Hn.
  assert (strip (strip_or s fallback) = strip_or s fallback) as E.
  { unfold strip_or at 1 2. destruct (or_none _) as [t|] eqn:Et; simpl; [|done].
    apply or_none_Some in Et as [<- _]. apply strip_idemp. }
  unfold strip_or at 1. unfold opt_or. destruct (opt_truthy _) eqn:Et; simpl.
  - rewrite E. unfold or_none. by destruct (strip_or s fallback).
  - unfold opt_truthy, str_truthy in Et. apply negb_false_iff, String.eqb_eq in Et. congruence.
Qed.

Lemma given_again {A} (value existing : option A) : given value (given value existing) = given value existing.
Proof. by destruct value. Qed.

Lemma given_Some {A} (a : A) existing : given (Some a) existing = Some a.
Proof. done. Qed.

Lemma rebound_again e b : rebound e (rebound e b) = rebound e b.
Proof. unfold rebound. simpl. rewrite !given_again. by destruct (str_truthy _). Qed.

(** ** Frames *)

Lemma release_again run_id at1 at2 connections :
  release_connections run_id at2 (release_connections run_id at1 connections) = release_connections run_id at1 connections.
Proof.
  unfold release_connections. rewrite <- map_fmap_compose. apply map_fmap_ext. intros id c _. unfold compose.
  destruct (ends_connection run_id c) eqn:E; simpl; [|by rewrite E].
  unfold ends_connection; simpl. by rewrite andb_false_r.
Qed.

Lemma any_open_spec run_id connections :
  any_open_connection run_id connections = true ↔ ∃ id c, connections !! id = Some c ∧ ends_connection run_id c = true.
Proof.
  unfold any_open_connection. rewrite existsb_exists. split.
  - intros ([id c] & Hin & Hc). exists id, c. split; [|done]. by apply elem_of_map_to_list, list_elem_of_In.
  - intros (id & c & Hid & Hc). exists (id, c). split; [|done]. by apply list_elem_of_In, elem_of_map_to_list.
Qed.

Lemma lookup_released run_id at_ connections id :
  release_connections run_id at_ connections !! id =
  (λ c, if ends_connection run_id c then released at_ c else c) <$> connections !! id.
Proof. apply lookup_fmap. Qed.

Lemma none_open_released run_id at_ connections :
  any_open_connection run_id (release_connections run_id at_ connections) = false.
Proof.
  apply not_true_iff_false. rewrite any_open_spec. intros (id & c & Hc & He). rewrite lookup_released in Hc.
  destruct (connections !! id) as [c0|]; [|done]. simpl in Hc. injection Hc as <-.
  destruct (ends_connection run_id c0) eqn:E; [|congruence]. by unfold ends_connection in He; rewrite andb_false_r in He.
Qed.

(** What the end of a run did: nothing, or the run and its connections. *)
Definition run_ended (e : RuntimeEventIngest) (run_id : string) (now : Z) (st st' : runtime_store) : Prop :=
  ∃ run ended_at exit_status,
    cs_runs (rs_console st) !! run_id = Some run ∧ run_owned st (re_session_id e) run = true ∧
    ended_at = default now (rn_ended_at run) ∧
    (rn_ended_at run = None → exit_status_for_terminal (named_terminal_state (re_payload e)) (re_payload e) = Ok exit_status) ∧
    st' = set_connections (release_connections run_id ended_at)
            (match rn_ended_at run with
             | Some _ => st
             | None => set_console (set_runs (<[run_id := ended_run exit_status now run]>)) st
             end).

Lemma run_terminal_cases st e current now changed st' :
  apply_run_terminal_event st e current now = Ok (changed, st') →
  (changed = false ∧ st' = st) ∨ ∃ run_id, given (re_run_id e) current = Some run_id ∧ run_ended e run_id now st st'.
Proof.
  unfold apply_run_terminal_event. intros H.
  destruct (given (re_run_id e) current) as [run_id|]; [|inv_ok; by left].
  destruct (cs_runs (rs_console st) !! run_id) as [run|] eqn:Er; [|inv_ok; by left].
  destruct (run_owned st (re_session_id e) run) eqn:Eo; cbn [negb] in H; [|inv_ok; by left].
  right. exists run_id. split; [done|]. destruct (rn_ended_at run) as [ended_at|] eqn:Ee.
  - inv_ok. exists run, ended_at, ""%string. rewrite Ee. by split_and!.
  - inv_ok. exists run, now. eexists. rewrite Ee. by split_and!.
Qed.

(** The parts of a store that no event of a run touches. *)
Definition same_rows (st st' : runtime_store) : Prop :=
  rs_rows st' = rs_rows st ∧ rs_interactions st' = rs_interactions st ∧ rs_previews st' = rs_previews st ∧
  rs_live st' = rs_live st ∧ cs_threads (rs_console st') = cs_threads (rs_console st).

#[export] Instance same_rows_preorder : PreOrder same_rows.
Proof.
  split; [by repeat split|]. intros x y z (?&?&?&?&?) (?&?&?&?&?). repeat split; congruence.
Qed.

Lemma run_terminal_same st e current now changed st' :
  apply_run_terminal_event st e current now = Ok (changed, st') → same_rows st st'.
Proof.
  intros [[_ ->]|(run_id & _ & run & at_ & status & _ & _ & _ & _ & ->)]%run_terminal_cases; [done|].
  by destruct (rn_ended_at run).
Qed.

Lemma close_session_same s reason now st : same_rows st (close_session s reason now st).
Proof. by destruct s. Qed.

(** Ending a run a second time changes nothing. *)
Lemma run_terminal_again st e current now changed st' :
  apply_run_terminal_event st e current now = Ok (changed, st') →
  apply_run_terminal_event st' e current now = Ok (false, st').
Proof.
  intros H. pose proof H as H0. apply run_terminal_cases in H as [[-> ->]|(run_id & Eg & run & at_ & status & Er & Eo & -> & _ & ->)].
  - unfold apply_run_terminal_event in *. destruct (given _ _) as [run_id|]; [|done].
    destruct (_ !! run_id) as [run|]; [|done]. destruct (negb _); [done|]. destruct (rn_ended_at run); [done|]. by inv_ok.
  - unfold apply_run_terminal_event. rewrite Eg.
    set (st1 := match rn_ended_at run with Some _ => st | None => _ end).
    assert (∃ run', cs_runs (rs_console (set_connections (release_connections run_id (default now (rn_ended_at run))) st1)) !! run_id
                    = Some run' ∧ rn_thread_id run' = rn_thread_id run ∧ is_Some (rn_ended_at run')) as (run' & -> & Et & [at2 Ea]).
    { unfold st1. destruct (rn_ended_at run) eqn:Ee; [exists run; by rewrite Ee|].
      eexists. split; [apply lookup_insert_eq|]. split; [done|]. by eexists. }
    assert (run_owned (set_connections (release_connections run_id (default now (rn_ended_at run))) st1) (re_session_id e) run' = true)
      as ->. { unfold run_owned in *. rewrite Et. unfold st1. by destruct (rn_ended_at run). }
    cbn [negb]. rewrite Ea. simpl. rewrite none_open_released. unfold set_connections. simpl. by rewrite release_again.
Qed.

(** ** The invariant of the rows *)

(** A terminal time is never ahead of the last signal. *)
Definition row_ok (row : LiveRuntimeState) : Prop :=
  match rt_terminal_at (lr_terminal row) with
  | Some t => ∃ s, rc_last_runtime_signal_at (lr_clock row) = Some s ∧ t <= s
  | None => True
  end.

Definition rows_ok (st : runtime_store) : Prop := map_Forall (λ _ row, row_ok row) (rs_rows st).

Lemma clock_without_terminal row row' :
  row_ok row → rc_last_runtime_signal_at (lr_clock row') = rc_last_runtime_signal_at (lr_clock row) →
  rc_last_progress_at (lr_clock row') = rc_last_progress_at (lr_clock row) → lr_terminal row' = no_terminal →
  signal_clock row' = signal_clock row.
Proof.
  unfold row_ok, signal_clock. intros Hok -> -> ->. unfold latest. simpl. destruct (rt_terminal_at (lr_terminal row)) as [at_|]; [|done].
  destruct Hok as (s & -> & Hs). simpl. destruct (rc_last_progress_at (lr_clock row)); simpl; f_equal; lia.
Qed.

(** ** The kinds of events, a second time *)

Section Again.
Context (other_form : string → option datetime).

Lemma refresh_shape e now row row' :
  refresh_step other_form e now row = Ok (Some row') →
  ∃ refresh_at expires_at,
    String.eqb (phase_named e row) (strip_or (Some (rp_phase (lr_phase row))) "idle") = true ∧
    managed_lease_refresh_at other_form e now = Ok refresh_at ∧
    freshness_end e (phase_named e row) refresh_at = Ok expires_at ∧
    row' = with_snapshot (lr_binding row)
      (Phase (rp_phase (lr_phase row))
         (if str_in (strip (re_source e)) MANAGED_CODEX_RUNTIME_SOURCES then strip (re_source e) else rp_phase_source (lr_phase row))
         (rp_active_tool (lr_phase row)) (rp_phase_started_at (lr_phase row)) (rp_execution_started_at (lr_phase row)))
      (Clock (rc_last_runtime_signal_at (lr_clock row)) (rc_last_progress_at (lr_clock row))
         (latest [rc_last_live_at (lr_clock row); Some refresh_at]) (rc_timeline_anchor_at (lr_clock row)) expires_at)
      no_terminal row.
Proof.
  unfold refresh_step. intros H. destruct (String.eqb _ _) eqn:Ep; cbn [negb] in H; [|done].
  destruct (bool_decide _); cbn [negb] in H; [|done]. inv_ok. eauto 10.
Qed.

Lemma refresh_again e now row row' :
  refresh_step other_form e now row = Ok (Some row') → refresh_step other_form e now (bumped row') = Ok (Some (bumped row')).
Proof.
  intros H. pose proof H as Hs. apply refresh_shape in Hs as (refresh_at & expires_at & Ep & Er & Ee & ->).
  unfold refresh_step in *. rewrite Ep in H. cbn [negb] in H.
  assert (∀ p1 p2 s st1 st2 b c t v, phase_named e (RuntimeRow b (Phase p1 s p2 st1 st2) c t (lr_interaction row) v)
            = strip_or (opt_or (re_phase e) (Some p1)) "idle") as Hp by done.
  unfold phase_named, tool_of_phase in *. simpl in *. rewrite Ep. cbn [negb].
  destruct (negb (bool_decide _)); [done|]. rewrite Er. simpl in *. rewrite Ee. simpl.
  unfold with_snapshot, bumped; simpl. do 2 f_equal. rewrite latest_again. by destruct (str_in _ _).
Qed.

Lemma execution_again previous next now started :
  execution_start next next now (execution_start previous next now started) = execution_start previous next now started.
Proof.
  unfold execution_start. destruct (str_in next LIVE_EXECUTION_PHASES) eqn:El; simpl.
  - destruct (negb _ || bool_decide (started = None)) eqn:E; [done|]. by apply orb_false_iff in E as [_ ->].
  - by destruct (str_in next ["idle"; "needs_user"]%string) eqn:E; rewrite ?E.
Qed.

Lemma opt_or_again t a : opt_or t (opt_or t a) = opt_or t a.
Proof. unfold opt_or. by destruct (opt_truthy t). Qed.

Lemma tool_again e phase row row' :
  rp_active_tool (lr_phase row') = tool_of_phase e phase row → tool_of_phase e phase row' = tool_of_phase e phase row.
Proof.
  unfold tool_of_phase. intros ->. destruct (str_in phase TOOL_PHASES); [|done].
  destruct (String.eqb phase "blocked"); [apply opt_or_again|done].
Qed.

Lemma phase_named_again e row row' :
  rp_phase (lr_phase row') = phase_named e row → phase_named e row' = phase_named e row.
Proof.
  unfold phase_named. intros ->. unfold opt_or at 1. destruct (opt_truthy (re_phase e)) eqn:E.
  - unfold opt_or. by rewrite E.
  - by apply strip_or_again.
Qed.

(** The times of a lease that an outdated signal reads can be read. *)
Definition readable_lease (e : RuntimeEventIngest) : Prop :=
  is_ok (either_timestamp other_form (re_payload e) "lease_observed_at" "observed_at") = true.

Lemma stale_lease_readable e latest_at : readable_lease e → ∃ stale, stale_managed_lease_observed_at other_form e latest_at = Ok stale.
Proof.
  unfold readable_lease, stale_managed_lease_observed_at. intros H. destruct latest_at; [|eauto]. destruct (negb _); [eauto|].
  destruct (either_timestamp _ _ _ _); [|done]. simpl. eauto.
Qed.

Lemma clock_of_signal now row c : rc_last_progress_at c = rc_last_progress_at (lr_clock row) →
  rc_last_runtime_signal_at c = Some now → outdated now (signal_clock row) = false →
  ∀ b p i v, outdated now (signal_clock (RuntimeRow b p c no_terminal i v)) = false.
Proof.
  intros Ep Es H b p i v. rewrite outdated_clock in *. simpl. rewrite Ep, Es, outdated_refl.
  apply orb_false_iff in H as [H _]. apply orb_false_iff in H as [_ ->]. done.
Qed.

Lemma phase_again e now row row' :
  row_ok row → readable_lease e → phase_step other_form e now row = Ok (Some row') →
  phase_step other_form e now (bumped row') = Ok (Some (bumped row')).
Proof.
  intros Hok Hlease H. unfold phase_step in H. apply bind_ok in H as (stale & Es & H).
  destruct (outdated now (signal_clock row)) eqn:Eo.
  - destruct stale as [s|]; [|done]. pose proof (refresh_again _ _ _ _ H) as Hr.
    apply refresh_shape in H as (refresh_at & expires_at & _ & _ & _ & ->).
    unfold phase_step. set (row2 := bumped _) in *.
    assert (signal_clock row2 = signal_clock row) as -> by by apply clock_without_terminal.
    rewrite Es. simpl. by rewrite Eo.
  - apply bind_ok in H as (base & Eb & H). apply bind_ok in H as (expires_at & Ee & H). injection H as <-.
    set (phase := phase_named e row) in *. set (tool := tool_of_phase e phase row) in *.
    assert ((if str_in phase TOOL_PHASES then tool else None) = tool) as -> by (unfold tool, tool_of_phase; by destruct (str_in phase _)).
    unfold bumped, with_snapshot. cbn [lr_binding lr_phase lr_clock lr_terminal lr_interaction lr_runtime_version].
    set (c := Clock _ _ _ _ _). set (p := Phase _ _ _ _ _). unfold phase_step.
    destruct (stale_lease_readable e (signal_clock (RuntimeRow (lr_binding row) p c no_terminal (lr_interaction row) (lr_runtime_version row + 1))) Hlease)
      as [stale' ->]. cbn [mbind res_bind]. rewrite (clock_of_signal now row c) by done.
    rewrite (phase_named_again e row) by done. fold phase. rewrite (tool_again e phase row) by done. fold tool. unfold p.
    assert ((if str_in phase TOOL_PHASES then tool else None) = tool) as -> by (unfold tool, tool_of_phase; by destruct (str_in phase _)).
    rewrite Eb. cbn [mbind res_bind]. rewrite Ee. cbn [mbind res_bind lr_phase lr_clock rp_phase rp_active_tool rp_phase_started_at rp_execution_started_at].
    rewrite String.eqb_refl, (bool_decide_true (named tool = named tool)) by done. cbn [negb andb orb]. rewrite andb_false_r.
    assert (strip_or (Some phase) "idle" = phase) as -> by by apply strip_or_again.
    rewrite execution_again. unfold with_snapshot, c. simpl. done.
Qed.
Lemma progress_again e now row row' :
  progress_step e now row = Some row' → progress_step e now (bumped row') = Some (bumped row').
Proof.
  unfold progress_step. destruct (outdated now (signal_clock row)) eqn:Eo; [done|].
  assert (outdated now (rt_terminal_at (lr_terminal row)) = false ∧ outdated now (rc_last_runtime_signal_at (lr_clock row)) = false)
    as [Et Es]. { rewrite outdated_clock in Eo. by apply orb_false_iff in Eo as [[? ?]%orb_false_iff ?]. }
  rewrite Et. cbn [negb]. rewrite andb_true_r. intros [= <-].
  set (unblocks := bool_decide (rt_terminal_state _ = None) && _ && _).
  set (reopens := bool_decide (is_Some _)).
  set (t := if reopens then no_terminal else lr_terminal row).
  assert (outdated now (rt_terminal_at t) = false) as Et' by (unfold t; by destruct reopens).
  assert (bool_decide (is_Some (rt_terminal_state t)) = false) as Er.
  { unfold t, reopens. destruct (rt_terminal_state (lr_terminal row)) eqn:E; [reflexivity|]. simpl. by rewrite E. }
  rewrite outdated_clock. cbn [bumped with_snapshot lr_clock lr_terminal lr_phase lr_binding rc_last_runtime_signal_at rc_last_progress_at].
  rewrite Es, outdated_refl, Et'. cbn [orb]. rewrite Er, andb_false_l, orb_false_r.
  destruct (unblocks || reopens) eqn:Ei.
  - replace (str_in (rp_phase (Phase "idle" "progress" None (Some now) None)) ATTENTION_PHASES) with false by done.
    rewrite andb_false_r. cbn [andb]. done.
  - apply orb_false_iff in Ei as [Eu Ere]. unfold t in *. rewrite Ere in *. cbn [rp_phase rp_phase_source rp_active_tool rp_phase_started_at rp_execution_started_at].
    fold unblocks. rewrite Eu. unfold bumped, with_snapshot. simpl.
    do 3 f_equal. destruct (str_in (rp_phase_source (lr_phase row)) _) eqn:E; [done|by rewrite E].
Qed.

(** ** Terminal events *)

(** Whatever the terminal event does to the rest of the store, it reads only
    its row, and writes only its session and its run. *)
Definition terminal_row (e : RuntimeEventIngest) (now anchor : Z) (row : LiveRuntimeState) : LiveRuntimeState :=
  with_snapshot (lr_binding row)
    (Phase "finished" "semantic" None
       (if match rp_phase_started_at (lr_phase row) with Some at_ => at_ <? now | None => true end
        then Some now else rp_phase_started_at (lr_phase row)) None)
    (Clock (Some now) (rc_last_progress_at (lr_clock row)) (Some now) anchor (Some now)) (terminal_columns e now) row.

Definition ends_run (e : RuntimeEventIngest) : bool :=
  str_in (named_terminal_state (re_payload e)) (RUN_END_TERMINAL_STATES ++ RUN_TERMINAL_STATES).

Lemma terminal_shape st e now row row' st' :
  terminal_step other_form st e now row = Ok (Some row', st') →
  ∃ anchor, payload_timestamp other_form (re_payload e) "timeline_anchor_at" = Ok anchor ∧
    row' = terminal_row e now (default now anchor) row ∧
    (outdated now (signal_clock row) = false ∨ named_terminal_state (re_payload e) = "session_ended"%string) ∧
    (let st1 := if str_in (named_terminal_state (re_payload e)) EXPLICIT_CLOSED_TERMINAL_STATES
                then close_session (re_session_id e) (named_terminal_state (re_payload e)) now st else st in
     if ends_run e then ∃ changed, apply_run_terminal_event st1 e (rb_run_id (lr_binding row)) now = Ok (changed, st')
     else st' = st1).
Proof.
  unfold terminal_step. destruct (_ && _ && _ && _); [done|].
  destruct (outdated now (signal_clock row) && negb (String.eqb _ "session_ended")) eqn:Eo; [done|].
  intros H. apply bind_ok in H as (anchor & Ea & H). exists anchor. split; [done|].
  assert (outdated now (signal_clock row) = false ∨ named_terminal_state (re_payload e) = "session_ended"%string) as Ho.
  { apply andb_false_iff in Eo as [?|E]; [by left|right]. by apply negb_false_iff, String.eqb_eq in E. }
  fold (ends_run e) in H. destruct (ends_run e).
  - apply bind_ok in H as ([changed st1] & Er & H). injection H as <- <-. split_and!; eauto.
  - injection H as <- <-. split_and!; done.
Qed.

Lemma terminal_same st e now row row' st' : terminal_step other_form st e now row = Ok (row', st') → same_rows st st'.
Proof.
  destruct row' as [row'|].
  - intros (anchor & _ & _ & _ & H)%terminal_shape. cbn zeta in H.
    assert (same_rows st (if str_in (named_terminal_state (re_payload e)) EXPLICIT_CLOSED_TERMINAL_STATES
                then close_session (re_session_id e) (named_terminal_state (re_payload e)) now st else st)) as Hs.
    { destruct (str_in _ EXPLICIT_CLOSED_TERMINAL_STATES); [apply close_session_same|done]. }
    destruct (ends_run e); [|by subst]. destruct H as [changed H%run_terminal_same]. by etrans.
  - unfold terminal_step. destruct (_ && _ && _ && _); [by intros [= <-]|]. destruct (_ && _); [by intros [= <-]|].
    intros H. apply bind_ok in H as (anchor & _ & H). destruct (str_in _ (_ ++ _)); [|done].
    by apply bind_ok in H as ([? ?] & _ & H).
Qed.

Lemma kind_step_same st e now row row' st' : kind_step other_form st e now row = Ok (row', st') → same_rows st st'.
Proof.
  unfold kind_step. destruct (re_kind e); intros H; try by injection H as _ <-.
  - by apply bind_ok in H as (? & _ & [= _ <-]).
  - by eapply terminal_same.
Qed.
End Again.
