(* ===== verification/RuntimeProps.v ===== *)
(** * Properties of the runtime reducer

    What an event delivered twice does, what a terminal row protects, what the
    end of a run releases, and the two ways in which an ignored event still
    matters. *)

From S2P Require Import Prelude PyStr PyTime PyValue MachineEvidence PyText FactStore FactReducer ProviderContracts.
From S2P Require Import RuntimeView RuntimeEvents.
From S2P Require Import PauseRequests LivePreviews Interactions InputQueue InputStore ConsoleTurns LiveRuntime.
From S2P Require Import RuntimeLaws.

Open Scope list_scope.
Open Scope Z_scope.

(** ** Rows of a store *)

Lemma put_row_twice key row1 row2 st : put_row key row2 (put_row key row1 st) = put_row key row2 st.
Proof. unfold put_row. simpl. by rewrite insert_insert_eq. Qed.

Lemma put_row_same key row st : rs_rows st !! key = Some row → put_row key row st = st.
Proof. intros H. destruct st. unfold put_row. simpl in *. by rewrite insert_id. Qed.

Lemma lookup_put_row key row st : rs_rows (put_row key row st) !! key = Some row.
Proof. apply lookup_insert_eq. Qed.

Lemma ensure_known st e now row : rs_rows st !! re_runtime_key e = Some row → ensure_state st e now = row.
Proof. unfold ensure_state. by intros ->. Qed.

Lemma row_eta row row' :
  state_snapshot row' = state_snapshot row → lr_interaction row' = lr_interaction row →
  lr_runtime_version row' = lr_runtime_version row → row' = row.
Proof. destruct row, row'. unfold state_snapshot. simpl. intros [= -> -> -> ->] -> ->. done. Qed.

(** Ending a run does not read the rows. *)
Lemma run_terminal_put_row key row st e current now :
  apply_run_terminal_event (put_row key row st) e current now =
  (λ p, (p.1, put_row key row p.2)) <$> apply_run_terminal_event st e current now.
Proof.
  unfold apply_run_terminal_event. destruct (given _ _) as [run_id|]; [|done].
  change (cs_runs (rs_console (put_row key row st))) with (cs_runs (rs_console st)).
  destruct (_ !! run_id) as [run|]; [|done].
  change (run_owned (put_row key row st) (re_session_id e) run) with (run_owned st (re_session_id e) run).
  destruct (negb _); [done|]. destruct (rn_ended_at run); [done|].
  destruct (exit_status_for_terminal _ _); done.
Qed.

(** ** Events *)

Lemma named_of_incoming payload states :
  str_in (payload_text payload "terminal_state") states = true → str_in "" states = false →
  named_terminal_state payload = payload_text payload "terminal_state".
Proof.
  unfold payload_text, named_terminal_state. destruct (text (assoc "terminal_state" payload)); simpl; [done|]. congruence.
Qed.

Lemma named_terminal_stripped payload : strip (named_terminal_state payload) = named_terminal_state payload.
Proof.
  unfold named_terminal_state, text. destruct (clean (str_or _)) as [s|] eqn:E; [|done].
  by apply clean_Some in E as [_ ?].
Qed.

Lemma refusal_not_applied e row outcome : protects e row = refuses outcome → outcome ≠ applied.
Proof.
  unfold protects. destruct (str_in _ EXPLICIT_CLOSED_TERMINAL_STATES); [by intros [= <-]|].
  destruct (_ && _); [|done]. destruct (_ && _); [done|]. destruct (_ && _); [done|]. by intros [= <-].
Qed.

Lemma repeats_terminal e row :
  protects e row = repeats_run_end →
  re_kind e = terminal_signal ∧ str_in (payload_text (re_payload e) "terminal_state") RUN_TERMINAL_STATES = true.
Proof.
  unfold protects. destruct (str_in _ EXPLICIT_CLOSED_TERMINAL_STATES); [done|].
  destruct (str_in _ (_ ++ _) && _); [|done]. destruct (bool_decide (re_kind e = terminal_signal)) eqn:Ek; [|done].
  apply bool_decide_eq_true in Ek. destruct (str_in (payload_text _ _) RUN_TERMINAL_STATES) eqn:E; [done|].
  simpl. by destruct (str_in _ EXPLICIT_CLOSED_TERMINAL_STATES).
Qed.

(** The state that ended the row, if any. *)
Definition terminal_name (row : LiveRuntimeState) : string := strip (or_empty (rt_terminal_state (lr_terminal row))).

Definition of_its_run (e : RuntimeEventIngest) (row : LiveRuntimeState) : Prop :=
  re_run_id e = None ∨ re_run_id e = rb_run_id (lr_binding row).

Definition names_end (e : RuntimeEventIngest) (states : list string) : bool :=
  bool_decide (re_kind e = terminal_signal) && str_in (payload_text (re_payload e) "terminal_state") states.

Lemma protects_closed e row :
  terminal_name row ∈ EXPLICIT_CLOSED_TERMINAL_STATES → protects e row = refuses protected_session_ended.
Proof. intros H%str_in_spec. unfold protects. fold (terminal_name row). by rewrite H. Qed.

Lemma protects_ended e row :
  terminal_name row ∉ EXPLICIT_CLOSED_TERMINAL_STATES → terminal_name row ∈ RUN_END_TERMINAL_STATES ++ RUN_TERMINAL_STATES →
  of_its_run e row →
  protects e row = if names_end e RUN_TERMINAL_STATES then repeats_run_end
                   else if names_end e EXPLICIT_CLOSED_TERMINAL_STATES then lets_through else refuses protected_terminal.
Proof.
  intros Hc Hr%str_in_spec Hrun. unfold protects. fold (terminal_name row). fold (names_end e RUN_TERMINAL_STATES).
  fold (names_end e EXPLICIT_CLOSED_TERMINAL_STATES).
  assert (str_in (terminal_name row) EXPLICIT_CLOSED_TERMINAL_STATES = false) as ->.
  { apply not_true_iff_false. by rewrite str_in_spec. }
  rewrite Hr. assert (bool_decide (is_Some (re_run_id e)) && negb (bool_decide (re_run_id e = rb_run_id (lr_binding row))) = false) as ->.
  { destruct Hrun as [->| ->]; [done|]. by rewrite (bool_decide_true (rb_run_id _ = rb_run_id _)), andb_false_r by done. }
  done.
Qed.

Section Reducer.
Context (other_form : string → option datetime).

Abbreviation apply := (apply_runtime_event other_form).

(** What a branch keeps of the row it starts from. *)
Lemma kind_step_keeps st e now row row' st' :
  kind_step other_form st e now row = Ok (Some row', st') →
  lr_binding row' = lr_binding row ∧ lr_interaction row' = lr_interaction row ∧ lr_runtime_version row' = lr_runtime_version row.
Proof.
  unfold kind_step. destruct (re_kind e); intros H.
  - apply bind_ok in H as (r & E & [= -> <-]). unfold phase_step in E. apply bind_ok in E as (stale & _ & E).
    destruct (outdated _ _).
    + destruct stale; [|done]. by apply refresh_shape in E as (? & ? & _ & _ & _ & ->).
    + apply bind_ok in E as (? & _ & E). apply bind_ok in E as (? & _ & E). by injection E as <-.
  - injection H as H <-. unfold progress_step in H. destruct (outdated _ _); [done|]. by injection H as <-.
  - by apply terminal_shape in H as (anchor & _ & -> & _).
  - by injection H as <- <-.
  - by injection H as <- <-.
  - by injection H as <- <-.
Qed.

(** Only a terminal event touches more than its row. *)
Lemma kind_step_store st e now row row' st' :
  re_kind e ≠ terminal_signal → kind_step other_form st e now row = Ok (row', st') → st' = st.
Proof.
  unfold kind_step. destruct (re_kind e); intros Hk H; try done; try by injection H.
  by apply bind_ok in H as (? & _ & [= _ <-]).
Qed.

Lemma kind_step_other st st2 e now row row' :
  re_kind e ≠ terminal_signal → kind_step other_form st e now row = Ok (row', st) →
  kind_step other_form st2 e now row = Ok (row', st2).
Proof.
  unfold kind_step. destruct (re_kind e); intros Hk H; try done; try by injection H as <-.
  by apply bind_ok in H as (? & -> & [= <-]).
Qed.

(** The branch of an event that is not terminal, on the row it left. *)
Lemma kind_step_again st st2 e now row row' :
  row_ok row → readable_lease other_form e → re_kind e ≠ terminal_signal →
  kind_step other_form st e now row = Ok (Some row', st) →
  kind_step other_form st2 e now (bumped row') = Ok (Some (bumped row'), st2).
Proof.
  unfold kind_step. intros Hok Hl Hk H. destruct (re_kind e); try done.
  - apply bind_ok in H as (r & E & [= ->]). by rewrite (phase_again _ _ _ _ _ Hok Hl E).
  - injection H as H. by rewrite (progress_again _ _ _ _ H).
Qed.

Lemma terminal_row_again e now anchor row :
  terminal_row e now anchor (bumped (terminal_row e now anchor row)) = bumped (terminal_row e now anchor row).
Proof.
  unfold terminal_row, bumped, with_snapshot. simpl. f_equal. f_equal.
  destruct (rp_phase_started_at (lr_phase row)) as [at_|]; [|by rewrite Z.ltb_irrefl].
  destruct (at_ <? now) eqn:E; [by rewrite Z.ltb_irrefl|by rewrite E].
Qed.

(** A terminal event that ends no run and closes no session, on the row it
    left. *)
Lemma terminal_again st st' st2 e now row row' :
  re_kind e = terminal_signal → ends_run e = false →
  str_in (named_terminal_state (re_payload e)) EXPLICIT_CLOSED_TERMINAL_STATES = false →
  kind_step other_form st e now row = Ok (Some row', st') →
  kind_step other_form st2 e now (bumped row') = Ok (Some (bumped row'), st2).
Proof.
  unfold kind_step. intros -> Hends Hclosed (anchor & Ea & -> & Ho & _)%terminal_shape. unfold terminal_step.
  unfold ends_run in Hends. rewrite Hends, Hclosed.
  assert (str_in (named_terminal_state (re_payload e)) RUN_TERMINAL_STATES = false) as ->.
  { apply not_true_iff_false. rewrite str_in_spec. intros Hin. apply not_true_iff_false in Hends. apply Hends, str_in_spec.
    apply elem_of_app. by right. }
  cbn [andb]. destruct Ho as [Ho|Ho]; [|by rewrite Ho in Hends].
  assert (outdated now (signal_clock (bumped (terminal_row e now (default now anchor) row))) = false) as ->.
  { rewrite outdated_clock in *. simpl. rewrite !Z.ltb_irrefl.
    apply orb_false_iff in Ho as [Ho _]. apply orb_false_iff in Ho as [_ ->]. done. }
  cbn [andb]. rewrite Ea. cbn [mbind res_bind]. do 2 f_equal. exact (f_equal Some (terminal_row_again e now (default now anchor) row)).
Qed.

(** ** Delivering an event again *)

(** An event on a store that already has its row. *)
Lemma apply_known st e now row :
  utc_wall (re_occurred_at e) = Ok now → rs_rows st !! re_runtime_key e = Some row → is_pause (re_kind e) = false →
  apply st e =
  match protects e row with
  | refuses outcome => Ok (outcome, st)
  | repeats_run_end =>
      let! '(changed, st) := apply_run_terminal_event st e (rb_run_id (lr_binding row)) now in
      Ok (if changed : bool then applied else protected_terminal, st)
  | lets_through =>
      let! '(stepped, st) := kind_step other_form st e now (rebind e row) in
      Ok (match stepped with
          | None => (ignored, put_row (re_runtime_key e) (rebind e row) st)
          | Some row' => settle_row (re_runtime_key e) row row' st
          end)
  end.
Proof.
  intros Hnow Hrow Hpause. unfold apply_runtime_event. rewrite Hnow. cbn [mbind res_bind].
  by rewrite (ensure_known st e now row), put_row_same, Hpause by done.
Qed.

Lemma apply_pause_known st e now row :
  utc_wall (re_occurred_at e) = Ok now → rs_rows st !! re_runtime_key e = Some row → is_pause (re_kind e) = true →
  apply st e =
  let! paused := pause_step other_form e now row in
  Ok (match paused with Some row' => (applied, put_row (re_runtime_key e) (bumped row') st) | None => (ignored, st) end).
Proof.
  intros Hnow Hrow Hpause. unfold apply_runtime_event. rewrite Hnow. cbn [mbind res_bind].
  by rewrite (ensure_known st e now row), put_row_same, Hpause by done.
Qed.

(** The first delivery may find no row; it then writes one. *)
Lemma apply_ensured st e now :
  utc_wall (re_occurred_at e) = Ok now →
  apply st e = apply (put_row (re_runtime_key e) (ensure_state st e now) st) e.
Proof.
  intros Hnow. unfold apply_runtime_event. rewrite Hnow. cbn [mbind res_bind].
  rewrite (ensure_known (put_row _ _ _) e now (ensure_state st e now)) by apply lookup_put_row. by rewrite put_row_twice.
Qed.

Lemma settle_again key row st : rs_rows st !! key = Some row → settle_row key row row st = (ignored, st).
Proof. intros H. unfold settle_row. by rewrite bool_decide_true, put_row_same by done. Qed.

Lemma rebind_bumped e row b : lr_binding row = rebound e b → rebind e (bumped row) = bumped row.
Proof. intros H. destruct row. unfold rebind, bumped, with_snapshot. simpl in *. by rewrite H, rebound_again. Qed.

(** A request that is as old as the pending one is dropped. *)
Lemma request_again e now row row' :
  re_kind e = pause_request → pause_step other_form e now row = Ok (Some row') → pause_step other_form e now (bumped row') = Ok None.
Proof.
  intros Hk H. unfold pause_step in *. rewrite Hk in *. destruct (pause_outdated _ _ _); [done|].
  apply bind_ok in H as (projection & _ & [= <-]). unfold pause_outdated. simpl. by rewrite Z.eqb_refl, orb_true_r.
Qed.

(** What is left after the end of a run or session, seen again. *)
Lemma ended_again st st' e now row row' :
  re_kind e = terminal_signal →
  rs_rows st !! re_runtime_key e = Some row →
  kind_step other_form st e now (rebind e row) = Ok (Some row', st') →
  utc_wall (re_occurred_at e) = Ok now →
  let st1 := put_row (re_runtime_key e) (bumped row') st' in
  ∃ o, apply st1 e = Ok (o, st1) ∧ o ≠ applied.
Proof.
  intros Hk Hrow H Hnow st1. assert (rs_rows st1 !! re_runtime_key e = Some (bumped row')) as Hrow1 by apply lookup_put_row.
  rewrite (apply_known st1 e now (bumped row')) by (done || by rewrite Hk).
  pose proof (kind_step_keeps _ _ _ _ _ _ H) as [Hb _].
  destruct (protects e (bumped row')) as [|outcome|] eqn:Ep.
  - assert (ends_run e = false ∧ str_in (named_terminal_state (re_payload e)) EXPLICIT_CLOSED_TERMINAL_STATES = false) as [Hr Hc].
    { unfold kind_step in H. rewrite Hk in H. apply terminal_shape in H as (anchor & _ & -> & _).
      set (row1 := bumped _) in *. assert (terminal_name row1 = named_terminal_state (re_payload e)) as En by apply named_terminal_stripped.
      destruct (str_in (named_terminal_state _) EXPLICIT_CLOSED_TERMINAL_STATES) eqn:Ec.
      { apply str_in_spec in Ec. by rewrite protects_closed in Ep by (by rewrite En). }
      split; [|done]. unfold ends_run. destruct (str_in (named_terminal_state _) (_ ++ _)) eqn:Er; [|done]. exfalso.
      assert (of_its_run e row1) as Hrun.
      { unfold of_its_run, row1. simpl. destruct (re_run_id e); [by right|by left]. }
      rewrite protects_ended in Ep; [|rewrite En, <- str_in_spec; by rewrite Ec|by rewrite En, <- str_in_spec|done].
      destruct (names_end e RUN_TERMINAL_STATES); [done|].
      destruct (names_end e EXPLICIT_CLOSED_TERMINAL_STATES) eqn:Ei; [|done]. apply andb_true_iff in Ei as [_ Ei].
      by rewrite (named_of_incoming _ _ Ei), Ei in Ec by done. }
    rewrite (rebind_bumped e row' (lr_binding row)) by done.
    rewrite (terminal_again st st' st1 e now (rebind e row) row') by done. cbn [mbind res_bind].
    rewrite settle_again by done. eauto.
  - exists outcome. split; [done|]. by eapply refusal_not_applied.
  - apply repeats_terminal in Ep as [_ Ei]. unfold kind_step in H. rewrite Hk in H.
    apply terminal_shape in H as (anchor & _ & -> & _ & H). cbn zeta in H.
    assert (ends_run e = true) as Hr.
    { unfold ends_run. rewrite (named_of_incoming _ _ Ei) by done. apply str_in_spec, elem_of_app. right. by apply str_in_spec. }
    rewrite Hr in H. destruct H as [changed H]. apply run_terminal_again in H.
    unfold st1. rewrite run_terminal_put_row. change (rb_run_id (lr_binding (bumped _))) with (rb_run_id (lr_binding (rebind e row))).
    rewrite H. simpl. eauto.
Qed.


(** ** Frames of one event *)

Lemma apply_frame st e o st' :
  apply st e = Ok (o, st') →
  rs_interactions st' = rs_interactions st ∧ rs_previews st' = rs_previews st ∧ rs_live st' = rs_live st ∧
  cs_threads (rs_console st') = cs_threads (rs_console st) ∧
  (∀ key, key ≠ re_runtime_key e → rs_rows st' !! key = rs_rows st !! key).
Proof.
  unfold apply_runtime_event. intros H. apply bind_ok in H as (now & _ & H).
  set (row := ensure_state st e now) in *. set (st0 := put_row _ row st) in *.
  assert (∀ st1 st2 row', same_rows st0 st1 → st2 = put_row (re_runtime_key e) row' st1 ∨ st2 = st1 →
    rs_interactions st2 = rs_interactions st ∧ rs_previews st2 = rs_previews st ∧ rs_live st2 = rs_live st ∧
    cs_threads (rs_console st2) = cs_threads (rs_console st) ∧
    (∀ key, key ≠ re_runtime_key e → rs_rows st2 !! key = rs_rows st !! key)) as Hframe.
  { intros st1 st2 row' (Hr & Hi & Hp & Hl & Ht) [->| ->]; unfold st0 in *; simpl in *; split_and!; try done;
      intros key Hkey; by rewrite ?Hr, !lookup_insert_ne by done. }
  destruct (is_pause (re_kind e)).
  - apply bind_ok in H as (paused & _ & H). destruct paused as [row'|]; injection H as _ <-.
    + eapply (Hframe st0); [done|by left].
    + eapply (Hframe st0 _ row); [done|by right].
  - destruct (protects e row) as [|outcome|].
    + apply bind_ok in H as ([stepped st1] & E & H). apply kind_step_same in E. destruct stepped as [row'|].
      * unfold settle_row in H. destruct (bool_decide _); injection H as _ <-; (eapply (Hframe st1); [done|by left]).
      * injection H as _ <-. eapply (Hframe st1); [done|by left].
    + injection H as _ <-. eapply (Hframe st0 _ row); [done|by right].
    + apply bind_ok in H as ([changed st1] & E & H). injection H as _ <-. apply run_terminal_same in E.
      eapply (Hframe st1 _ row); [done|by right].
Qed.

(** What one iteration of a batch does, apart from the preview. *)
Lemma ingest_one_apply acc e acc' :
  ingest_one other_form acc e = Ok acc' →
  ∃ previews o, apply (set_previews previews acc.2) e = Ok (o, acc'.2) ∧
    acc'.1 = if bool_decide (o = applied) && negb (str_in (re_runtime_key e) acc.1) then acc.1 ++ [re_runtime_key e] else acc.1.
Proof.
  destruct acc as [keys st], acc' as [keys' st']. unfold ingest_one. intros H. apply bind_ok in H as (preview & _ & H).
  apply bind_ok in H as (st1 & Ep & H). apply bind_ok in H as ([o st2] & E & H). injection H as <- <-.
  destruct preview as [c|].
  - apply bind_ok in Ep as (previews & _ & [= <-]). eauto.
  - injection Ep as <-. exists (rs_previews st), o. split; [|done]. by destruct st.
Qed.

Lemma ingest_fold st events result st' :
  ingest_live_runtime_events other_form st events = Ok (result, st') →
  ∃ keys st1 live, fold_res (ingest_one other_form) ([], st) events = Ok (keys, st1) ∧ st' = set_live live st1 ∧
    result = BatchResult (length events) 0 keys.
Proof.
  unfold ingest_live_runtime_events. intros H. apply bind_ok in H as ([keys st1] & E & H). apply bind_ok in H as (live & _ & H).
  injection H as <- <-. eauto 10.
Qed.

(** ** The invariant of the rows *)

Lemma kind_step_ok st e now row row' st' : row_ok row → kind_step other_form st e now row = Ok (Some row', st') → row_ok row'.
Proof.
  unfold kind_step. intros Hok H. destruct (re_kind e); try by injection H as <- <-.
  - apply bind_ok in H as (r & E & [= -> <-]). unfold phase_step in E. apply bind_ok in E as (stale & _ & E).
    destruct (outdated _ _).
    + destruct stale; [|done]. by apply refresh_shape in E as (? & ? & _ & _ & _ & ->).
    + apply bind_ok in E as (? & _ & E). apply bind_ok in E as (? & _ & E). by injection E as <-.
  - injection H as H <-. unfold progress_step in H. destruct (outdated _ _); [done|]. injection H as <-. unfold row_ok. simpl.
    by destruct (_ && _).
  - apply terminal_shape in H as (anchor & _ & -> & _). exists now. split; [done|lia].
Qed.

Lemma apply_keeps_rows_ok st e o st' : rows_ok st → apply st e = Ok (o, st') → rows_ok st'.
Proof.
  intros Hok H key row' Hrow'. pose proof (apply_frame _ _ _ _ H) as (_ & _ & _ & _ & Hother).
  destruct (decide (key = re_runtime_key e)) as [->|Hne]; [|rewrite Hother in Hrow' by done; by eapply Hok].
  unfold apply_runtime_event in H. apply bind_ok in H as (now & _ & H).
  assert (row_ok (ensure_state st e now)) as Hrok.
  { unfold ensure_state. destruct (rs_rows st !! _) as [r|] eqn:Er; [by apply (Hok _ _ Er)|done]. }
  set (row := ensure_state st e now) in *. destruct (is_pause (re_kind e)).
  - apply bind_ok in H as (paused & E & H). destruct paused as [r|]; injection H as _ <-; rewrite lookup_put_row in Hrow';
      injection Hrow' as <-; [|done].
    unfold pause_step in E. destruct (pause_outdated _ _ _); [done|].
    destruct (re_kind e); try (destruct (match ri_id _ with Some _ => _ | None => _ end); [done|by injection E as <-]).
    by apply bind_ok in E as (? & _ & [= <-]).
  - destruct (protects e row) as [|outcome|].
    + apply bind_ok in H as ([stepped st1] & E & H). destruct stepped as [r|].
      * apply kind_step_ok in E; [|done]. unfold settle_row in H.
        destruct (bool_decide _); injection H as _ <-; rewrite lookup_put_row in Hrow'; by injection Hrow' as <-.
      * injection H as _ <-. rewrite lookup_put_row in Hrow'. by injection Hrow' as <-.
    + injection H as _ <-. rewrite lookup_put_row in Hrow'. by injection Hrow' as <-.
    + apply bind_ok in H as ([changed st1] & E & H). injection H as _ <-. apply run_terminal_same in E as (Er & _).
      rewrite Er, lookup_put_row in Hrow'. by injection Hrow' as <-.
Qed.

(** ** What a terminal row protects *)

(** The events of a batch that a terminal row withstands. *)
Definition withstands (row : LiveRuntimeState) (e : RuntimeEventIngest) : Prop :=
  terminal_name row ∈ EXPLICIT_CLOSED_TERMINAL_STATES ∨
  (terminal_name row ∈ RUN_END_TERMINAL_STATES ++ RUN_TERMINAL_STATES ∧ of_its_run e row ∧
   names_end e EXPLICIT_CLOSED_TERMINAL_STATES = false).

Lemma withstands_snapshot row row' e : state_snapshot row' = state_snapshot row → withstands row e → withstands row' e.
Proof.
  unfold state_snapshot, withstands, of_its_run, terminal_name. destruct row, row'. simpl. by intros [= -> -> -> ->].
Qed.

Lemma apply_keeps_terminal st e o st' key row :
  rs_rows st !! key = Some row → (key = re_runtime_key e → withstands row e) → apply st e = Ok (o, st') →
  ∃ row', rs_rows st' !! key = Some row' ∧ state_snapshot row' = state_snapshot row.
Proof.
  intros Hrow Hw H. pose proof (apply_frame _ _ _ _ H) as (_ & _ & _ & _ & Hother).
  destruct (decide (key = re_runtime_key e)) as [->|Hne]; [|exists row; by rewrite Hother].
  specialize (Hw eq_refl). assert (∃ now, utc_wall (re_occurred_at e) = Ok now) as [now Hnow].
  { unfold apply_runtime_event in H. destruct (utc_wall (re_occurred_at e)); [eauto|done]. }
  destruct (is_pause (re_kind e)) eqn:Hp.
  - rewrite (apply_pause_known st e now row) in H by done. apply bind_ok in H as ([r|] & E & H); injection H as _ <-; [|eauto].
    rewrite lookup_put_row. exists (bumped r). split; [done|]. unfold pause_step in E. destruct (pause_outdated _ _ _); [done|].
    destruct (re_kind e); try (destruct (match ri_id _ with Some _ => _ | None => _ end); [done|by injection E as <-]).
    by apply bind_ok in E as (? & _ & [= <-]).
  - rewrite (apply_known st e now row) in H by done.
    assert (protects e row ≠ lets_through) as Hprot.
    { destruct (decide (terminal_name row ∈ EXPLICIT_CLOSED_TERMINAL_STATES)) as [Hc|Hc]; [by rewrite protects_closed|].
      destruct Hw as [Hw|(Hw & Hrun & Hn)]; [done|]. rewrite protects_ended, Hn by done. by destruct (names_end e RUN_TERMINAL_STATES). }
    destruct (protects e row) as [|outcome|]; [done|injection H as _ <-; eauto|].
    apply bind_ok in H as ([changed st1] & E & H). injection H as _ <-. apply run_terminal_same in E as (-> & _). eauto.
Qed.

(** C4: What a user has closed stays closed, and what a run has ended stays
    ended: a batch leaves the binding, the phase, the clock and the end of
    such a row exactly as they are, unless one of its events names another
    run or, on an ended row, closes the session.  Only the pending question
    of the row, which a pause event still records, and the row's version
    counter may move. *)
Theorem terminal_row_is_protected st events result st' key row :
  rs_rows st !! key = Some row →
  (∀ e, e ∈ events → re_runtime_key e = key → withstands row e) →
  ingest_live_runtime_events other_form st events = Ok (result, st') →
  ∃ row', rs_rows st' !! key = Some row' ∧
    lr_binding row' = lr_binding row ∧ lr_phase row' = lr_phase row ∧
    lr_clock row' = lr_clock row ∧ lr_terminal row' = lr_terminal row.
Proof.
  intros Hrow Hw H. apply ingest_fold in H as (keys & st1 & live & H & -> & _).
  enough (∃ row', rs_rows (set_live live st1) !! key = Some row' ∧ state_snapshot row' = state_snapshot row) as (row' & Hr & E).
  { exists row'. unfold state_snapshot in E. injection E as -> -> -> ->. done. }
  change (rs_rows (set_live live st1)) with (rs_rows (keys, st1).2). revert H.
  apply (fold_res_inv (ingest_one other_form)
           (λ acc, ∃ row', rs_rows acc.2 !! key = Some row' ∧ state_snapshot row' = state_snapshot row)); [|by eauto].
  intros e acc acc' Hin (r & Hr & Es) (previews & o & E & _)%ingest_one_apply.
  eapply apply_keeps_terminal in E as (row' & Hrow' & Es'); [|exact Hr|].
  - exists row'. split; [done|congruence].
  - intros ->. eapply withstands_snapshot; [exact Es|]. by apply Hw.
Qed.

(** ** The end of a run *)

(** What an ended run leaves: the run is closed, and no connection to it can
    be used. *)
Definition run_released (run_id : string) (at_ : Z) (st st' : runtime_store) : Prop :=
  (∃ run', cs_runs (rs_console st') !! run_id = Some run' ∧ rn_ended_at run' = Some at_) ∧
  (∀ run_id', run_id' ≠ run_id → cs_runs (rs_console st') !! run_id' = cs_runs (rs_console st) !! run_id') ∧
  (∀ id, rs_connections st' !! id =
         (λ c, if ends_connection run_id c then released at_ c else c) <$> rs_connections st !! id).

Lemma run_ended_released e run_id run now st st' :
  cs_runs (rs_console st) !! run_id = Some run → run_ended e run_id now st st' →
  run_released run_id (default now (rn_ended_at run)) st st'.
Proof.
  intros Hrun (run0 & at_ & status & Er & _ & -> & _ & ->). rewrite Hrun in Er. injection Er as <-. split_and!.
  - destruct (rn_ended_at run) eqn:Ee; [exists run; by rewrite Ee|]. eexists. split; [apply lookup_insert_eq|done].
  - intros run_id' Hne. destruct (rn_ended_at run); [done|]. by apply lookup_insert_ne.
  - intros id. destruct (rn_ended_at run); apply lookup_released.
Qed.

Lemma run_terminal_ends st e current now changed st' run_id run :
  given (re_run_id e) current = Some run_id → cs_runs (rs_console st) !! run_id = Some run →
  run_owned st (re_session_id e) run = true → apply_run_terminal_event st e current now = Ok (changed, st') →
  run_ended e run_id now st st'.
Proof.
  intros Eg Er Eo H. unfold apply_run_terminal_event in H. rewrite Eg, Er, Eo in H. cbn [negb] in H.
  destruct (rn_ended_at run) as [at_|] eqn:Ee.
  - injection H as _ <-. exists run, at_, ""%string. rewrite Ee. by split_and!.
  - apply bind_ok in H as (status & Es & H). injection H as _ <-. exists run, now, status. rewrite Ee. by split_and!.
Qed.

(** The end of a run, once taken, closes the run and leaves no control of
    it: the run keeps the time of its first end, every open connection to it is
    ended, and the other runs and connections are untouched. *)
Theorem ended_run_holds_no_control st e now st' run_id run :
  re_kind e = terminal_signal → ends_run e = true → utc_wall (re_occurred_at e) = Ok now →
  given (re_run_id e) (rb_run_id (lr_binding (ensure_state st e now))) = Some run_id →
  cs_runs (rs_console st) !! run_id = Some run → run_owned st (re_session_id e) run = true →
  apply st e = Ok (applied, st') →
  run_released run_id (default now (rn_ended_at run)) st st' ∧
  ∀ id c, rs_connections st' !! id = Some c → cn_run_id c = run_id → cn_state c ∉ OPEN_CONNECTION_STATES.
Proof.
  intros Hk Hends Hnow Eg Er Eo H.
  assert (run_released run_id (default now (rn_ended_at run)) st st') as Hrel.
  { rewrite (apply_ensured st e now Hnow) in H. set (row := ensure_state st e now) in *. set (st0 := put_row _ row st) in *.
    assert (rs_rows st0 !! re_runtime_key e = Some row) as Hrow by apply lookup_put_row.
    rewrite (apply_known st0 e now row) in H by (done || by rewrite Hk). destruct (protects e row) as [|outcome|] eqn:Ep.
    - apply bind_ok in H as ([[row'|] st2] & E & H); [|done].
      unfold kind_step in E. rewrite Hk in E. apply terminal_shape in E as (anchor & _ & _ & _ & E). cbn zeta in E.
      rewrite Hends in E. destruct E as [changed E]. set (st1 := if str_in _ EXPLICIT_CLOSED_TERMINAL_STATES then _ else st0) in E.
      assert (same_rows st0 st1) as Hs1 by (unfold st1; destruct (str_in _ _); [apply close_session_same|done]).
      assert (cs_runs (rs_console st1) = cs_runs (rs_console st)) as Hr1 by (unfold st1; destruct (str_in _ _); [by destruct (re_session_id e)|done]).
      assert (rs_connections st1 = rs_connections st) as Hc1 by (unfold st1; destruct (str_in _ _); [by destruct (re_session_id e)|done]).
      assert (run_owned st1 (re_session_id e) run = true) as Eo1.
      { unfold run_owned in *. destruct Hs1 as (_ & _ & _ & _ & ->). done. }
      eapply run_terminal_ends in E; [|simpl; rewrite given_again; exact Eg|by rewrite Hr1|done].
      apply (run_ended_released e run_id run) in E; [|by rewrite Hr1]. unfold run_released in *. rewrite Hr1, Hc1 in E.
      unfold settle_row in H. destruct (bool_decide _); [done|]. injection H as <-. exact E.
    - injection H as -> _. by apply refusal_not_applied in Ep.
    - apply bind_ok in H as ([changed st2] & E & H). injection H as _ <-.
      eapply run_terminal_ends in E; [|exact Eg|exact Er|done]. by apply (run_ended_released e run_id run) in E. }
  split; [done|]. destruct Hrel as (_ & _ & Hc). intros id c Hid Hrun. rewrite Hc in Hid.
  destruct (rs_connections st !! id) as [c0|]; [|done]. injection Hid as <-.
  destruct (ends_connection run_id c0) eqn:E; [by rewrite <- str_in_spec|].
  unfold ends_connection in E. rewrite Hrun, String.eqb_refl in E. cbn [andb] in E.
  rewrite <- str_in_spec. by rewrite E.
Qed.
End Reducer.
