(* ===== verification/RuntimeShown.v ===== *)
(** * What an event shows

    The window in which the phase of an event is shown live, and the two ways
    in which an event that is ignored still changes what is shown. *)

From S2P Require Import Prelude PyStr PyTime PyValue MachineEvidence PyText FactStore FactReducer ProviderContracts.
From S2P Require Import RuntimeView RuntimeEvents.
From S2P Require Import PauseRequests LivePreviews Interactions InputQueue InputStore ConsoleTurns LiveRuntime.
From S2P Require Import RuntimeLaws RuntimeProps.

Open Scope list_scope.
Open Scope Z_scope.

(** The attributes of a runtime row that the view reads. *)
Definition view_state (row : LiveRuntimeState) : SessionRuntimeState :=
  let p := lr_phase row in
  let c := lr_clock row in
  let t := lr_terminal row in
  RuntimeState (Some (rp_phase p)) (Some (rp_phase_source p)) (rp_active_tool p) (rt_terminal_state t)
    (rt_terminal_reason t) (rt_terminal_source t) (Some (lr_runtime_version row)) (utc <$> rp_phase_started_at p)
    (utc <$> rc_last_progress_at c) (utc <$> rc_last_runtime_signal_at c) (utc <$> rc_last_live_at c)
    (Some (utc (rc_timeline_anchor_at c))) (utc <$> rc_freshness_expires_at c).

Lemma normalized_utc w : normalize_utc (Some (utc w)) = Some (utc w).
Proof. unfold normalize_utc, utc; simpl. unfold astimezone_utc, utc, instant. simpl. by rewrite Z.sub_0_r. Qed.

Lemma normalized_now_instant now : instant (normalized_now now) = instant now.
Proof.
  unfold normalized_now. destruct (normalize_utc (Some now)) as [d|] eqn:E; [|done]. by apply normalize_utc_instant in E.
Qed.

Lemma plus_ms_ok t n u : plus_ms t n = Ok u → u = t + ms n.
Proof. unfold plus_ms. intros H. apply bind_ok in H as ([] & _ & H). by injection H. Qed.

Lemma freshness_end_ok e phase base expires_at :
  freshness_end e phase base = Ok expires_at → expires_at = (λ n, base + ms n) <$> phase_signal_freshness_ms e phase.
Proof.
  unfold freshness_end. destruct (phase_signal_freshness_ms e phase) as [n|]; [|by intros [= <-]].
  intros H. apply bind_ok in H as (u & ->%plus_ms_ok & [= <-]). done.
Qed.

Section Shown.
Context (other_form : string → option datetime).

Abbreviation apply := (apply_runtime_event other_form).

(** The row that an accepted phase signal leaves. *)
Lemma phase_step_shape e now row row' :
  phase_step other_form e now row = Ok (Some row') →
  ∃ base, managed_lease_refresh_at other_form e now = Ok base ∧
    strip_or (Some (rp_phase (lr_phase row'))) "idle" = phase_named e row ∧ lr_terminal row' = no_terminal ∧
    rc_freshness_expires_at (lr_clock row') = (λ n, base + ms n) <$> phase_signal_freshness_ms e (phase_named e row).
Proof.
  unfold phase_step. intros H. apply bind_ok in H as (stale & _ & H). destruct (outdated _ _).
  - destruct stale; [|done]. apply refresh_shape in H as (base & expires_at & Ep & Eb & Ee%freshness_end_ok & ->).
    apply String.eqb_eq in Ep. exists base. subst expires_at. split_and!; done.
  - apply bind_ok in H as (base & Eb & H). apply bind_ok in H as (expires_at & Ee%freshness_end_ok & H). injection H as <-.
    exists base. rewrite <- Ee. split_and!; try done. by apply strip_or_again.
Qed.

(** An event that is applied leaves a row, and its kind's branch wrote it. *)
Lemma applied_phase st e now st' :
  re_kind e = phase_signal → utc_wall (re_occurred_at e) = Ok now → apply st e = Ok (applied, st') →
  ∃ row', phase_step other_form e now (rebind e (ensure_state st e now)) = Ok (Some row') ∧
    rs_rows st' !! re_runtime_key e = Some (bumped row').
Proof.
  intros Hk Hnow H. rewrite (apply_ensured _ st e now Hnow) in H. set (row := ensure_state st e now) in *.
  rewrite (apply_known _ _ e now row) in H by (done || apply lookup_put_row || by rewrite Hk).
  destruct (protects e row) as [|outcome|] eqn:Ep.
  - unfold kind_step in H. rewrite Hk in H. apply bind_ok in H as ([stepped st2] & E & H).
    apply bind_ok in E as (r & E & [= -> <-]). destruct stepped as [row'|]; [|done]. exists row'. split; [done|].
    unfold settle_row in H. destruct (bool_decide _); [done|]. injection H as <-. apply lookup_put_row.
  - injection H as -> _. by apply refusal_not_applied in Ep.
  - apply repeats_terminal in Ep as [? _]. congruence.
Qed.

Lemma phase_named_given e row ph : re_phase e = Some ph → strip ph ≠ ""%string → phase_named e row = strip ph.
Proof.
  intros Eph Hne. unfold phase_named, strip_or. rewrite Eph. assert (opt_truthy (Some ph) = true) as Ht.
  { destruct ph; [done|reflexivity]. }
  unfold opt_or. rewrite Ht, Ht. simpl. by destruct (strip ph).
Qed.

(** A phase that the reducer accepts is shown, as the live presence of the
    session, until its window ends and not after. *)
Theorem phase_is_live_until_its_window_ends st e now base st' row' ph session at_ :
  re_kind e = phase_signal → re_phase e = Some ph → strip ph ∈ KNOWN_PHASES →
  utc_wall (re_occurred_at e) = Ok now → managed_lease_refresh_at other_form e now = Ok base →
  apply st e = Ok (applied, st') → rs_rows st' !! re_runtime_key e = Some row' →
  let v := build_runtime_view (view_state row') session at_ in
  let live := ∃ n, phase_signal_freshness_ms e (strip ph) = Some n ∧ instant at_ < base + ms n in
  rv_terminal_state v = None ∧
  (rv_confidence v = Some "live"%string ↔ live) ∧ (rv_presence_state v = Some (strip ph) ↔ live) ∧
  (rv_presence_state v = None ↔ ¬ live).
Proof.
  intros Hk Hph Hknown Hnow Hbase H Hrow. apply (applied_phase st e now) in H as (r & E & Hrow2); [|done|done].
  rewrite Hrow in Hrow2. injection Hrow2 as ->. apply phase_step_shape in E as (base2 & Eb & Ep & Et & Ee).
  rewrite Hbase in Eb. injection Eb as <-.
  assert (strip ph ≠ ""%string) as Hne. { intros E. rewrite E in Hknown. by apply str_in_spec in Hknown. }
  rewrite (phase_named_given e _ ph) in Ep, Ee by done. intros v live.
  assert (rv_terminal_state v = None) as Hterm. { unfold v, build_runtime_view. simpl. by rewrite Et. }
  assert (rv_confidence v = Some "live"%string ↔ live) as Hlive.
  { unfold v, build_runtime_view, live. cbn [rv_confidence]. split.
    - intros [= (u & Eu & Hu)%confidence_live]. cbn [view_state rs_freshness_expires_at bumped lr_clock] in Eu. rewrite Ee in Eu.
      destruct (phase_signal_freshness_ms e (strip ph)) as [n|]; [|done]. cbn [fmap option_fmap option_map] in Eu. rewrite normalized_utc in Eu.
      injection Eu as <-. rewrite normalized_now_instant in Hu. exists n. split; [done|]. unfold instant, utc in Hu. simpl in Hu.
      unfold instant. lia.
    - intros (n & En & Hn). f_equal. apply confidence_live. exists (utc (base + ms n)).
      cbn [view_state rs_freshness_expires_at bumped lr_clock]. rewrite Ee, En. cbn [fmap option_fmap option_map]. rewrite normalized_utc. split; [done|]. rewrite normalized_now_instant.
      unfold instant, utc in *. simpl. lia. }
  assert (rv_presence_state v = if bool_decide (rv_confidence v = Some "live"%string) then Some (strip ph) else None) as Hpres.
  { unfold v, build_runtime_view. cbn [rv_presence_state rv_confidence view_state rs_phase bumped lr_phase]. rewrite Ep.
    apply str_in_spec in Hknown. rewrite Hknown, andb_true_r.
    destruct (String.eqb_spec (confidence_for_state (view_state (bumped r)) (normalized_now at_)) "live") as [->|Hc];
      [done|]. rewrite bool_decide_false by congruence. done. }
  rewrite Hpres, <- Hlive. case_bool_decide; split_and!; intuition congruence.
Qed.

(** ** Events that are ignored *)

Lemma protects_other e row :
  terminal_name row ∉ EXPLICIT_CLOSED_TERMINAL_STATES → is_Some (re_run_id e) → re_run_id e ≠ rb_run_id (lr_binding row) →
  protects e row = lets_through.
Proof.
  intros Hc Hs Hne. unfold protects. fold (terminal_name row).
  assert (str_in (terminal_name row) EXPLICIT_CLOSED_TERMINAL_STATES = false) as ->.
  { apply not_true_iff_false. by rewrite str_in_spec. }
  rewrite (bool_decide_true (is_Some (re_run_id e))), (bool_decide_false (re_run_id e = _)) by done. cbn [negb andb].
  by rewrite andb_false_r.
Qed.

(** An event that finds a terminal row of another run and is then ignored has
    moved the row to its own run. *)
Lemma ignored_rebinds st e now row :
  utc_wall (re_occurred_at e) = Ok now → rs_rows st !! re_runtime_key e = Some row → is_pause (re_kind e) = false →
  terminal_name row ∉ EXPLICIT_CLOSED_TERMINAL_STATES → is_Some (re_run_id e) → re_run_id e ≠ rb_run_id (lr_binding row) →
  kind_step other_form st e now (rebind e row) = Ok (None, st) →
  apply st e = Ok (ignored, put_row (re_runtime_key e) (rebind e row) st).
Proof.
  intros Hnow Hrow Hp Hc Hs Hne E. rewrite (apply_known _ st e now row), protects_other by done. by rewrite E.
Qed.

Lemma rebound_run e row run_id : re_run_id e = Some run_id → rb_run_id (lr_binding (rebind e row)) = Some run_id.
Proof. intros H. simpl. by rewrite H. Qed.

Lemma run_ends_are_open name : name ∈ RUN_TERMINAL_STATES → name ∉ EXPLICIT_CLOSED_TERMINAL_STATES.
Proof.
  unfold RUN_TERMINAL_STATES. rewrite !elem_of_cons, elem_of_nil. rewrite <- str_in_spec.
  by intros [->|[->|[->|[]]]].
Qed.

(** The end of a run that the runtime row has not seen yet is ignored when
    the row still shows how the run before it ended: the row takes the new run
    and keeps the old end, while the new run stays open with its connections. *)
Theorem end_of_an_unseen_run_is_ignored st e now row run_id run :
  rs_rows st !! re_runtime_key e = Some row → terminal_name row ∈ RUN_TERMINAL_STATES →
  re_kind e = terminal_signal → named_terminal_state (re_payload e) ∈ RUN_TERMINAL_STATES →
  utc_wall (re_occurred_at e) = Ok now → re_run_id e = Some run_id → rb_run_id (lr_binding row) ≠ Some run_id →
  cs_runs (rs_console st) !! run_id = Some run → rn_ended_at run = None →
  ∃ st' row', apply st e = Ok (ignored, st') ∧ rs_rows st' !! re_runtime_key e = Some row' ∧
    rb_run_id (lr_binding row') = Some run_id ∧ lr_terminal row' = lr_terminal row ∧
    cs_runs (rs_console st') !! run_id = Some run ∧ rs_connections st' = rs_connections st.
Proof.
  intros Hrow Ht Hk Hn Hnow Hid Hne Hrun _. exists (put_row (re_runtime_key e) (rebind e row) st), (rebind e row).
  split; [|split_and!; try done; [apply lookup_put_row|by apply rebound_run]].
  apply (ignored_rebinds st e now row); try done; [by rewrite Hk|by apply run_ends_are_open|by rewrite Hid|].
  unfold kind_step, terminal_step. rewrite Hk, (rebound_run e row run_id) by done.
  change (strip (or_empty (rt_terminal_state (lr_terminal (rebind e row))))) with (terminal_name row).
  apply str_in_spec in Ht, Hn. rewrite Ht, Hn, (bool_decide_true (is_Some (Some run_id))), Hid by eauto.
  rewrite (bool_decide_true (Some run_id = Some run_id)) by done. by rewrite orb_true_r.
Qed.

(** A late signal of another run is ignored, but it takes the row; a
    progress signal of the run that ended, which the row refused before, then
    reopens it. *)
Theorem ignored_event_reopens_an_ended_run st e1 e2 now1 now2 row :
  rs_rows st !! re_runtime_key e1 = Some row → terminal_name row ∈ RUN_TERMINAL_STATES →
  re_kind e1 = phase_signal ∨ re_kind e1 = progress_signal → from_managed_lease e1 = false →
  is_Some (re_run_id e1) → re_run_id e1 ≠ rb_run_id (lr_binding row) →
  utc_wall (re_occurred_at e1) = Ok now1 → outdated now1 (signal_clock row) = true →
  re_kind e2 = progress_signal → re_runtime_key e2 = re_runtime_key e1 →
  is_Some (re_run_id e2) → re_run_id e2 = rb_run_id (lr_binding row) →
  utc_wall (re_occurred_at e2) = Ok now2 → outdated now2 (signal_clock row) = false →
  apply st e2 = Ok (protected_terminal, st) ∧
  ∃ st1 st2 row2, apply st e1 = Ok (ignored, st1) ∧ apply st1 e2 = Ok (applied, st2) ∧
    rs_rows st2 !! re_runtime_key e1 = Some row2 ∧ lr_terminal row2 = no_terminal ∧
    rb_run_id (lr_binding row2) = rb_run_id (lr_binding row).
Proof.
  intros Hrow Ht Hk1 Hl Hs1 Hne Hnow1 Ho1 Hk2 Hkey Hs2 Hid2 Hnow2 Ho2.
  pose proof (run_ends_are_open _ Ht) as Hc. split.
  { rewrite (apply_known _ st e2 now2 row) by (done || rewrite ?Hkey, ?Hk2; done). rewrite protects_ended; [| done | |by right].
    - unfold names_end. rewrite Hk2. done.
    - apply elem_of_app. by right. }
  set (st1 := put_row (re_runtime_key e1) (rebind e1 row) st). exists st1.
  assert (rs_rows st1 !! re_runtime_key e2 = Some (rebind e1 row)) as Hrow1 by (rewrite Hkey; apply lookup_put_row).
  assert (progress_step e2 now2 (rebind e2 (rebind e1 row)) ≠ None) as Hstep.
  { unfold progress_step. change (signal_clock (rebind e2 (rebind e1 row))) with (signal_clock row). by rewrite Ho2. }
  destruct (progress_step e2 now2 (rebind e2 (rebind e1 row))) as [row2|] eqn:E2; [|done].
  assert (lr_terminal row2 = no_terminal ∧ lr_binding row2 = rebound e2 (rebound e1 (lr_binding row))) as [Et Eb].
  { unfold progress_step in E2. change (signal_clock (rebind e2 (rebind e1 row))) with (signal_clock row) in E2. rewrite Ho2 in E2.
    injection E2 as <-. rewrite outdated_clock in Ho2. apply orb_false_iff in Ho2 as [_ Ho2]. split; [|done].
    simpl. rewrite Ho2, andb_true_r. destruct (rt_terminal_state (lr_terminal row)) eqn:Es; [reflexivity|].
    exfalso. apply str_in_spec in Ht. unfold terminal_name in Ht. by rewrite Es in Ht. }
  exists (put_row (re_runtime_key e2) (bumped row2) st1), (bumped row2). split; [|split; [|split_and!]].
  - apply (ignored_rebinds st e1 now1 row); try done; [by destruct Hk1 as [->| ->]|]. unfold kind_step.
    destruct Hk1 as [->| ->].
    + unfold phase_step. change (signal_clock (rebind e1 row)) with (signal_clock row).
      unfold stale_managed_lease_observed_at. rewrite Hl, Ho1. by destruct (signal_clock row).
    + unfold progress_step. change (signal_clock (rebind e1 row)) with (signal_clock row). by rewrite Ho1.
  - rewrite (apply_known _ st1 e2 now2 (rebind e1 row)) by (done || by rewrite Hk2).
    rewrite protects_other; [|done|done|].
    + unfold kind_step. rewrite Hk2, E2. cbn [mbind res_bind]. unfold settle_row. rewrite bool_decide_false; [done|].
      unfold state_snapshot. intros [= _ _ _ E]. rewrite Et in E. apply str_in_spec in Ht. unfold terminal_name in Ht. simpl in E.
      by rewrite <- E in Ht.
    + simpl. rewrite Hid2. destruct Hs1 as [r Hr], Hs2 as [r2 Hr2]. rewrite Hr in *. simpl. congruence.
  - rewrite Hkey. apply lookup_put_row.
  - done.
  - simpl. rewrite Eb. simpl. rewrite Hid2. destruct Hs2 as [r2 Hr2]. rewrite Hid2 in Hr2. by rewrite Hr2.
Qed.
End Shown.
