(* ===== verification/InteractionLaws.v ===== *)
(** * Laws of the interaction table

    The calls that reach the table as a step function, what each writes, and
    the invariant that they keep: the request keys are clean and unique, a
    pending row holds no answer, and a settled row says when it was settled. *)

From S2P Require Import Prelude PyStr PyTime PyValue MachineEvidence PyText FactStore FactReducer FactReducerSetwise.
From S2P Require Import RuntimeEvents.
From S2P Require Import PauseRequests LivePreviews Interactions InputQueue InputStore ConsoleTurns LiveRuntime.
From S2P Require Import RuntimeStore InteractionStore.
From S2P Require Import RuntimeLaws RuntimeProps.

Open Scope list_scope.
Open Scope Z_scope.

(** ** Clean keys *)

Lemma by_request_key_Some key table id r :
  by_request_key key table = Some (id, r) → table !! id = Some r ∧ ix_request_key r = key.
Proof.
  unfold by_request_key. intros H. assert ((id, r) ∈ filter (λ kr, ix_request_key kr.2 = key) (map_to_list table)) as Hin.
  { destruct (filter _ _); [done|]. injection H as ->. by left. }
  apply list_elem_of_filter in Hin as [? Hin]. by apply elem_of_map_to_list in Hin.
Qed.

Lemma by_request_key_None key table : by_request_key key table = None → ∀ id r, table !! id = Some r → ix_request_key r ≠ key.
Proof.
  unfold by_request_key. intros H id r Hid Hk.
  assert ((id, r) ∈ filter (λ kr, ix_request_key kr.2 = key) (map_to_list table)) as Hin.
  { apply list_elem_of_filter. split; [done|]. by apply elem_of_map_to_list. }
  destruct (filter _ _); [by apply not_elem_of_nil in Hin|done].
Qed.

(** A text that [str.strip] leaves as it is. *)
Definition tight (s : string) : Prop := s ≠ ""%string ∧ lstrip s = s ∧ rstrip s = s.

Lemma tight_strip s : tight s ↔ s ≠ ""%string ∧ strip s = s.
Proof.
  unfold tight, strip. split; [by intros (? & -> & ->)|]. intros [Hne H]. split_and!; [done| |].
  - by rewrite <- H, lstrip_rstrip.
  - by rewrite <- H, rstrip_idemp.
Qed.

Lemma tight_clean_str value key : PauseRequests.clean_str value = Some key → tight key.
Proof.
  intros H. apply tight_strip. assert (or_none (strip (py_str value)) = Some key) as [<- Hne]%or_none_Some by by destruct value.
  by rewrite strip_idemp.
Qed.

Lemma tight_clean value key : clean value = Some key → tight key.
Proof. intros H%clean_Some. by apply tight_strip. Qed.

Lemma clean_str_tight key : tight key → PauseRequests.clean_str (VStr key) = Some key.
Proof. intros [Hne H]%tight_strip. simpl. rewrite H. by apply or_none_Some. Qed.

Lemma tight_app a b : tight a → tight b → ∀ m, tight (a +:+ m +:+ b)%string.
Proof.
  intros (Hna & Hla & _) (Hnb & _ & Hrb) m. destruct a as [|c a]; [done|]. split_and!; [done| |].
  - simpl in *. destruct (is_space c) eqn:E; [|done]. exfalso. clear - Hla. assert (String.length (lstrip a) <= String.length a)%nat as Hlen.
    { clear. induction a as [|d a IH]; simpl; [done|]. destruct (is_space d); simpl; lia. }
    rewrite Hla in Hlen. simpl in Hlen. lia.
  - rewrite <- app_assoc_s. generalize (String c a +:+ m)%string. intros t. induction t as [|d t IH]; [done|].
    rewrite app_cons, rstrip_cons, IH. destruct (t +:+ b)%string eqn:E; [|done].
    apply (f_equal String.length) in E. rewrite length_app_s in E. destruct b; simpl in E; [done|lia].
Qed.

Lemma tight_or_unknown s : tight (default "unknown"%string (or_none (strip s))).
Proof.
  destruct (or_none (strip s)) as [t|] eqn:E; simpl; [|by split].
  apply or_none_Some in E as [<- Hne]. apply tight_strip. by rewrite strip_idemp.
Qed.

(** The key of a provider's question is never blank. *)
Lemma request_key_tight e : tight (pause_runtime_request_key e).
Proof.
  unfold pause_runtime_request_key. destruct (PauseRequests.clean_str _) as [key|] eqn:E; [by eapply tight_clean_str|].
  unfold make_pause_request_key.
  rewrite <- (app_assoc_s ":" (default "unknown" (or_none (strip (strip (re_runtime_key e))))) _)%string.
  rewrite <- (app_assoc_s (":" +:+ _) ":" _)%string.
  apply tight_app; [apply tight_or_unknown|].
  destruct (clean (PauseRequests.clean_str _)) as [t|] eqn:E1; simpl; [by eapply tight_clean|].
  destruct (clean (clean _)) as [t|] eqn:E2; simpl; [by eapply tight_clean|by split].
Qed.

(** ** Calls *)

(** The calls of the catalog that reach the table; the deletion of a session
    takes its requests with it. *)
Inductive interaction_call : Type :=
  | RegisterCall (g : registration)
  | ResolveCall (l : resolution) (latest : option (string * Z))
  | ExpireCall (now : Z) (session_id : option string)
  | RepairCall (session_id id : string) (expected_updated_at : Z) (expected_source expected_reply_transport : string)
      (now : Z) (dry_run : bool)
  | ApplyCall (events : list RuntimeEventIngest) (observed_at : Z)
  | DeleteSessionCall (session_id : string).

(** ** The invariant *)

Definition row_sound (r : LiveInteractionRequest) : Prop :=
  tight (ix_request_key r) ∧ (is_pending r = true → ix_response_payload_json r = None) ∧
  (is_pending r = false → is_Some (ix_resolved_at r)).

Definition table_sound (table : interaction_table) : Prop :=
  map_Forall (λ _ r, row_sound r) table ∧
  ∀ id1 id2 r1 r2, table !! id1 = Some r1 → table !! id2 = Some r2 → ix_request_key r1 = ix_request_key r2 → id1 = id2.

Lemma by_key_sound table id r : table_sound table → table !! id = Some r → by_request_key (ix_request_key r) table = Some (id, r).
Proof.
  intros [_ Huniq] Hid. destruct (by_request_key _ table) as [[id2 r2]|] eqn:E.
  - apply by_request_key_Some in E as [E Ek]. assert (id2 = id) as -> by by eapply Huniq. congruence.
  - exfalso. by apply (by_request_key_None _ _ E id r Hid).
Qed.

(** A write that keeps the key of the row, or takes a key that is free. *)
Lemma insert_sound table id r :
  table_sound table → row_sound r →
  match by_request_key (ix_request_key r) table with Some (id2, _) => id2 = id | None => table !! id = None end →
  table_sound (<[id := r]> table).
Proof.
  intros [Hrows Huniq] Hr Hkey. split; [by apply map_Forall_insert_2|].
  assert (∀ id2 r2, id2 ≠ id → table !! id2 = Some r2 → ix_request_key r2 ≠ ix_request_key r) as Hother.
  { intros id2 r2 Hne H2 Ek. destruct (by_request_key _ _) as [[id3 r3]|] eqn:E.
    - subst id3. apply by_request_key_Some in E as [E Ek3]. apply Hne. eapply Huniq; [done..|congruence].
    - exact (by_request_key_None _ _ E id2 r2 H2 Ek). }
  intros id1 id2 r1 r2 H1 H2 Ek.
  destruct (decide (id1 = id)) as [->|N1], (decide (id2 = id)) as [->|N2]; [done| | |].
  - rewrite lookup_insert_eq in H1. rewrite lookup_insert_ne in H2 by done. injection H1 as ->. by destruct (Hother id2 r2).
  - rewrite lookup_insert_eq in H2. rewrite lookup_insert_ne in H1 by done. injection H2 as ->. by destruct (Hother id1 r1).
  - rewrite lookup_insert_ne in H1, H2 by done. by eapply Huniq.
Qed.

(** Rewriting rows in place. *)
Lemma fmap_sound (f : LiveInteractionRequest → LiveInteractionRequest) table :
  (∀ r, ix_request_key (f r) = ix_request_key r) → (∀ r, row_sound r → row_sound (f r)) →
  table_sound table → table_sound (f <$> table).
Proof.
  intros Hkey Hf [Hrows Huniq]. split.
  - intros id r H. apply lookup_fmap_Some in H as (r0 & <- & H). by apply Hf, (Hrows id).
  - intros id1 id2 r1 r2 H1 H2 Ek. apply lookup_fmap_Some in H1 as (? & <- & H1), H2 as (? & <- & H2).
    rewrite !Hkey in Ek. by eapply Huniq.
Qed.

(** Removing rows. *)
Lemma filter_sound session_id table :
  table_sound table → table_sound (filter (λ ki, String.eqb (ix_session_id ki.2) session_id = false) table).
Proof.
  intros [Hrows Huniq]. split.
  - intros id r [H _]%map_lookup_filter_Some. by apply (Hrows id).
  - intros id1 id2 r1 r2 [H1 _]%map_lookup_filter_Some [H2 _]%map_lookup_filter_Some. by apply Huniq.
Qed.

Lemma settled_sound status payload text at_ r :
  status ≠ "pending"%string → row_sound r → row_sound (settled_interaction status payload text at_ r).
Proof.
  intros Hs%String.eqb_neq (Ht & _). split_and!; [done| |by eexists]. unfold is_pending. simpl. by rewrite Hs.
Qed.

Lemma resolution_not_pending payload : resolution_status payload ≠ "pending"%string.
Proof.
  unfold resolution_status. destruct (str_in (default _ _) TERMINAL_STATUSES) eqn:E; [|done]. intros Es. rewrite Es in E. done.
Qed.

Lemma supersede_rows runtime_key key at_ table id :
  supersede runtime_key key at_ table !! id =
  (λ r, if String.eqb (ix_runtime_key r) runtime_key && negb (String.eqb (ix_request_key r) key) && is_pending r
        then superseded_request at_ r else r) <$> table !! id.
Proof. unfold supersede. by rewrite lookup_fmap. Qed.

Lemma supersede_sound runtime_key key at_ table : table_sound table → table_sound (supersede runtime_key key at_ table).
Proof.
  unfold supersede. apply fmap_sound; intros r; destruct (_ && _); try done. by apply settled_sound.
Qed.

Section Events.
Context (other_form : string → option datetime).

Abbreviation mirror := (apply_live_interaction_event other_form).

(** What an event does to the table. *)
Inductive mirrored (e : RuntimeEventIngest) (table : interaction_table) : interaction_table → Prop :=
  | mirrored_not : mirrored e table table
  | mirrored_request now table1 id r :
      re_kind e = pause_request → utc_wall (re_occurred_at e) = Ok now →
      table1 = table ∨ table1 = supersede (re_runtime_key e) (pause_runtime_request_key e) now table →
      ix_request_key r = pause_runtime_request_key e → is_pending r = true → ix_response_payload_json r = None →
      (table !! id = None ∧ by_request_key (pause_runtime_request_key e) table = None) ∨
      (∃ r0, by_request_key (pause_runtime_request_key e) table = Some (id, r0) ∧ request_known now r0 = false) →
      mirrored e table (<[id := r]> table1)
  | mirrored_answer now id r answer :
      re_kind e = pause_resolution → utc_wall (re_occurred_at e) = Ok now →
      by_request_key (pause_runtime_request_key e) table = Some (id, r) → is_pending r = true → ix_last_seen_at r <= now →
      dict_of (first_of (re_payload e) "response_payload" ["response_payload_json"%string]) = Ok answer →
      mirrored e table
        (<[id := settled_interaction (resolution_status (re_payload e)) (null_if_empty answer)
                   (text (first_of (re_payload e) "response_text" ["message"%string])) now r]> table).

Lemma mirror_cases table e row table' : mirror table e = Ok (row, table') → mirrored e table table'.
Proof.
  unfold apply_live_interaction_event. intros H. apply bind_ok in H as (now & Hnow & H).
  destruct (re_kind e) eqn:Hk; try (injection H as _ <-; constructor).
  - destruct (re_session_id e) as [session_id|]; [|injection H as _ <-; constructor].
    destruct (match by_request_key (pause_runtime_request_key e) table with
              | Some (_, r) => request_known now r | None => false end) eqn:Eknown; [injection H as _ <-; constructor|].
    set (table1 := if (if has_key _ _ then _ else _ : bool) then supersede _ _ _ _ else table) in *.
    apply bind_ok in H as (projection & _ & H). apply bind_ok in H as (expires_at & _ & H).
    assert (table1 = table ∨ table1 = supersede (re_runtime_key e) (pause_runtime_request_key e) now table) as H1.
    { unfold table1. destruct (if has_key _ _ then _ else _ : bool); [by right|by left]. }
    destruct (by_request_key _ table) as [[id r]|] eqn:Eb.
    + injection H as _ <-. eapply mirrored_request; [done|done|done|done|done|done|right; eauto].
    + apply bind_ok in H as ([] & Hg%guard_ok & H). injection H as _ <-. apply bool_decide_eq_true in Hg.
      eapply mirrored_request; [done|done|done|done|done|done|left; split; [|done]].
      destruct H1 as [->|E]; [done|]. rewrite E, supersede_rows in Hg. by apply fmap_None in Hg.
  - destruct (by_request_key _ table) as [[id r]|] eqn:Eb; [|injection H as _ <-; constructor].
    apply bind_ok in H as (r' & E & H). injection H as _ <-. apply by_request_key_Some in Eb as Hid. destruct Hid as [Hid _].
    unfold resolve_row in E. destruct (is_pending r) eqn:Ep; cbn [negb] in E.
    + destruct (Z.ltb_spec now (ix_last_seen_at r)).
      * injection E as <-. rewrite insert_id by done. constructor.
      * apply bind_ok in E as (answer & Ea & E). injection E as <-. by eapply mirrored_answer.
    + injection E as <-. rewrite insert_id by done. constructor.
Qed.

Lemma supersede_by_key runtime_key key at_ table table1 id r :
  table1 = table ∨ table1 = supersede runtime_key key at_ table → table1 !! id = Some r →
  ∃ r0, table !! id = Some r0 ∧ (r = r0 ∨ (is_pending r0 = true ∧ r = superseded_request at_ r0)).
Proof.
  intros [->| ->] H; [eauto|]. rewrite supersede_rows in H. apply fmap_Some in H as (r0 & H0 & ->). exists r0. split; [done|].
  destruct (_ && _) eqn:E; [right|by left]. by apply andb_true_iff in E as [_ ->].
Qed.

Lemma mirrored_sound e table table' : mirrored e table table' → table_sound table → table_sound table'.
Proof.
  intros [|now table1 id r Hk Hnow H1 Hkey Hp Hr Hfree|now id r answer Hk Hnow Eb Hp Hle Ea] Hs; [done| |].
  - assert (table_sound table1) as Hs1 by (destruct H1 as [->| ->]; [done|by apply supersede_sound]).
    apply insert_sound; [done| |].
    + split_and!; [rewrite Hkey; apply request_key_tight|done|]. by rewrite Hp.
    + rewrite Hkey. destruct (by_request_key _ table1) as [[id2 r2]|] eqn:E.
      * apply by_request_key_Some in E as [E Ek]. eapply supersede_by_key in E as (r0 & E0 & Er0); [|exact H1].
        assert (ix_request_key r0 = pause_runtime_request_key e) as Ek0 by by destruct Er0 as [<-|[_ ->]].
        destruct Hfree as [[_ Hfree]|(r3 & Hfree & _)]; [by destruct (by_request_key_None _ _ Hfree id2 r0)|].
        rewrite <- Ek0, (by_key_sound table id2 r0) in Hfree by done. by injection Hfree.
      * destruct Hfree as [[Hfree _]|(r3 & [Hfree Ek]%by_request_key_Some & _)].
        -- destruct H1 as [->| ->]; [done|]. by rewrite supersede_rows, Hfree.
        -- exfalso. assert (∃ r4, table1 !! id = Some r4 ∧ ix_request_key r4 = ix_request_key r3) as (r4 & H4 & Ek4).
           { destruct H1 as [->| ->]; [eauto|]. rewrite supersede_rows, Hfree. simpl. eexists. split; [done|]. by destruct (_ && _). }
           eapply by_request_key_None in E; [|exact H4]. congruence.
  - apply by_request_key_Some in Eb as Hid. destruct Hid as [Hid Ekey]. apply insert_sound; [done| |].
    + apply settled_sound; [apply resolution_not_pending|]. by apply (proj1 Hs id).
    + simpl. rewrite Ekey, Eb. done.
Qed.
End Events.

(** ** One call *)

Section Calls.
Context (other_form : string → option datetime).

Definition kept {A} (st : runtime_store) (result : res (A * runtime_store)) : runtime_store :=
  match result with Ok (_, st') => st' | Err _ => st end.

(** The store after a call; one that raises leaves it as it was. *)
Definition after_call (st : runtime_store) (c : interaction_call) : runtime_store :=
  match c with
  | RegisterCall g => kept st (register_interaction other_form st g)
  | ResolveCall l latest => kept st (resolve_interaction other_form st l latest)
  | ExpireCall now session_id => (expire_due_interactions st now session_id).2
  | RepairCall session_id id expected_updated_at expected_source expected_reply_transport now dry_run =>
      (repair_expire_interaction st session_id id expected_updated_at expected_source expected_reply_transport now dry_run).2
  | ApplyCall events observed_at => kept st (apply_session_runtime other_form st events observed_at)
  | DeleteSessionCall session_id => delete_bounded_live_session_state session_id st
  end.

Definition after_calls (st : runtime_store) (calls : list interaction_call) : runtime_store := fold_left after_call calls st.

(** The events of a call that may reach the table. *)
Definition call_events (st : runtime_store) (c : interaction_call) : list RuntimeEventIngest :=
  match c with
  | RegisterCall g => [registration_event g]
  | ResolveCall l latest =>
      match answered_row st l latest with
      | Ok (Some (r, _)) => if is_pending r && negb (ix_can_respond r =? 0) then [resolution_event l r] else []
      | _ => []
      end
  | ApplyCall events _ => events
  | _ => []
  end.

Lemma ingest_keeps_table st events result st' :
  ingest_live_runtime_events other_form st events = Ok (result, st') → rs_interactions st' = rs_interactions st.
Proof.
  intros (keys & st1 & live & H & -> & _)%ingest_fold. change (rs_interactions (keys, st1).2 = rs_interactions st).
  revert H. apply (fold_res_inv (ingest_one other_form) (λ acc, rs_interactions acc.2 = rs_interactions st)); [|done].
  intros e acc acc' _ IH (previews & o & E & _)%ingest_one_apply. apply apply_frame in E as [-> _]. done.
Qed.

Lemma ingest_interaction_mirrored st e result row st' :
  ingest_interaction other_form st e = Ok (result, row, st') → mirrored e (rs_interactions st) (rs_interactions st').
Proof.
  unfold ingest_interaction. intros H. apply bind_ok in H as ([result1 st1] & E & H).
  apply bind_ok in H as ([row1 table] & Em & H). injection H as _ _ <-. apply ingest_keeps_table in E. rewrite <- E.
  by eapply mirror_cases.
Qed.

Section Keeps.
(** A property of the table that every write keeps. *)
Context (P : interaction_table → Prop).
Hypothesis adopts : ∀ table id r, P table → table !! id = None → by_request_key (ix_request_key r) table = None →
  tight (ix_request_key r) → is_pending r = true → ix_response_payload_json r = None → P (<[id := r]> table).
Hypothesis denies : ∀ table id r reason now, P table → table !! id = Some r → is_pending r = true →
  P (<[id := denied_request reason now r]> table).

Lemma denied_keeps reason now items st :
  NoDup items.*1 → (∀ id r, (id, r) ∈ items → rs_interactions st !! id = Some r ∧ is_pending r = true) →
  P (rs_interactions st) → P (rs_interactions (fold_left (deny_interaction reason now) items st)).
Proof.
  revert st. induction items as [|[id r] items IH]; intros st Hnd Hin HP; [done|].
  apply NoDup_cons in Hnd as [Hid Hnd]. simpl. apply IH; [done| |].
  - intros id2 r2 H2. destruct (Hin id2 r2) as [Hl Hp]; [by right|]. split; [|done].
    simpl. rewrite lookup_insert_ne; [done|]. intros ->. apply Hid, list_elem_of_fmap. by exists (id2, r2).
  - simpl. destruct (Hin id r) as [Hl Hp]; [by left|]. by apply denies.
Qed.

Lemma expire_keeps st now session_id :
  P (rs_interactions st) → P (rs_interactions (expire_due_interactions st now session_id).2).
Proof.
  intros HP. unfold expire_due_interactions.
  assert (P (rs_interactions (fold_left (deny_interaction DEADLINE_REASON now)
            (filter (λ kr, is_due now session_id kr.2 = true) (map_to_list (rs_interactions st))) st))) as H.
  { apply denied_keeps; [| |done].
    - assert (∀ l : list (string * LiveInteractionRequest), NoDup l.*1 →
        NoDup (filter (λ kr, is_due now session_id kr.2 = true) l).*1) as Hf; [|apply Hf, NoDup_fst_map_to_list].
      intros l. induction l as [|[k r] l IH]; intros Hnd; [constructor|]. apply NoDup_cons in Hnd as [Hk Hnd].
      rewrite filter_cons. destruct (decide _); [|by apply IH]. simpl. apply NoDup_cons. split; [|by apply IH].
      intros Hin. apply Hk. apply list_elem_of_fmap in Hin as (kr & -> & Hin). apply list_elem_of_filter in Hin as [_ Hin].
      apply list_elem_of_fmap. by exists kr.
    - intros id r [Hdue Hin]%list_elem_of_filter. apply elem_of_map_to_list in Hin. split; [done|].
      unfold is_due in Hdue. simpl in Hdue. by destruct (is_pending r). }
  destruct (filter _ _); [done|exact H].
Qed.

Lemma answered_row_cases st l latest r st1 :
  answered_row st l latest = Ok (Some (r, st1)) →
  (rs_interactions st !! rl_interaction_id l = Some r ∧ ix_session_id r = rl_session_id l ∧ st1 = st) ∨
  (rs_interactions st !! rl_interaction_id l = None ∧ by_request_key (ix_request_key r) (rs_interactions st) = None ∧
   tight (ix_request_key r) ∧ is_pending r = true ∧ ix_response_payload_json r = None ∧
   st1 = set_interactions (<[rl_interaction_id l := r]> (rs_interactions st)) st).
Proof.
  unfold answered_row. intros H. destruct (rs_interactions st !! rl_interaction_id l ≫= _) as [r0|] eqn:Eo.
  - injection H as -> <-. left. apply bind_Some in Eo as (r0 & Er & Eo).
    destruct (String.eqb_spec (ix_session_id r0) (rl_session_id l)) as [Es|]; [|done]. injection Eo as ->. by split_and!.
  - destruct (latest_row _ _ _ ≫= _) as [r0|] eqn:Ea; [|done]. right. apply bind_ok in H as ([] & Hg%guard_ok & H).
    injection H as -> <-. apply andb_true_iff in Hg as [?%bool_decide_eq_true ?%bool_decide_eq_true].
    apply bind_Some in Ea as ([[key row] at_] & _ & Ea). apply bind_Some in Ea as (f & Ef & Ea).
    destruct (String.eqb _ _); [|done]. injection Ea as <-. split_and!; try done. simpl.
    unfold carried_interaction in Ef. apply bind_Some in Ef as (projection & _ & Ef). apply bind_Some in Ef as (key2 & Ek & Ef).
    injection Ef as <-. by apply tight_clean in Ek.
Qed.

(** The property holds after a call whose events keep it. *)
Lemma call_keeps st c :
  (∀ session_id table, c = DeleteSessionCall session_id → P table →
     P (filter (λ ki, String.eqb (ix_session_id ki.2) session_id = false) table)) →
  (∀ e table table', e ∈ call_events st c → mirrored e table table' → P table → P table') →
  P (rs_interactions st) → P (rs_interactions (after_call st c)).
Proof.
  intros Hdel Hev HP.
  destruct c as [g|l latest|now session_id|session_id id at_ src tr now dry|events observed_at|session_id]; simpl in *.
  - destruct (register_interaction other_form st g) as [[answer st']|] eqn:E; [|done]. simpl. unfold register_interaction in E.
    apply bind_ok in E as (e & Ei & E). assert (e = registration_event g) as ->.
    { unfold ingest in Ei. apply bind_ok in Ei as ([] & _ & Ei). by injection Ei. }
    destruct (negb _); [by injection E as _ <-|]. apply bind_ok in E as ([[result row] st1] & Em & E).
    apply bind_ok in E as (dto & _ & E). injection E as _ <-. apply ingest_interaction_mirrored in Em.
    eapply Hev; [by left|exact Em|done].
  - destruct (resolve_interaction other_form st l latest) as [[answer st']|] eqn:E; [|done]. simpl. unfold resolve_interaction in E.
    apply bind_ok in E as ([[r st1]|] & Ea & E); [|by injection E as _ <-]. rewrite Ea in Hev.
    destruct (is_pending r); cbn [negb andb] in *; [|by injection E as _ <-].
    destruct (ix_can_respond r =? 0); cbn [negb] in *; [by injection E as _ <-|].
    apply bind_ok in E as (e & Ei & E). assert (e = resolution_event l r) as ->.
    { unfold ingest in Ei. apply bind_ok in Ei as ([] & _ & Ei). by injection Ei. }
    apply bind_ok in E as ([[result row] st2] & Em & E). apply bind_ok in E as (dto & _ & E). injection E as _ <-.
    apply ingest_interaction_mirrored in Em. eapply Hev; [by left|exact Em|].
    apply answered_row_cases in Ea as [(_ & _ & ->)|(? & ? & ? & ? & ? & ->)]; [done|]. by apply adopts.
  - by apply expire_keeps.
  - unfold repair_expire_interaction. destruct (rs_interactions st !! id) as [r|] eqn:Er; [|done].
    destruct (String.eqb _ _) eqn:E1; [|done]. destruct (is_pending r) eqn:Ep; [|done].
    destruct (_ && _); [|done]. destruct dry; [done|]. simpl. by apply denies.
  - destruct (apply_session_runtime other_form st events observed_at) as [[[result reduced] st']|] eqn:E; [|done]. simpl.
    unfold apply_session_runtime in E. apply bind_ok in E as ([result1 st1] & Ei & E). apply bind_ok in E as (st2 & Ee & E).
    apply bind_ok in E as (facts & _ & E). apply bind_ok in E as ([db reduced1] & _ & E). injection E as _ _ <-.
    apply ingest_keeps_table in Ei. change (P (rs_interactions st2)). revert Ee.
    apply (fold_res_inv (event_effects other_form (br_updated_runtime_keys result1)) (λ st, P (rs_interactions st))).
    + intros e st3 st4 Hin HP3 E. unfold event_effects in E. apply bind_ok in E as (st5 & E & E2). injection E2 as <-. simpl.
      destruct (_ && _); [|by injection E as <-]. apply bind_ok in E as ([row table] & Em & E). injection E as <-.
      apply mirror_cases in Em. by eapply Hev.
    + simpl. by rewrite Ei.
  - by apply Hdel.
Qed.
End Keeps.
End Calls.
