(* ===== verification/InteractionProps.v ===== *)
(** * Properties of provider interactions

    Who can have allowed a permission, how long an answer stands, what the
    deadline does, and two answers that the catalog loses. *)

From S2P Require Import Prelude PyStr PyTime PyValue MachineEvidence PyText FactStore FactReducer RuntimeEvents.
From S2P Require Import PauseRequests Interactions InputQueue InputStore InputServer ConsoleTurns LiveRuntime.
From S2P Require Import RuntimeStore InteractionStore RuntimeServer.
From S2P Require Import RuntimeLaws RuntimeProps InteractionLaws.

Open Scope list_scope.
Open Scope Z_scope.

(** The answer of a payload. *)
Definition says_allow (response : json_object) : Prop := lower (payload_text response "permissionDecision") = "allow"%string.

(** A row that a reader takes for an allowed permission. *)
Definition allows (r : LiveInteractionRequest) : Prop :=
  is_pending r = false ∧ says_allow (default [] (ix_response_payload_json r)).

Lemma says_allow_null d : says_allow (default [] (null_if_empty d)) ↔ says_allow d.
Proof. by destruct d. Qed.

Lemma empty_says_nothing : ¬ says_allow [].
Proof. done. Qed.

Lemma denial_denies reason : ¬ says_allow (denial reason).
Proof. done. Qed.

Lemma allow_of_decision now row : pd_decision (decision_of now row) = Some "allow"%string → ∃ r, row = Some r ∧ allows r.
Proof.
  destruct row as [r|]; [|done]. simpl. unfold allows. destruct (is_pending r) eqn:Ep; [by destruct (past_deadline now r)|]. simpl.
  intros H. exists r. split; [done|]. split; [done|]. unfold says_allow. by destruct (String.eqb_spec (lower (payload_text
    (default [] (ix_response_payload_json r)) "permissionDecision")) "allow").
Qed.

Section Props.
Context (other_form : string → option datetime).

Abbreviation after := (after_calls other_form).

Lemma after_snoc st calls c : after st (calls ++ [c]) = after_call other_form (after st calls) c.
Proof. unfold after_calls. by rewrite fold_left_app. Qed.

Lemma call_sound st c : table_sound (rs_interactions st) → table_sound (rs_interactions (after_call other_form st c)).
Proof.
  apply call_keeps.
  - intros table id r Hs Hid Hkey Ht Hp Hr. apply insert_sound; [done| |by rewrite Hkey]. split_and!; [done..|by rewrite Hp].
  - intros table id r reason now Hs Hid _. apply insert_sound; [done| |].
    + apply settled_sound; [done|]. by apply (proj1 Hs id).
    + simpl. by rewrite (by_key_sound table id r).
  - intros session_id table _. apply filter_sound.
  - intros e table table' _ Hm. by apply (mirrored_sound e).
Qed.

Lemma calls_sound st calls : table_sound (rs_interactions st) → table_sound (rs_interactions (after st calls)).
Proof.
  intros Hs. induction calls as [|c calls IH] using rev_ind; [done|]. rewrite after_snoc. by apply call_sound.
Qed.

(** ** Who allowed it *)

(** An event that answers [allow] to the request [key]. *)
Definition allowing (e : RuntimeEventIngest) (key : string) : Prop :=
  re_kind e = pause_resolution ∧ pause_runtime_request_key e = key ∧
  ∃ answer, dict_of (first_of (re_payload e) "response_payload" ["response_payload_json"%string]) = Ok answer ∧ says_allow answer.

Lemma allow_step (A : string → Prop) st c :
  (∀ e key, e ∈ call_events st c → allowing e key → A key) →
  table_sound (rs_interactions st) →
  (∀ id r, rs_interactions st !! id = Some r → allows r → A (ix_request_key r)) →
  ∀ id r, rs_interactions (after_call other_form st c) !! id = Some r → allows r → A (ix_request_key r).
Proof.
  intros HA Hs Hall.
  apply (call_keeps other_form (λ table, table_sound table ∧ ∀ id r, table !! id = Some r → allows r → A (ix_request_key r))); [| | | |done].
  - intros table id r [Ht IH] Hid Hkey Hti Hp Hr. split.
    + apply insert_sound; [done| |by rewrite Hkey]. split_and!; [done..|by rewrite Hp].
    + intros id2 r2 [[<- <-]|[_ H2]]%lookup_insert_Some [Hp2 Ha]; [congruence|by eapply IH].
  - intros table id r reason now [Ht IH] Hid Hp. split.
    + apply insert_sound; [done| |by simpl; rewrite (by_key_sound table id r)].
      apply settled_sound; [done|]. by apply (proj1 Ht id).
    + intros id2 r2 [[<- <-]|[_ H2]]%lookup_insert_Some [Hp2 Ha]; [by apply denial_denies in Ha|by eapply IH].
  - intros session_id table _ [Ht IH]. split; [by apply filter_sound|].
    intros id r [H _]%map_lookup_filter_Some. by apply (IH id).
  - intros e table table' Hin Hm [Ht IH]. split; [by eapply mirrored_sound|]. specialize (HA e). revert Ht IH.
    destruct Hm as [|now table1 id r Hk _ H1 Hkey Hp Hr _|now id r answer Hk _ Eb Hp _ Ea]; intros Ht IH; [done| |].
    + intros id2 r2 [[<- <-]|[_ H2]]%lookup_insert_Some [Hp2 Ha]; [congruence|].
      destruct (supersede_by_key _ _ _ _ _ _ _ H1 H2) as (r0 & H0 & [->|[Hp0 ->]]); [by eapply IH|].
      simpl in Ha. destruct (proj1 Ht id2 r0 H0) as (_ & Hnone & _). by rewrite Hnone in Ha.
    + intros id2 r2 [[<- <-]|[_ H2]]%lookup_insert_Some [Hp2 Ha]; [|by eapply IH; [exact H2|split]].
      apply by_request_key_Some in Eb as [_ Ek]. apply HA; [done|]. split; [done|]. split; [done|].
      exists answer. split; [done|]. by apply says_allow_null.
Qed.

(** A call that answers [allow] to the request [key]: an answer in time, or one
    that a provider reports. *)
Definition answers_allow (st : runtime_store) (c : interaction_call) (key : string) : Prop :=
  match c with
  | ResolveCall l latest =>
      ∃ r st1, answered_row st l latest = Ok (Some (r, st1)) ∧ ix_request_key r = key ∧ is_pending r = true ∧
               ix_can_respond r ≠ 0 ∧ too_late l r = false ∧ says_allow (rl_response_payload l)
  | ApplyCall events _ => ∃ e, e ∈ events ∧ allowing e key
  | _ => False
  end.

Lemma allowing_call st c e key :
  table_sound (rs_interactions st) → e ∈ call_events st c → allowing e key → answers_allow st c key.
Proof.
  intros Hs Hin (Hk & Hkey & answer & Ea & Ha). destruct c as [g|l latest|now s|s id at_ src tr now dry|events at_|s]; simpl in *;
    try by apply not_elem_of_nil in Hin.
  - apply list_elem_of_singleton in Hin as ->. done.
  - destruct (answered_row st l latest) as [[[r st1]|]|] eqn:Er; try by apply not_elem_of_nil in Hin.
    destruct (is_pending r) eqn:Ep; [|by apply not_elem_of_nil in Hin].
    destruct (Z.eqb_spec (ix_can_respond r) 0) as [|Hc]; [by apply not_elem_of_nil in Hin|].
    apply list_elem_of_singleton in Hin as ->. exists r, st1.
    assert (tight (ix_request_key r)) as Ht.
    { apply answered_row_cases in Er as [(Hid & _)|(_ & _ & ? & _)]; [|done]. by apply (proj1 Hs _ _ Hid). }
    unfold pause_runtime_request_key in Hkey.
    change (assoc "request_key" (re_payload (resolution_event l r))) with (VStr (ix_request_key r)) in Hkey.
    rewrite clean_str_tight in Hkey by done. split; [done|]. split; [done|]. split; [done|]. split; [done|].
    unfold resolution_event in Ea. destruct (too_late l r); simpl in Ea; [injection Ea as <-; by apply denial_denies in Ha|].
    split; [done|]. destruct (rl_response_payload l) as [|kv d] eqn:Ed; simpl in Ea; injection Ea as <-; done.
  - exists e. split; [done|]. split; [done|]. split; [done|]. by exists answer.
Qed.


(** ** How long an answer stands *)

(** The requests that a call may open. *)
Definition call_requests (c : interaction_call) : list RuntimeEventIngest :=
  match c with
  | RegisterCall g => [registration_event g]
  | ApplyCall events _ => events
  | _ => []
  end.

Lemma requests_of_call st c e : e ∈ call_events st c → re_kind e = pause_request → e ∈ call_requests c.
Proof.
  destruct c; simpl; try done. intros Hin Hk. exfalso.
  destruct (answered_row _ _ _) as [[[r st1]|]|]; try by apply not_elem_of_nil in Hin.
  destruct (_ && _); [|by apply not_elem_of_nil in Hin]. by apply list_elem_of_singleton in Hin as ->.
Qed.

Lemma settled_step st c id r at_ :
  table_sound (rs_interactions st) → rs_interactions st !! id = Some r → is_pending r = false → ix_resolved_at r = Some at_ →
  c ≠ DeleteSessionCall (ix_session_id r) →
  (∀ e now, e ∈ call_requests c → pause_runtime_request_key e = ix_request_key r → utc_wall (re_occurred_at e) = Ok now → now <= at_) →
  rs_interactions (after_call other_form st c) !! id = Some r.
Proof.
  intros Hs Hid Hp Hat Hdel Hle.
  apply (call_keeps other_form (λ table, table_sound table ∧ table !! id = Some r)); [| | | |done].
  - intros table id2 r2 [Ht IH] Hid2 Hkey Hti Hp2 Hr. split.
    + apply insert_sound; [done| |by rewrite Hkey]. split_and!; [done..|by rewrite Hp2].
    + rewrite lookup_insert_ne; [done|]. intros ->. congruence.
  - intros table id2 r2 reason now [Ht IH] Hid2 Hp2. split.
    + apply insert_sound; [done| |by simpl; rewrite (by_key_sound table id2 r2)].
      apply settled_sound; [done|]. by apply (proj1 Ht id2).
    + rewrite lookup_insert_ne; [done|]. intros ->. congruence.
  - intros session_id table -> [Ht IH]. split; [by apply filter_sound|]. apply map_lookup_filter_Some. split; [done|].
    simpl. apply String.eqb_neq. congruence.
  - intros e table table' Hin Hm [Ht IH]. split; [by eapply mirrored_sound|]. pose proof (requests_of_call _ _ _ Hin) as Hreq.
    clear Hin. destruct Hm as [|now table1 id2 r2 Hk Hnow H1 Hkey Hp2 Hr Hfree|now id2 r2 answer Hk _ Eb Hp2 _ Ea]; [done| |].
    + rewrite lookup_insert_ne.
      * destruct H1 as [->| ->]; [done|]. rewrite supersede_rows, IH. simpl. by rewrite Hp, andb_false_r.
      * intros ->. destruct Hfree as [[? _]|(r0 & Eb & Hknown)]; [congruence|]. apply by_request_key_Some in Eb as [E0 Ek].
        assert (r0 = r) as -> by congruence. unfold request_known in Hknown. rewrite Hp, Hat in Hknown.
        specialize (Hle e now (Hreq Hk) (eq_sym Ek) Hnow). apply orb_false_iff in Hknown as [_ Hknown]. simpl in Hknown. lia.
    + rewrite lookup_insert_ne; [done|]. intros ->. apply by_request_key_Some in Eb as [E0 _]. congruence.
Qed.


(** ** The deadline *)

(** The row after an expiry: it is the same, or denied. *)
Definition same_or_denied (r r' : LiveInteractionRequest) : Prop := r' = r ∨ ∃ reason at_, r' = denied_request reason at_ r.

Lemma expired_row st now session_id id r :
  table_sound (rs_interactions st) → rs_interactions st !! id = Some r → is_pending r = true →
  table_sound (rs_interactions (expire_due_interactions st now session_id).2) ∧
  ∃ r', rs_interactions (expire_due_interactions st now session_id).2 !! id = Some r' ∧ same_or_denied r r'.
Proof.
  intros Hs Hid Hp.
  apply (expire_keeps (λ table, table_sound table ∧ ∃ r', table !! id = Some r' ∧ same_or_denied r r')).
  - intros table id2 r2 reason at_ [Ht (r' & Hr' & Hsame)] Hid2 Hp2. split.
    + apply insert_sound; [done| |by simpl; rewrite (by_key_sound table id2 r2)].
      apply settled_sound; [done|]. by apply (proj1 Ht id2).
    + destruct (decide (id2 = id)) as [->|Hne]; [|rewrite lookup_insert_ne by done; by exists r'].
      rewrite lookup_insert_eq. eexists. split; [done|]. right. assert (r2 = r') as -> by congruence.
      destruct Hsame as [->|(reason2 & at2 & ->)]; [eauto|done].
  - split; [done|]. exists r. split; [done|by left].
Qed.

Lemma denied_decision now r r' :
  is_pending r = true → past_deadline now r = true → same_or_denied r r' →
  ∃ reason, decision_of now (Some r') = PermissionDecision true true (Some "deny"%string) reason.
Proof.
  intros Hp Hd [->|(reason & at_ & ->)]; simpl; [rewrite Hp, Hd|]; by eexists.
Qed.

(** C15: After its deadline a permission that nobody answered is denied, however
    it is read and whether or not its expiry has been recorded. *)
Theorem deadline_denies st params observed_at now id r answer st' :
  table_sound (rs_interactions st) → rs_interactions st !! id = Some r → is_pending r = true → past_deadline now r = true →
  asks_permission (the_str (assoc "session_id" params)) r = true →
  assoc "interaction_id" params = VStr id ∨ assoc "request_key" params = VStr (ix_request_key r) →
  handle_decision st params observed_at now = Ok (Answered answer, st') →
  pd_found answer = true ∧ pd_resolved answer = true ∧ pd_decision answer = Some "deny"%string.
Proof.
  intros Hs Hid Hp Hd Hask Hwho H. unfold handle_decision in H. destruct (negb (has_fields _ _)); [done|].
  destruct (negb (is_canonical_uuid _)); [done|]. destruct (Bool.eqb _ _) eqn:Eone; [done|].
  destruct (negb (_ || _)); [done|]. destruct (negb (_ || _)); [done|].
  set (session_id := the_str (assoc "session_id" params)) in *.
  destruct (expired_row st observed_at (Some session_id) id r) as (Hs' & r' & Hr' & Hsame); [done..|].
  destruct (expire_due_interactions st observed_at (Some session_id)) as [[n seq] st1]. simpl in Hs', Hr'.
  injection H as <- _.
  assert (ix_request_key r' = ix_request_key r ∧ asks_permission session_id r' = asks_permission session_id r) as [Ek Ea].
  { by destruct Hsame as [->|(reason & at_ & ->)]. }
  assert (∀ row, row = Some r' → ∃ reason, decision_of now (r0 ← row; if asks_permission session_id r0 then Some r0 else None)
            = PermissionDecision true true (Some "deny"%string) reason) as Hrow.
  { intros row ->. simpl. rewrite Ea, Hask. by apply (denied_decision now r). }
  unfold read_interaction_decision. simpl. destruct Hwho as [E|E]; rewrite E in *.
  - simpl. destruct (Hrow _ Hr') as [reason ->]. done.
  - destruct (assoc "interaction_id" params) eqn:Ei; try done. simpl.
    destruct (Hrow (snd <$> by_request_key (ix_request_key r) (rs_interactions st1))) as [reason ->]; [|done].
    rewrite <- Ek. by rewrite (by_key_sound _ id r').
Qed.

(** ** Answers that are lost *)

Lemma utc_wall_utc t now : utc_wall (utc t) = Ok now → now = t.
Proof.
  unfold utc_wall. simpl. intros H. apply bind_ok in H as (u & [_ ->]%to_utc_ok & [= <-]).
  unfold astimezone_utc, instant. simpl. lia.
Qed.

Lemma own_row st l latest r :
  rs_interactions st !! rl_interaction_id l = Some r → ix_session_id r = rl_session_id l → answered_row st l latest = Ok (Some (r, st)).
Proof. intros Hid Hs. unfold answered_row. rewrite Hid. simpl. by rewrite Hs, String.eqb_refl. Qed.

Lemma resolution_key l r : tight (ix_request_key r) → pause_runtime_request_key (resolution_event l r) = ix_request_key r.
Proof.
  intros Ht. unfold pause_runtime_request_key.
  change (assoc "request_key" (re_payload (resolution_event l r))) with (VStr (ix_request_key r)). by rewrite clean_str_tight.
Qed.

(** An answer stamped before the question was last seen is reported as
    taken, yet the question stays as it was, pending. *)
Theorem early_answer_is_lost st l latest r answer st' :
  table_sound (rs_interactions st) → rs_interactions st !! rl_interaction_id l = Some r →
  ix_session_id r = rl_session_id l → is_pending r = true → ix_can_respond r ≠ 0 → too_late l r = false →
  rl_resolved_at l < ix_last_seen_at r → resolve_interaction other_form st l latest = Ok (answer, st') →
  rs_interactions st' !! rl_interaction_id l = Some r ∧
  ∃ seq, answer = Resolved true None (interaction_dto (rl_interaction_id l) r) seq.
Proof.
  intros Hs Hid Hsess Hp Hc%Z.eqb_neq Hlate Hlt H. unfold resolve_interaction in H. rewrite (own_row st l latest r) in H by done.
  cbn [mbind res_bind] in H. rewrite Hp, Hc, Hlate in H. cbn [negb] in H. apply bind_ok in H as (e & Ei & H).
  assert (e = resolution_event l r) as ->. { unfold ingest in Ei. apply bind_ok in Ei as ([] & _ & Ei). by injection Ei. }
  apply bind_ok in H as ([[result row] st1] & Em & H). apply bind_ok in H as (dto & Ed & H). injection H as <- <-.
  unfold ingest_interaction in Em. apply bind_ok in Em as ([result1 st2] & E & Em). apply ingest_keeps_table in E.
  apply bind_ok in Em as ([row1 table] & Em & Er). injection Er as _ <- <-.
  unfold apply_live_interaction_event in Em. apply bind_ok in Em as (now & ->%utc_wall_utc & Em).
  rewrite resolution_key, E, (by_key_sound _ (rl_interaction_id l) r) in Em by (done || by apply (proj1 Hs _ _ Hid)).
  change (re_kind (resolution_event l r)) with pause_resolution in Em. cbv iota beta in Em. unfold resolve_row in Em.
  apply Z.ltb_lt in Hlt. rewrite Hp, Hlt in Em. cbn [negb mbind res_bind] in Em. injection Em as <- <-.
  simpl in Ed. injection Ed as <-. split; [|by eexists]. simpl. by rewrite insert_id.
Qed.

(** What an expiry leaves of the interaction of a runtime row. *)
Lemma denied_pending reason now items st key row :
  rs_rows st !! key = Some row →
  ∃ row', rs_rows (fold_left (deny_interaction reason now) items st) !! key = Some row' ∧
    (lr_interaction row' = lr_interaction row ∨ lr_interaction row' = no_interaction) ∧
    ((∃ id r, (id, r) ∈ items ∧ ix_runtime_key r = key ∧ ri_id (lr_interaction row) = Some (ix_request_key r)) →
     lr_interaction row' = no_interaction).
Proof.
  revert st row. induction items as [|[id r] items IH]; intros st row Hrow.
  { exists row. split; [done|]. split; [by left|]. intros (? & ? & Hin & _). by apply not_elem_of_nil in Hin. }
  simpl. set (st1 := set_rows _ _).
  assert (∃ row1, rs_rows st1 !! key = Some row1 ∧ (lr_interaction row1 = lr_interaction row ∨ lr_interaction row1 = no_interaction) ∧
    (ix_runtime_key r = key → ri_id (lr_interaction row) = Some (ix_request_key r) → lr_interaction row1 = no_interaction))
    as (row1 & Hrow1 & Hsame & Hcleared).
  { unfold st1. simpl. destruct (decide (ix_runtime_key r = key)) as [->|Hne].
    - rewrite lookup_alter_eq, Hrow. eexists. split; [done|]. unfold clear_interaction.
      destruct (opt_is (ri_id (lr_interaction row)) (ix_request_key r)) eqn:Eo; [split; [by right|done]|].
      split; [by left|]. intros _ Eid. assert (opt_is (ri_id (lr_interaction row)) (ix_request_key r) = true) by by apply opt_is_spec.
      congruence.
    - rewrite lookup_alter_ne by done. exists row. split; [done|]. split; [by left|done]. }
  destruct (IH st1 row1 Hrow1) as (row' & Hrow' & Hsame' & Hcleared'). exists row'. split; [done|]. split.
  - destruct Hsame' as [->| ->]; [done|by right].
  - intros (id2 & r2 & Hin & Hk & Hri). apply elem_of_cons in Hin as [[= -> ->]|Hin].
    + rewrite (Hcleared Hk Hri) in Hsame'. by destruct Hsame'.
    + destruct Hsame as [E|E]; [apply Hcleared'; rewrite E; eauto|]. rewrite E in Hsame'. by destruct Hsame'.
Qed.

Lemma denied_status reason now items st id :
  (∃ r, (id, r) ∈ items) ∨ ix_status <$> rs_interactions st !! id = Some "expired"%string →
  ix_status <$> rs_interactions (fold_left (deny_interaction reason now) items st) !! id = Some "expired"%string.
Proof.
  revert st. induction items as [|[id2 r2] items IH]; intros st Hor; simpl.
  { destruct Hor as [[? Hin]|]; [by apply not_elem_of_nil in Hin|done]. }
  apply IH. destruct (decide (id2 = id)) as [->|Hne]; [right; simpl; by rewrite lookup_insert_eq|].
  destruct Hor as [[r [[= -> ->]|Hin]%elem_of_cons]|E]; [done|by left; exists r|right]. simpl. by rewrite lookup_insert_ne.
Qed.

Lemma due_expires st now session_id id r :
  rs_interactions st !! id = Some r → is_due now session_id r = true →
  ∃ items, (id, r) ∈ items ∧
    (expire_due_interactions st now session_id).2 = advance_runtime_seq now (fold_left (deny_interaction DEADLINE_REASON now) items st).
Proof.
  intros Hid Hdue. unfold expire_due_interactions.
  assert ((id, r) ∈ filter (λ kr, is_due now session_id kr.2 = true) (map_to_list (rs_interactions st))) as Hin.
  { apply list_elem_of_filter. split; [done|]. by apply elem_of_map_to_list. }
  destruct (filter _ _) as [|item items]; [by apply not_elem_of_nil in Hin|]. by eexists.
Qed.

(** A replayed question is ignored while it is pending; after its expiry
    the same replay puts it back on the runtime row as pending, although the
    table has it as expired. *)
Theorem expired_request_returns st now session_id id r row e projection :
  rs_interactions st !! id = Some r → is_due now session_id r = true →
  rs_rows st !! ix_runtime_key r = Some row →
  ri_id (lr_interaction row) = Some (ix_request_key r) → ri_updated_at (lr_interaction row) = Some (ix_last_seen_at r) →
  re_kind e = pause_request → re_runtime_key e = ix_runtime_key r → pause_runtime_request_key e = ix_request_key r →
  utc_wall (re_occurred_at e) = Ok (ix_last_seen_at r) → build_pause_runtime_projection other_form e = Ok projection →
  apply_runtime_event other_form st e = Ok (ignored, st) ∧
  ∃ st1 row1, apply_runtime_event other_form (expire_due_interactions st now session_id).2 e = Ok (applied, st1) ∧
    rs_rows st1 !! ix_runtime_key r = Some row1 ∧ ri_id (lr_interaction row1) = Some (ix_request_key r) ∧
    ri_can_respond (lr_interaction row1) = (if truthy (assoc "can_respond" (re_payload e)) then 1 else 0) ∧
    ix_status <$> rs_interactions st1 !! id = Some "expired"%string.
Proof.
  intros Hid Hdue Hrow Hri Hup Hk Hkey Hreq Hnow Hproj. split.
  - rewrite (apply_pause_known _ st e (ix_last_seen_at r) row) by (done || by rewrite ?Hkey, ?Hk). unfold pause_step.
    assert (pause_outdated (re_kind e) (ix_last_seen_at r) (lr_interaction row) = true) as ->; [|done].
    unfold pause_outdated. rewrite Hup, Hk, Z.eqb_refl. by rewrite orb_true_r.
  - destruct (due_expires st now session_id id r) as (items & Hin & ->); [done..|].
    destruct (denied_pending DEADLINE_REASON now items st _ row Hrow) as (row0 & Hrow0 & _ & Hcl).
    assert (lr_interaction row0 = no_interaction) as Hno by (apply Hcl; eauto).
    rewrite (apply_pause_known _ _ e (ix_last_seen_at r) row0) by (done || by rewrite ?Hkey, ?Hk). unfold pause_step.
    rewrite Hno, Hk, Hproj. simpl. eexists _, _. split; [done|]. split; [rewrite <- Hkey; apply lookup_put_row|].
    split; [by rewrite <- Hreq|]. split; [done|]. simpl. apply denied_status. left. by exists r.
Qed.

(** A request key of 244 characters or more is accepted by the validation of a
    registration, which allows 255, and then overflows the dedupe key of the
    event built from it. *)
Theorem long_request_key_raises st g :
  (244 <= String.length (rg_request_key g))%nat →
  register_interaction other_form st g = Err (ValueError "validation error for RuntimeEventIngest").
Proof.
  intros Hlen. unfold register_interaction, ingest.
  assert (event_bounded (registration_event g) = false) as ->; [|done]. unfold event_bounded.
  assert (length_between 1 255 (re_dedupe_key (registration_event g)) = false) as ->; [|by rewrite andb_false_r].
  unfold length_between. apply andb_false_iff. right. apply Nat.leb_gt.
  change (255 < String.length ("interaction:" +:+ rg_request_key g))%nat. rewrite length_app_s. simpl. lia.
Qed.
End Props.
