(* ===== verification/RuntimeSamples.v ===== *)
(** * Samples of the live runtime lane

    A session with a run and its successor, what their events do, a permission
    prompt, and the witnesses that the properties of runtime events and of
    interactions apply to them. *)

From S2P Require Import Prelude PyStr PyTime PyValue MachineEvidence PyText FactStore FactReducer RuntimeView.
From S2P Require Import RuntimeEvents PauseRequests.
From S2P Require Import LivePreviews InputQueue InputStore InputServer ConsoleTurns Interactions LiveRuntime.
From S2P Require Import RuntimeStore InteractionStore RuntimeServer.
From S2P Require Import RuntimeLaws RuntimeProps RuntimeShown InteractionLaws InteractionProps LivePreviews.

Open Scope string_scope.
Open Scope list_scope.
Open Scope Z_scope.

Definition morning : Z := 63900000000000000.
Definition at_second (n : Z) : Z := morning + n * US_PER_SECOND.
Definition no_other_form : string → option datetime := λ _, None.

Definition helm_id : string := "11111111-0000-4000-8000-000000000001".
Definition first_run : string := "22222222-0000-4000-8000-000000000001".
Definition second_run : string := "22222222-0000-4000-8000-000000000002".
Definition helm_thread : string := "33333333-0000-4000-8000-000000000001".
Definition helm_key : string := "claude:helm".

Definition helm_row : LiveSessionCatalog :=
  SessionCatalog "claude" (Some "cinder") None None None None None None None None None "assist" "bypass" (Some helm_thread)
    None None "snoozed" None morning.

Definition helm_connection : LiveSessionConnection := SessionConnection first_run "helm" "attached" 1 1 1 1 0 None None.
Definition open_run : LiveSessionRun := SessionRun helm_thread "claude" None None "x" morning None None.

Definition helm_start : runtime_store :=
  RuntimeStore (ConsoleStore (InputStore (Catalog ∅ [] [] 0 "") ∅ {[helm_id := helm_row]})
      {[helm_thread := SessionThread helm_id None None None]} [] {[first_run := open_run; second_run := open_run]} ∅ ∅ ∅ ∅ ∅)
    ∅ {[1 := helm_connection]} ∅ ∅ ∅.

Definition helm_event (kind : RuntimeEventKind) (run_id phase : option string) (second : Z) (payload : json_object) : RuntimeEventIngest :=
  RuntimeEvent helm_key (Some helm_id) None run_id "claude" (Some "cinder") "claude_hook" kind phase None
    (utc (at_second second)) None ("event-" +:+ pretty second) payload.

Definition after_event (st : runtime_store) (e : RuntimeEventIngest) : runtime_store :=
  match apply_runtime_event no_other_form st e with Ok (_, st') => st' | Err _ => st end.

Definition outcome_of (st : runtime_store) (e : RuntimeEventIngest) : option RuntimeEventApplyOutcome :=
  match apply_runtime_event no_other_form st e with Ok (o, _) => Some o | Err _ => None end.

Lemma outcome_after st e o : outcome_of st e = Some o → apply_runtime_event no_other_form st e = Ok (o, after_event st e).
Proof. unfold outcome_of, after_event. destruct (apply_runtime_event _ _ _) as [[o' st']|]; [|done]. by intros [= ->]. Qed.

Definition running : RuntimeEventIngest := helm_event phase_signal (Some first_run) (Some "running") 1 [].
Definition completed : RuntimeEventIngest :=
  helm_event terminal_signal (Some first_run) None 5 [("terminal_state", VStr "run_completed")].
Definition running_again : RuntimeEventIngest := helm_event phase_signal (Some first_run) (Some "running") 6 [].
Definition progress : RuntimeEventIngest := helm_event progress_signal (Some first_run) None 7 [].
Definition late_start : RuntimeEventIngest := helm_event phase_signal (Some second_run) (Some "running") 3 [].
Definition successor_completed : RuntimeEventIngest :=
  helm_event terminal_signal (Some second_run) None 9 [("terminal_state", VStr "run_completed")].

Definition helm_running : runtime_store := after_event helm_start running.
Definition helm_ended : runtime_store := after_event helm_running completed.

Definition no_row : LiveRuntimeState := new_row running morning.
Definition row_in (st : runtime_store) : LiveRuntimeState := default no_row (rs_rows st !! helm_key).

Lemma row_in_known st : bool_decide (is_Some (rs_rows st !! helm_key)) = true → rs_rows st !! helm_key = Some (row_in st).
Proof. intros [row E]%bool_decide_eq_true. unfold row_in. by rewrite E. Qed.

Lemma ended_row : rs_rows helm_ended !! helm_key = Some (row_in helm_ended).
Proof. apply row_in_known. vm_compute. reflexivity. Qed.

Lemma ended_name : terminal_name (row_in helm_ended) = "run_completed".
Proof. vm_compute. reflexivity. Qed.

Lemma start_rows : rows_ok helm_start.
Proof. apply map_Forall_empty. Qed.


Lemma terminal_row_is_protected_witness :
  ∃ result st', ingest_live_runtime_events no_other_form helm_ended [running_again; progress] = Ok (result, st') ∧
    ∃ row', rs_rows st' !! helm_key = Some row' ∧
      lr_binding row' = lr_binding (row_in helm_ended) ∧ lr_phase row' = lr_phase (row_in helm_ended) ∧
      lr_clock row' = lr_clock (row_in helm_ended) ∧ lr_terminal row' = lr_terminal (row_in helm_ended).
Proof.
  destruct (ingest_live_runtime_events no_other_form helm_ended [running_again; progress]) as [[result st']|] eqn:E.
  - exists result, st'. split; [reflexivity|].
    apply (terminal_row_is_protected no_other_form helm_ended [running_again; progress] result st' helm_key (row_in helm_ended));
      [apply ended_row| |exact E].
    intros e Hin _. right. split; [rewrite ended_name; by apply str_in_spec|].
    apply elem_of_cons in Hin as [->|Hin]; [split; [right; vm_compute; reflexivity|vm_compute; reflexivity]|].
    apply list_elem_of_singleton in Hin as ->. split; [right; vm_compute; reflexivity|vm_compute; reflexivity].
  - assert (is_ok (ingest_live_runtime_events no_other_form helm_ended [running_again; progress]) = true) as Hok
      by (vm_compute; reflexivity). by rewrite E in Hok.
Defined.

Lemma ended_run_holds_no_control_witness :
  ∃ st', apply_runtime_event no_other_form helm_running completed = Ok (applied, st') ∧
    run_released first_run (at_second 5) helm_running st' ∧
    ∀ id c, rs_connections st' !! id = Some c → cn_run_id c = first_run → cn_state c ∉ OPEN_CONNECTION_STATES.
Proof.
  assert (apply_runtime_event no_other_form helm_running completed = Ok (applied, helm_ended)) as H.
  { apply outcome_after. vm_compute. reflexivity. }
  exists helm_ended. split; [exact H|].
  apply (ended_run_holds_no_control no_other_form helm_running completed (at_second 5) helm_ended first_run open_run);
    [reflexivity|reflexivity|reflexivity|reflexivity|vm_compute; reflexivity|vm_compute; reflexivity|exact H].
Defined.

Definition helm_session : SessionRow :=
  Session None None (Some "machine") None None None None None None None None None.

Lemma phase_is_live_until_its_window_ends_witness :
  rv_presence_state (build_runtime_view (view_state (row_in helm_running)) helm_session (utc (at_second 600))) = Some "running" ∧
  rv_presence_state (build_runtime_view (view_state (row_in helm_running)) helm_session (utc (at_second 601))) = None.
Proof.
  assert (apply_runtime_event no_other_form helm_start running = Ok (applied, helm_running)) as H.
  { apply outcome_after. vm_compute. reflexivity. }
  assert (rs_rows helm_running !! helm_key = Some (row_in helm_running)) as Hrow.
  { apply row_in_known. vm_compute. reflexivity. }
  assert (strip "running" ∈ KNOWN_PHASES) as Hknown by by apply str_in_spec.
  pose proof (λ at_, phase_is_live_until_its_window_ends no_other_form helm_start running (at_second 1) (at_second 1) helm_running
    (row_in helm_running) "running" helm_session at_ eq_refl eq_refl Hknown eq_refl eq_refl H Hrow) as Hshown.
  cbv zeta in Hshown. split.
  - apply Hshown. exists 600000. split; reflexivity.
  - apply Hshown. intros (n & Hn & Hlt). vm_compute in Hn. injection Hn as <-. vm_compute in Hlt. discriminate.
Defined.

Lemma end_of_an_unseen_run_is_ignored_witness :
  ∃ st' row', apply_runtime_event no_other_form helm_ended successor_completed = Ok (ignored, st') ∧
    rs_rows st' !! helm_key = Some row' ∧ rb_run_id (lr_binding row') = Some second_run ∧
    lr_terminal row' = lr_terminal (row_in helm_ended) ∧ cs_runs (rs_console st') !! second_run = Some open_run ∧
    rs_connections st' = rs_connections helm_ended.
Proof.
  apply (end_of_an_unseen_run_is_ignored no_other_form helm_ended successor_completed (at_second 9) (row_in helm_ended)
           second_run open_run).
  - apply ended_row.
  - rewrite ended_name. by apply str_in_spec.
  - reflexivity.
  - by apply str_in_spec.
  - reflexivity.
  - reflexivity.
  - vm_compute. discriminate.
  - vm_compute. reflexivity.
  - reflexivity.
Defined.

Lemma ignored_event_reopens_an_ended_run_witness :
  apply_runtime_event no_other_form helm_ended progress = Ok (protected_terminal, helm_ended) ∧
  ∃ st1 st2 row2, apply_runtime_event no_other_form helm_ended late_start = Ok (ignored, st1) ∧
    apply_runtime_event no_other_form st1 progress = Ok (applied, st2) ∧ rs_rows st2 !! helm_key = Some row2 ∧
    lr_terminal row2 = no_terminal ∧ rb_run_id (lr_binding row2) = rb_run_id (lr_binding (row_in helm_ended)).
Proof.
  apply (ignored_event_reopens_an_ended_run no_other_form helm_ended late_start progress (at_second 3) (at_second 7) (row_in helm_ended)).
  - apply ended_row.
  - rewrite ended_name. by apply str_in_spec.
  - by left.
  - reflexivity.
  - by eexists.
  - vm_compute. discriminate.
  - reflexivity.
  - vm_compute. reflexivity.
  - reflexivity.
  - reflexivity.
  - by eexists.
  - vm_compute. reflexivity.
  - reflexivity.
  - vm_compute. reflexivity.
Defined.

(** ** What a batch promotes *)

Definition ending_batch : res (RuntimeEventBatchResult * ReducerResult * runtime_store) :=
  apply_session_runtime no_other_form helm_running [completed; running_again] (at_second 10).

Definition batch_store : runtime_store := match ending_batch with Ok (_, _, st) => st | Err _ => helm_running end.

(** A phase that the row refuses, because its run has ended, is served as
    the activity of that run all the same when its batch also holds an event
    that the row takes. *)
Theorem refused_phase_is_promoted :
  outcome_of helm_running completed = Some applied ∧ outcome_of helm_ended running_again = Some protected_terminal ∧
  is_ok (apply_session_runtime no_other_form helm_running [completed; running_again] (at_second 10)) = true ∧
  terminal_name (row_in batch_store) = "run_completed" ∧
  ∃ key head, map_to_list (heads (fact_tables batch_store)) = [(key, head)] ∧
    cand_family key = "activity" ∧ cand_subject key = ("run:" ++ first_run)%string ∧
    h_observed_at head = Some (at_second 6) ∧ h_valid_until head = Some (at_second 606) ∧
    canonical_value_json (VDict (activity_value running_again helm_id first_run "running" "claude_hook" (at_second 6) (at_second 606)))
    = Ok (h_value_json head).
Proof.
  split; [vm_compute; reflexivity|]. split; [vm_compute; reflexivity|]. split; [vm_compute; reflexivity|].
  split; [vm_compute; reflexivity|]. eexists _, _. split; [vm_compute; reflexivity|]. vm_compute. by split_and!.
Qed.

(** ** A permission prompt *)

Definition prompt_payload : json_object :=
  [("request_key", VStr "claude:helm:ask-1"); ("kind", VStr "permission_prompt"); ("can_respond", VBool true);
   ("provider_ref", VDict [("source", VStr "claude_permission_gate"); ("reply_transport", VStr "claude_pretooluse_pull")]);
   ("expires_at", VStr (isoformat (utc (at_second 60))))].

Definition prompt : RuntimeEventIngest := helm_event pause_request None None 20 prompt_payload.

Definition store_after (st : runtime_store) (c : interaction_call) : runtime_store := after_call no_other_form st c.

Definition asked : runtime_store := store_after helm_running (ApplyCall [prompt] (at_second 21)).
Definition prompt_id : string := interaction_id "claude:helm:ask-1".

Definition reply (verdict : string) (second : Z) : resolution :=
  Resolution helm_id prompt_id "resolved" [("permissionDecision", VStr verdict)] None (at_second second).

Definition granted : runtime_store := store_after asked (ResolveCall (reply "allow" 30) None).

Definition no_request : LiveInteractionRequest := fallback_request "" no_row 0 (Fallback "" "" "" "" None None None "" false []).
Definition request_in (st : runtime_store) : LiveInteractionRequest := default no_request (rs_interactions st !! prompt_id).

Lemma request_in_known st : bool_decide (is_Some (rs_interactions st !! prompt_id)) = true → rs_interactions st !! prompt_id = Some (request_in st).
Proof. intros [r E]%bool_decide_eq_true. unfold request_in. by rewrite E. Qed.

Lemma no_requests_sound : table_sound (rs_interactions helm_running).
Proof. assert (rs_interactions helm_running = ∅) as -> by (vm_compute; reflexivity). split; [apply map_Forall_empty|done]. Qed.

Lemma asked_sound : table_sound (rs_interactions asked).
Proof. apply (calls_sound no_other_form helm_running [ApplyCall [prompt] (at_second 21)]), no_requests_sound. Qed.

Lemma granted_sound : table_sound (rs_interactions granted).
Proof. apply (call_sound no_other_form asked), asked_sound. Qed.

Lemma asked_request : rs_interactions asked !! prompt_id = Some (request_in asked).
Proof. apply request_in_known. vm_compute. reflexivity. Qed.

Lemma granted_request : rs_interactions granted !! prompt_id = Some (request_in granted).
Proof. apply request_in_known. vm_compute. reflexivity. Qed.

Definition grant_calls : list interaction_call := [ApplyCall [prompt] (at_second 21); ResolveCall (reply "allow" 30) None].



Definition is_answer {A} (r : res (runtime_rpc A * runtime_store)) : bool :=
  match r with Ok (Answered _, _) => true | _ => false end.

Lemma is_answer_spec {A} (r : res (runtime_rpc A * runtime_store)) : is_answer r = true → ∃ a st', r = Ok (Answered a, st').
Proof. destruct r as [[[m|m|a] st']|]; [done|done|eauto|done]. Qed.

Lemma is_ok_spec {A} (r : res A) : is_ok r = true → ∃ a, r = Ok a.
Proof. destruct r; [eauto|done]. Qed.

Definition decision_params : json_object :=
  [("session_id", VStr helm_id); ("interaction_id", VStr prompt_id); ("request_key", VNone)].

Lemma deadline_denies_witness :
  ∃ answer st', handle_decision asked decision_params (at_second 50) (at_second 60) = Ok (Answered answer, st') ∧
    pd_found answer = true ∧ pd_resolved answer = true ∧ pd_decision answer = Some "deny".
Proof.
  assert (is_answer (handle_decision asked decision_params (at_second 50) (at_second 60)) = true) as Hok by (vm_compute; reflexivity).
  destruct (is_answer_spec _ Hok) as (answer & st' & E). exists answer, st'. split; [exact E|].
  apply (deadline_denies asked decision_params (at_second 50) (at_second 60) prompt_id (request_in asked) answer st');
    [apply asked_sound|apply asked_request|vm_compute; reflexivity|vm_compute; reflexivity|vm_compute; reflexivity|left; reflexivity|exact E].
Defined.

Lemma early_answer_is_lost_witness :
  ∃ answer st', resolve_interaction no_other_form asked (reply "allow" 19) None = Ok (answer, st') ∧
    rs_interactions st' !! prompt_id = Some (request_in asked) ∧
    ∃ seq, answer = Resolved true None (interaction_dto prompt_id (request_in asked)) seq.
Proof.
  assert (is_ok (resolve_interaction no_other_form asked (reply "allow" 19) None) = true) as Hok by (vm_compute; reflexivity).
  destruct (is_ok_spec _ Hok) as [[answer st'] E]. exists answer, st'. split; [exact E|].
  apply (early_answer_is_lost no_other_form asked (reply "allow" 19) None (request_in asked) answer st');
    [apply asked_sound|apply asked_request|vm_compute; reflexivity|vm_compute; reflexivity|vm_compute; discriminate
    |vm_compute; reflexivity|vm_compute; reflexivity|exact E].
Defined.

Lemma expired_request_returns_witness :
  apply_runtime_event no_other_form asked prompt = Ok (ignored, asked) ∧
  ∃ st1 row1, apply_runtime_event no_other_form (expire_due_interactions asked (at_second 60) None).2 prompt = Ok (applied, st1) ∧
    rs_rows st1 !! helm_key = Some row1 ∧ ri_id (lr_interaction row1) = Some "claude:helm:ask-1" ∧
    ri_can_respond (lr_interaction row1) = 1 ∧ ix_status <$> rs_interactions st1 !! prompt_id = Some "expired".
Proof.
  assert (is_ok (build_pause_runtime_projection no_other_form prompt) = true) as Hok by (vm_compute; reflexivity).
  destruct (is_ok_spec _ Hok) as [projection E].
  assert (rs_rows asked !! ix_runtime_key (request_in asked) = Some (row_in asked)) as Hrow.
  { assert (ix_runtime_key (request_in asked) = helm_key) as -> by (vm_compute; reflexivity).
    apply row_in_known. vm_compute. reflexivity. }
  assert (ix_request_key (request_in asked) = "claude:helm:ask-1" ∧ ix_runtime_key (request_in asked) = helm_key ∧
          ix_last_seen_at (request_in asked) = at_second 20) as (Ekey & Erun & Eseen) by (vm_compute; by split_and!).
  pose proof (expired_request_returns no_other_form asked (at_second 60) None prompt_id (request_in asked) (row_in asked) prompt projection
    asked_request) as H. rewrite Ekey, Erun, Eseen in H. apply H;
    [vm_compute; reflexivity|by rewrite <- Erun|vm_compute; reflexivity|vm_compute; reflexivity|reflexivity|reflexivity
    |vm_compute; reflexivity|vm_compute; reflexivity|exact E].
Defined.

(** ** Previews out of order *)

Definition delta_event (seq : Z) (shown : string) : RuntimeEventIngest :=
  RuntimeEvent "codex:one" (Some helm_id) None None "codex" None "codex_bridge_live" progress_signal None None
    (utc (at_second seq)) None ("delta-" ++ pretty seq)
    [("progress_kind", VStr "bridge_live_transcript_delta"); ("live_text", VStr shown); ("seq", VInt seq); ("turn_id", VStr "t1")].

Definition delta (seq : Z) (shown : string) : LivePreviewCandidate :=
  codex_candidate (delta_event seq shown) helm_id ("live:codex_bridge_live:delta-" ++ pretty seq) (at_second seq) "codex_bridge_live" false.

Definition deltas : list LivePreviewCandidate := [delta 3 "Hello there"; delta 1 "He"; delta 2 "Hello"].

Example delta_is_candidate :
  live_preview_candidate_from_runtime_event (delta_event 3 "Hello there") "live:codex_bridge_live:delta-3" = Ok (Some (delta 3 "Hello there")).
Proof. vm_compute. reflexivity. Qed.

Lemma furthest_candidate_is_shown_witness :
  ∃ previews', upsert_previews deltas ∅ = Ok previews' ∧
    ∃ c, c ∈ deltas ∧ previews' !! helm_id = Some (preview_row c) ∧ Forall (λ d, no_further d c) deltas.
Proof.
  assert (is_ok (upsert_previews deltas ∅) = true) as Hok by (vm_compute; reflexivity).
  destruct (is_ok_spec _ Hok) as [previews' E]. exists previews'. split; [exact E|].
  apply (furthest_candidate_is_shown helm_id (pc_turn_key (delta 1 "He")) deltas ∅ previews').
  - reflexivity.
  - discriminate.
  - repeat constructor.
  - assert (∀ c d : LivePreviewCandidate, c ∈ deltas → d ∈ deltas → c = d ∨ pc_last_observation_id c ≠ pc_last_observation_id d) as H.
    { intros c d Hc Hd. unfold deltas in Hc, Hd. rewrite !elem_of_cons, elem_of_nil in Hc, Hd.
      destruct Hc as [->|[->|[->|[]]]], Hd as [->|[->|[->|[]]]]; (by left) || (right; vm_compute; discriminate). }
    intros c d Hc Hd Hid. by destruct (H c d Hc Hd).
  - exact E.
Defined.
