(* ===== verification/ConsoleLaws.v ===== *)
(** * Laws of Console turns

    Selections of turns, the invariant of the turns of a store, and what the
    parts of the two transactions do to it. *)

From S2P Require Import Prelude PyStr PyTime PyValue MachineEvidence PyJson PyText InputQueue FactStore FactReducer.
From S2P Require Import InputStore ConsoleTurns.

Open Scope list_scope.
Open Scope Z_scope.

(** ** Selections *)

Lemma elem_of_select_turns P turns id t :
  (id, t) ∈ select_turns P turns ↔ turns !! id = Some t ∧ P t = true.
Proof. unfold select_turns. rewrite list_elem_of_filter, elem_of_map_to_list. tauto. Qed.

Lemma head_select_turns P turns id t :
  head (select_turns P turns) = Some (id, t) → turns !! id = Some t ∧ P t = true.
Proof.
  intros H. apply elem_of_select_turns. destruct (select_turns P turns); [done|]. injection H as ->. left.
Qed.

Lemma select_turns_nil P turns : select_turns P turns = [] ↔ ∀ id t, turns !! id = Some t → P t = false.
Proof.
  split.
  - intros E id t Ht. destruct (P t) eqn:EP; [|done].
    assert ((id, t) ∈ select_turns P turns) as Hin by by apply elem_of_select_turns.
    rewrite E in Hin. set_solver.
  - intros H. destruct (select_turns P turns) as [|[id t] l] eqn:E; [done|].
    assert ((id, t) ∈ select_turns P turns) as [Ht HP]%elem_of_select_turns by (rewrite E; left).
    by rewrite (H _ _ Ht) in HP.
Qed.

(** A selection of one row, whatever the order of the table. *)
Lemma head_select_unique P turns id t :
  turns !! id = Some t → P t = true → (∀ id' t', turns !! id' = Some t' → P t' = true → id' = id) →
  head (select_turns P turns) = Some (id, t).
Proof.
  intros Ht HP Hu. assert ((id, t) ∈ select_turns P turns) as Hin by by apply elem_of_select_turns.
  destruct (select_turns P turns) as [|[id' t'] l] eqn:E; [set_solver|].
  assert ((id', t') ∈ select_turns P turns) as [Ht' HP']%elem_of_select_turns by (rewrite E; left).
  pose proof (Hu _ _ Ht' HP') as ->. simpl. congruence.
Qed.

Lemma elem_of_turn_keys P turns k :
  k ∈ py_sorted turn_cmp (map turn_key (select_turns P turns)) ↔
  ∃ t, turns !! k.2 = Some t ∧ P t = true ∧ tn_created_at t = k.1.
Proof.
  rewrite (elem_of_py_sorted turn_cmp). rewrite list_elem_of_fmap. split.
  - intros ([id t] & -> & [Ht HP]%elem_of_select_turns). by exists t.
  - intros (t & Ht & HP & E). exists (k.2, t). split; [|by apply elem_of_select_turns].
    destruct k; unfold turn_key; simpl in *. by subst.
Qed.

(** The first turn is the least of the selected ones. *)
Definition is_first (P : LiveConsoleTurn → bool) (turns : turn_table) (id : string) (t : LiveConsoleTurn) : Prop :=
  turns !! id = Some t ∧ P t = true ∧
  ∀ id' t', turns !! id' = Some t' → P t' = true → cmp_le turn_cmp (turn_key (id, t)) (turn_key (id', t')).

Lemma first_turn_some P turns id t : first_turn P turns = Some (id, t) → is_first P turns id t.
Proof.
  unfold first_turn. pose proof (py_sorted_sorted turn_cmp (map turn_key (select_turns P turns))) as Hs.
  pose proof (elem_of_turn_keys P turns) as Hk. destruct (py_sorted _ _) as [|k ks]; [done|].
  destruct (proj1 (Hk k) ltac:(left)) as (t0 & Ht & HP & Ec). cbn. rewrite Ht. cbn.
  intros [= <- <-]. split; [done|]. split; [done|]. intros id' t' Ht' HP'.
  assert (turn_key (k.2, t0) = k) as -> by (destruct k; unfold turn_key; simpl in *; by subst).
  assert (turn_key (id', t') ∈ k :: ks) as [E|Hin]%elem_of_cons by (apply Hk; by exists t').
  - rewrite E. unfold cmp_le. by rewrite (cmp_self turn_cmp).
  - apply StronglySorted_inv in Hs as [_ Hall]. rewrite Forall_forall in Hall. by apply Hall.
Qed.

Lemma first_turn_none P turns : first_turn P turns = None ↔ ∀ id t, turns !! id = Some t → P t = false.
Proof.
  rewrite <- select_turns_nil. unfold first_turn. pose proof (elem_of_turn_keys P turns) as Hk. split.
  - intros H. apply select_turns_nil. intros id t Ht. destruct (P t) eqn:E; [|done].
    assert (turn_key (id, t) ∈ py_sorted turn_cmp (map turn_key (select_turns P turns))) as Hin by (apply Hk; by exists t).
    destruct (py_sorted _ _) as [|k ks]; [set_solver|]. destruct (proj1 (Hk k) ltac:(left)) as (t0 & Ht0 & _).
    cbn in H. by rewrite Ht0 in H.
  - intros ->. done.
Qed.

Lemma is_first_unique P turns id t id' t' : is_first P turns id t → is_first P turns id' t' → id = id' ∧ t = t'.
Proof.
  intros (Ht & HP & Hm) (Ht' & HP' & Hm'). specialize (Hm _ _ Ht' HP'). specialize (Hm' _ _ Ht HP).
  assert (turn_key (id, t) = turn_key (id', t')) as E by by apply (cmp_le_antisym turn_cmp).
  unfold turn_key in E. simpl in E. injection E as _ <-. split; [done|congruence].
Qed.

Lemma is_first_first P turns id t : is_first P turns id t → first_turn P turns = Some (id, t).
Proof.
  intros H. destruct (first_turn P turns) as [[id' t']|] eqn:E.
  - apply first_turn_some in E. by destruct (is_first_unique _ _ _ _ _ _ H E) as [-> ->].
  - destruct H as (Ht & HP & _). rewrite first_turn_none in E. by rewrite (E _ _ Ht) in HP.
Qed.

(** The index on the owner of a thread. *)
Lemma one_owner_spec thread_id turns :
  one_owner thread_id turns = true ↔
  ∀ id1 t1 id2 t2, turns !! id1 = Some t1 → turns !! id2 = Some t2 →
    owns_thread thread_id t1 = true → owns_thread thread_id t2 = true → id1 = id2.
Proof.
  unfold one_owner. rewrite Nat.leb_le. set (P := owns_thread thread_id).
  assert (NoDup (select_turns P turns).*1) as Hnd.
  { unfold select_turns. eapply sublist_NoDup; [apply (NoDup_fst_map_to_list turns)|].
    apply fmap_sublist, sublist_filter. }
  split.
  - intros Hl id1 t1 id2 t2 H1 H2 P1 P2.
    assert ((id1, t1) ∈ select_turns P turns) as I1 by by apply elem_of_select_turns.
    assert ((id2, t2) ∈ select_turns P turns) as I2 by by apply elem_of_select_turns.
    destruct (select_turns P turns) as [|x [|y l]]; simpl in Hl; [set_solver| |lia].
    apply list_elem_of_singleton in I1, I2. congruence.
  - intros Hu. destruct (select_turns P turns) as [|[id1 t1] [|[id2 t2] l]] eqn:E; simpl; [lia..|].
    assert ((id1, t1) ∈ select_turns P turns) as [H1 P1]%elem_of_select_turns by (rewrite E; left).
    assert ((id2, t2) ∈ select_turns P turns) as [H2 P2]%elem_of_select_turns by (rewrite E; right; left).
    pose proof (Hu _ _ _ _ H1 H2 P1 P2) as ->. simpl in Hnd. apply NoDup_cons in Hnd as [Hn _].
    exfalso. apply Hn. left.
Qed.

Lemma owns_thread_spec thread_id t :
  owns_thread thread_id t = true ↔ tn_thread_id t = thread_id ∧ tn_state t ∈ OWNER_STATES.
Proof. unfold owns_thread. by rewrite andb_true_iff, String.eqb_eq, str_in_spec. Qed.

Lemma waits_in_spec thread_id t : waits_in thread_id t = true ↔ tn_thread_id t = thread_id ∧ tn_state t = "queued"%string.
Proof. unfold waits_in. by rewrite andb_true_iff, !String.eqb_eq. Qed.

Lemma run_unused_spec run_id st :
  run_unused run_id st = true ↔
  cs_runs st !! run_id = None ∧ ∀ id t, cs_turns st !! id = Some t → tn_run_id t ≠ Some run_id.
Proof.
  unfold run_unused. rewrite andb_true_iff, !bool_decide_eq_true, select_turns_nil.
  split; (intros [H1 H2]; split; [done|]); intros id t Ht.
  - intros E. apply opt_is_spec in E. by rewrite (H2 _ _ Ht) in E.
  - apply not_true_iff_false. rewrite opt_is_spec. by eapply H2.
Qed.

(** ** The states *)

Lemma owner_not_queued s : s ∈ OWNER_STATES → s ≠ "queued"%string.
Proof. by intros H%str_in_spec ->. Qed.

Lemma terminal_not_queued s : s ∈ TERMINAL_STATES → s ≠ "queued"%string.
Proof. by intros H%str_in_spec ->. Qed.

Lemma terminal_not_owner s : s ∈ TERMINAL_STATES → s ∉ OWNER_STATES.
Proof.
  unfold TERMINAL_STATES. rewrite !elem_of_cons, elem_of_nil.
  by intros [->|[->|[->|[]]]] H%str_in_spec.
Qed.

(** ** The invariant *)

(** [idle] is a thread that may be without owner though a turn waits: the one
    whose turn has just ended, or has just been enqueued. *)
Record turns_ok (idle : option string) (st : console_store) : Prop := {
  ok_state : ∀ id t, cs_turns st !! id = Some t → tn_state t ∈ "queued"%string :: OWNER_STATES ++ TERMINAL_STATES;
  ok_waiting : ∀ id t, cs_turns st !! id = Some t → tn_run_id t = None ↔ tn_state t = "queued"%string;
  ok_own_run : ∀ id1 t1 id2 t2 r, cs_turns st !! id1 = Some t1 → cs_turns st !! id2 = Some t2 →
    tn_run_id t1 = Some r → tn_run_id t2 = Some r → id1 = id2;
  ok_own_receipt : ∀ id1 t1 id2 t2, cs_turns st !! id1 = Some t1 → cs_turns st !! id2 = Some t2 →
    tn_receipt_id t1 = tn_receipt_id t2 → id1 = id2;
  ok_one : ∀ th id1 t1 id2 t2, cs_turns st !! id1 = Some t1 → cs_turns st !! id2 = Some t2 →
    owns_thread th t1 = true → owns_thread th t2 = true → id1 = id2;
  ok_served : ∀ id t, cs_turns st !! id = Some t → tn_state t = "queued"%string → idle ≠ Some (tn_thread_id t) →
    ∃ id' t', cs_turns st !! id' = Some t' ∧ owns_thread (tn_thread_id t) t' = true;
}.

(** Case analysis on a lookup in a table with one row rewritten. *)
Ltac by_turn :=
  repeat match goal with
  | H : <[_ := _]> _ !! _ = Some _ |- _ =>
      let Ek := fresh "Ek" in let Ev := fresh "Ev" in
      apply lookup_insert_Some in H as [[Ek Ev]|[Ek H]]; subst; simpl in *
  end.

(** A waiting turn of a thread starts. *)
Lemma start_turn_ok th st id run_id alias now t st' :
  turns_ok (Some th) st → cs_turns st !! id = Some t → tn_state t = "queued"%string → tn_thread_id t = th →
  start_turn id run_id alias now t st = Ok st' → turns_ok None st'.
Proof.
  intros Hok Ht Hq Hth H. unfold start_turn in H. apply bind_ok in H as ([] & Hg & [= <-]).
  apply guard_ok, andb_true_iff in Hg as [[Hfr Hft]%run_unused_spec Hone]. simpl in Hone.
  split; simpl.
  - intros id0 t0 H0. by_turn; [set_solver|]. by eapply (ok_state _ _ Hok).
  - intros id0 t0 H0. by_turn; [naive_solver|]. by eapply (ok_waiting _ _ Hok).
  - intros id1 t1 id2 t2 r H1 H2 R1 R2. by_turn; [done| | |].
    + simplify_eq. by destruct (Hft _ _ H1).
    + simplify_eq. by destruct (Hft _ _ H2).
    + by eapply (ok_own_run _ _ Hok).
  - intros id1 t1 id2 t2 H1 H2 E. by_turn; [done|by eapply (ok_own_receipt _ _ Hok)..].
  - intros th0 id1 t1 id2 t2 H1 H2 O1 O2. destruct (decide (th0 = tn_thread_id t)) as [->|Hne].
    + by eapply one_owner_spec.
    + by_turn; [done|..]; try (apply owns_thread_spec in O1 as [? _]; done); try (apply owns_thread_spec in O2 as [? _]; done).
      by eapply (ok_one _ _ Hok th0).
  - intros id0 t0 H0 Q0 _. by_turn; [done|]. destruct (decide (tn_thread_id t0 = tn_thread_id t)) as [E|Hne].
    + exists id, (started run_id alias now t). rewrite lookup_insert_eq. split; [done|]. apply owns_thread_spec. simpl.
      split; [done|set_solver].
    + destruct (ok_served _ _ Hok _ _ H0 Q0) as (id' & t' & H' & O'); [congruence|].
      exists id', t'. rewrite lookup_insert_ne; [done|]. intros ->. apply owns_thread_spec in O' as [? _]. congruence.
Qed.

(** The invariant reads the turns alone. *)
Lemma turns_ok_transfer idle st st' : cs_turns st' = cs_turns st → turns_ok idle st → turns_ok idle st'.
Proof. intros Et []. by split; rewrite Et. Qed.

Lemma turns_ok_served idle st :
  turns_ok None st → turns_ok idle st.
Proof. intros []. split; try done. intros id t Ht Hq _. by eauto. Qed.

(** When nothing waits in the idle thread, every waiting turn is served. *)
Lemma turns_ok_idle th st :
  turns_ok (Some th) st → (∀ id t, cs_turns st !! id = Some t → waits_in th t = false) → turns_ok None st.
Proof.
  intros Hok Hn. destruct Hok as [H1 H2 H3 H4 H5 Hs]. split; try done. intros id t Ht Hq _.
  apply (Hs id t Ht Hq). intros [= ->]. specialize (Hn _ _ Ht). apply not_true_iff_false in Hn. by apply Hn, waits_in_spec.
Qed.

Lemma start_next_ok float th st run_id now next st' :
  turns_ok (Some th) st → start_next float st th run_id now = Ok (next, st') → turns_ok None st'.
Proof.
  intros Hok H. unfold start_next in H. destruct (first_turn _ _) as [[id t]|] eqn:E.
  - apply first_turn_some in E as (Ht & [Hth Hq]%waits_in_spec & _).
    apply bind_ok in H as (st1 & Hs & H). apply bind_ok in H as (d & _ & [= _ <-]). by eapply start_turn_ok.
  - injection H as _ <-. rewrite first_turn_none in E. by eapply turns_ok_idle.
Qed.

(** A turn that holds its thread moves on. *)
Lemma moved_ok st id t s error now :
  turns_ok None st → cs_turns st !! id = Some t → tn_state t ∈ OWNER_STATES → s ∈ OWNER_STATES →
  turns_ok None (put_turn id (moved_to s error now t) st).
Proof.
  intros Hok Ht Ho Hs. pose proof (owner_not_queued _ Hs) as Hsq. pose proof (owner_not_queued _ Ho) as Hq.
  assert (∀ th, owns_thread th (moved_to s error now t) = true → owns_thread th t = true) as Hown.
  { intros th. rewrite !owns_thread_spec. simpl. naive_solver. }
  split; simpl.
  - intros id0 t0 H0. by_turn; [set_solver|]. by eapply (ok_state _ _ Hok).
  - intros id0 t0 H0. by_turn; [split; [intros ?%(ok_waiting _ _ Hok _ _ Ht); done|done]|]. by eapply (ok_waiting _ _ Hok).
  - intros id1 t1 id2 t2 r H1 H2 R1 R2. by_turn; [done|by eapply (ok_own_run _ _ Hok)..].
  - intros id1 t1 id2 t2 H1 H2 E. by_turn; [done|by eapply (ok_own_receipt _ _ Hok)..].
  - intros th id1 t1 id2 t2 H1 H2 O1 O2. by_turn; [done|by eapply (ok_one _ _ Hok th); eauto..].
  - intros id0 t0 H0 Q0 _. by_turn; [done|]. destruct (ok_served _ _ Hok _ _ H0 Q0 ltac:(done)) as (id' & t' & H' & O').
    destruct (decide (id' = id)) as [->|Hne].
    + simplify_eq. exists id, (moved_to s error now t). rewrite lookup_insert_eq. split; [done|].
      apply owns_thread_spec in O' as [? _]. by apply owns_thread_spec.
    + exists id', t'. by rewrite lookup_insert_ne.
Qed.

(** A turn that holds its thread ends. *)
Lemma ended_ok st id t s error now :
  turns_ok None st → cs_turns st !! id = Some t → tn_state t ∈ OWNER_STATES → s ∈ TERMINAL_STATES →
  turns_ok (Some (tn_thread_id t)) (put_turn id (moved_to s error now t) st).
Proof.
  intros Hok Ht Ho Hs. pose proof (terminal_not_queued _ Hs) as Hsq. pose proof (owner_not_queued _ Ho) as Hq.
  pose proof (terminal_not_owner _ Hs) as Hso.
  split; simpl.
  - intros id0 t0 H0. by_turn; [set_solver|]. by eapply (ok_state _ _ Hok).
  - intros id0 t0 H0. by_turn; [split; [intros ?%(ok_waiting _ _ Hok _ _ Ht); done|done]|]. by eapply (ok_waiting _ _ Hok).
  - intros id1 t1 id2 t2 r0 H1 H2 R1 R2. by_turn; [done|by eapply (ok_own_run _ _ Hok)..].
  - intros id1 t1 id2 t2 H1 H2 E. by_turn; [done|by eapply (ok_own_receipt _ _ Hok)..].
  - intros th id1 t1 id2 t2 H1 H2 O1 O2.
    by_turn; [done|by apply owns_thread_spec in O2 as [_ ?]|by apply owns_thread_spec in O1 as [_ ?]|].
    by eapply (ok_one _ _ Hok th).
  - intros id0 t0 H0 Q0 Hne. by_turn; [done|]. destruct (ok_served _ _ Hok _ _ H0 Q0 ltac:(done)) as (id' & t' & H' & O').
    exists id', t'. rewrite lookup_insert_ne; [done|]. intros ->. simplify_eq. apply owns_thread_spec in O' as [? _]. congruence.
Qed.

(** A turn enters its thread's queue. *)
Lemma enqueued_ok st id t :
  turns_ok None st → cs_turns st !! id = None → tn_state t = "queued"%string → tn_run_id t = None →
  turn_of_receipt (tn_receipt_id t) st = None →
  turns_ok (Some (tn_thread_id t)) (put_turn id t st).
Proof.
  intros Hok Hid Hq Hrun Hnone.
  assert (∀ id0 t0, cs_turns st !! id0 = Some t0 → tn_receipt_id t0 ≠ tn_receipt_id t) as Hfresh.
  { intros id0 t0 H0 E. unfold turn_of_receipt in Hnone.
    destruct (select_turns _ _) eqn:Es; [|done]. rewrite select_turns_nil in Es. specialize (Es _ _ H0).
    simpl in Es. by apply String.eqb_neq in Es. }
  split; simpl.
  - intros id0 t0 H0. by_turn; [rewrite Hq; left|]. by eapply (ok_state _ _ Hok).
  - intros id0 t0 H0. by_turn; [naive_solver|]. by eapply (ok_waiting _ _ Hok).
  - intros id1 t1 id2 t2 r H1 H2 R1 R2. by_turn; [done|congruence..|by eapply (ok_own_run _ _ Hok)].
  - intros id1 t1 id2 t2 H1 H2 E. by_turn; [done| | |by eapply (ok_own_receipt _ _ Hok)].
    + by destruct (Hfresh _ _ H1).
    + by destruct (Hfresh _ _ H2).
  - assert (∀ th, owns_thread th t = false) as Hno.
    { intros th. apply not_true_iff_false. rewrite owns_thread_spec, Hq. set_solver. }
    intros th id1 t1 id2 t2 H1 H2 O1 O2. by_turn; [done|by rewrite Hno in *..|by eapply (ok_one _ _ Hok th)].
  - intros id0 t0 H0 Q0 Hne. by_turn; [done|]. destruct (ok_served _ _ Hok _ _ H0 Q0 ltac:(done)) as (id' & t' & H' & O').
    exists id', t'. rewrite lookup_insert_ne; [done|]. congruence.
Qed.
