(* ===== verification/ConsoleProps.v ===== *)
(** * Properties of Console turns

    The calls of the catalog as steps of its store, the invariant of every
    reachable store, and what the two transactions do: a message is accepted
    once, and the end of a turn starts the oldest waiting one, once. *)

From S2P Require Import Prelude PyStr PyTime PyValue MachineEvidence PyJson PyText InputQueue FactStore FactReducer.
From S2P Require Import FactReads.
From S2P Require Import ConsoleControl ProviderContracts Capabilities RuntimeView Liveness StateContract SessionState.
From S2P Require Import StateProjector StateProjectorLaws ProjectorProps InputStore InputServer InputLaws InputProps.
From S2P Require Import ConsoleTurns ConsoleServer ConsoleLaws.

Open Scope list_scope.
Open Scope Z_scope.

Section Transactions.
Context (float : string → pyval).

Abbreviation enqueue := (enqueue_console_turn float).
Abbreviation update := (update_console_turn float).

(** ** What an enqueue did *)

Lemma enqueue_accepted st m ids d seq st' :
  enqueue st m ids = Ok (TurnAccepted d seq, st') →
  ∃ session thread_id thread device_id cwd turn st2,
    st_sessions (cs_inputs st) !! cm_session_id m = Some session ∧
    lc_primary_thread_id session ≫= or_none = Some thread_id ∧
    session_belongs_to_owner st (cm_session_id m) (cm_owner_id m) = true ∧
    execution_target (cs_threads st !! thread_id) = Some (thread, device_id, cwd) ∧
    head (select_receipts (by_client_request (cm_owner_id m) (cm_session_id m) (cm_client_request_id m)) (cs_receipts st)) = None ∧
    turn = new_console_turn m thread_id (fresh_receipt ids) (lc_provider session) device_id cwd
             (resume_alias st thread_id (lc_provider session)) ∧
    cs_receipts st !! fresh_receipt ids = None ∧ cs_turns st !! fresh_turn ids = None ∧
    turn_of_receipt (fresh_receipt ids) st = None ∧
    (let st1 := put_turn (fresh_turn ids) turn (set_receipts (<[fresh_receipt ids :=
                  new_console_receipt m thread_id (lc_provider session) device_id]>) st) in
     (select_turns (owns_thread thread_id) (cs_turns st1) = [] ∧
        start_turn (fresh_turn ids) (fresh_run ids) (resume_alias st thread_id (lc_provider session)) (cm_created_at m) turn st1
        = Ok st2) ∨
     (select_turns (owns_thread thread_id) (cs_turns st1) ≠ [] ∧ st2 = st1)) ∧
    console_turn_dto float (fresh_turn ids, default turn (cs_turns st2 !! fresh_turn ids)) (Some (cm_message m))
      (Some (cm_client_request_id m)) (th_provider_config_json thread) = Ok d ∧
    st' = advance_console_seq (cm_created_at m) st2.
Proof.
  intros H. unfold enqueue_console_turn in H.
  destruct (st_sessions (cs_inputs st) !! cm_session_id m) as [session|]; [|done].
  destruct (lc_primary_thread_id session ≫= or_none) as [thread_id|] eqn:Eth; [|done].
  destruct (session_belongs_to_owner st (cm_session_id m) (cm_owner_id m)) eqn:Eown; cbn [negb] in H; [|done].
  destruct (execution_target (cs_threads st !! thread_id)) as [[[thread device_id] cwd]|] eqn:Etg; [|done].
  destruct (head _) as [[receipt_id receipt]|] eqn:Ehead.
  - destruct (turn_of_receipt receipt_id st); [|done]. by apply bind_ok in H as (? & _ & ?).
  - apply bind_ok in H as ([] & Hg & H). apply guard_ok in Hg. rewrite !andb_true_iff, !bool_decide_eq_true in Hg.
    destruct Hg as [[Hr Ht] Hn]. apply bind_ok in H as (st2 & Hs & H). apply bind_ok in H as (d' & Hd & H).
    injection H as -> _ <-.
    exists session, thread_id, thread, device_id, cwd, (new_console_turn m thread_id (fresh_receipt ids) (lc_provider session)
      device_id cwd (resume_alias st thread_id (lc_provider session))), st2.
    split_and!; try done. case_bool_decide as Eb; [by left|right]. by injection Hs as <-.
Qed.

(** Any other answer leaves the store as it was. *)
Lemma enqueue_refused st m ids a st' :
  enqueue st m ids = Ok (a, st') → (∃ d seq, a = TurnAccepted d seq) ∨ st' = st.
Proof.
  unfold enqueue_console_turn. intros H.
  destruct (st_sessions _ !! _) as [session|]; [|simplify_eq; by right].
  destruct (lc_primary_thread_id session ≫= or_none) as [thread_id|]; [|simplify_eq; by right].
  destruct (negb _); [simplify_eq; by right|].
  destruct (execution_target _) as [[[thread device_id] cwd]|]; [|simplify_eq; by right].
  destruct (head _) as [[receipt_id receipt]|].
  - destruct (turn_of_receipt receipt_id st); [|done]. apply bind_ok in H as (? & _ & ?). simplify_eq. by right.
  - apply bind_ok in H as ([] & _ & H). apply bind_ok in H as (st2 & _ & H). apply bind_ok in H as (d & _ & H).
    simplify_eq. left. eauto.
Qed.

Lemma enqueue_ok st m ids a st' : turns_ok None st → enqueue st m ids = Ok (a, st') → turns_ok None st'.
Proof.
  intros Hok H. destruct (enqueue_refused _ _ _ _ _ H) as [(d & seq & ->)| ->]; [|done].
  apply enqueue_accepted in H as (session & th & thread & device & cwd & turn & st2 & _ & _ & _ & _ & _ & -> & Hr & Ht & Hn & Hs & _ & ->).
  set (turn := new_console_turn _ _ _ _ _ _ _) in *. set (stR := set_receipts _ st) in *.
  set (st1 := put_turn _ turn stR) in *. cbn zeta in Hs.
  assert (turns_ok None stR) as HokR by by eapply (turns_ok_transfer None st).
  assert (turns_ok (Some th) st1) as Hok1 by by apply (enqueued_ok stR (fresh_turn ids) turn).
  assert (turns_ok None st2) as Hok2.
  { destruct Hs as [[_ Hs]|[Howned ->]].
    - eapply start_turn_ok; [exact Hok1|by apply lookup_insert_eq|done|done|exact Hs].
    - destruct Hok1 as [H1 H2 H3 H4 H5 Hserved]. split; try done. intros id0 t0 H0 Q0 _.
      destruct (decide (Some th = Some (tn_thread_id t0))) as [[= ->]|Hne]; [|by eapply Hserved].
      destruct (select_turns (owns_thread (tn_thread_id t0)) (cs_turns st1)) as [|[id' t'] l] eqn:E; [done|].
      assert ((id', t') ∈ select_turns (owns_thread (tn_thread_id t0)) (cs_turns st1)) as Hin by (rewrite E; left).
      apply elem_of_select_turns in Hin as [? ?]. eauto. }
  by eapply (turns_ok_transfer None st2).
Qed.

(** ** What an update did *)

Lemma updated_turn_spec st u id t receipt :
  updated_turn st u = Some (id, t, receipt) →
  cs_turns st !! id = Some t ∧ names_run u t = true ∧ cs_receipts st !! tn_receipt_id t = Some receipt ∧
  ir_owner_id receipt = up_owner_id u ∧
  match up_turn_id u ≫= or_none with Some i => i = id | None => True end.
Proof.
  unfold updated_turn. intros H. apply bind_Some in H as ([id0 t0] & Hh & H). apply bind_Some in H as (r & Hr & H).
  destruct (_ && _) eqn:E; [|done]. injection H as -> -> ->. apply head_select_turns in Hh as [Ht Hn].
  apply andb_true_iff in E as [Eo Ei]. split_and!; try done; [lia|].
  destruct (up_turn_id u ≫= or_none); [|done]. by apply String.eqb_eq in Ei.
Qed.

Lemma names_run_spec u t :
  names_run u t = true ↔
  tn_run_id t = Some (up_run_id u) ∧ tn_session_id t = up_session_id u ∧ tn_thread_id t = up_thread_id u ∧
  tn_provider t = up_provider u ∧ tn_device_id t = up_device_id u.
Proof. unfold names_run. rewrite !andb_true_iff, !String.eqb_eq, opt_is_spec. tauto. Qed.

(** The turn of an update, and whether the update is as expected. *)
Definition expected_ok (u : turn_update) (t : LiveConsoleTurn) : Prop :=
  match up_expected_state u with Some s => tn_state t = s | None => True end.

(** The store with the turn and its receipt rewritten. *)
Definition reported (u : turn_update) (id : string) (t : LiveConsoleTurn) (receipt : LiveSessionInputReceipt)
    (st : console_store) : console_store :=
  set_receipts (<[tn_receipt_id t := reported_receipt u receipt]>)
    (put_turn id (moved_to (up_state u) (up_error u) (up_updated_at u) t) st).

Lemma update_applied st u run_id d next seq st' :
  update st u run_id = Ok (TurnApplied d next seq, st') →
  ∃ id t receipt st2,
    updated_turn st u = Some (id, t, receipt) ∧ expected_ok u t ∧ tn_state t ∉ TERMINAL_STATES ∧
    (if str_in (up_state u) TERMINAL_STATES then end_turn float (reported u id t receipt st) u t run_id
     else Ok (None, reported u id t receipt st)) = Ok (next, st2) ∧
    brief_dto float (id, moved_to (up_state u) (up_error u) (up_updated_at u) t) (reported_receipt u receipt) = Ok d ∧
    seq = console_seq st' ∧ st' = advance_console_seq (up_updated_at u) st2.
Proof.
  unfold update_console_turn. intros H. destruct (updated_turn st u) as [[[id t] receipt]|] eqn:Eu; [|done].
  destruct (match up_expected_state u with Some s => negb (String.eqb (tn_state t) s) | None => false end) eqn:Ee.
  { by apply bind_ok in H as (? & _ & ?). }
  destruct (str_in (tn_state t) TERMINAL_STATES) eqn:Et.
  { destruct (negb _); [by apply bind_ok in H as (? & _ & ?)|].
    apply bind_ok in H as (? & _ & H). by apply bind_ok in H as (? & _ & ?). }
  apply bind_ok in H as ([] & _ & H). apply bind_ok in H as ([next0 st2] & He & H). apply bind_ok in H as (d0 & Hd & H).
  injection H as -> -> <- <-. exists id, t, receipt, st2. split_and!; try done.
  - unfold expected_ok. destruct (up_expected_state u); [|done]. apply negb_false_iff, String.eqb_eq in Ee. done.
  - intros Hin%str_in_spec. congruence.
Qed.

Lemma update_refused st u run_id a st' :
  update st u run_id = Ok (a, st') → (∃ d next seq, a = TurnApplied d next seq) ∨ st' = st.
Proof.
  unfold update_console_turn. intros H. destruct (updated_turn st u) as [[[id t] receipt]|]; [|simplify_eq; by right].
  destruct (match up_expected_state u with Some s => negb (String.eqb (tn_state t) s) | None => false end).
  { apply bind_ok in H as (? & _ & ?). simplify_eq. by right. }
  destruct (str_in (tn_state t) TERMINAL_STATES).
  { destruct (negb _).
    - apply bind_ok in H as (? & _ & ?). simplify_eq. by right.
    - apply bind_ok in H as (? & _ & H). apply bind_ok in H as (? & _ & ?). simplify_eq. by right. }
  apply bind_ok in H as ([] & _ & H). apply bind_ok in H as ([next0 st2] & He & H). apply bind_ok in H as (d0 & Hd & H).
  simplify_eq. left. eauto.
Qed.

(** The turn of an applied update holds its thread. *)
Lemma updated_turn_owns st u id t receipt :
  turns_ok None st → updated_turn st u = Some (id, t, receipt) → tn_state t ∉ TERMINAL_STATES →
  tn_state t ∈ OWNER_STATES ∧ tn_run_id t = Some (up_run_id u).
Proof.
  intros Hok Hu Hnt. apply updated_turn_spec in Hu as (Ht & [Hrun _]%names_run_spec & _). split; [|done].
  pose proof (ok_state _ _ Hok _ _ Ht) as Hs. apply elem_of_cons in Hs as [Hq|[Ho|?]%elem_of_app]; [|done|done].
  apply (ok_waiting _ _ Hok _ _ Ht) in Hq. congruence.
Qed.

(** A state that an update may report and that is not terminal keeps the
    thread. *)
Lemma live_update_state s : s ∈ UPDATE_STATES → str_in s TERMINAL_STATES = false → s ∈ OWNER_STATES.
Proof.
  unfold UPDATE_STATES. rewrite !elem_of_cons, elem_of_nil. intros Hs Ht. apply str_in_spec.
  by destruct Hs as [->|[->|[->|[->|[->|[]]]]]].
Qed.

Lemma update_ok st u run_id a st' :
  turns_ok None st → up_state u ∈ UPDATE_STATES → update st u run_id = Ok (a, st') → turns_ok None st'.
Proof.
  intros Hok Hst H. destruct (update_refused _ _ _ _ _ H) as [(d & next & seq & ->)| ->]; [|done].
  apply update_applied in H as (id & t & receipt & st2 & Hu & _ & Hnt & He & _ & _ & ->).
  destruct (updated_turn_owns _ _ _ _ _ Hok Hu Hnt) as [Ho Hrun].
  apply updated_turn_spec in Hu as (Ht & _).
  eapply (turns_ok_transfer None st2); [done|]. destruct (str_in (up_state u) TERMINAL_STATES) eqn:Es.
  - apply str_in_spec in Es. unfold end_turn in He. eapply start_next_ok; [|exact He].
    eapply turns_ok_transfer; [|by eapply (ended_ok st id t (up_state u) (up_error u) (up_updated_at u))]. done.
  - injection He as <- <-.
    eapply turns_ok_transfer; [|eapply (moved_ok st id t (up_state u) (up_error u) (up_updated_at u))]; try done.
    by apply live_update_state.
Qed.
End Transactions.

(** ** Steps of the store *)

Lemma console_answer_ok {A} (r : res (A * console_store)) a st' :
  console_answer r = Some (Ok (a, st')) → ∃ x, r = Ok (x, st').
Proof. unfold console_answer. destruct r as [[x s]|e]; intros H; simplify_eq/=. eauto. Qed.

Lemma caught_keeps {A} st e (a : rpc A) st' : caught st e = Some (Ok (a, st')) → st' = st.
Proof. unfold caught, refuse. destruct (error_text e); intros; by simplify_eq. Qed.

(** A request of the Console reaches the store with checked fields, or changes
    nothing. *)
Lemma handle_enqueue_store float other_form st params ids a st' :
  handle_enqueue_turn float other_form st params ids = Some (Ok (a, st')) →
  st' = st ∨ ∃ m x, enqueue_console_turn float st m ids = Ok (x, st').
Proof.
  unfold handle_enqueue_turn, refuse. intros H.
  destruct (has_fields _ _); [|simplify_eq; by left]. destruct (assoc "turn" params); try (simplify_eq; by left).
  destruct (negb _); [simplify_eq; by left|]. destruct (mbind _ _) as [created|e]; [|left; by eapply caught_keeps].
  destruct (assoc "session_id" _); try done. destruct (assoc "owner_id" _); try done.
  destruct (assoc "message" _); try done. destruct (assoc "client_request_id" _); try done.
  apply console_answer_ok in H as (x & H). right. eauto.
Qed.

Lemma check_state_none value states message : check_state value states message = Ok None → the_str value ∈ states.
Proof.
  unfold check_state. intros ([] & _ & H)%bind_ok. destruct (opt_in _ _) eqn:E; [|done].
  apply opt_in_spec in E as (s & Hs & Hin). unfold the_str. by rewrite Hs.
Qed.

Lemma checked_state data : check_update_fields data = Ok None → the_str (assoc "state" data) ∈ UPDATE_STATES.
Proof.
  unfold check_update_fields. destruct (negb _); [done|]. destruct (negb _); [done|].
  intros ([m|] & Hs & H)%bind_ok; [done|]. by eapply check_state_none.
Qed.

Lemma handle_update_store float other_form st params run_id a st' :
  handle_update_turn float other_form st params run_id = Some (Ok (a, st')) →
  st' = st ∨ ∃ u x, up_state u ∈ UPDATE_STATES ∧ update_console_turn float st u run_id = Ok (x, st').
Proof.
  unfold handle_update_turn, refuse. intros H.
  destruct (has_fields _ _); [|simplify_eq; by left]. destruct (assoc "turn" params) as [| | | | | |data]; try (simplify_eq; by left).
  destruct (negb _); [simplify_eq; by left|]. apply bind_Some in H as (owner & _ & H).
  destruct (mbind _ owner) as [[owner_id updated_at]|e]; [|left; by eapply caught_keeps].
  destruct (owner_id <=? 0); [simplify_eq; by left|].
  destruct (check_update_fields data) as [[m|]|e] eqn:Ec; [simplify_eq; by left| |done].
  destruct (assoc "session_id" data); try done. destruct (assoc "thread_id" data); try done.
  destruct (assoc "run_id" data); try done. destruct (_ && _); [|done].
  apply console_answer_ok in H as (x & H). right. eexists _, x. split; [|exact H]. by apply checked_state.
Qed.

Section Steps.
Context (float : string → pyval) (other_form : string → option datetime).

(** What can happen to the store: a Console request, or any other call of the
    catalog.  The others leave the turns alone; what they do to the receipts
    (the input queue), the runs (reports of a run's end, a control that
    attaches, the deletion of a session), the threads and the sessions is
    arbitrary. *)
Inductive console_step (st : console_store) : console_store → Prop :=
  | enqueue_step params ids a st' :
      handle_enqueue_turn float other_form st params ids = Some (Ok (a, st')) → console_step st st'
  | update_step params run_id a st' :
      handle_update_turn float other_form st params run_id = Some (Ok (a, st')) → console_step st st'
  | other_step st' : cs_turns st' = cs_turns st → console_step st st'.

Lemma console_step_ok st st' : console_step st st' → turns_ok None st → turns_ok None st'.
Proof.
  intros H Hok. destruct H as [params ids a st' H|params run_id a st' H|st' H].
  - destruct (handle_enqueue_store _ _ _ _ _ _ _ H) as [->|(m & x & He)]; [done|]. by eapply enqueue_ok.
  - destruct (handle_update_store _ _ _ _ _ _ _ H) as [->|(u & x & Hs & Hu)]; [done|]. by eapply update_ok.
  - by eapply turns_ok_transfer.
Qed.

Lemma console_steps_ok st st' : rtc console_step st st' → turns_ok None st → turns_ok None st'.
Proof. induction 1 as [|st st1 st' Hs _ IH]; [done|]. intros Hok. by eapply IH, console_step_ok. Qed.

Lemma no_turns_ok st : cs_turns st = ∅ → turns_ok None st.
Proof. intros E. split; rewrite E; set_solver. Qed.
End Steps.

(** C26: a Console thread runs one turn at a time and never stalls.  In every
    store that the calls of the catalog lead to from one without turns, two
    turns do not hold one thread and do not share a run; a turn waits exactly
    while it has no run, and then another turn holds its thread.  Whatever the
    other calls do to the receipts, the runs and the threads that the turns
    share cannot break this. *)
Theorem console_thread_is_served float other_form st st' :
  cs_turns st = ∅ → rtc (console_step float other_form) st st' →
  (∀ thread id1 t1 id2 t2, cs_turns st' !! id1 = Some t1 → cs_turns st' !! id2 = Some t2 →
     (owns_thread thread t1 = true ∧ owns_thread thread t2 = true ∨ tn_run_id t1 = tn_run_id t2 ∧ tn_run_id t1 ≠ None) →
     id1 = id2) ∧
  (∀ id t, cs_turns st' !! id = Some t →
     match tn_run_id t with
     | None => tn_state t = "queued"%string ∧
               ∃ id' t', cs_turns st' !! id' = Some t' ∧ owns_thread (tn_thread_id t) t' = true
     | Some _ => tn_state t ∈ OWNER_STATES ++ TERMINAL_STATES
     end).
Proof.
  intros E Hr. pose proof (console_steps_ok _ _ _ _ Hr (no_turns_ok _ E)) as Hok. split.
  - intros thread id1 t1 id2 t2 H1 H2 [[O1 O2]|[Er Hn]]; [by eapply (ok_one _ _ Hok)|].
    destruct (tn_run_id t1) as [r|] eqn:R1; [|done]. by eapply (ok_own_run _ _ Hok).
  - intros id t Ht. destruct (tn_run_id t) as [r|] eqn:R.
    + pose proof (ok_state _ _ Hok _ _ Ht) as [Hq|?]%elem_of_cons; [|done].
      apply (ok_waiting _ _ Hok _ _ Ht) in Hq. congruence.
    + assert (tn_state t = "queued"%string) as Hq by by apply (ok_waiting _ _ Hok _ _ Ht).
      split; [done|]. by apply (ok_served _ _ Hok id).
Qed.

(** ** The end of a turn *)

Lemma dto_fields float id t message client_request_id config d :
  console_turn_dto float (id, t) message client_request_id config = Ok d →
  assoc "turn_id" d = VStr id ∧ assoc "run_id" d = opt_str (tn_run_id t) ∧ assoc "message" d = opt_str message ∧
  assoc "session_id" d = VStr (tn_session_id t) ∧ assoc "thread_id" d = VStr (tn_thread_id t) ∧
  assoc "provider" d = VStr (tn_provider t) ∧ assoc "device_id" d = VStr (tn_device_id t) ∧
  assoc "state" d = VStr (tn_state t).
Proof. unfold console_turn_dto. by intros (c & _ & [= <-])%bind_ok. Qed.

Lemma start_turn_turns id run_id alias now t st st' :
  start_turn id run_id alias now t st = Ok st' →
  cs_turns st' = <[id := started run_id alias now t]> (cs_turns st) ∧
  cs_receipts st' = alter (dispatched run_id now) (tn_receipt_id t) (cs_receipts st) ∧
  cs_runs st' = <[run_id := started_run t now]> (cs_runs st) ∧ run_unused run_id st = true ∧
  cs_threads st' = cs_threads st.
Proof. unfold start_turn. intros ([] & Hg & [= <-])%bind_ok. by apply guard_ok, andb_true_iff in Hg as [Hr _]. Qed.

Lemma start_next_cases float st thread_id run_id now next st' :
  start_next float st thread_id run_id now = Ok (next, st') →
  next = None ∧ st' = st ∧ (∀ id t, cs_turns st !! id = Some t → waits_in thread_id t = false) ∨
  ∃ id t d, is_first (waits_in thread_id) (cs_turns st) id t ∧
    start_turn id run_id (resume_alias st (tn_thread_id t) (tn_provider t)) now t st = Ok st' ∧
    full_dto float st' (id, started run_id (resume_alias st (tn_thread_id t) (tn_provider t)) now t) = Ok d ∧ next = Some d.
Proof.
  unfold start_next. destruct (first_turn _ _) as [[id t]|] eqn:E.
  - intros (st1 & Hs & H)%bind_ok. apply bind_ok in H as (d & Hd & [= <- <-]). right. exists id, t, d.
    apply first_turn_some in E. split; [done|]. split; [done|]. split; [|done].
    apply start_turn_turns in Hs as (Ht & _). rewrite Ht, lookup_insert_eq in Hd. exact Hd.
  - intros [= <- <-]. left. split; [done|]. split; [done|]. by apply first_turn_none.
Qed.

(** Rewriting a row that is not selected, before or after. *)
Lemma is_first_insert P (turns : turn_table) id t t' id' t0 :
  turns !! id = Some t → P t = false → P t' = false →
  is_first P (<[id := t']> turns) id' t0 → is_first P turns id' t0.
Proof.
  intros Ht HP HP' (H0 & HP0 & Hmin). apply lookup_insert_Some in H0 as [[_ <-]|[Hne H0]]; [congruence|].
  split; [done|]. split; [done|]. intros id1 t1 H1 HP1. apply (Hmin id1 t1); [|done].
  rewrite lookup_insert_ne; [done|]. congruence.
Qed.

Lemma waits_insert th (turns : turn_table) id t t' :
  turns !! id = Some t → waits_in th t = false →
  (∀ id0 t0, <[id := t']> turns !! id0 = Some t0 → waits_in th t0 = false) →
  ∀ id0 t0, turns !! id0 = Some t0 → waits_in th t0 = false.
Proof.
  intros Ht Hw H id0 t0 H0. destruct (decide (id0 = id)) as [->|Hne]; [congruence|].
  apply (H id0). by rewrite lookup_insert_ne.
Qed.

Lemma not_waiting th t : tn_state t ≠ "queued"%string → waits_in th t = false.
Proof. intros H. apply not_true_iff_false. rewrite waits_in_spec. by intros [_ ?]. Qed.

(** The end of a turn, from an update that was applied. *)
Lemma ended_turn_cases float st u run_id d next seq st' :
  turns_ok None st → up_state u ∈ TERMINAL_STATES → update_console_turn float st u run_id = Ok (TurnApplied d next seq, st') →
  ∃ id t receipt,
    updated_turn st u = Some (id, t, receipt) ∧ tn_state t ∈ OWNER_STATES ∧ tn_run_id t = Some (up_run_id u) ∧
    let moved := moved_to (up_state u) (up_error u) (up_updated_at u) t in
    let ended := alter (ended_run (default (up_state u) (up_error_code u ≫= or_none)) (up_updated_at u)) (up_run_id u)
                   (cs_runs st) in
    let receipts := <[tn_receipt_id t := reported_receipt u receipt]> (cs_receipts st) in
    brief_dto float (id, moved) (reported_receipt u receipt) = Ok d ∧ seq = console_seq st' ∧
    cs_threads st' = cs_threads st ∧
    (next = None ∧ cs_turns st' = <[id := moved]> (cs_turns st) ∧ cs_runs st' = ended ∧ cs_receipts st' = receipts ∧
       (∀ id' t', cs_turns st !! id' = Some t' → waits_in (tn_thread_id t) t' = false) ∨
     ∃ id' t' d', is_first (waits_in (tn_thread_id t)) (cs_turns st) id' t' ∧ id' ≠ id ∧ next = Some d' ∧
       let t'' := started run_id (resume_alias st (tn_thread_id t') (tn_provider t')) (up_updated_at u) t' in
       cs_turns st' = <[id' := t'']> (<[id := moved]> (cs_turns st)) ∧
       cs_runs st' = <[run_id := started_run t' (up_updated_at u)]> ended ∧ cs_runs st !! run_id = None ∧
       run_id ≠ up_run_id u ∧
       cs_receipts st' = alter (dispatched run_id (up_updated_at u)) (tn_receipt_id t') receipts ∧
       full_dto float st' (id', t'') = Ok d').
Proof.
  intros Hok Hs H. apply update_applied in H as (id & t & receipt & st2 & Hu & _ & Hnt & He & Hd & Hseq & ->).
  destruct (updated_turn_owns _ _ _ _ _ Hok Hu Hnt) as [Ho Hrun].
  apply str_in_spec in Hs as Hb. rewrite Hb in He. exists id, t, receipt. do 3 (split; [done|]). cbn zeta.
  split; [done|]. split; [done|]. pose proof (updated_turn_spec _ _ _ _ _ Hu) as (Ht & _).
  assert (waits_in (tn_thread_id t) t = false) as Hw by by apply not_waiting, owner_not_queued.
  set (moved := moved_to _ _ _ t) in *.
  assert (waits_in (tn_thread_id t) moved = false) as Hw' by by apply not_waiting, terminal_not_queued.
  unfold end_turn in He. apply start_next_cases in He as [(-> & -> & Hn)|(id' & t' & d' & Hf & Hst & Hd' & ->)].
  - split; [done|]. left. do 4 (split; [done|]). exact (waits_insert _ _ _ _ moved Ht Hw Hn).
  - apply (is_first_insert _ _ _ _ _ _ _ Ht Hw Hw') in Hf.
    assert (id' ≠ id) as Hne by (destruct Hf as (Hf & Hq & _); congruence).
    apply start_turn_turns in Hst as (Et & Er & En & [Hnone Hused]%run_unused_spec & Eth). split; [exact Eth|]. right.
    exists id', t', d'. do 3 (split; [done|]). split; [exact Et|]. split; [exact En|]. split; [|split; [|split]].
    + exact (proj1 (lookup_alter_None _ _ _ _) Hnone).
    + intros ->. apply (Hused id moved); [apply lookup_insert_eq|exact Hrun].
    + exact Er.
    + exact Hd'.
Qed.

(** Starting a turn and reporting another leave the texts of the receipts. *)
Lemma receipt_text (f : LiveSessionInputReceipt → LiveSessionInputReceipt) (rid k : string) (receipts : receipt_table) :
  (∀ r, ir_text (f r) = ir_text r) → ir_text <$> alter f rid receipts !! k = ir_text <$> receipts !! k.
Proof.
  intros Hf. destruct (decide (rid = k)) as [->|Hne]; [|by rewrite lookup_alter_ne].
  rewrite lookup_alter_eq. destruct (receipts !! k); simpl; [|done]. by rewrite Hf.
Qed.

Lemma put_text (rid k : string) (r r' : LiveSessionInputReceipt) (receipts : receipt_table) :
  receipts !! rid = Some r → ir_text r' = ir_text r → ir_text <$> <[rid := r']> receipts !! k = ir_text <$> receipts !! k.
Proof.
  intros Hr Ht. destruct (decide (rid = k)) as [->|Hne]; [|by rewrite lookup_insert_ne].
  rewrite lookup_insert_eq, Hr. simpl. by rewrite Ht.
Qed.

(** C27: the end of a turn starts the oldest waiting turn of its thread, and
    only that one.  The turn that ended records its outcome, and its run, when
    the catalog still has it, is closed at that moment, whether or not a report
    had closed it before; the next turn, oldest first and by identifier within
    an instant, gets the fresh run, and the answer names it with the message of
    its receipt; every other turn is left as it was. *)
Theorem ended_turn_starts_the_oldest float st u run_id d next seq st' :
  turns_ok None st → up_state u ∈ TERMINAL_STATES →
  update_console_turn float st u run_id = Ok (TurnApplied d next seq, st') →
  ∃ id t,
    cs_turns st !! id = Some t ∧ tn_run_id t = Some (up_run_id u) ∧
    cs_runs st' !! up_run_id u
    = ended_run (default (up_state u) (up_error_code u ≫= or_none)) (up_updated_at u) <$> cs_runs st !! up_run_id u ∧
    let moved := moved_to (up_state u) (up_error u) (up_updated_at u) t in
    (next = None ∧ cs_turns st' = <[id := moved]> (cs_turns st) ∧
       (∀ id' t', cs_turns st !! id' = Some t' → waits_in (tn_thread_id t) t' = false) ∨
     ∃ id' t' d', next = Some d' ∧ assoc "turn_id" d' = VStr id' ∧ assoc "run_id" d' = VStr run_id ∧
       assoc "message" d' = opt_str (ir_text <$> cs_receipts st !! tn_receipt_id t') ∧
       cs_turns st !! id' = Some t' ∧ waits_in (tn_thread_id t) t' = true ∧
       (∀ id'' t'', cs_turns st !! id'' = Some t'' → waits_in (tn_thread_id t) t'' = true →
          cmp_le turn_cmp (turn_key (id', t')) (turn_key (id'', t''))) ∧
       cs_turns st' = <[id' := started run_id (resume_alias st (tn_thread_id t') (tn_provider t')) (up_updated_at u) t']>
                        (<[id := moved]> (cs_turns st))).
Proof.
  intros Hok Hs H. destruct (ended_turn_cases _ _ _ _ _ _ _ _ Hok Hs H) as (id & t & receipt & Hu & Ho & Hrun & Hc).
  cbn zeta in Hc. destruct Hc as (_ & _ & _ & Hc). apply updated_turn_spec in Hu as (Ht & _ & Hrec & _).
  exists id, t. split; [done|]. split; [done|].
  destruct Hc as [(-> & Et & En & _ & Hno)|(id' & t' & d' & Hf & _ & -> & Et & En & _ & Hne & Erec & Hd)].
  - rewrite En, lookup_alter_eq. split; [done|]. by left.
  - rewrite En, lookup_insert_ne, lookup_alter_eq by done. split; [done|]. right.
    destruct Hf as (Hf & Hw & Hmin). exists id', t', d'. apply dto_fields in Hd as (D1 & D2 & D3 & _).
    split; [done|]. split; [done|]. split; [done|]. split; [|done]. rewrite D3. simpl. f_equal.
    rewrite Erec, receipt_text by done. by eapply put_text.
Qed.

(** The turn of an update, read again after it was applied. *)
Lemma updated_turn_again st u id t receipt turns receipts :
  turns_ok None st → updated_turn st u = Some (id, t, receipt) →
  (∀ id0 t0, turns !! id0 = Some t0 → tn_run_id t0 = Some (up_run_id u) → id0 = id) →
  turns !! id = Some (moved_to (up_state u) (up_error u) (up_updated_at u) t) →
  receipts !! tn_receipt_id t = Some (reported_receipt u receipt) →
  ∀ st', cs_turns st' = turns → cs_receipts st' = receipts →
  updated_turn st' u = Some (id, moved_to (up_state u) (up_error u) (up_updated_at u) t, reported_receipt u receipt).
Proof.
  intros Hok Hu Huniq Ht Hr st' Et Er. apply updated_turn_spec in Hu as (_ & Hn & _ & Ho & Hid).
  unfold updated_turn. rewrite Et, Er. erewrite head_select_unique; [|exact Ht|exact Hn|].
  - cbn. rewrite Hr. cbn. rewrite Ho, Z.eqb_refl. destruct (up_turn_id u ≫= or_none); [|done].
    subst. by rewrite String.eqb_refl.
  - intros id0 t0 H0 N0. apply (Huniq _ _ H0). by apply names_run_spec in N0 as [? _].
Qed.

Definition starting_in (th : string) (t : LiveConsoleTurn) : bool :=
  String.eqb (tn_thread_id t) th && String.eqb (tn_state t) "starting".

Lemma starting_owns th t : starting_in th t = true → owns_thread th t = true.
Proof.
  unfold starting_in. rewrite andb_true_iff, !String.eqb_eq, owns_thread_spec. intros [-> ->]. split; [done|left].
Qed.

(** C11: reporting the end of a turn again starts nothing and loses nothing.
    The same report answers the turn as it ended and the turn that its end
    started, exactly as the first time, and leaves the store as it is; so a
    dispatcher that died between the report and its command finds the command
    to send. *)
Theorem ended_turn_is_replayed float st u run_id d next seq st' run_id' :
  turns_ok None st → up_state u ∈ TERMINAL_STATES → up_expected_state u = None →
  update_console_turn float st u run_id = Ok (TurnApplied d next seq, st') →
  update_console_turn float st' u run_id' = Ok (TurnReplayed d next seq, st').
Proof.
  intros Hok Hs Hx H. destruct (ended_turn_cases _ _ _ _ _ _ _ _ Hok Hs H) as (id & t & receipt & Hu & Ho & Hrun & Hc).
  cbn zeta in Hc. destruct Hc as (Hd & -> & Eth & Hc). set (moved := moved_to _ _ _ t) in *.
  pose proof (updated_turn_spec _ _ _ _ _ Hu) as (Ht & _ & Hrec & _).
  assert (owns_thread (tn_thread_id t) t = true) as Hown by by apply owns_thread_spec.
  assert (∀ id0 t0, cs_turns st !! id0 = Some t0 → starting_in (tn_thread_id t) t0 = true → id0 = id) as Hone.
  { intros id0 t0 H0 S0. by eapply (ok_one _ _ Hok (tn_thread_id t)); eauto using starting_owns. }
  assert (starting_in (tn_thread_id t) moved = false) as Hms.
  { apply not_true_iff_false. intros [_ E]%starting_owns%owns_thread_spec. by apply (terminal_not_owner _ Hs). }
  assert (∃ turns receipts,
    cs_turns st' = turns ∧ cs_receipts st' = receipts ∧
    (∀ id0 t0, turns !! id0 = Some t0 → tn_run_id t0 = Some (up_run_id u) → id0 = id) ∧ turns !! id = Some moved ∧
    receipts !! tn_receipt_id t = Some (reported_receipt u receipt) ∧
    (let! next' := match first_turn (starting_in (tn_thread_id t)) turns with
                   | None => Ok None
                   | Some turn => let! d := full_dto float st' turn in Ok (Some d)
                   end in Ok next') = Ok next) as (turns & receipts & Et & Er & Huniq & Hmoved & Hreported & Hnext).
  { destruct Hc as [(-> & Et & _ & Er & _)|(id' & t' & d' & Hf & Hne & -> & Et & _ & _ & Hfresh & Er & Hd')].
    - exists (cs_turns st'), (cs_receipts st'). split; [done|]. split; [done|]. rewrite Et, Er. split_and!.
      + intros id0 t0 H0 R0. by_turn; [done|]. by eapply (ok_own_run _ _ Hok).
      + apply lookup_insert_eq.
      + apply lookup_insert_eq.
      + rewrite (proj2 (first_turn_none _ _)); [done|]. intros id0 t0 H0. by_turn; [done|].
        apply not_true_iff_false. intros S0. by destruct Ek; rewrite (Hone _ _ H0 S0).
    - pose proof Hf as (Hf' & [Hth' Hq']%waits_in_spec & _). set (t'' := started _ _ _ t') in *.
      exists (cs_turns st'), (cs_receipts st'). split; [done|]. split; [done|]. rewrite Et, Er. split_and!.
      + intros id0 t0 H0 R0. by_turn; [congruence|done|by eapply (ok_own_run _ _ Hok)].
      + rewrite lookup_insert_ne by done. apply lookup_insert_eq.
      + rewrite lookup_alter_ne; [apply lookup_insert_eq|]. intros E. by destruct Hne; eapply (ok_own_receipt _ _ Hok).
      + erewrite is_first_first; [by rewrite Hd'|]. split; [apply lookup_insert_eq|]. split.
        * unfold starting_in. simpl. by rewrite Hth', String.eqb_refl.
        * intros id0 t0 H0 S0. by_turn; [unfold cmp_le; by rewrite (cmp_self turn_cmp)|congruence|].
          by destruct Ek0; rewrite (Hone _ _ H0 S0). }
  unfold update_console_turn. rewrite (updated_turn_again _ _ _ _ _ _ _ Hok Hu Huniq Hmoved Hreported _ Et Er), Hx.
  fold moved. rewrite (proj2 (str_in_spec _ _) Hs : str_in (tn_state moved) TERMINAL_STATES = true), String.eqb_refl.
  cbn [negb]. change (first_turn _ (cs_turns st')) with (first_turn (starting_in (tn_thread_id t)) (cs_turns st')).
  rewrite Et. apply bind_ok in Hnext as (next' & -> & [= ->]). cbn [mbind res_bind]. by rewrite Hd.
Qed.

(** ** Accepting a message once *)

Lemma head_select_receipts P (receipts : receipt_table) id r :
  receipts !! id = Some r → P (id, r) = true → (∀ id' r', receipts !! id' = Some r' → P (id', r') = true → id' = id) →
  head (select_receipts P receipts) = Some (id, r).
Proof.
  intros Hr HP Hu. assert ((id, r) ∈ select_receipts P receipts) as Hin by by apply elem_of_select_receipts.
  destruct (select_receipts P receipts) as [|[id' r'] l] eqn:E; [set_solver|].
  assert ((id', r') ∈ select_receipts P receipts) as [Hr' HP']%elem_of_select_receipts by (rewrite E; left).
  pose proof (Hu _ _ Hr' HP') as ->. simpl. congruence.
Qed.

(** What an accepted message left. *)
Lemma accepted_store float st m ids d seq st' :
  enqueue_console_turn float st m ids = Ok (TurnAccepted d seq, st') →
  ∃ session thread_id thread device cwd receipt turn,
    st_sessions (cs_inputs st') !! cm_session_id m = Some session ∧ lc_primary_thread_id session ≫= or_none = Some thread_id ∧
    session_belongs_to_owner st' (cm_session_id m) (cm_owner_id m) = true ∧
    execution_target (cs_threads st' !! thread_id) = Some (thread, device, cwd) ∧
    head (select_receipts (by_client_request (cm_owner_id m) (cm_session_id m) (cm_client_request_id m)) (cs_receipts st'))
    = Some (fresh_receipt ids, receipt) ∧
    turn_of_receipt (fresh_receipt ids) st' = Some (fresh_turn ids, turn) ∧
    ir_text receipt = cm_message m ∧ ir_client_request_id receipt = Some (cm_client_request_id m) ∧
    console_turn_dto float (fresh_turn ids, turn) (Some (cm_message m)) (Some (cm_client_request_id m))
      (th_provider_config_json thread) = Ok d.
Proof.
  intros H. apply enqueue_accepted in H as (session & th & thread & device & cwd & turn & st2 & Hse & Hth & Hown & Htg & Hnew & Eturn & Hr & Ht & Hn & Hs & Hd & ->).
  set (receipt := new_console_receipt m th (lc_provider session) device) in *. cbn zeta in Hs.
  assert (∃ turn2 receipt2, cs_turns st2 = <[fresh_turn ids := turn2]> (cs_turns st) ∧
    cs_receipts st2 = <[fresh_receipt ids := receipt2]> (cs_receipts st) ∧ tn_receipt_id turn2 = fresh_receipt ids ∧
    same_input receipt receipt2 ∧
    st_sessions (cs_inputs st2) = st_sessions (cs_inputs st) ∧ cs_threads st2 = cs_threads st ∧
    session_belongs_to_owner st2 (cm_session_id m) (cm_owner_id m) = session_belongs_to_owner st (cm_session_id m) (cm_owner_id m))
    as (turn2 & receipt2 & Et & Er & Erid & Hsame & Ese & Eth & Eown).
  { destruct Hs as [[_ Hs]|[_ ->]].
    - unfold start_turn in Hs. apply bind_ok in Hs as ([] & _ & [= <-]).
      exists (started (fresh_run ids) (resume_alias st th (lc_provider session)) (cm_created_at m) turn),
        (dispatched (fresh_run ids) (cm_created_at m) receipt). split_and!; try done.
      + simpl. by rewrite insert_insert_eq.
      + subst turn. exact (alter_insert_eq (cs_receipts st) (fresh_receipt ids) _ receipt).
      + by subst turn.
    - exists turn, receipt. split_and!; try done. by subst turn. }
  rewrite Et, lookup_insert_eq in Hd. cbn [default id] in Hd.
  exists session, th, thread, device, cwd, receipt2, turn2.
  change (st_sessions (cs_inputs (advance_console_seq (cm_created_at m) st2))) with (st_sessions (cs_inputs st2)).
  change (cs_threads (advance_console_seq (cm_created_at m) st2)) with (cs_threads st2).
  change (cs_receipts (advance_console_seq (cm_created_at m) st2)) with (cs_receipts st2).
  change (session_belongs_to_owner (advance_console_seq (cm_created_at m) st2)) with (session_belongs_to_owner st2).
  rewrite Ese, Eth, Er, Eown. destruct Hsame as [So Sse _ Stx _ Scl _].
  assert (∀ id r, cs_receipts st !! id = Some r →
            by_client_request (cm_owner_id m) (cm_session_id m) (cm_client_request_id m) (id, r) = false) as Hnone.
  { intros id r Hid. by eapply select_nil. }
  split_and!; try done.
  - apply head_select_receipts; [apply lookup_insert_eq| |].
    + unfold by_client_request, of_input_session. simpl. rewrite So, Sse, Scl. simpl. rewrite Z.eqb_refl, String.eqb_refl.
      by apply opt_is_spec.
    + intros id r Hid HP. apply lookup_insert_Some in Hid as [[-> _]|[_ Hid]]; [done|]. by rewrite (Hnone _ _ Hid) in HP.
  - unfold turn_of_receipt. change (cs_turns (advance_console_seq (cm_created_at m) st2)) with (cs_turns st2). rewrite Et.
    apply head_select_unique; [apply lookup_insert_eq|by apply String.eqb_eq|]. intros id t Hid HP.
    apply lookup_insert_Some in Hid as [[-> _]|[_ Hid]]; [done|]. unfold turn_of_receipt in Hn.
    destruct (select_turns _ _) eqn:Es; [|done]. rewrite select_turns_nil in Es. by rewrite (Es _ _ Hid) in HP.
Qed.

(** C19: a message is accepted once.  The same request, sent again, is
    answered with the very turn that was accepted, whatever identifiers and
    clock the second call draws, and one with another text is refused as a
    conflict; neither changes the store. *)
Theorem accepted_message_is_known float st m ids d seq st' message at_ ids' :
  enqueue_console_turn float st m ids = Ok (TurnAccepted d seq, st') →
  enqueue_console_turn float st' (ConsoleMessage (cm_session_id m) (cm_owner_id m) message (cm_client_request_id m) at_) ids' =
  Ok (if decide (message = cm_message m) then TurnKnown false (Some d) else TurnKnown true None, st').
Proof.
  intros H. apply accepted_store in H as (session & th & thread & device & cwd & receipt & turn & Hse & Hth & Hown & Htg & Hh & Hturn & Htext & Hcl & Hd).
  unfold enqueue_console_turn. simpl. rewrite Hse, Hth, Hown. simpl. rewrite Htg.
  rewrite Hh, Hturn, Htext, Hcl, Hd. simpl. case_decide as E.
  - subst. by rewrite String.eqb_refl.
  - assert (String.eqb (cm_message m) message = false) as -> by (apply String.eqb_neq; congruence). done.
Qed.

(** ** A cancelled message *)

Lemma cancel_cases st session_id receipt_id observed_at now r seq st' :
  cancel_input_receipt st session_id receipt_id observed_at now = (Some r, seq, st') →
  ∃ row, st_receipts st !! receipt_id = Some row ∧ is_queued session_id (receipt_id, row) = true ∧
    let row' := with_status INPUT_STATUS_CANCELLED (ir_error_json row) now row in
    r = snapshot (receipt_id, row') ∧ st_receipts st' = <[receipt_id := row']> (st_receipts st).
Proof.
  unfold cancel_input_receipt, cancel_live_queued_receipt. destruct (st_receipts st !! receipt_id) as [row|] eqn:Hr; [|done].
  destruct (is_queued _ _) eqn:Eq; [|done]. unfold load_live_input_receipt_by_id. rewrite lookup_insert_eq.
  cbn [fmap option_fmap option_map]. intros H. injection H as <- _ <-. by exists row.
Qed.

(** C20: cancelling does not take a Console message back.  The cancellation of a
    waiting message is answered with the cancelled receipt, but the turn keeps
    its place: the end of the turn before it dispatches the message all the
    same, and the receipt is then being delivered. *)
Theorem cancelled_message_is_still_sent float st session_id receipt_id observed_at now r seq0 inputs id' t' u run_id d next seq st' :
  turns_ok None st → up_state u ∈ TERMINAL_STATES →
  first_turn (waits_in (up_thread_id u)) (cs_turns st) = Some (id', t') → tn_receipt_id t' = receipt_id →
  cancel_input_receipt (cs_inputs st) session_id receipt_id observed_at now = (Some r, seq0, inputs) →
  update_console_turn float (set_inputs inputs st) u run_id = Ok (TurnApplied d next seq, st') →
  is_status r = "cancelled"%string ∧
  (∃ d', next = Some d' ∧ assoc "turn_id" d' = VStr id' ∧ assoc "run_id" d' = VStr run_id ∧
         assoc "message" d' = VStr (is_text r)) ∧
  ∃ row, cs_receipts st' !! receipt_id = Some row ∧ ir_status row = "delivering"%string ∧ ir_text row = is_text r.
Proof.
  intros Hok Hs Hfirst Hid Hcancel H. apply cancel_cases in Hcancel as (row & Hrow & _ & -> & Erec).
  split; [done|]. set (cancelled := with_status _ _ _ row) in *. set (st1 := set_inputs inputs st) in *.
  assert (turns_ok None st1) as Hok1 by by eapply (turns_ok_transfer None st).
  destruct (ended_turn_cases _ _ _ _ _ _ _ _ Hok1 Hs H) as (id & t & receipt & Hu & Ho & Hrun & Hc).
  cbn zeta in Hc. destruct Hc as (_ & _ & _ & Hc). apply updated_turn_spec in Hu as (Ht & Hn & Hrec & _).
  apply names_run_spec in Hn as (_ & _ & Hth & _). rewrite Hth in Hc. apply first_turn_some in Hfirst as Hf.
  destruct Hc as [(_ & _ & _ & _ & Hno)|(id0 & t0 & d' & Hf0 & Hne & -> & _ & _ & _ & _ & Er & Hd)].
  { destruct Hf as (Hf & Hw & _). by rewrite (Hno _ _ Hf) in Hw. }
  destruct (is_first_unique _ _ _ _ _ _ Hf Hf0) as [<- <-]. rewrite Hid in *.
  assert (cs_receipts st' !! receipt_id = Some (dispatched run_id (up_updated_at u) cancelled)) as Hst'.
  { rewrite Er, lookup_alter_eq, lookup_insert_ne.
    - unfold cs_receipts. simpl. by rewrite Erec, lookup_insert_eq.
    - intros E. destruct Hne. eapply (ok_own_receipt _ _ Hok1); [apply Hf0|exact Ht|congruence]. }
  split; [|by eexists]. exists d'. apply dto_fields in Hd as (D1 & D2 & D3 & _). split_and!; try done.
  rewrite D3. simpl. by rewrite Hid, Hst'.
Qed.
