(* ===== verification/ConsoleDispatch.v ===== *)
(** * Dispatching Console turns

    Models the catalog side of [src/server/zerg/services/console_turns.py]: the
    dispatch of a turn to its machine and the report of what the machine
    answered, and the report of a run's end in
    [src/server/zerg/routers/runtime.py].

    The outside is an environment: which commands a machine advertises, what it
    answers to a command, the clock and the identifiers the catalog draws.  Its
    answers are numbered by the commands sent so far.  A dispatch runs here
    without other requests between its calls; that other requests keep the
    store well-formed is the invariant of ConsoleProps.v.

    [None] is a run that the fuel did not suffice for, or a request that has no
    answer in ConsoleServer.v. *)

From S2P Require Import Prelude PyStr PyTime PyValue MachineEvidence PyJson PyText InputQueue FactStore FactReducer.
From S2P Require Import InputStore InputServer ConsoleTurns ConsoleServer.

Open Scope list_scope.
Open Scope Z_scope.

(** [MachineControlCommandResponse]. *)
Record machine_reply : Type := MachineReply {
  mr_transport_ok : bool;
  mr_message : option (list (string * pyval));
  mr_error : option string;
}.

Record environment : Type := Environment {
  env_supports : nat → string → string → bool;
  env_send : nat → list (string * pyval) → machine_reply;
  env_now : nat → Z;
  env_run_id : nat → string;
}.

(** [CatalogConsoleTurn]. *)
Record CatalogConsoleTurn : Type := CatalogTurn {
  cc_turn_id : string;
  cc_run_id : option string;
  cc_state : string;
  cc_created : bool;
  cc_error_code : option string;
  cc_error : option string;
}.

(** ** Raising and running out *)

Definition and_then {A B} (r : option (res A)) (f : A → option (res B)) : option (res B) :=
  match r with
  | None => None
  | Some (Err e) => Some (Err e)
  | Some (Ok a) => f a
  end.

Local Notation "'do!' x ':=' e 'in' k" := (and_then e (λ x, k)) (at level 10, x name, e at level 100, k at level 200).
Local Notation "'do!' ' p ':=' e 'in' k" := (and_then e (λ p, k))
  (at level 10, p strict pattern, e at level 100, k at level 200).

(** ** Reading a turn *)

(** [str(UUID(str(turn[name])))]. *)
Definition uuid_field (turn : turn_dto) (name : string) : res string :=
  match uuid_text (py_str (assoc name turn)) with
  | Some s => Ok s
  | None => Err (ValueError "badly formed hexadecimal UUID string")
  end.

Definition str_field (turn : turn_dto) (name : string) : string := py_str (assoc name turn).

(** [dict(turn.get("provider_config") or {})]; a configuration is stored as an
    object. *)
Definition config_items (turn : turn_dto) : res (list (string * pyval)) :=
  let config := assoc "provider_config" turn in
  if truthy config then match config with VDict d => Ok d | _ => Err (TypeError "provider_config is not an object") end
  else Ok [].

(** [{**d, **e}]. *)
Definition dict_update (d e : list (string * pyval)) : list (string * pyval) :=
  fold_left (λ d kv, dict_set kv.1 kv.2 d) e d.

(** The payload of the start command; [extra] are the fields that only the
    first dispatch of a message has. *)
Definition start_payload (turn : turn_dto) (run_id turn_id : string) (request : string) (message : string)
    (extra config : list (string * pyval)) : list (string * pyval) :=
  let payload :=
    dict_update
      ([("run_id", VStr run_id); ("thread_id", VStr (str_field turn "thread_id")); ("turn_id", VStr turn_id);
        ("client_request_id", VStr request); ("provider", VStr (str_field turn "provider"));
        ("cwd", VStr (str_field turn "cwd")); ("message", VStr message); ("launch_actor", VStr "user");
        ("launch_surface", VStr "console")]%string ++ extra) config in
  if truthy (assoc "resume_provider_thread_id" turn)
  then dict_set "resume_provider_thread_id"%string (assoc "resume_provider_thread_id" turn) payload
  else payload.

(** ** Asking the machine *)

(** What a start came to. *)
Inductive start_outcome : Type :=
  | StartRefused (error_code : string) (error : string)
  | StartUnknown (error : string)
  | StartTaken.

(** [dict(response.message or {})]. *)
Definition reply_message (r : machine_reply) : list (string * pyval) := default [] (mr_message r).

(** [message.get("error") if isinstance(..., dict) else {}]. *)
Definition reply_detail (r : machine_reply) : list (string * pyval) := mapping (assoc "error" (reply_message r)).

(** [str(detail.get("message") or response.error or default)]. *)
Definition reply_error (r : machine_reply) (default_ : string) : string :=
  default default_ (opt_or (str_or (assoc "message" (reply_detail r))) (mr_error r ≫= or_none)).

(** [str(detail.get("code") or "provider_launch_failed")]; the first dispatch
    strips the code. *)
Definition reply_code (first : bool) (r : machine_reply) : string :=
  let code := str_or (assoc "code" (reply_detail r)) in
  default "provider_launch_failed" (if first then clean code else code).

(** The dispatch of one turn: [supports], then [send_command]. *)
Definition ask_machine (env : environment) (first : bool) (n : nat) (turn : turn_dto) (payload : list (string * pyval)) :
    start_outcome :=
  let capability := str_field turn "provider" +:+ ".turn_start" in
  if negb (env_supports env n (str_field turn "device_id") capability) then
    StartRefused "adapter_unavailable" ("Machine Agent does not advertise " +:+ capability)
  else
    let r := env_send env n payload in
    if negb (mr_transport_ok r) then
      StartUnknown (default "Console turn dispatch outcome is unknown" (mr_error r ≫= or_none))
    else
      match assoc "ok" (reply_message r) with
      | VBool true => StartTaken
      | _ => StartRefused (reply_code first r) (reply_error r "Console turn dispatch failed")
      end.

(** ** Reporting *)

(** The parameters of [session.console.turn.update.v2] after a dispatch. *)
Definition turn_report (owner_id : Z) (turn_id run_id session_id thread_id provider device_id state : string)
    (error_code error : option string) (now : Z) : list (string * pyval) :=
  [("turn", VDict
     [("turn_id", VStr turn_id); ("run_id", VStr run_id); ("owner_id", VInt owner_id); ("session_id", VStr session_id);
      ("thread_id", VStr thread_id); ("provider", VStr provider); ("device_id", VStr device_id); ("state", VStr state);
      ("expected_state", VStr "starting"); ("error_code", opt_str error_code); ("error", opt_str error);
      ("updated_at", VStr (isoformat (utc now)))])]%string.

(** The answer as the caller reads it: [result.get("turn") or {}],
    [result.get("applied") is False] and [result.get("next_turn")]. *)
Definition answer_turn (a : update_answer) : turn_dto :=
  match a with
  | TurnNotFound => []
  | TurnStale t _ | TurnReplayed t _ _ | TurnApplied t _ _ => t
  end.

Definition answer_unapplied (a : update_answer) : bool :=
  match a with TurnStale _ _ | TurnReplayed _ _ _ => true | TurnNotFound | TurnApplied _ _ _ => false end.

Definition answer_next (a : update_answer) : option turn_dto :=
  match a with
  | TurnNotFound | TurnStale _ _ => None
  | TurnReplayed _ next _ | TurnApplied _ next _ => next
  end.

Section Dispatch.
Context (float : string → pyval) (other_form : string → option datetime) (env : environment).

(** [client.call("session.console.turn.update.v2", ...)]: an error response
    raises [CatalogRemoteError], a [RuntimeError]. *)
Definition call_update (st : console_store) (params : list (string * pyval)) (run_id : string) :
    option (res (update_answer * console_store)) :=
  answer ← handle_update_turn float other_form st params run_id;
  Some (match answer with
        | Ok (Result_of a, st') => Ok (a, st')
        | Ok (Invalid message, _) => Err (RuntimeError message)
        | Err _ => Err (RuntimeError "catalog operation failed")
        end).

(** [_mark_catalog_start_outcome_unknown]. *)
Definition mark_start_unknown (st : console_store) (n : nat) (owner_id : Z)
    (turn_id run_id session_id thread_id provider device_id error : string) : option (res (update_answer * console_store)) :=
  call_update st
    (turn_report owner_id turn_id run_id session_id thread_id provider device_id "starting"
       (Some "turn_start_outcome_unknown"%string) (Some error) (env_now env n)) (env_run_id env n).

(** [str(persisted_turn.get("state") or state)] and
    [str(persisted_turn.get("error") or "") or None]. *)
Definition persisted_state (a : update_answer) (state : string) : string :=
  default state (str_or (assoc "state" (answer_turn a))).

Definition persisted_error (a : update_answer) : option string := str_or (assoc "error" (answer_turn a)).

Definition unapplied_turn (a : update_answer) (turn_id run_id state : string) (created : bool) : CatalogConsoleTurn :=
  CatalogTurn turn_id (Some run_id) (persisted_state a state) created None (persisted_error a).

(** The turn after its start command: the report, and the turn that the
    report may have started, by [dispatch_next]. *)
Definition settle_start (dispatch_next : nat → turn_dto → console_store → option (res (CatalogConsoleTurn * nat * console_store)))
    (n : nat) (owner_id : Z) (turn_id run_id session_id : string) (created : bool) (turn : turn_dto) (outcome : start_outcome)
    (st : console_store) : option (res (CatalogConsoleTurn * nat * console_store)) :=
  let provider := str_field turn "provider" in
  let device_id := str_field turn "device_id" in
  match outcome with
  | StartUnknown error =>
      do! session_uuid := Some (uuid_field turn "session_id") in
      do! thread_uuid := Some (uuid_field turn "thread_id") in
      do! '(a, st') := mark_start_unknown st n owner_id turn_id run_id session_uuid thread_uuid provider device_id error in
      Some (Ok (if answer_unapplied a then unapplied_turn a turn_id run_id "starting" created
                else CatalogTurn turn_id (Some run_id) (persisted_state a "starting") created
                       (Some "turn_start_outcome_unknown"%string) (Some error), S n, st'))
  | StartRefused _ _ | StartTaken =>
      let '(error_code, error) := match outcome with StartRefused c e => (Some c, Some e) | _ => (None, None) end in
      let state := if opt_truthy error then "failed"%string else "active"%string in
      do! '(a, st') := call_update st
        (turn_report owner_id turn_id run_id session_id (str_field turn "thread_id") provider device_id state
           error_code error (env_now env n)) (env_run_id env n) in
      if answer_unapplied a then Some (Ok (unapplied_turn a turn_id run_id state created, S n, st'))
      else
        let result := CatalogTurn turn_id (Some run_id) (persisted_state a state) created error_code error in
        match answer_next a with
        | None => Some (Ok (result, S n, st'))
        | Some next => do! '(_, n', st'') := dispatch_next (S n) next st' in Some (Ok (result, n', st''))
        end
  end.

(** [dispatch_catalog_claimed_turn]: it calls itself on the turn that the
    report of a failed start has started. *)
Fixpoint dispatch_catalog_claimed_turn (fuel : nat) (owner_id : Z) (n : nat) (turn : turn_dto) (st : console_store) :
    option (res (CatalogConsoleTurn * nat * console_store)) :=
  match fuel with
  | O => None
  | S fuel' =>
      do! turn_id := Some (uuid_field turn "turn_id") in
      do! run_id := Some (uuid_field turn "run_id") in
      do! session_id := Some (uuid_field turn "session_id") in
      do! config := Some (config_items turn) in
      let payload := start_payload turn run_id turn_id (default "" (str_or (assoc "client_request_id" turn)))
                       (default "" (str_or (assoc "message" turn))) [] config in
      settle_start (dispatch_catalog_claimed_turn fuel' owner_id) n owner_id turn_id run_id session_id true turn
        (ask_machine env false n turn payload) st
  end.

(** [int(time.time() * 1000)]. *)
Definition wall_ms (now : Z) : Z := now / 1000.

(** [client.call("session.console.turn.enqueue.v2", ...)]. *)
Definition call_enqueue (st : console_store) (owner_id : Z) (session_id message client_request_id : string) (now : Z)
    (ids : turn_ids) : option (res (enqueue_answer * console_store)) :=
  answer ← handle_enqueue_turn float other_form st
    [("turn", VDict [("session_id", VStr session_id); ("owner_id", VInt owner_id); ("message", VStr message);
                     ("client_request_id", VStr client_request_id); ("created_at", VStr (isoformat (utc now)))])]%string ids;
  Some (match answer with
        | Ok (Result_of a, st') => Ok (a, st')
        | Ok (Invalid message, _) => Err (RuntimeError message)
        | Err _ => Err (RuntimeError "catalog operation failed")
        end).

(** [enqueue_catalog_console_turn]: [accepted_at] is the clock when the message
    arrives; [ConsoleTurnUnavailable] and [ConsoleTurnConflict] are
    [RuntimeError]s. *)
Definition enqueue_catalog_console_turn (fuel : nat) (st : console_store) (owner_id : Z)
    (session_id message client_request_id : string) (accepted_at : Z) (ids : turn_ids) (n : nat) :
    option (res (CatalogConsoleTurn * nat * console_store)) :=
  do! '(a, st1) := call_enqueue st owner_id session_id message client_request_id accepted_at ids in
  match a with
  | SessionNotFound => Some (Err (RuntimeError "Console session was not found"))
  | TargetMissing => Some (Err (RuntimeError "Console execution target is unavailable"))
  | TurnKnown true _ => Some (Err (RuntimeError "client_request_id was reused with different text"))
  | TurnKnown false _ | TurnAccepted _ _ =>
      let '(turn, created) := match a with
                              | TurnAccepted d _ => (d, true)
                              | TurnKnown _ d => (default [] d, false)
                              | _ => ([], false)
                              end in
      do! turn_id := Some (uuid_field turn "turn_id") in
      do! run_id := Some (if truthy (assoc "run_id" turn) then let! r := uuid_field turn "run_id" in Ok (Some r) else Ok None) in
      let state := default "queued" (str_or (assoc "state" turn)) in
      match run_id with
      | Some run_id =>
          if negb (String.eqb state "starting") then Some (Ok (CatalogTurn turn_id (Some run_id) state created None None, n, st1))
          else
            do! config := Some (config_items turn) in
            let extra := [("server_accepted_at_ms", VInt (wall_ms accepted_at));
                          ("server_dispatched_at_ms", VInt (wall_ms (env_now env n)))]%string in
            let payload := start_payload turn run_id turn_id
                             (default client_request_id (str_or (assoc "client_request_id" turn)))
                             (default message (str_or (assoc "message" turn))) extra config in
            settle_start (dispatch_catalog_claimed_turn fuel owner_id) n owner_id turn_id run_id (str_field turn "session_id")
              created turn (ask_machine env true n turn payload) st1
      | None => Some (Ok (CatalogTurn turn_id None state created None None, n, st1))
      end
  end.

(** ** Reconnection *)

(** [reconcile_starting_console_turns_for_device], over the catalog: one of
    the turns that were starting when the machine reconnected. *)
Definition reconcile_turn (fuel : nat) (owner_id : Z) (device_id : string) (n : nat) (turn : turn_dto) (st : console_store) :
    option (res (CatalogConsoleTurn * nat * console_store)) :=
  let capability := str_field turn "provider" +:+ ".turn_start" in
  if env_supports env n device_id capability then dispatch_catalog_claimed_turn fuel owner_id n turn st
  else
    let error := "Machine Agent reconnected without advertising " +:+ capability +:+ "; launch outcome remains unknown" in
    do! turn_id := Some (uuid_field turn "turn_id") in
    do! run_id := Some (uuid_field turn "run_id") in
    do! session_id := Some (uuid_field turn "session_id") in
    do! thread_id := Some (uuid_field turn "thread_id") in
    do! '(a, st') := mark_start_unknown st n owner_id turn_id run_id session_id thread_id (str_field turn "provider")
                       (str_field turn "device_id") error in
    let applied := negb (answer_unapplied a) in
    Some (Ok (CatalogTurn turn_id (Some run_id) (persisted_state a "starting") false
                (if applied then Some "turn_start_outcome_unknown"%string else None)
                (if applied then Some error else persisted_error a), S n, st')).

Fixpoint reconcile_turns (fuel : nat) (owner_id : Z) (device_id : string) (n : nat) (turns : list turn_dto)
    (st : console_store) : option (res (list CatalogConsoleTurn * console_store)) :=
  match turns with
  | [] => Some (Ok ([], st))
  | turn :: turns' =>
      do! '(r, n', st') := reconcile_turn fuel owner_id device_id n turn st in
      do! '(rs, st'') := reconcile_turns fuel owner_id device_id n' turns' st' in
      Some (Ok (r :: rs, st''))
  end.

Definition reconcile_starting_console_turns_for_device (fuel : nat) (st : console_store) (owner_id : Z) (device_id : string) :
    option (res (list CatalogConsoleTurn * console_store)) :=
  match handle_starting_turns float st [("owner_id", VInt owner_id); ("device_id", VStr device_id)]%string with
  | Some (Ok (Result_of turns, st')) => reconcile_turns fuel owner_id device_id 0 turns st'
  | Some (Ok (Invalid message, _)) => Some (Err (RuntimeError message))
  | Some (Err _) => Some (Err (RuntimeError "catalog operation failed"))
  | None => None
  end.

(** ** Interrupting *)

(** [ConsoleTurnInterrupt]. *)
Record ConsoleTurnInterrupt : Type := TurnInterrupt {
  ci_turn_id : string;
  ci_run_id : string;
  ci_dispatched : bool;
  ci_error : option string;
}.

(** The payload of the interrupt command. *)
Definition interrupt_payload (turn : turn_dto) (provider run_id : string) : list (string * pyval) :=
  [("provider", VStr provider); ("run_id", VStr run_id);
   ("turn_id", VStr (default "" (str_or (assoc "turn_id" turn))));
   ("thread_id", VStr (default "" (str_or (assoc "thread_id" turn))))]%string.

(** [interrupt_console_turn], over the catalog: the turn that holds the
    session's thread is interrupted by its run; the store is only read. *)
Definition interrupt_console_turn (st : console_store) (owner_id : Z) (session_id : string) (n : nat) :
    option (res ConsoleTurnInterrupt) :=
  match handle_current_turn float st [("session_id", VStr session_id); ("owner_id", VInt owner_id)]%string with
  | None => None
  | Some (Err _) => Some (Err (RuntimeError "catalog operation failed"))
  | Some (Ok (Invalid message, _)) => Some (Err (RuntimeError message))
  | Some (Ok (Result_of None, _)) => Some (Err (RuntimeError "Console session was not found"))
  | Some (Ok (Result_of (Some None), _)) => Some (Err (RuntimeError "Session has no active Console turn"))
  | Some (Ok (Result_of (Some (Some turn)), _)) =>
      if negb (truthy (assoc "run_id" turn)) then Some (Err (RuntimeError "Session has no active Console turn"))
      else
        let provider := strip (default "" (str_or (assoc "provider" turn))) in
        let device_id := strip (default "" (str_or (assoc "device_id" turn))) in
        let capability := provider +:+ ".turn_interrupt" in
        do! run_id := Some (uuid_field turn "run_id") in
        if negb (env_supports env n device_id capability) then
          Some (Err (RuntimeError ("Machine Agent does not advertise " +:+ capability)))
        else
          let r := env_send env n (interrupt_payload turn provider run_id) in
          let error :=
            if negb (mr_transport_ok r) then Some (default "Console turn interrupt outcome is unknown" (mr_error r ≫= or_none))
            else match assoc "ok" (reply_message r) with
                 | VBool true => None
                 | _ => Some (reply_error r "Console turn interrupt failed")
                 end in
          do! turn_id := Some (uuid_field turn "turn_id") in
          Some (Ok (TurnInterrupt turn_id run_id (bool_decide (error = None)) error))
  end.

(** ** The end of a run *)

(** The fields of a runtime event that are read. *)
Record runtime_terminal : Type := RuntimeTerminal {
  re_kind : string;
  re_run_id : option string;
  re_session_id : option string;
  re_thread_id : option string;
  re_device_id : option string;
  re_provider : string;
  re_terminal_state : string;
  re_occurred_at : option datetime;
}.

Definition reported_terminal_states : list string := ["run_completed"; "run_failed"; "run_cancelled"]%string.

Definition run_outcome (terminal_state : string) : string :=
  if String.eqb terminal_state "run_completed" then "completed"
  else if String.eqb terminal_state "run_cancelled" then "cancelled"
  else "failed".

(** The update that an event asks for, if any. *)
Definition terminal_report (owner_id : Z) (event : runtime_terminal) (now : Z) : option (list (string * pyval)) :=
  match re_run_id event, re_session_id event, re_thread_id event, re_device_id event with
  | Some run_id, Some session_id, Some thread_id, Some device_id =>
      if String.eqb (re_kind event) "terminal_signal" && str_in (re_terminal_state event) reported_terminal_states then
        let outcome := run_outcome (re_terminal_state event) in
        Some [("turn", VDict
          [("run_id", VStr run_id); ("owner_id", VInt owner_id); ("session_id", VStr session_id); ("thread_id", VStr thread_id);
           ("provider", VStr (re_provider event)); ("device_id", VStr device_id); ("state", VStr outcome);
           ("error", if String.eqb outcome "completed" then VNone else VStr (re_terminal_state event));
           ("updated_at", VStr (isoformat (default (utc now) (re_occurred_at event))))])]%string
      else None
  | _, _, _, _ => None
  end.

(** One event of a batch: the report, and the dispatch of the turn it
    started. *)
Definition reconcile_terminal_event (fuel : nat) (owner_id : Z) (n : nat) (event : runtime_terminal) (st : console_store) :
    option (res (nat * console_store)) :=
  match terminal_report owner_id event (env_now env n) with
  | None => Some (Ok (n, st))
  | Some params =>
      do! '(a, st') := call_update st params (env_run_id env n) in
      match answer_next a with
      | None => Some (Ok (S n, st'))
      | Some next => do! '(_, n', st'') := dispatch_catalog_claimed_turn fuel owner_id (S n) next st' in Some (Ok (n', st''))
      end
  end.
End Dispatch.
