(* ===== verification/DispatchProps.v ===== *)
(** * Properties of the dispatch of Console turns

    A dispatch ends, and what it leaves: no turn of the thread is left to
    start without a machine that has taken it or a recorded doubt. *)

From S2P Require Import Prelude PyStr PyTime PyValue MachineEvidence PyJson PyText InputQueue FactStore FactReducer.
From S2P Require Import InputStore InputServer ConsoleTurns ConsoleServer ConsoleLaws ConsoleProps ConsoleDispatch.

Open Scope list_scope.
Open Scope Z_scope.

(** ** The turns that wait *)

Definition waiting_count (st : console_store) : nat :=
  size (filter (λ kt : string * LiveConsoleTurn, tn_state kt.2 = "queued"%string) (cs_turns st)).

Lemma waiting_put (turns : turn_table) id t t' :
  turns !! id = Some t → tn_state t' ≠ "queued"%string →
  let P := λ kt : string * LiveConsoleTurn, tn_state kt.2 = "queued"%string in
  size (filter P (<[id := t']> turns)) = (size (filter P turns) - (if decide (tn_state t = "queued"%string) then 1 else 0))%nat.
Proof.
  intros Ht Hq P. rewrite map_filter_insert_False by done. rewrite map_filter_delete.
  case_decide as E.
  - rewrite map_size_delete_Some; [lia|]. exists t. by apply map_lookup_filter_Some.
  - rewrite map_size_delete_None; [lia|]. apply map_lookup_filter_None. right. naive_solver.
Qed.

(** A started turn is one fewer that waits. *)
Lemma applied_next_decreases float st u run_id d next seq st' :
  up_state u ∈ UPDATE_STATES → update_console_turn float st u run_id = Ok (TurnApplied d (Some next) seq, st') →
  (waiting_count st' < waiting_count st)%nat.
Proof.
  intros Hus H. apply update_applied in H as (id & t & receipt & st2 & Hu & _ & Hnt & He & _ & _ & ->).
  apply updated_turn_spec in Hu as (Ht & _). destruct (str_in (up_state u) TERMINAL_STATES) eqn:Es; [|done].
  apply str_in_spec in Es. unfold end_turn in He.
  apply start_next_cases in He as [(? & _)|(id' & t' & d' & (Hf & [_ Hq]%waits_in_spec & _) & Hst & _)]; [done|].
  apply start_turn_turns in Hst as (Et & _). unfold waiting_count.
  change (cs_turns (advance_console_seq (up_updated_at u) st2)) with (cs_turns st2). rewrite Et.
  rewrite (waiting_put _ _ _ _ Hf) by done. rewrite decide_True by done. simpl in Hf |- *.
  set (P := λ kt : string * LiveConsoleTurn, tn_state kt.2 = "queued"%string).
  set (turns1 := <[id := _]> (cs_turns st)) in *.
  assert (size (filter P turns1) ≠ 0)%nat as Hpos.
  { intros E%map_size_empty_inv. assert (filter P turns1 !! id' = Some t') as Hin by by apply map_lookup_filter_Some.
    by rewrite E in Hin. }
  assert (size (filter P turns1) ≤ size (filter P (cs_turns st)))%nat as Hle.
  { unfold turns1. rewrite (waiting_put _ _ _ _ Ht) by by apply terminal_not_queued. fold P. case_decide; lia. }
  lia.
Qed.

(** ** The report of a dispatch *)

Section Report.
Context (float : string → pyval) (other_form : string → option datetime).

(** The handler answers every report, and a result is that of the store's
    update. *)
Lemma report_handled st owner_id turn_id run_id session_id thread_id provider device_id state error_code error now fresh :
  ∃ r, handle_update_turn float other_form st
         (turn_report owner_id turn_id run_id session_id thread_id provider device_id state error_code error now) fresh = Some r ∧
    ∀ a st', r = Ok (Result_of a, st') → state ∈ UPDATE_STATES ∧ ∃ at_,
      update_console_turn float st
        (TurnUpdate run_id state at_ owner_id session_id thread_id provider device_id (Some turn_id) (Some "starting"%string)
           error error_code) fresh = Ok (a, st').
Proof.
  unfold handle_update_turn, turn_report. cbn [assoc String.eqb Ascii.eqb Bool.eqb].
  set (data := [("turn_id"%string, VStr turn_id); _; _; _; _; _; _; _; _; _; _; _]).
  assert (has_fields ["turn"%string] [("turn"%string, VDict data)] = true) as -> by (vm_compute; reflexivity).
  assert (requires UPDATE_FIELDS data = true) as -> by (vm_compute; reflexivity).
  assert (as_str (opt_str error) = error) as Ee by by destruct error.
  assert (as_str (opt_str error_code) = error_code) as Ec by by destruct error_code.
  assert (null_or_str (opt_str error) = true) as En by by destruct error.
  cbn [negb mbind option_bind res_bind int_of].
  destruct (check_update_identity other_form data) as [at_|e]; cbn [mbind res_bind].
  2: { unfold caught, refuse. destruct (error_text e); eexists; (split; [reflexivity|]); intros ? ? [=]. }
  unfold refuse. destruct (owner_id <=? 0); [eexists; split; [reflexivity|intros ? ? [=]]|].
  destruct (check_update_fields data) as [[m|]|e] eqn:Ef;
    [eexists; split; [reflexivity|intros ? ? [=]]| |eexists; split; [reflexivity|intros ? ? [=]]].
  apply checked_state in Ef. change (the_str (assoc "state" data)) with state in Ef.
  unfold data. cbn [assoc String.eqb Ascii.eqb Bool.eqb as_str the_str or_empty null_or_str andb]. rewrite En, Ee, Ec.
  cbn [default id]. eexists. split; [reflexivity|]. intros a st' H. split; [done|]. exists (sqlite_store at_).
  destruct (update_console_turn float st _ fresh) as [[a0 s0]|e]; cbn in H; [|done]. by injection H as <- <-.
Qed.

Lemma report_answered st owner_id turn_id run_id session_id thread_id provider device_id state error_code error now fresh :
  ∃ r, call_update float other_form st
         (turn_report owner_id turn_id run_id session_id thread_id provider device_id state error_code error now) fresh = Some r ∧
    ∀ a st', r = Ok (a, st') → state ∈ UPDATE_STATES ∧ ∃ at_,
      update_console_turn float st
        (TurnUpdate run_id state at_ owner_id session_id thread_id provider device_id (Some turn_id) (Some "starting"%string)
           error error_code) fresh = Ok (a, st').
Proof.
  unfold call_update. destruct (report_handled st owner_id turn_id run_id session_id thread_id provider device_id state
    error_code error now fresh) as (r & -> & Hr). eexists. split; [reflexivity|]. intros a st' H.
  apply Hr. destruct r as [[[m|a0] s0]|e]; try done. by injection H as <- <-.
Qed.
End Report.

(** ** A dispatch ends *)

Section Ends.
Context (float : string → pyval) (other_form : string → option datetime) (env : environment).

Abbreviation dispatch := (dispatch_catalog_claimed_turn float other_form env).
Abbreviation settle := (settle_start float other_form env).
Abbreviation dispatcher := (nat → turn_dto → console_store → option (res (CatalogConsoleTurn * nat * console_store))).

(** The next turn of a settled start is dispatched in a store where fewer
    turns wait. *)
Lemma settle_start_ends (dispatch_next : dispatcher) n owner_id turn_id run_id session_id created turn outcome st :
  (∀ n' next st', (waiting_count st' < waiting_count st)%nat → ∃ r, dispatch_next n' next st' = Some r) →
  ∃ r, settle dispatch_next n owner_id turn_id run_id session_id created turn outcome st = Some r.
Proof.
  intros Hnext.
  assert (∀ error_code error, ∃ r, settle dispatch_next n owner_id turn_id run_id session_id created turn
            (match error_code with Some c => StartRefused c error | None => StartTaken end) st = Some r) as Hreport.
  { intros error_code error. unfold settle_start.
    destruct error_code as [c|]; cbv zeta;
    (match goal with |- context [call_update _ _ ?st (turn_report ?o ?a ?b ?c ?d ?p ?v ?s ?ec ?e ?w) ?f] =>
       destruct (report_answered float other_form st o a b c d p v s ec e w f) as (r & -> & Hr) end);
    (destruct r as [[a st']|e]; cbn [and_then]; [|by eexists]);
    destruct (Hr _ _ eq_refl) as (Hs & at_ & Hu);
    (destruct (answer_unapplied a) eqn:Ea; [by eexists|]);
    (destruct (answer_next a) as [next|] eqn:En; [|by eexists]);
    (destruct a as [| | |d next' seq]; [done..|]; cbn in En; subst next');
    (destruct (Hnext (S n) next st') as (r & ->); [eapply applied_next_decreases; [|exact Hu]; exact Hs|]);
    destruct r as [[[? ?] ?]|?]; cbn [and_then]; by eexists. }
  destruct outcome as [c e|e|]; [apply (Hreport (Some c) e)| |apply (Hreport None ""%string)].
  unfold settle_start. destruct (uuid_field turn "session_id") as [s|]; cbn [and_then]; [|by eexists].
  destruct (uuid_field turn "thread_id") as [t|]; cbn [and_then]; [|by eexists].
  unfold mark_start_unknown.
  match goal with |- context [call_update _ _ ?st (turn_report ?o ?a ?b ?c ?d ?p ?v ?s ?ec ?e ?w) ?f] =>
       destruct (report_answered float other_form st o a b c d p v s ec e w f) as (r & -> & Hr) end.
  destruct r as [[a st']|e']; cbn [and_then]; by eexists.
Qed.

Lemma dispatch_fuel owner_id fuel n turn st :
  (waiting_count st < fuel)%nat → ∃ r, dispatch fuel owner_id n turn st = Some r.
Proof.
  revert n turn st; induction fuel as [|fuel IH]; intros n turn st Hf; [lia|]. cbn [dispatch_catalog_claimed_turn].
  destruct (uuid_field turn "turn_id"); cbn [and_then]; [|by eexists].
  destruct (uuid_field turn "run_id"); cbn [and_then]; [|by eexists].
  destruct (uuid_field turn "session_id"); cbn [and_then]; [|by eexists].
  destruct (config_items turn); cbn [and_then]; [|by eexists].
  apply settle_start_ends. intros n' next st' Hlt. apply IH. lia.
Qed.
End Ends.

(** ** What a dispatch leaves *)

(** The turns of a thread that have their receipts, belong to one owner and
    carry canonical identifiers. *)
Record thread_ready (owner_id : Z) (th : string) (st : console_store) : Prop := {
  ready_ok : turns_ok None st;
  ready_ids : ∀ id t, cs_turns st !! id = Some t → tn_thread_id t = th →
    uuid_text id = Some id ∧ uuid_text (tn_session_id t) = Some (tn_session_id t) ∧ uuid_text th = Some th ∧
    (∀ r, tn_run_id t = Some r → uuid_text r = Some r);
  ready_receipt : ∀ id t, cs_turns st !! id = Some t → tn_thread_id t = th →
    ∃ r, cs_receipts st !! tn_receipt_id t = Some r ∧ ir_owner_id r = owner_id;
}.

(** No turn of the thread is starting without a doubt on record. *)
Definition no_silent_start (th : string) (st : console_store) : Prop :=
  ∀ id t, cs_turns st !! id = Some t → starting_in th t = true → tn_error t ≠ None.

Lemma starting_in_spec th t : starting_in th t = true ↔ tn_thread_id t = th ∧ tn_state t = "starting"%string.
Proof. unfold starting_in. by rewrite andb_true_iff, !String.eqb_eq. Qed.

(** A turn that starts is found by its report. *)
Lemma starting_turn_found owner_id th st id t run_id state at_ error error_code :
  thread_ready owner_id th st → cs_turns st !! id = Some t → tn_thread_id t = th → tn_run_id t = Some run_id →
  ∃ receipt, updated_turn st (TurnUpdate run_id state at_ owner_id (tn_session_id t) th (tn_provider t) (tn_device_id t)
                                (Some id) (Some "starting"%string) error error_code) = Some (id, t, receipt).
Proof.
  intros Hr Ht Hth Hrun. destruct (ready_receipt _ _ _ Hr _ _ Ht Hth) as (receipt & Hrec & Hown). exists receipt.
  unfold updated_turn. erewrite head_select_unique; [|exact Ht|apply names_run_spec; by subst|].
  - cbn. rewrite Hrec. cbn. rewrite Hown, Z.eqb_refl. unfold or_none.
    destruct (str_truthy id); simpl; [by rewrite String.eqb_refl|done].
  - intros id' t' Ht' [Hr' _]%names_run_spec. by eapply (ok_own_run _ _ (ready_ok _ _ _ Hr)).
Qed.

(** Its report applies. *)
Lemma update_of_starting float st u id t receipt run_id a st' :
  updated_turn st u = Some (id, t, receipt) → tn_state t = "starting"%string → up_expected_state u = Some "starting"%string →
  update_console_turn float st u run_id = Ok (a, st') → ∃ d next seq, a = TurnApplied d next seq.
Proof.
  intros Hu Hs Hx H. unfold update_console_turn in H. rewrite Hu, Hx, Hs in H. cbn in H.
  apply bind_ok in H as ([] & _ & H). apply bind_ok in H as ([next st2] & _ & H). apply bind_ok in H as (d & _ & H).
  injection H as <- _. by eexists _, _, _.
Qed.

(** A report that does not end the turn rewrites it and its receipt. *)
Lemma applied_live float st u run_id d next seq st' id t receipt :
  updated_turn st u = Some (id, t, receipt) → str_in (up_state u) TERMINAL_STATES = false →
  update_console_turn float st u run_id = Ok (TurnApplied d next seq, st') →
  next = None ∧ cs_turns st' = <[id := moved_to (up_state u) (up_error u) (up_updated_at u) t]> (cs_turns st) ∧
  cs_receipts st' = <[tn_receipt_id t := reported_receipt u receipt]> (cs_receipts st).
Proof.
  intros Hu Hs H. apply update_applied in H as (id0 & t0 & receipt0 & st2 & Hu0 & _ & _ & He & _ & _ & ->).
  rewrite Hu in Hu0. injection Hu0 as <- <- <-. rewrite Hs in He. injection He as <- <-. done.
Qed.

(** The tables after a report keep a thread ready. *)
Lemma ready_after owner_id th st st' :
  thread_ready owner_id th st → turns_ok None st' →
  (∀ id t, cs_turns st' !! id = Some t → tn_thread_id t = th →
     ∃ t0, cs_turns st !! id = Some t0 ∧ tn_thread_id t0 = th ∧ tn_session_id t = tn_session_id t0 ∧
           tn_receipt_id t = tn_receipt_id t0 ∧
           (tn_run_id t = tn_run_id t0 ∨ ∃ r, tn_run_id t = Some r ∧ uuid_text r = Some r)) →
  (∀ k r, cs_receipts st !! k = Some r → ∃ r', cs_receipts st' !! k = Some r' ∧ ir_owner_id r' = ir_owner_id r) →
  thread_ready owner_id th st'.
Proof.
  intros [Hok Hids Hown] Hok' Ht Hr. split; [done| |].
  - intros id t Hid Hth. destruct (Ht _ _ Hid Hth) as (t0 & H0 & Hth0 & Es & _ & Erun).
    destruct (Hids _ _ H0 Hth0) as (I1 & I2 & I3 & I4). rewrite Es. split_and!; try done.
    intros r Er. destruct Erun as [E|(r' & E & Hu)]; [apply I4; congruence|congruence].
  - intros id t Hid Hth. destruct (Ht _ _ Hid Hth) as (t0 & H0 & Hth0 & _ & -> & _).
    destruct (Hown _ _ H0 Hth0) as (r & Hrec & <-). by apply Hr.
Qed.

(** What the report of a start leaves: no turn starting, the next one, or the
    same turn with what was reported. *)
Lemma report_leaves float owner_id th st u id t receipt run_id d next seq st' :
  thread_ready owner_id th st → updated_turn st u = Some (id, t, receipt) → starting_in th t = true →
  up_state u ∈ UPDATE_STATES → uuid_text run_id = Some run_id →
  update_console_turn float st u run_id = Ok (TurnApplied d next seq, st') →
  thread_ready owner_id th st' ∧
  match next with
  | Some d' => up_state u ∈ TERMINAL_STATES ∧ ∃ id' t' m c p, cs_turns st' !! id' = Some t' ∧ starting_in th t' = true ∧
                 console_turn_dto float (id', t') m c p = Ok d'
  | None => ∀ id' t', cs_turns st' !! id' = Some t' → starting_in th t' = true →
                 id' = id ∧ up_state u = "starting"%string ∧ tn_error t' = up_error u
  end.
Proof.
  intros Hready Hu Hst Hs Hfresh H. pose proof (ready_ok _ _ _ Hready) as Hok.
  assert (turns_ok None st') as Hok' by by eapply update_ok.
  pose proof (updated_turn_spec _ _ _ _ _ Hu) as (Ht & _ & Hrec & _). apply starting_in_spec in Hst as [Hth Hq].
  assert (∀ id0 t0, cs_turns st !! id0 = Some t0 → starting_in th t0 = true → id0 = id) as Hone.
  { intros id0 t0 H0 S0%starting_owns. eapply (ok_one _ _ Hok th); try done. apply starting_owns. by apply starting_in_spec. }
  set (moved := moved_to (up_state u) (up_error u) (up_updated_at u) t) in *.
  assert (∀ k r, cs_receipts st !! k = Some r →
            ∃ r', <[tn_receipt_id t := reported_receipt u receipt]> (cs_receipts st) !! k = Some r' ∧ ir_owner_id r' = ir_owner_id r) as Hrk.
  { intros k r Hk. destruct (decide (k = tn_receipt_id t)) as [->|?]; [rewrite lookup_insert_eq|rewrite lookup_insert_ne by done; eauto].
    eexists. split; [done|]. by simplify_eq. }
  destruct (str_in (up_state u) TERMINAL_STATES) eqn:Es.
  - apply str_in_spec in Es as Hterm.
    destruct (ended_turn_cases _ _ _ _ _ _ _ _ Hok Hterm H) as (id0 & t0 & receipt0 & Hu0 & _ & _ & Hc).
    rewrite Hu in Hu0. injection Hu0 as <- <- <-. cbn zeta in Hc. fold moved in Hc. destruct Hc as (_ & _ & _ & Hc).
    assert (starting_in th moved = false) as Hms.
    { apply not_true_iff_false. intros [_ E]%starting_owns%owns_thread_spec. by apply (terminal_not_owner _ Hterm). }
    destruct Hc as [(-> & Et & _ & Er & _)|(id' & t' & d' & (Hf & [Hth' _]%waits_in_spec & _) & Hne & -> & Et & _ & _ & _ & Er & Hd')].
    + split.
      * eapply ready_after; [done..| |rewrite Er; exact Hrk]. rewrite Et. intros id0 t0 H0 Hth0. by_turn; [|by eauto 10].
        exists t. by eauto 10.
      * rewrite Et. intros id0 t0 H0 S0. by_turn; [congruence|]. by destruct Ek; rewrite (Hone _ _ H0 S0).
    + split.
      * eapply ready_after; [done..| |].
        -- rewrite Et. intros id0 t0 H0 Hth0. by_turn; [exists t'|exists t|]; by eauto 10.
        -- rewrite Er. intros k r Hk. destruct (Hrk _ _ Hk) as (r1 & H1 & ?).
           destruct (decide (k = tn_receipt_id t')) as [->|?]; [rewrite lookup_alter_eq, H1|rewrite lookup_alter_ne by done]; by eexists.
      * split; [done|]. unfold full_dto in Hd'. eexists id', _, _, _, _. split; [rewrite Et; apply lookup_insert_eq|]. split; [|exact Hd'].
        apply starting_in_spec. simpl. split; [congruence|done].
  - destruct (applied_live _ _ _ _ _ _ _ _ _ _ _ Hu Es H) as (-> & Et & Er). fold moved in Et. split.
    + eapply ready_after; [done..| |rewrite Er; exact Hrk]. rewrite Et. intros id0 t0 H0 Hth0. by_turn; [|by eauto 10].
      exists t. by eauto 10.
    + rewrite Et. intros id0 t0 H0 S0. by_turn; [|by destruct Ek; rewrite (Hone _ _ H0 S0)].
      apply starting_in_spec in S0 as [_ S0]. done.
Qed.

Lemma uuid_field_str turn name s u : assoc name turn = VStr s → uuid_text s = Some u → uuid_field turn name = Ok u.
Proof. intros E Hu. unfold uuid_field. rewrite E. simpl. by rewrite Hu. Qed.

Section Settles.
Context (float : string → pyval) (other_form : string → option datetime) (env : environment).

Abbreviation dispatch := (dispatch_catalog_claimed_turn float other_form env).
Abbreviation dispatcher := (nat → turn_dto → console_store → option (res (CatalogConsoleTurn * nat * console_store))).

(** The turn is that of a starting row. *)
Definition names_starting (th : string) (st : console_store) (turn : turn_dto) : Prop :=
  ∃ id t m c p, cs_turns st !! id = Some t ∧ starting_in th t = true ∧ console_turn_dto float (id, t) m c p = Ok turn.

Hypothesis fresh_ids : ∀ n, uuid_text (env_run_id env n) = Some (env_run_id env n).

(** The next turn of a settled start is dispatched from a ready store. *)
Definition dispatches_well (owner_id : Z) (th : string) (dispatch_next : dispatcher) : Prop :=
  ∀ n turn st r n' st', thread_ready owner_id th st → names_starting th st turn →
    dispatch_next n turn st = Some (Ok (r, n', st')) → thread_ready owner_id th st' ∧ no_silent_start th st'.

(** The answer to the report of a starting turn. *)
Lemma start_reported owner_id th st id t m c p turn run_id state error_code error now fresh a st' :
  thread_ready owner_id th st → cs_turns st !! id = Some t → starting_in th t = true → tn_run_id t = Some run_id →
  console_turn_dto float (id, t) m c p = Ok turn → uuid_text fresh = Some fresh →
  call_update float other_form st (turn_report owner_id id run_id (tn_session_id t) th (str_field turn "provider")
    (str_field turn "device_id") state error_code error now) fresh = Some (Ok (a, st')) →
  ∃ d next seq, a = TurnApplied d next seq ∧ thread_ready owner_id th st' ∧
    match next with
    | Some d' => state ∈ TERMINAL_STATES ∧ names_starting th st' d'
    | None => ∀ id' t', cs_turns st' !! id' = Some t' → starting_in th t' = true →
                state = "starting"%string ∧ tn_error t' = error
    end.
Proof.
  intros Hready Ht Hst Hrun Hd Hf Hc. pose proof Hst as [Hth Hq]%starting_in_spec.
  apply dto_fields in Hd as (_ & _ & _ & _ & _ & Dpr & Ddv & _). unfold str_field in Hc. rewrite Dpr, Ddv in Hc. cbn in Hc.
  destruct (report_answered float other_form st owner_id id run_id (tn_session_id t) th (tn_provider t) (tn_device_id t)
    state error_code error now fresh) as (x & Hx & Hres). rewrite Hc in Hx. injection Hx as <-.
  destruct (Hres _ _ eq_refl) as (Hs & at_ & Hu).
  destruct (starting_turn_found owner_id th st id t run_id state at_ error error_code Hready Ht Hth Hrun) as (receipt & Hfound).
  destruct (update_of_starting _ _ _ _ _ _ _ _ _ Hfound Hq eq_refl Hu) as (d & next & seq & ->).
  destruct (report_leaves _ _ _ _ _ _ _ _ _ _ _ _ _ Hready Hfound Hst Hs Hf Hu) as [Hr Hn].
  exists d, next, seq. split; [done|]. split; [done|]. destruct next as [d'|]; [exact Hn|].
  intros id' t' H1 H2. by destruct (Hn _ _ H1 H2) as (_ & ? & ?).
Qed.

Lemma settle_start_settles owner_id th dispatch_next n created turn outcome st r n' st' id t m c p run_id :
  dispatches_well owner_id th dispatch_next → thread_ready owner_id th st → cs_turns st !! id = Some t →
  starting_in th t = true → tn_run_id t = Some run_id → console_turn_dto float (id, t) m c p = Ok turn →
  settle_start float other_form env dispatch_next n owner_id id run_id (tn_session_id t) created turn outcome st
    = Some (Ok (r, n', st')) →
  thread_ready owner_id th st' ∧ no_silent_start th st'.
Proof.
  intros Hnext Hready Ht Hst Hrun Hd H. pose proof Hst as [Hth Hq]%starting_in_spec.
  destruct (ready_ids _ _ _ Hready _ _ Ht Hth) as (I1 & I2 & I3 & I4).
  pose proof (dto_fields _ _ _ _ _ _ _ Hd) as (_ & _ & _ & Dse & Dth & _). rewrite Hth in Dth.
  assert (str_field turn "thread_id" = th) as Eth by (unfold str_field; by rewrite Dth).
  unfold settle_start, mark_start_unknown in H. rewrite Eth in H.
  rewrite (uuid_field_str _ _ _ _ Dse I2), (uuid_field_str _ _ _ _ Dth I3) in H. cbn [and_then] in H.
  destruct outcome as [code error|error|]; cbv zeta in H;
    (destruct (call_update _ _ _ _ _) as [[[a st1]|e]|] eqn:Ec; [|done..]);
    destruct (start_reported _ _ _ _ _ _ _ _ _ _ _ _ _ _ _ _ _ Hready Ht Hst Hrun Hd (fresh_ids n) Ec)
      as (d & next & seq & -> & Hr & Hn); cbn [and_then answer_unapplied answer_next] in H.
  - destruct next as [next|].
    + destruct (dispatch_next (S n) next st1) as [[[[r1 n1] st2]|e]|] eqn:En; [|done..]. cbn in H. injection H as _ _ <-.
      destruct Hn as [_ Hn]. by eapply Hnext.
    + injection H as _ _ <-. split; [done|]. intros id' t' H1 H2. destruct (Hn _ _ H1 H2) as [E _].
      by destruct (opt_truthy _) in E.
  - injection H as _ _ <-. split; [done|]. intros id' t' H1 H2. destruct next as [d'|].
    + by destruct Hn as [E%str_in_spec _].
    + destruct (Hn _ _ H1 H2) as [_ ->]. done.
  - destruct next as [next|].
    + destruct (dispatch_next (S n) next st1) as [[[[r1 n1] st2]|e]|] eqn:En; [|done..]. cbn in H. injection H as _ _ <-.
      destruct Hn as [_ Hn]. by eapply Hnext.
    + injection H as _ _ <-. split; [done|]. intros id' t' H1 H2. destruct (Hn _ _ H1 H2) as [E _]. done.
Qed.

Lemma dispatch_settles owner_id th fuel : dispatches_well owner_id th (dispatch fuel owner_id).
Proof.
  induction fuel as [|fuel IH]; intros n turn st r n' st' Hready (id & t & m & c & p & Ht & Hst & Hd) H; [done|].
  cbn [dispatch_catalog_claimed_turn] in H. pose proof Hst as [Hth Hq]%starting_in_spec.
  destruct (ready_ids _ _ _ Hready _ _ Ht Hth) as (I1 & I2 & I3 & I4).
  destruct (tn_run_id t) as [run_id|] eqn:Hrun.
  2: { apply (ok_waiting _ _ (ready_ok _ _ _ Hready) _ _ Ht) in Hrun. congruence. }
  pose proof (dto_fields _ _ _ _ _ _ _ Hd) as (Did & Drun & _ & Dse & _). rewrite Hrun in Drun.
  rewrite (uuid_field_str _ _ _ _ Did I1), (uuid_field_str _ _ _ _ Drun (I4 _ eq_refl)), (uuid_field_str _ _ _ _ Dse I2) in H.
  cbn [and_then] in H. destruct (config_items turn) as [config|]; [|done]. cbn [and_then] in H.
  by eapply settle_start_settles.
Qed.
End Settles.

