(* ===== verification/ConsoleSamples.v ===== *)
(** * Samples of Console turns

    A Console session with two messages, and the witnesses that the
    properties of Console turns apply to it. *)

From S2P Require Import Prelude PyStr PyTime PyValue MachineEvidence PyJson PyText InputQueue FactStore FactReducer.
From S2P Require Import FactReads.
From S2P Require Import ConsoleControl ProviderContracts Capabilities RuntimeView Liveness StateContract SessionState.
From S2P Require Import StateProjector InputStore InputServer InputLaws InputProps.
From S2P Require Import ConsoleTurns ConsoleServer ConsoleLaws ConsoleProps ConsoleDispatch DispatchProps.

Open Scope string_scope.
Open Scope list_scope.
Open Scope Z_scope.

Definition noon : Z := 1785000000000000.

Definition console_id : string := "aaaaaaaa-0000-4000-8000-000000000001".
Definition console_thread : string := "bbbbbbbb-0000-4000-8000-000000000001".

Definition console_row : LiveSessionCatalog :=
  SessionCatalog "codex" (Some "cinder") None (Some "/work") None None None None None None (Some "console") "assist" "bypass"
    (Some console_thread) None None "active" None noon.

Definition console_start : console_store :=
  ConsoleStore (InputStore (Catalog ∅ [] [] 0 "") ∅ {[console_id := console_row]})
    {[console_thread := SessionThread console_id (Some "cinder") (Some "/work") None]} [] ∅ ∅ {[7]} {[console_id := Some 7]} ∅ ∅.

(** No float and no other form of a time occurs. *)
Definition no_float : string → pyval := λ _, VNone.
Definition no_form : string → option datetime := λ _, None.

Definition message_params (text key : string) (second : Z) : list (string * pyval) :=
  [("turn", VDict [("session_id", VStr console_id); ("owner_id", VInt 7); ("message", VStr text);
                   ("client_request_id", VStr key); ("created_at", VStr (isoformat (utc (noon + second * US_PER_SECOND))))])].

Definition after_enqueue (params : list (string * pyval)) (ids : turn_ids) (st : console_store) : console_store :=
  match handle_enqueue_turn no_float no_form st params ids with Some (Ok (_, st')) => st' | _ => st end.

Definition ids1 : turn_ids :=
  TurnIds "cccccccc-0000-4000-8000-000000000001" "dddddddd-0000-4000-8000-000000000001" "eeeeeeee-0000-4000-8000-000000000001".
Definition ids2 : turn_ids :=
  TurnIds "cccccccc-0000-4000-8000-000000000002" "dddddddd-0000-4000-8000-000000000002" "eeeeeeee-0000-4000-8000-000000000002".

Definition console_two : console_store :=
  after_enqueue (message_params "then that" "k2" 1) ids2 (after_enqueue (message_params "do this" "k1" 0) ids1 console_start).

Lemma after_enqueue_steps params ids st st0 :
  rtc (console_step no_float no_form) st0 st → rtc (console_step no_float no_form) st0 (after_enqueue params ids st).
Proof.
  intros H. unfold after_enqueue. destruct (handle_enqueue_turn _ _ _ _ _) as [[[a st']|e]|] eqn:E; [|done..].
  eapply rtc_r; [done|]. by eapply enqueue_step.
Qed.

Lemma console_two_steps : rtc (console_step no_float no_form) console_start console_two.
Proof. do 2 apply after_enqueue_steps. apply rtc_refl. Qed.

Lemma console_two_ok : turns_ok None console_two.
Proof. eapply (console_steps_ok no_float no_form), no_turns_ok; [apply console_two_steps|done]. Qed.

(** The store after the machine's own report has ended the first run, and after
    the session's rows are deleted. *)
Definition run_reported : console_store :=
  set_runs (alter (ended_run "run_completed" (noon + 59 * US_PER_SECOND)) (fresh_run ids1)) console_two.

Lemma run_reported_steps : rtc (console_step no_float no_form) console_start run_reported.
Proof. eapply rtc_r; [apply console_two_steps|]. by apply other_step. Qed.

Lemma run_reported_ok : turns_ok None run_reported.
Proof. eapply (console_steps_ok no_float no_form), no_turns_ok; [apply run_reported_steps|done]. Qed.

Example deletion_keeps_turns_ok : turns_ok None (delete_session_console console_id run_reported).
Proof. eapply turns_ok_transfer; [|apply run_reported_ok]. done. Qed.

(** The first turn holds the thread and the second waits. *)
Example console_two_turns :
  (tn_state <$> cs_turns console_two !! fresh_turn ids1) = Some "starting" ∧
  (tn_state <$> cs_turns console_two !! fresh_turn ids2) = Some "queued".
Proof. vm_compute. by split. Qed.

Lemma console_thread_is_served_witness :
  cs_turns console_start = ∅ ∧
  ((∀ thread id1 t1 id2 t2, cs_turns run_reported !! id1 = Some t1 → cs_turns run_reported !! id2 = Some t2 →
      (owns_thread thread t1 = true ∧ owns_thread thread t2 = true ∨ tn_run_id t1 = tn_run_id t2 ∧ tn_run_id t1 ≠ None) →
      id1 = id2) ∧
   (∀ id t, cs_turns run_reported !! id = Some t →
      match tn_run_id t with
      | None => tn_state t = "queued" ∧ ∃ id' t', cs_turns run_reported !! id' = Some t' ∧ owns_thread (tn_thread_id t) t' = true
      | Some _ => tn_state t ∈ OWNER_STATES ++ TERMINAL_STATES
      end)).
Proof.
  split; [reflexivity|].
  apply (console_thread_is_served no_float no_form console_start run_reported); [reflexivity|apply run_reported_steps].
Defined.

(** The machine reports that the first run is complete. *)
Definition first_done (expected : option string) : turn_update :=
  TurnUpdate (fresh_run ids1) "completed" (noon + 60 * US_PER_SECOND) 7 console_id console_thread "codex" "cinder" None expected
    None None.

Definition second_run : string := "eeeeeeee-0000-4000-8000-000000000009".

(** Whether an update was applied, and whether it started a turn. *)
Definition applied (r : res (update_answer * console_store)) : bool :=
  match r with Ok (TurnApplied _ _ _, _) => true | _ => false end.

Definition starts_next (r : res (update_answer * console_store)) : bool :=
  match r with Ok (TurnApplied _ (Some _) _, _) => true | _ => false end.

Lemma starts_next_spec r : starts_next r = true → ∃ d next seq st', r = Ok (TurnApplied d (Some next) seq, st').
Proof. destruct r as [[[| | |d [next|] seq] st']|]; try done. eauto. Qed.

Lemma first_done_starts : starts_next (update_console_turn no_float run_reported (first_done None) second_run) = true.
Proof. vm_compute. reflexivity. Qed.

Lemma first_done_terminal expected : up_state (first_done expected) ∈ TERMINAL_STATES.
Proof. by apply str_in_spec. Qed.

Lemma ended_turn_starts_the_oldest_witness :
  ∃ d next seq st',
    update_console_turn no_float run_reported (first_done None) second_run = Ok (TurnApplied d (Some next) seq, st') ∧
    ∃ id t,
      cs_turns run_reported !! id = Some t ∧ tn_run_id t = Some (fresh_run ids1) ∧
      cs_runs st' !! fresh_run ids1
      = ended_run "completed" (noon + 60 * US_PER_SECOND) <$> cs_runs run_reported !! fresh_run ids1 ∧
      let moved := moved_to "completed" None (noon + 60 * US_PER_SECOND) t in
      (Some next = None ∧ cs_turns st' = <[id := moved]> (cs_turns run_reported) ∧
         (∀ id' t', cs_turns run_reported !! id' = Some t' → waits_in (tn_thread_id t) t' = false) ∨
       ∃ id' t' d', Some next = Some d' ∧ assoc "turn_id" d' = VStr id' ∧ assoc "run_id" d' = VStr second_run ∧
         assoc "message" d' = opt_str (ir_text <$> cs_receipts run_reported !! tn_receipt_id t') ∧
         cs_turns run_reported !! id' = Some t' ∧ waits_in (tn_thread_id t) t' = true ∧
         (∀ id'' t'', cs_turns run_reported !! id'' = Some t'' → waits_in (tn_thread_id t) t'' = true →
            cmp_le turn_cmp (turn_key (id', t')) (turn_key (id'', t''))) ∧
         cs_turns st' = <[id' := started second_run (resume_alias run_reported (tn_thread_id t') (tn_provider t'))
                                   (noon + 60 * US_PER_SECOND) t']> (<[id := moved]> (cs_turns run_reported))).
Proof.
  destruct (starts_next_spec _ first_done_starts) as (d & next & seq & st' & E). exists d, next, seq, st'. split; [exact E|].
  apply (ended_turn_starts_the_oldest no_float run_reported (first_done None) second_run d (Some next) seq st');
    [apply run_reported_ok|apply first_done_terminal|exact E].
Defined.

Lemma ended_turn_is_replayed_witness :
  ∃ d next seq st',
    update_console_turn no_float run_reported (first_done None) second_run = Ok (TurnApplied d (Some next) seq, st') ∧
    update_console_turn no_float st' (first_done None) "unused" = Ok (TurnReplayed d (Some next) seq, st').
Proof.
  destruct (starts_next_spec _ first_done_starts) as (d & next & seq & st' & E). exists d, next, seq, st'. split; [exact E|].
  apply (ended_turn_is_replayed no_float run_reported (first_done None) second_run d (Some next) seq st' "unused");
    [apply run_reported_ok|apply first_done_terminal|reflexivity|exact E].
Defined.

(** The first message, sent again. *)
Definition first_message : console_message := ConsoleMessage console_id 7 "do this" "k1" noon.

Definition accepts (r : res (enqueue_answer * console_store)) : bool :=
  match r with Ok (TurnAccepted _ _, _) => true | _ => false end.

Lemma accepts_spec r : accepts r = true → ∃ d seq st', r = Ok (TurnAccepted d seq, st').
Proof. destruct r as [[[| | |d seq] st']|]; try done. eauto. Qed.

Lemma first_message_accepted : accepts (enqueue_console_turn no_float console_start first_message ids1) = true.
Proof. vm_compute. reflexivity. Qed.

Lemma accepted_message_is_known_witness :
  ∃ d seq st',
    enqueue_console_turn no_float console_start first_message ids1 = Ok (TurnAccepted d seq, st') ∧
    enqueue_console_turn no_float st' (ConsoleMessage console_id 7 "do that" "k1" (noon + 5)) ids2 =
    Ok (if decide ("do that" = "do this") then TurnKnown false (Some d) else TurnKnown true None, st').
Proof.
  destruct (accepts_spec _ first_message_accepted) as (d & seq & st' & E). exists d, seq, st'. split; [exact E|].
  apply (accepted_message_is_known no_float console_start first_message ids1 d seq st' "do that" (noon + 5) ids2). exact E.
Defined.

(** The second message is cancelled while it waits. *)
Definition cancelled_inputs : option LiveInputReceiptSnapshot * string * input_store :=
  cancel_input_receipt (cs_inputs console_two) console_id (fresh_receipt ids2) (noon + 2) (noon + 2).

Lemma cancel_answers : bool_decide (is_Some cancelled_inputs.1.1) = true.
Proof. vm_compute. reflexivity. Qed.

Lemma cancelled_still_starts :
  starts_next (update_console_turn no_float (set_inputs cancelled_inputs.2 console_two) (first_done None) second_run) = true.
Proof. vm_compute. reflexivity. Qed.

Definition first_waiting : option (string * LiveConsoleTurn) := first_turn (waits_in console_thread) (cs_turns console_two).

Lemma second_waits : match first_waiting with Some (id, t) => String.eqb (tn_receipt_id t) (fresh_receipt ids2) | None => false end = true.
Proof. vm_compute. reflexivity. Qed.

Lemma cancelled_message_is_still_sent_witness :
  ∃ r seq0 inputs id' t' d next seq st',
    first_turn (waits_in console_thread) (cs_turns console_two) = Some (id', t') ∧
    cancel_input_receipt (cs_inputs console_two) console_id (fresh_receipt ids2) (noon + 2) (noon + 2) = (Some r, seq0, inputs) ∧
    update_console_turn no_float (set_inputs inputs console_two) (first_done None) second_run = Ok (TurnApplied d next seq, st') ∧
    (is_status r = "cancelled" ∧
     (∃ d', next = Some d' ∧ assoc "turn_id" d' = VStr id' ∧ assoc "run_id" d' = VStr second_run ∧
            assoc "message" d' = VStr (is_text r)) ∧
     ∃ row, cs_receipts st' !! fresh_receipt ids2 = Some row ∧ ir_status row = "delivering" ∧ ir_text row = is_text r).
Proof.
  pose proof second_waits as Hw. unfold first_waiting in Hw.
  destruct (first_turn (waits_in console_thread) (cs_turns console_two)) as [[id' t']|] eqn:Ef; [|discriminate Hw].
  apply String.eqb_eq in Hw. pose proof cancel_answers as Hc. apply bool_decide_eq_true in Hc.
  pose proof cancelled_still_starts as Hu. apply starts_next_spec in Hu as (d & next & seq & st' & Hu).
  destruct cancelled_inputs as [[r seq0] inputs] eqn:Ec. destruct Hc as [r' Hr]. cbn in Hr, Hu. subst r.
  exists r', seq0, inputs, id', t', d, (Some next), seq, st'. split; [reflexivity|]. split; [exact Ec|]. split; [exact Hu|].
  apply (cancelled_message_is_still_sent no_float console_two console_id (fresh_receipt ids2) (noon + 2) (noon + 2) r' seq0 inputs
           id' t' (first_done None) second_run d (Some next) seq st');
    [apply console_two_ok|apply first_done_terminal|exact Ef|exact Hw|exact Ec|exact Hu].
Defined.

(** A machine that is not there. *)
Definition offline : environment :=
  Environment (λ _ _ _, false) (λ _ _, MachineReply false None None) (λ n, noon + Z.of_nat n) (λ _, second_run).

Definition row_ready (st : console_store) (kt : string * LiveConsoleTurn) : bool :=
  opt_is (uuid_text kt.1) kt.1 && opt_is (uuid_text (tn_session_id kt.2)) (tn_session_id kt.2)
  && match tn_run_id kt.2 with Some r => opt_is (uuid_text r) r | None => true end
  && match cs_receipts st !! tn_receipt_id kt.2 with Some r => ir_owner_id r =? 7 | None => false end.

Lemma rows_ready_thread st th :
  turns_ok None st → forallb (row_ready st) (map_to_list (cs_turns st)) = true → opt_is (uuid_text th) th = true →
  thread_ready 7 th st.
Proof.
  intros Hok H Hth%opt_is_spec. rewrite forallb_forall in H.
  assert (∀ id t, cs_turns st !! id = Some t → row_ready st (id, t) = true) as Hrow.
  { intros id t Ht. by apply H, list_elem_of_In, elem_of_map_to_list. }
  split; [done| |].
  - intros id t Ht _. specialize (Hrow _ _ Ht). unfold row_ready in Hrow. rewrite !andb_true_iff, !opt_is_spec in Hrow.
    destruct Hrow as [[[H1 H2] H3] _]. split_and!; try done. intros r Er. simpl in H3. rewrite Er in H3. by apply opt_is_spec.
  - intros id t Ht _. specialize (Hrow _ _ Ht). unfold row_ready in Hrow. rewrite !andb_true_iff in Hrow.
    destruct Hrow as [_ H4]. simpl in H4. destruct (cs_receipts st !! tn_receipt_id t) as [r|]; [|done]. exists r. split; [done|lia].
Qed.

Lemma rows_ready : forallb (row_ready console_two) (map_to_list (cs_turns console_two)) && opt_is (uuid_text console_thread) console_thread = true.
Proof. vm_compute. reflexivity. Qed.

Lemma console_two_ready : thread_ready 7 console_thread console_two.
Proof.
  pose proof rows_ready as [H Hth]%andb_true_iff. apply rows_ready_thread; [apply console_two_ok|exact H|exact Hth].
Qed.

Definition starts_at (th id : string) (st : console_store) : bool :=
  match cs_turns st !! id with Some t => starting_in th t | None => false end.

Lemma starts_at_named st th id : starts_at th id st = true → ∃ turn, names_starting no_float th st turn.
Proof.
  unfold starts_at. destruct (cs_turns st !! id) as [t|] eqn:Et; [|done]. intros Hs.
  eexists. exists id, t, None, None, None. split; [exact Et|]. split; [exact Hs|]. unfold console_turn_dto. reflexivity.
Qed.

Lemma first_starts_at : starts_at console_thread (fresh_turn ids1) console_two = true.
Proof. vm_compute. reflexivity. Qed.

Lemma first_starts : ∃ turn, names_starting no_float console_thread console_two turn.
Proof. exact (starts_at_named _ _ _ first_starts_at). Qed.


(** The machine is away: both messages fail, in order. *)
Definition states_after (r : option (res (CatalogConsoleTurn * nat * console_store))) : list (string * option string) :=
  match r with
  | Some (Ok (_, _, st)) => map (λ kt, (tn_state kt.2, tn_error kt.2)) (sort_on turn_cmp turn_key (map_to_list (cs_turns st)))
  | _ => []
  end.

Example offline_drains :
  states_after (dispatch_catalog_claimed_turn no_float no_form offline 2 7 0
    (ok_or [] (t ← match cs_turns console_two !! fresh_turn ids1 with Some t => Ok t | None => Err AssertionError end;
               full_dto no_float console_two (fresh_turn ids1, t))) console_two)
  = [("failed", Some "Machine Agent does not advertise codex.turn_start");
     ("failed", Some "Machine Agent does not advertise codex.turn_start")].
Proof. vm_compute. reflexivity. Qed.

(** A machine that refuses with an error code of 65 characters. *)
Definition verbose : environment :=
  Environment (λ _ _ _, true)
    (λ _ _, MachineReply true (Some [("ok", VBool false);
       ("error", VDict [("code", VStr "xxxxxxxxxxxxxxxxxxxxxxxxxxxxxxxxxxxxxxxxxxxxxxxxxxxxxxxxxxxxxxxxx"); ("message", VStr "no")])]) None)
    (λ n, noon + Z.of_nat n) (λ _, second_run).

(** Its report is refused, so the dispatch raises and the turn stays starting
    with no doubt on record. *)
Example long_code_is_refused :
  dispatch_catalog_claimed_turn no_float no_form verbose 2 7 0
    (ok_or [] (t ← match cs_turns console_two !! fresh_turn ids1 with Some t => Ok t | None => Err AssertionError end;
               full_dto no_float console_two (fresh_turn ids1, t))) console_two
  = Some (Err (RuntimeError "console turn error_code is invalid")).
Proof. vm_compute. reflexivity. Qed.
